(** * The Enclave Page Cache core of [arch/x86/kernel/cpu/sgx/main.c]

    A shallow embedding of the EPC allocator, the LRU lists, the reclaimer,
    the sanitizer, the OOM victim selection, the enumeration of the
    sections and the start-up code, followed by the properties of the
    specification that are stated about them and by further properties of
    the code.

    Conventions of the embedding.
    - Pointers are natural numbers and [0] is [NULL].  Every C struct lives
      in a table of the kernel state indexed by its pointer.
    - An intrusive [list_head] list is the Rocq list of the pointers linked
      on it, head first.  [list_del] of a node whose list is not known at
      the call site unlinks it from whichever list of the kernel state
      holds it.
    - Machine integers are [Z]; where the C arithmetic can wrap the
      wrap-around is written out.
    - Everything outside this file (ENCLS leaves, the scheduler, the mm
      layer, the backing store, the version-array allocator) is reached
      through one oracle that answers a call from the history of all calls
      made so far; each call and its answer is appended to the trace.
      Procedures of other files that rewrite kernel data
      ([sgx_encl_release], [sgx_encl_destroy], the charge-group module) are
      arbitrary functions on the kernel data.
    - The VMAs of an mm are not kernel data of this file: [find_vma] is
      taken from outside and gives the chain of VMAs that [sgx_epc_oom_zap]
      walks.  The function is embedded over that chain, its calls of
      [zap_page_range] go to the trace, and a read of [tmp->vm_start]
      through [NULL] is an outcome of its own, behind which nothing of
      [sgx_oom_encl] and [sgx_epc_oom] is run.
    - [wait_event_freezable] evaluates its condition before every sleep;
      each sleep is an event of the trace.
    - [mmput_async] returns nothing and touches no data of this file; it
      is left out, as are the locks.
    - The MSR cache, the provisioning attribute and the start-up code have
      small states of their own: they share no data with the page cache
      apart from the section table.
    - The model is sequential: locks, SRCU sections, [cond_resched] and the
      [WARN] macros change no data and are left out, and a walk over
      [encl->mm_list] is not restarted because [mm_list_version] cannot move
      under it.
    - Loops that need not terminate take a [fuel] argument and return [None]
      when it runs out. *)

From Stdlib Require Import ZArith List Bool Lia Arith PeanoNat.
Import ListNotations.
Local Open Scope Z_scope.

(** ** Machine arithmetic *)

Definition wrap64 (x : Z) : Z := x mod 2 ^ 64.
Definition wrap32 (x : Z) : Z := x mod 2 ^ 32.

Definition PAGE_SHIFT : Z := 12.

(** [x & ~m] on an unsigned word. *)
Definition clear_bits (x m : Z) : Z := Z.land x (Z.lnot m).

(** C truth value of an integer. *)
Definition truthy (x : Z) : bool := negb (x =? 0).

Definition upd {A : Type} (f : nat -> A) (i : nat) (v : A) : nat -> A :=
  fun j => if Nat.eqb j i then v else f j.

(** ** Data model *)

(** [struct sgx_epc_page]: the descriptor word (physical address, section
    index and flag bits), the owner and the charge group. *)
Record sgx_epc_page := mk_epc_page {
  desc : Z;
  owner : nat;
  epc_cg : nat
}.

(** [struct sgx_epc_section]; [free_cnt] is an [unsigned long]. *)
Record sgx_epc_section := mk_section {
  pa : Z;
  va : Z;
  page_list : list nat;
  unsanitized_page_list : list nat;
  free_cnt : Z
}.

(** [struct sgx_epc_lru]. *)
Record sgx_epc_lru := mk_lru {
  reclaimable : list nat;
  unreclaimable : list nat
}.

(** [struct sgx_encl_page], as far as this file reads and writes it. *)
Record sgx_encl_page := mk_encl_page {
  encl : nat;
  ep_desc : Z;
  epc_page : nat;
  va_page : nat
}.

(** [struct sgx_encl], as far as this file reads and writes it.  [secs] is
    the pointer to the embedded [struct sgx_encl_page secs]; [refcount] is
    the count of the [kref], [flags] the value of the [atomic_t],
    [secs_child_cnt] an [unsigned int] and [cpumask] a bit per CPU. *)
Record sgx_encl := mk_encl {
  refcount : nat;
  flags : Z;
  secs_child_cnt : Z;
  secs : nat;
  base : Z;
  size : Z;
  mm_list : list nat;
  va_pages : list nat;
  cpumask : Z
}.

(** The data this file owns or reaches through pointers. *)
Record kstate := mk_kstate {
  sgx_epc_sections : nat -> sgx_epc_section;
  sgx_nr_epc_sections : nat;
  sgx_global_lru : sgx_epc_lru;
  cg_lru : nat -> sgx_epc_lru;
  pages : nat -> sgx_epc_page;
  encl_pages : nat -> sgx_encl_page;
  encls : nat -> sgx_encl
}.

(** [struct sgx_backing], named by the enclave and page index it backs. *)
Record sgx_backing := mk_backing {
  b_encl : nat;
  b_index : Z
}.

(** ** Zapping the mappings of an OOM victim *)

Module Vma.

(** [struct vm_area_struct], as far as [sgx_epc_oom_zap] reads it. *)
Record vm_area_struct := mk_vma {
  vm_start : Z;
  vm_end : Z;
  vm_ops : nat;
  vm_private_data : nat
}.

(** How [sgx_epc_oom_zap] ends: it returns, or it reads [tmp->vm_start]
    through a [NULL] pointer.  [zaps] are the calls of [zap_page_range] on
    [vma] made so far, each with its start address and its size. *)
Inductive outcome :=
| returned (zaps : list (Z * Z))
| null_dereference (zaps : list (Z * Z)).

(** Where the walk stands: at the condition of the [for] loop, or in the
    [do ... while] loop after [vm_end = tmp->vm_end; tmp = tmp->vm_next]. *)
Inductive position :=
| for_condition
| do_while (vm_end : Z).

(** The two loops of [sgx_epc_oom_zap].  [tmp] is the chain of VMAs from
    the pointer [tmp] on along [vm_next]; the empty chain is [NULL]. *)
Fixpoint zap_walk (owner ops : nat) (stop : Z) (vma : vm_area_struct)
         (at_ : position) (tmp : list vm_area_struct) (zaps : list (Z * Z))
  : outcome :=
  match at_, tmp with
  | for_condition, [] => null_dereference zaps
  | for_condition, t :: rest =>
      if vm_start t <? stop
      then zap_walk owner ops stop vma (do_while (vm_end t)) rest zaps
      else returned zaps
  | do_while e, [] =>
      returned (zaps ++ [(vm_start vma, wrap64 (e - vm_start vma))])
  | do_while e, t :: rest =>
      if Nat.eqb (vm_ops t) ops && Nat.eqb (vm_private_data vma) owner &&
         (vm_start t <? stop)
      then zap_walk owner ops stop vma (do_while (vm_end t)) rest zaps
      else zap_walk owner ops stop vma for_condition rest
             (zaps ++ [(vm_start vma, wrap64 (e - vm_start vma))])
  end.

(** [sgx_epc_oom_zap]; [found] is the chain of VMAs that starts at the
    result of [find_vma(mm, start)]. *)
Definition sgx_epc_oom_zap (owner : nat) (found : list vm_area_struct)
           (stop : Z) (ops : nat) : outcome :=
  match found with
  | [] => returned []
  | vma :: _ =>
      if negb (Nat.eqb (vm_ops vma) ops) ||
         negb (Nat.eqb (vm_private_data vma) owner) ||
         (vm_start vma >=? stop)
      then returned []
      else zap_walk owner ops stop vma for_condition found []
  end.

End Vma.

(** Calls that leave this file.  Those up to [sgx_virt_epc_get_ref] return
    a value; the others are made for their effect.  The callback that
    [on_each_cpu_mask] is given, [sgx_ipi_cb], has an empty body. *)
Inductive call :=
| eremove (page : nat)
| eblock (page : nat)
| etrack (page : nat)
| ewb (page : nat) (va : nat) (va_offset : Z) (b : sgx_backing)
| kthread_should_stop
| try_to_freeze
| signal_pending
| memremap (addr sz : Z)
| kzalloc
| mmget_not_zero (mm : nat)
| mm_cpumask (mm : nat)
| sgx_encl_test_and_clear_young (mm : nat) (page : nat)
| sgx_encl_find (mm : nat) (addr : Z)
| vm_private_data (mm : nat) (addr : Z)
| sgx_encl_get_backing (e : nat) (index : Z)
| sgx_alloc_va_slot (va : nat)
| sgx_va_page_full (va : nat)
| sgx_virt_epc_get_ref (page : nat)
| sgx_free_va_slot (va : nat) (va_offset : Z)
| sgx_encl_put_backing (b : sgx_backing) (dirty : bool)
| on_each_cpu_mask (mask : Z)
| zap_vma_ptes (mm : nat) (addr : Z)
| zap_page_range (mm : nat) (start size : Z)
| sgx_epc_cgroup_uncharge (cg : nat) (reclaim : bool)
| wait_event_freezable
| wake_up
| kfree (page : nat)
| memunmap (addr : Z)
| call_sgx_encl_release (e : nat)
| call_sgx_encl_destroy (e : nat)
| call_sgx_virt_epc_oom (page : nat).

Definition event : Type := call * Z.

Record world := mk_world {
  k : kstate;
  trace : list event
}.

(** What the embedding takes from outside: the oracle, the procedures of
    other files that rewrite kernel data, and what [sgx_epc_oom_zap] reads
    of the mm layer.  [find_vma mm addr] is the chain of VMAs of [mm] that
    starts at the result of [find_vma(mm, addr)] and follows [vm_next]; the
    empty chain is [NULL].  Nothing in this file changes the VMAs of an mm.
    [sgx_vm_ops] is the address of the operations table of the enclave
    VMAs. *)
Record externals := mk_externals {
  env : list event -> call -> Z;
  find_vma : nat -> Z -> list Vma.vm_area_struct;
  sgx_vm_ops : nat;
  sgx_encl_release : nat -> kstate -> kstate;
  sgx_encl_destroy : nat -> kstate -> kstate;
  sgx_virt_epc_oom : nat -> kstate -> kstate;
  sgx_epc_cgroup_try_charge : bool -> world -> Z * world;
  sgx_epc_cgroup_isolate_pages : nat -> Z -> list nat -> kstate -> Z * list nat * kstate;
  sgx_epc_cgroup_lru_empty : nat -> kstate -> bool
}.

(** Constants and macros of the headers that are included by [main.c].
    The flag masks are kept symbolic: nothing below depends on their bit
    positions. *)
Record headers := mk_headers {
  CONFIG_CGROUP_SGX_EPC : bool;
  SGX_EPC_SECTION_MASK : Z;
  SGX_EPC_PAGE_RECLAIMABLE : Z;
  SGX_EPC_PAGE_RECLAIM_IN_PROGRESS : Z;
  SGX_EPC_PAGE_ENCLAVE : Z;
  SGX_EPC_PAGE_VERSION_ARRAY : Z;
  SGX_ENCL_CREATED : Z;
  SGX_ENCL_INITIALIZED : Z;
  SGX_ENCL_DEAD : Z;
  SGX_ENCL_OOM : Z;
  SGX_ENCL_PAGE_RECLAIMED : Z;
  SGX_NOT_TRACKED : Z;
  SGX_NR_LOW_PAGES : Z;
  SGX_NR_HIGH_PAGES : Z;
  SGX_ENCL_PAGE_ADDR : Z -> Z;
  SGX_ENCL_PAGE_INDEX : Z -> Z -> Z
}.

Definition SGX_MAX_NR_TO_RECLAIM : Z := 32.

(** Modelled from the spec: the header that defines [SGX_NR_TO_SCAN] is not
    among the sources; the spec gives [SGX_NR_TO_SCAN = 16]. *)
Definition SGX_NR_TO_SCAN : Z := 16.

(** Modelled from the spec: the header that defines the mask is not among the
    sources; the reclaim flags of the spec are [RECLAIMABLE] and
    [RECLAIM_IN_PROGRESS]. *)
Definition SGX_EPC_PAGE_RECLAIM_FLAGS (H : headers) : Z :=
  Z.lor (SGX_EPC_PAGE_RECLAIMABLE H) (SGX_EPC_PAGE_RECLAIM_IN_PROGRESS H).

(** Modelled from the spec: the header that defines the mask is not among the
    sources; the spec speaks of an enclave that is dead-or-OOM. *)
Definition SGX_ENCL_DEAD_OR_OOM (H : headers) : Z :=
  Z.lor (SGX_ENCL_DEAD H) (SGX_ENCL_OOM H).

(** The error numbers of the kernel's errno headers; the spec calls them
    [OutOfMemory], [Busy] and [Interrupted]. *)
Definition ENOMEM : Z := 12.
Definition EBUSY : Z := 16.
Definition ERESTARTSYS : Z := 512.

(** ** A state monad over the world *)

Definition M (A : Type) : Type := world -> A * world.

Definition ret {A : Type} (a : A) : M A := fun w => (a, w).

Definition bind {A B : Type} (m : M A) (f : A -> M B) : M B :=
  fun w => let '(a, w1) := m w in f a w1.

Declare Scope sgx_scope.
Delimit Scope sgx_scope with sgx.
Notation "x <- m ;; f" := (bind m (fun x => f))
  (at level 61, m at next level, right associativity) : sgx_scope.
Notation "m ;;; f" := (bind m (fun _ => f))
  (at level 61, right associativity) : sgx_scope.
Notation "' pat <- m ;; f" := (bind m (fun x => match x with pat => f end))
  (at level 61, pat pattern, m at next level, right associativity) : sgx_scope.
Local Open Scope sgx_scope.

Definition get : M kstate := fun w => (k w, w).

Definition modify (f : kstate -> kstate) : M unit :=
  fun w => (tt, mk_world (f (k w)) (trace w)).

(** A call that returns a value: the oracle answers from the history. *)
Definition ask (E : externals) (c : call) : M Z :=
  fun w => let r := env E (trace w) c in (r, mk_world (k w) (trace w ++ [(c, r)])).

(** A call made for its effect outside this file. *)
Definition tell (c : call) : M unit :=
  fun w => (tt, mk_world (k w) (trace w ++ [(c, 0)])).

Definition when (b : bool) (m : M unit) : M unit := if b then m else ret tt.

(** ** Field updates *)

Definition set_sections (f : nat -> sgx_epc_section) (s : kstate) : kstate :=
  mk_kstate f (sgx_nr_epc_sections s) (sgx_global_lru s) (cg_lru s)
            (pages s) (encl_pages s) (encls s).

Definition set_nr_sections (n : nat) (s : kstate) : kstate :=
  mk_kstate (sgx_epc_sections s) n (sgx_global_lru s) (cg_lru s)
            (pages s) (encl_pages s) (encls s).

Definition set_global_lru (l : sgx_epc_lru) (s : kstate) : kstate :=
  mk_kstate (sgx_epc_sections s) (sgx_nr_epc_sections s) l (cg_lru s)
            (pages s) (encl_pages s) (encls s).

Definition set_cg_lru (f : nat -> sgx_epc_lru) (s : kstate) : kstate :=
  mk_kstate (sgx_epc_sections s) (sgx_nr_epc_sections s) (sgx_global_lru s) f
            (pages s) (encl_pages s) (encls s).

Definition set_pages (f : nat -> sgx_epc_page) (s : kstate) : kstate :=
  mk_kstate (sgx_epc_sections s) (sgx_nr_epc_sections s) (sgx_global_lru s)
            (cg_lru s) f (encl_pages s) (encls s).

Definition set_encl_pages (f : nat -> sgx_encl_page) (s : kstate) : kstate :=
  mk_kstate (sgx_epc_sections s) (sgx_nr_epc_sections s) (sgx_global_lru s)
            (cg_lru s) (pages s) f (encls s).

Definition set_encls (f : nat -> sgx_encl) (s : kstate) : kstate :=
  mk_kstate (sgx_epc_sections s) (sgx_nr_epc_sections s) (sgx_global_lru s)
            (cg_lru s) (pages s) (encl_pages s) f.

Definition set_section (i : nat) (x : sgx_epc_section) (s : kstate) : kstate :=
  set_sections (upd (sgx_epc_sections s) i x) s.

Definition set_desc (p : nat) (d : Z) (s : kstate) : kstate :=
  set_pages (upd (pages s) p
               (mk_epc_page d (owner (pages s p)) (epc_cg (pages s p)))) s.

Definition set_owner (p : nat) (o : nat) (s : kstate) : kstate :=
  set_pages (upd (pages s) p
               (mk_epc_page (desc (pages s p)) o (epc_cg (pages s p)))) s.

Definition set_epc_cg (p : nat) (c : nat) (s : kstate) : kstate :=
  set_pages (upd (pages s) p
               (mk_epc_page (desc (pages s p)) (owner (pages s p)) c)) s.

Definition set_pages_at (p : nat) (x : sgx_epc_page) (s : kstate) : kstate :=
  set_pages (upd (pages s) p x) s.

Definition set_encl_page (q : nat) (x : sgx_encl_page) (s : kstate) : kstate :=
  set_encl_pages (upd (encl_pages s) q x) s.

Definition set_encl (e : nat) (x : sgx_encl) (s : kstate) : kstate :=
  set_encls (upd (encls s) e x) s.

(** ** LRU scopes

    A scope is named by the charge group that embeds it; [0] names
    [sgx_global_lru]. *)

Definition lru_of (l : nat) (s : kstate) : sgx_epc_lru :=
  match l with
  | O => sgx_global_lru s
  | _ => cg_lru s l
  end.

Definition set_lru (l : nat) (x : sgx_epc_lru) (s : kstate) : kstate :=
  match l with
  | O => set_global_lru x s
  | _ => set_cg_lru (upd (cg_lru s) l x) s
  end.

(** ** Intrusive lists *)

Definition list_del (p : nat) (l : list nat) : list nat :=
  filter (fun q => negb (Nat.eqb q p)) l.

Definition section_del (p : nat) (x : sgx_epc_section) : sgx_epc_section :=
  mk_section (pa x) (va x) (list_del p (page_list x))
             (list_del p (unsanitized_page_list x)) (free_cnt x).

Definition lru_del (p : nat) (x : sgx_epc_lru) : sgx_epc_lru :=
  mk_lru (list_del p (reclaimable x)) (list_del p (unreclaimable x)).

(** [list_del(&page->list)] for a page whose list is not known at the call
    site. *)
Definition list_del_page (p : nat) (s : kstate) : kstate :=
  mk_kstate (fun i => section_del p (sgx_epc_sections s i))
            (sgx_nr_epc_sections s)
            (lru_del p (sgx_global_lru s))
            (fun c => lru_del p (cg_lru s c))
            (pages s) (encl_pages s) (encls s).

(** ** Reference counts *)

(** [kref_get_unless_zero(&encl->refcount)]. *)
Definition kref_get_unless_zero (e : nat) : M bool :=
  s <- get ;;
  let x := encls s e in
  match refcount x with
  | O => ret false
  | S _ =>
      modify (set_encl e (mk_encl (S (refcount x)) (flags x) (secs_child_cnt x)
                            (secs x) (base x) (size x) (mm_list x)
                            (va_pages x) (cpumask x))) ;;;
      ret true
  end.

(** [kref_put(&encl->refcount, sgx_encl_release)]: the release procedure
    runs when the count drops from one to zero. *)
Definition kref_put (E : externals) (e : nat) : M unit :=
  s <- get ;;
  let x := encls s e in
  modify (set_encl e (mk_encl (Nat.pred (refcount x)) (flags x)
                        (secs_child_cnt x) (secs x) (base x) (size x)
                        (mm_list x) (va_pages x) (cpumask x))) ;;;
  when (Nat.eqb (refcount x) 1)
       (tell (call_sgx_encl_release e) ;;; modify (sgx_encl_release E e)).

(** ** LRU tracking *)

Section Model.

Variable H : headers.
Variable E : externals.

(** [sgx_lru]: the scope of a page. *)
Definition sgx_lru (p : nat) (s : kstate) : nat :=
  if CONFIG_CGROUP_SGX_EPC H && negb (Nat.eqb (epc_cg (pages s p)) 0)
  then epc_cg (pages s p)
  else O.

(** [list_add_tail(&page->list, &lru->reclaimable)] and its sibling. *)
Definition lru_add_tail_reclaimable (l p : nat) (s : kstate) : kstate :=
  set_lru l (mk_lru (reclaimable (lru_of l s) ++ [p])
                    (unreclaimable (lru_of l s))) s.

Definition lru_add_tail_unreclaimable (l p : nat) (s : kstate) : kstate :=
  set_lru l (mk_lru (reclaimable (lru_of l s))
                    (unreclaimable (lru_of l s) ++ [p])) s.

(** [sgx_record_epc_page]. *)
Definition sgx_record_epc_page (p : nat) (fl : Z) : M unit :=
  s <- get ;;
  let l := sgx_lru p s in
  modify (set_desc p (Z.lor (desc (pages s p)) fl)) ;;;
  if truthy (Z.land fl (SGX_EPC_PAGE_RECLAIMABLE H))
  then modify (lru_add_tail_reclaimable l p)
  else modify (lru_add_tail_unreclaimable l p).

(** [sgx_drop_epc_page]; the result is [0] or [-EBUSY]. *)
Definition sgx_drop_epc_page (p : nat) : M Z :=
  s <- get ;;
  if truthy (Z.land (desc (pages s p)) (SGX_EPC_PAGE_RECLAIMABLE H)) &&
     truthy (Z.land (desc (pages s p)) (SGX_EPC_PAGE_RECLAIM_IN_PROGRESS H))
  then ret (- EBUSY)
  else
    modify (list_del_page p) ;;;
    modify (set_desc p (clear_bits (desc (pages s p))
                          (SGX_EPC_PAGE_RECLAIM_FLAGS H))) ;;;
    ret 0.

(** ** Free path *)

(** Modelled from the spec: the inline function [sgx_get_epc_section] is
    defined in a header that is not among the sources; the owning section
    index of the spec is the part of the descriptor word under
    [SGX_EPC_SECTION_MASK], where [sgx_setup_epc_section] stores it. *)
Definition sgx_get_epc_section (p : nat) (s : kstate) : nat :=
  Z.to_nat (Z.land (desc (pages s p)) (SGX_EPC_SECTION_MASK H)).

(** [list_add_tail(&page->list, &section->page_list); section->free_cnt++]. *)
Definition section_free_add_tail (i p : nat) (s : kstate) : kstate :=
  let x := sgx_epc_sections s i in
  set_section i (mk_section (pa x) (va x) (page_list x ++ [p])
                   (unsanitized_page_list x) (wrap64 (free_cnt x + 1))) s.

(** [__sgx_free_epc_page]. *)
Definition __sgx_free_epc_page (p : nat) : M unit :=
  s <- get ;;
  let i := sgx_get_epc_section p s in
  when (CONFIG_CGROUP_SGX_EPC H && negb (Nat.eqb (epc_cg (pages s p)) 0))
       (tell (sgx_epc_cgroup_uncharge (epc_cg (pages s p)) false) ;;;
        modify (set_epc_cg p 0)) ;;;
  modify (section_free_add_tail i p).

(** [sgx_free_epc_page]. *)
Definition sgx_free_epc_page (p : nat) : M unit :=
  r <- ask E (eremove p) ;;
  if truthy r then ret tt else __sgx_free_epc_page p.


(** ** Reclaimer: ageing, blocking, write-back *)

(** The walk over [encl->mm_list] of [sgx_reclaimer_age]. *)
Fixpoint reclaimer_age_walk (e page : nat) (mms : list nat) (r : bool)
  : M bool :=
  match mms with
  | [] => ret r
  | mm :: rest =>
      g <- ask E (mmget_not_zero mm) ;;
      if truthy g then
        y <- ask E (sgx_encl_test_and_clear_young mm page) ;;
        s <- get ;;
        if truthy y ||
           truthy (Z.land (flags (encls s e)) (SGX_ENCL_DEAD_OR_OOM H))
        then ret (negb (truthy y))
        else reclaimer_age_walk e page rest (negb (truthy y))
      else reclaimer_age_walk e page rest r
  end.

(** [sgx_reclaimer_age]: [true] when the page may be reclaimed. *)
Definition sgx_reclaimer_age (p : nat) : M bool :=
  s <- get ;;
  let page := owner (pages s p) in
  let e := encl (encl_pages s page) in
  r <- reclaimer_age_walk e page (mm_list (encls s e)) true ;;
  s1 <- get ;;
  if negb r &&
     negb (truthy (Z.land (flags (encls s1 e)) (SGX_ENCL_DEAD_OR_OOM H)))
  then ret false
  else ret true.

(** The walk over [encl->mm_list] of [sgx_reclaimer_block].  In a sequential
    execution [encl->mm_list_version] cannot move during the walk, so the
    enclosing [do ... while] runs its body once. *)
Fixpoint reclaimer_block_walk (e : nat) (addr : Z) (mms : list nat)
  : M unit :=
  match mms with
  | [] => ret tt
  | mm :: rest =>
      g <- ask E (mmget_not_zero mm) ;;
      (if truthy g then
         r <- ask E (sgx_encl_find mm addr) ;;
         if truthy r then ret tt
         else
           v <- ask E (vm_private_data mm addr) ;;
           when (v =? Z.of_nat e) (tell (zap_vma_ptes mm addr))
       else ret tt) ;;;
      reclaimer_block_walk e addr rest
  end.

(** [sgx_reclaimer_block]. *)
Definition sgx_reclaimer_block (p : nat) : M unit :=
  s <- get ;;
  let page := owner (pages s p) in
  let addr := SGX_ENCL_PAGE_ADDR H (ep_desc (encl_pages s page)) in
  let e := encl (encl_pages s page) in
  reclaimer_block_walk e addr (mm_list (encls s e)) ;;;
  s1 <- get ;;
  if truthy (Z.land (flags (encls s1 e)) (SGX_ENCL_DEAD H)) then ret tt
  else _ <- ask E (eblock p) ;; ret tt.

(** [__sgx_encl_ewb]: the version-array slot is the pair of the version
    page and the offset in it. *)
Definition __sgx_encl_ewb (p va : nat) (va_offset : Z) (b : sgx_backing)
  : M Z :=
  ask E (ewb p va va_offset b).

(** The walk over [encl->mm_list] of [sgx_encl_ewb_cpumask]. *)
Fixpoint ewb_cpumask_walk (mms : list nat) (mask : Z) : M Z :=
  match mms with
  | [] => ret mask
  | mm :: rest =>
      g <- ask E (mmget_not_zero mm) ;;
      if truthy g then
        c <- ask E (mm_cpumask mm) ;;
        ewb_cpumask_walk rest (Z.lor mask c)
      else ewb_cpumask_walk rest mask
  end.

Definition set_cpumask (e : nat) (m : Z) (s : kstate) : kstate :=
  let x := encls s e in
  set_encl e (mk_encl (refcount x) (flags x) (secs_child_cnt x) (secs x)
                (base x) (size x) (mm_list x) (va_pages x) m) s.

(** [sgx_encl_ewb_cpumask]. *)
Definition sgx_encl_ewb_cpumask (e : nat) : M Z :=
  s <- get ;;
  m <- ewb_cpumask_walk (mm_list (encls s e)) 0 ;;
  modify (set_cpumask e m) ;;;
  ret m.

Definition set_ep_desc (q : nat) (d : Z) (s : kstate) : kstate :=
  let x := encl_pages s q in
  set_encl_page q (mk_encl_page (encl x) d (epc_page x) (va_page x)) s.

Definition set_epc_page (q : nat) (p : nat) (s : kstate) : kstate :=
  let x := encl_pages s q in
  set_encl_page q (mk_encl_page (encl x) (ep_desc x) p (va_page x)) s.

Definition set_va_page (q : nat) (v : nat) (s : kstate) : kstate :=
  let x := encl_pages s q in
  set_encl_page q (mk_encl_page (encl x) (ep_desc x) (epc_page x) v) s.

(** [list_move_tail(&va_page->list, &encl->va_pages)] for the first entry. *)
Definition va_pages_move_tail (e : nat) (s : kstate) : kstate :=
  let x := encls s e in
  set_encl e (mk_encl (refcount x) (flags x) (secs_child_cnt x) (secs x)
                (base x) (size x) (mm_list x)
                (match va_pages x with [] => [] | v :: r => r ++ [v] end)
                (cpumask x)) s.

(** The [NOT_TRACKED] ladder of [sgx_encl_ewb]: the value of [ret] after
    the last write-back. *)
Definition ewb_retry (e p va : nat) (va_offset : Z) (b : sgx_backing) : M Z :=
  r1 <- __sgx_encl_ewb p va va_offset b ;;
  if r1 =? SGX_NOT_TRACKED H then
    s <- get ;;
    _ <- ask E (etrack (epc_page (encl_pages s (secs (encls s e))))) ;;
    r2 <- __sgx_encl_ewb p va va_offset b ;;
    if r2 =? SGX_NOT_TRACKED H then
      m <- sgx_encl_ewb_cpumask e ;;
      tell (on_each_cpu_mask m) ;;;
      __sgx_encl_ewb p va va_offset b
    else ret r2
  else ret r1.

(** [sgx_encl_ewb]. *)
Definition sgx_encl_ewb (p : nat) (b : sgx_backing) : M unit :=
  s <- get ;;
  let q := owner (pages s p) in
  let e := encl (encl_pages s q) in
  modify (set_ep_desc q (clear_bits (ep_desc (encl_pages s q))
                           (SGX_ENCL_PAGE_RECLAIMED H))) ;;;
  let va := hd O (va_pages (encls s e)) in
  va_offset <- ask E (sgx_alloc_va_slot va) ;;
  full <- ask E (sgx_va_page_full va) ;;
  when (truthy full) (modify (va_pages_move_tail e)) ;;;
  r <- ewb_retry e p va va_offset b ;;
  if truthy r then tell (sgx_free_va_slot va va_offset)
  else
    s1 <- get ;;
    modify (set_ep_desc q (Z.lor (ep_desc (encl_pages s1 q)) va_offset)) ;;;
    modify (set_va_page q va).

Definition dec_secs_child_cnt (e : nat) (s : kstate) : kstate :=
  let x := encls s e in
  set_encl e (mk_encl (refcount x) (flags x) (wrap32 (secs_child_cnt x - 1))
                (secs x) (base x) (size x) (mm_list x) (va_pages x)
                (cpumask x)) s.

(** [sgx_drop_epc_page(encl->secs.epc_page);
     sgx_free_epc_page(encl->secs.epc_page);
     encl->secs.epc_page = NULL]. *)
Definition free_secs_page (e : nat) : M unit :=
  s <- get ;;
  _ <- sgx_drop_epc_page (epc_page (encl_pages s (secs (encls s e)))) ;;
  s1 <- get ;;
  sgx_free_epc_page (epc_page (encl_pages s1 (secs (encls s1 e)))) ;;;
  s2 <- get ;;
  modify (set_epc_page (secs (encls s2 e)) 0).

(** [sgx_reclaimer_write]. *)
Definition sgx_reclaimer_write (p : nat) (b : sgx_backing) : M unit :=
  s <- get ;;
  let q := owner (pages s p) in
  let e := encl (encl_pages s q) in
  (if truthy (Z.land (flags (encls s e)) (SGX_ENCL_DEAD H))
   then _ <- ask E (eremove p) ;; ret tt
   else sgx_encl_ewb p b) ;;;
  modify (set_epc_page q 0) ;;;
  modify (dec_secs_child_cnt e) ;;;
  s1 <- get ;;
  if secs_child_cnt (encls s1 e) =? 0 then
    if truthy (Z.land (flags (encls s1 e)) (SGX_ENCL_DEAD H)) then
      free_secs_page e
    else if truthy (Z.land (flags (encls s1 e)) (SGX_ENCL_INITIALIZED H)) then
      let secs_backing :=
        mk_backing e (Z.shiftr (size (encls s1 e)) PAGE_SHIFT) in
      r <- ask E (sgx_encl_get_backing e (b_index secs_backing)) ;;
      if truthy r then ret tt
      else
        sgx_encl_ewb (epc_page (encl_pages s1 (secs (encls s1 e))))
                     secs_backing ;;;
        free_secs_page e ;;;
        tell (sgx_encl_put_backing secs_backing true)
    else ret tt
  else ret tt.

(** ** Reclaimer: isolation and the reclaim pass *)

Definition lru_pop_reclaimable (l : nat) (s : kstate) : kstate :=
  set_lru l (mk_lru (tl (reclaimable (lru_of l s)))
                    (unreclaimable (lru_of l s))) s.

Definition lru_pop_unreclaimable (l : nat) (s : kstate) : kstate :=
  set_lru l (mk_lru (reclaimable (lru_of l s))
                    (tl (unreclaimable (lru_of l s)))) s.

(** The [for] loop of [sgx_isolate_epc_pages]; [fuel] bounds the number of
    iterations and [n] is [*nr_to_scan]. *)
Fixpoint isolate_loop (fuel : nat) (l : nat) (n : Z) (dst : list nat)
  : M (Z * list nat) :=
  match fuel with
  | O => ret (n, dst)
  | S fuel' =>
      if n >? 0 then
        s <- get ;;
        match reclaimable (lru_of l s) with
        | [] => ret (n, dst)
        | p :: _ =>
            let encl_page := owner (pages s p) in
            if negb (truthy (Z.land (desc (pages s p))
                                    (SGX_EPC_PAGE_ENCLAVE H)))
            then isolate_loop fuel' l (n - 1) dst
            else
              g <- kref_get_unless_zero (encl (encl_pages s encl_page)) ;;
              if g then
                modify (set_desc p
                          (Z.lor (desc (pages s p))
                                 (SGX_EPC_PAGE_RECLAIM_IN_PROGRESS H))) ;;;
                modify (lru_pop_reclaimable l) ;;;
                isolate_loop fuel' l (n - 1) (dst ++ [p])
              else
                modify (set_desc p
                          (clear_bits (desc (pages s p))
                                      (SGX_EPC_PAGE_RECLAIMABLE H))) ;;;
                modify (lru_pop_reclaimable l) ;;;
                isolate_loop fuel' l (n - 1) dst
        end
      else ret (n, dst)
  end.

(** [sgx_isolate_epc_pages]: the result is the final [*nr_to_scan] and the
    final [dst]. *)
Definition sgx_isolate_epc_pages (l : nat) (nr_to_scan : Z) (dst : list nat)
  : M (Z * list nat) :=
  isolate_loop (Z.to_nat nr_to_scan) l nr_to_scan dst.

(** The [skip:] path of [sgx_reclaim_epc_pages]. *)
Definition reclaim_skip (p : nat) : M unit :=
  s <- get ;;
  let encl_page := owner (pages s p) in
  let l := sgx_lru p s in
  modify (set_desc p (clear_bits (desc (pages s p))
                        (SGX_EPC_PAGE_RECLAIM_IN_PROGRESS H))) ;;;
  modify (lru_add_tail_reclaimable l p) ;;;
  s1 <- get ;;
  kref_put E (encl (encl_pages s1 encl_page)).

Definition updZ {A : Type} (f : Z -> A) (i : Z) (v : A) : Z -> A :=
  fun j => if j =? i then v else f j.

(** First loop of [sgx_reclaim_epc_pages] over the isolated pages: the
    result is [i], the pages that stay on [iso] and the [backing] array. *)
Fixpoint reclaim_scan (ignore_age : bool) (iso : list nat) (i : Z)
         (backing : Z -> sgx_backing)
  : M (Z * list nat * (Z -> sgx_backing)) :=
  match iso with
  | [] => ret (i, [], backing)
  | p :: rest =>
      s <- get ;;
      let encl_page := owner (pages s p) in
      skip <- (if i =? SGX_MAX_NR_TO_RECLAIM then ret true
               else if ignore_age then ret false
               else a <- sgx_reclaimer_age p ;; ret (negb a)) ;;
      if skip : bool then
        reclaim_skip p ;;; reclaim_scan ignore_age rest i backing
      else
        s1 <- get ;;
        let e := encl (encl_pages s1 encl_page) in
        let index :=
          SGX_ENCL_PAGE_INDEX H (ep_desc (encl_pages s1 encl_page))
                              (base (encls s1 e)) in
        r <- ask E (sgx_encl_get_backing e index) ;;
        if truthy r then
          reclaim_skip p ;;; reclaim_scan ignore_age rest i backing
        else
          s2 <- get ;;
          modify (set_ep_desc encl_page
                    (Z.lor (ep_desc (encl_pages s2 encl_page))
                           (SGX_ENCL_PAGE_RECLAIMED H))) ;;;
          ' (i', iso', backing') <-
            reclaim_scan ignore_age rest (i + 1)
                         (updZ backing i (mk_backing e index)) ;;
          ret (i', p :: iso', backing')
  end.

(** Second loop of [sgx_reclaim_epc_pages]. *)
Fixpoint reclaim_block (iso : list nat) : M unit :=
  match iso with
  | [] => ret tt
  | p :: rest => sgx_reclaimer_block p ;;; reclaim_block rest
  end.

(** Body of the third loop of [sgx_reclaim_epc_pages] for one page. *)
Definition reclaim_write_page (p : nat) (b : sgx_backing) : M unit :=
  s <- get ;;
  let encl_page := owner (pages s p) in
  sgx_reclaimer_write p b ;;;
  tell (sgx_encl_put_backing b true) ;;;
  s1 <- get ;;
  kref_put E (encl (encl_pages s1 encl_page)) ;;;
  s2 <- get ;;
  modify (set_desc p (clear_bits (desc (pages s2 p))
                        (SGX_EPC_PAGE_RECLAIM_FLAGS H))) ;;;
  when (CONFIG_CGROUP_SGX_EPC H && negb (Nat.eqb (epc_cg (pages s2 p)) 0))
       (tell (sgx_epc_cgroup_uncharge (epc_cg (pages s2 p)) true) ;;;
        modify (set_epc_cg p 0)) ;;;
  s3 <- get ;;
  modify (section_free_add_tail (sgx_get_epc_section p s3) p).

(** Third loop of [sgx_reclaim_epc_pages]: the result is the final [i]. *)
Fixpoint reclaim_write (iso : list nat) (i : Z) (backing : Z -> sgx_backing)
  : M Z :=
  match iso with
  | [] => ret i
  | p :: rest =>
      reclaim_write_page p (backing i) ;;;
      reclaim_write rest (i + 1) backing
  end.

(** The two isolation calls at the head of [sgx_reclaim_epc_pages]: the
    result is the list [iso]. *)
Definition reclaim_isolate (nr_to_scan : Z) (epc_cg : nat) : M (list nat) :=
  ' (n, iso) <-
    (if negb (CONFIG_CGROUP_SGX_EPC H) || Nat.eqb epc_cg 0
     then sgx_isolate_epc_pages O nr_to_scan []
     else ret (nr_to_scan, [])) ;;
  if CONFIG_CGROUP_SGX_EPC H then
    fun w =>
      let '(_, iso', s') :=
        sgx_epc_cgroup_isolate_pages E epc_cg n iso (k w) in
      (iso', mk_world s' (trace w))
  else ret iso.

(** The pages that [sgx_reclaim_epc_pages] keeps on [iso] after its first
    loop, with the world at that point. *)
Definition reclaim_accepted (nr_to_scan : Z) (ignore_age : bool)
           (epc_cg : nat) : M (list nat) :=
  iso <- reclaim_isolate nr_to_scan epc_cg ;;
  ' (_, iso', _) <-
    reclaim_scan ignore_age iso 0 (fun _ => mk_backing O 0) ;;
  ret iso'.

(** [sgx_reclaim_epc_pages]. *)
Definition sgx_reclaim_epc_pages (nr_to_scan : Z) (ignore_age : bool)
           (epc_cg : nat) : M Z :=
  iso <- reclaim_isolate nr_to_scan epc_cg ;;
  match iso with
  | [] => ret 0
  | _ =>
      ' (_, iso', backing) <-
        reclaim_scan ignore_age iso 0 (fun _ => mk_backing O 0) ;;
      reclaim_block iso' ;;;
      reclaim_write iso' 0 backing
  end.

(** ** Out of memory *)

(** [sgx_oom_get_ref]. *)
Definition sgx_oom_get_ref (p : nat) : M bool :=
  s <- get ;;
  if truthy (Z.land (desc (pages s p)) (SGX_EPC_PAGE_ENCLAVE H)) then
    kref_get_unless_zero (encl (encl_pages s (owner (pages s p))))
  else if truthy (Z.land (desc (pages s p)) (SGX_EPC_PAGE_VERSION_ARRAY H))
  then kref_get_unless_zero (owner (pages s p))
  else
    r <- ask E (sgx_virt_epc_get_ref p) ;;
    ret (truthy r).

(** The [list_for_each_entry_safe] loop of [sgx_oom_get_victim]: the entry
    visited is the first entry of the list, and [list_del_init] unlinks
    it. *)
Fixpoint oom_victim_scan (l : nat) (ps : list nat) : M (option nat) :=
  match ps with
  | [] => ret None
  | p :: rest =>
      modify (lru_pop_unreclaimable l) ;;;
      g <- sgx_oom_get_ref p ;;
      if g then ret (Some p) else oom_victim_scan l rest
  end.

(** [sgx_oom_get_victim]; [None] is [NULL]. *)
Definition sgx_oom_get_victim (l : nat) : M (option nat) :=
  s <- get ;;
  oom_victim_scan l (unreclaimable (lru_of l s)).

(** The calls of [zap_page_range] on a VMA of [mm], one for each range. *)
Fixpoint zap_page_ranges (mm : nat) (zaps : list (Z * Z)) : M unit :=
  match zaps with
  | [] => ret tt
  | (start, sz) :: rest =>
      tell (zap_page_range mm start sz) ;;; zap_page_ranges mm rest
  end.

(** [sgx_epc_oom_zap] on the VMAs of [mm].  The result is [false] when the
    function has read [tmp->vm_start] through a [NULL] pointer: the kernel
    does not continue behind that point. *)
Definition sgx_epc_oom_zap (owner mm : nat) (start stop : Z) (ops : nat)
  : M bool :=
  match Vma.sgx_epc_oom_zap owner (find_vma E mm start) stop ops with
  | Vma.returned zaps => zap_page_ranges mm zaps ;;; ret true
  | Vma.null_dereference zaps => zap_page_ranges mm zaps ;;; ret false
  end.

(** The walk over [encl->mm_list] of [sgx_oom_encl]; the result is [false]
    when a call of [sgx_epc_oom_zap] did not return. *)
Fixpoint oom_zap_walk (e : nat) (start stop : Z) (mms : list nat) : M bool :=
  match mms with
  | [] => ret true
  | mm :: rest =>
      g <- ask E (mmget_not_zero mm) ;;
      if truthy g then
        ok <- sgx_epc_oom_zap e mm start stop (sgx_vm_ops E) ;;
        if ok then oom_zap_walk e start stop rest else ret false
      else oom_zap_walk e start stop rest
  end.

Definition set_flags (e : nat) (f : Z) (s : kstate) : kstate :=
  let x := encls s e in
  set_encl e (mk_encl (refcount x) f (secs_child_cnt x) (secs x) (base x)
                (size x) (mm_list x) (va_pages x) (cpumask x)) s.

(** [sgx_oom_encl]; the result is [false] when a call of
    [sgx_epc_oom_zap] did not return, and nothing behind that call is
    run. *)
Definition sgx_oom_encl (e : nat) : M bool :=
  s <- get ;;
  let encl_flags := flags (encls s e) in
  modify (set_flags e (Z.lor encl_flags (SGX_ENCL_OOM H))) ;;;
  if truthy (Z.land encl_flags (SGX_ENCL_DEAD_OR_OOM H)) ||
     negb (truthy (Z.land encl_flags (SGX_ENCL_CREATED H)))
  then kref_put E e ;;; ret true
  else
    s1 <- get ;;
    ok <- oom_zap_walk e (base (encls s1 e))
                       (wrap64 (base (encls s1 e) + size (encls s1 e)))
                       (mm_list (encls s1 e)) ;;
    if ok then
      tell (call_sgx_encl_destroy e) ;;;
      modify (sgx_encl_destroy E e) ;;;
      kref_put E e ;;;
      ret true
    else ret false.

(** [sgx_epc_oom]; the result is [None] when the function did not return
    because [sgx_epc_oom_zap] read through a [NULL] pointer. *)
Definition sgx_epc_oom (l : nat) : M (option bool) :=
  v <- sgx_oom_get_victim l ;;
  match v with
  | None => ret (Some false)
  | Some victim =>
      s <- get ;;
      ok <- (if truthy (Z.land (desc (pages s victim))
                               (SGX_EPC_PAGE_ENCLAVE H))
             then sgx_oom_encl (encl (encl_pages s (owner (pages s victim))))
             else if truthy (Z.land (desc (pages s victim))
                                    (SGX_EPC_PAGE_VERSION_ARRAY H))
             then sgx_oom_encl (owner (pages s victim))
             else tell (call_sgx_virt_epc_oom victim) ;;;
                  modify (sgx_virt_epc_oom E victim) ;;;
                  ret true) ;;
      if ok then ret (Some true) else ret None
  end.

(** ** Sanitizer and swap thread *)

(** [list_move(&page->list, &section->page_list)] for the first entry of the
    unsanitized list. *)
Definition section_sanitized (i : nat) (p : nat) (s : kstate) : kstate :=
  let x := sgx_epc_sections s i in
  set_section i (mk_section (pa x) (va x) (p :: page_list x)
                   (tl (unsanitized_page_list x)) (free_cnt x)) s.

(** Unlinking the first entry of the unsanitized list on its way to the
    local [secs_list]. *)
Definition section_pop_unsanitized (i : nat) (s : kstate) : kstate :=
  let x := sgx_epc_sections s i in
  set_section i (mk_section (pa x) (va x) (page_list x)
                   (tl (unsanitized_page_list x)) (free_cnt x)) s.

(** The [while] loop of [sgx_sanitize_section]: every iteration unlinks the
    first entry of the unsanitized list.  The result is the local
    [secs_list]. *)
Fixpoint sanitize_loop (i : nat) (ps : list nat) (secs_list : list nat)
  : M (list nat) :=
  match ps with
  | [] => ret secs_list
  | page :: rest =>
      stop <- ask E kthread_should_stop ;;
      if truthy stop then ret secs_list
      else
        r <- ask E (eremove page) ;;
        if truthy r then
          modify (section_pop_unsanitized i) ;;;
          sanitize_loop i rest (secs_list ++ [page])
        else
          modify (section_sanitized i page) ;;;
          sanitize_loop i rest secs_list
  end.

(** [sgx_sanitize_section].  The C function returns nothing; the result
    here is the content of its local [secs_list] when it returns, which the
    callers have no access to. *)
Definition sgx_sanitize_section (i : nat) : M (list nat) :=
  s <- get ;;
  sanitize_loop i (unsanitized_page_list (sgx_epc_sections s i)) [].

(** [sgx_nr_free_pages]. *)
Definition sgx_nr_free_pages (s : kstate) : Z :=
  fold_left (fun cnt i => wrap64 (cnt + free_cnt (sgx_epc_sections s i)))
            (seq 0 (sgx_nr_epc_sections s)) 0.

(** [sgx_can_reclaim]. *)
Definition sgx_can_reclaim (s : kstate) : bool :=
  if CONFIG_CGROUP_SGX_EPC H
  then negb (sgx_epc_cgroup_lru_empty E O s)
  else match reclaimable (sgx_global_lru s) with [] => false | _ => true end.

(** [sgx_should_reclaim]. *)
Definition sgx_should_reclaim (watermark : Z) (s : kstate) : bool :=
  (sgx_nr_free_pages s <? watermark) && sgx_can_reclaim s.

(** The two sanitization rounds at the head of [ksgxswapd]. *)
Fixpoint sanitize_sections (l : list nat) : M unit :=
  match l with
  | [] => ret tt
  | i :: rest => _ <- sgx_sanitize_section i ;; sanitize_sections rest
  end.

Definition ksgxswapd_sanitize : M unit :=
  s <- get ;;
  sanitize_sections (seq 0 (sgx_nr_epc_sections s)) ;;;
  s1 <- get ;;
  sanitize_sections (seq 0 (sgx_nr_epc_sections s1)).

(** The condition that [ksgxswapd] waits for,
    [kthread_should_stop() || sgx_should_reclaim(SGX_NR_HIGH_PAGES)]. *)
Definition ksgxswapd_wait_condition : M bool :=
  stop <- ask E kthread_should_stop ;;
  if truthy stop then ret true
  else s <- get ;; ret (sgx_should_reclaim (SGX_NR_HIGH_PAGES H) s).

(** [wait_event_freezable(ksgxswapd_waitq, condition)].  Modelled from the
    spec: the macro comes from a header that is not among the sources, and
    the spec has the thread sleep until the condition holds.  The condition
    is evaluated, and as long as it is false the thread sleeps on the wait
    queue and evaluates it again after the wake-up.  The event
    [wait_event_freezable] of the trace is one such sleep.  A kernel thread
    has no signal pending, so the wait ends on the condition only.  The
    result is [false] when the condition was still false after [fuel]
    sleeps. *)
Fixpoint ksgxswapd_wait (fuel : nat) : M bool :=
  c <- ksgxswapd_wait_condition ;;
  if c then ret true
  else
    match fuel with
    | O => ret false
    | S fuel' => tell wait_event_freezable ;;; ksgxswapd_wait fuel'
    end.

(** The steady loop of [ksgxswapd]; [None] when [fuel] iterations did not
    reach [kthread_should_stop], or when a wait did not end within the
    fuel that was left. *)
Fixpoint ksgxswapd_loop (fuel : nat) : M (option Z) :=
  match fuel with
  | O => ret None
  | S fuel' =>
      stop <- ask E kthread_should_stop ;;
      if truthy stop then ret (Some 0)
      else
        fz <- ask E try_to_freeze ;;
        if truthy fz then ksgxswapd_loop fuel'
        else
          woken <- ksgxswapd_wait fuel' ;;
          if woken then
            s <- get ;;
            (if sgx_should_reclaim (SGX_NR_HIGH_PAGES H) s
             then _ <- sgx_reclaim_epc_pages SGX_NR_TO_SCAN false O ;; ret tt
             else ret tt) ;;;
            ksgxswapd_loop fuel'
          else ret None
  end.

(** [ksgxswapd]. *)
Definition ksgxswapd (fuel : nat) : M (option Z) :=
  ksgxswapd_sanitize ;;; ksgxswapd_loop fuel.

(** ** Allocation *)

(** [__sgx_alloc_epc_page_from_section]; [None] is [NULL]. *)
Definition __sgx_alloc_epc_page_from_section (i : nat) : M (option nat) :=
  s <- get ;;
  let x := sgx_epc_sections s i in
  match page_list x with
  | [] => ret None
  | page :: rest =>
      modify (set_section i (mk_section (pa x) (va x) rest
                               (unsanitized_page_list x)
                               (wrap64 (free_cnt x - 1)))) ;;;
      ret (Some page)
  end.

(** A pointer or an [ERR_PTR]. *)
Inductive ptr_or_err :=
| Ptr (p : nat)
| Err (e : Z).

Fixpoint alloc_walk (l : list nat) : M ptr_or_err :=
  match l with
  | [] => ret (Err (- ENOMEM))
  | i :: rest =>
      page <- __sgx_alloc_epc_page_from_section i ;;
      match page with
      | Some p => ret (Ptr p)
      | None => alloc_walk rest
      end
  end.

(** [__sgx_alloc_epc_page]. *)
Definition __sgx_alloc_epc_page : M ptr_or_err :=
  s <- get ;;
  alloc_walk (seq 0 (sgx_nr_epc_sections s)).

(** The [for ( ; ; )] loop of [sgx_alloc_epc_page]; [None] when [fuel]
    iterations did not leave the loop. *)
Fixpoint alloc_loop (fuel : nat) (owner : nat) (reclaim : bool)
  : M (option ptr_or_err) :=
  match fuel with
  | O => ret None
  | S fuel' =>
      entry <- __sgx_alloc_epc_page ;;
      match entry with
      | Ptr p => modify (set_owner p owner) ;;; ret (Some (Ptr p))
      | Err _ =>
          s <- get ;;
          if negb (sgx_can_reclaim s) then ret (Some (Err (- ENOMEM)))
          else if negb reclaim then ret (Some (Err (- EBUSY)))
          else
            sig <- ask E signal_pending ;;
            if truthy sig then ret (Some (Err (- ERESTARTSYS)))
            else
              _ <- sgx_reclaim_epc_pages SGX_NR_TO_SCAN false O ;;
              alloc_loop fuel' owner reclaim
      end
  end.

(** [sgx_alloc_epc_page] from its loop on, for the charge group [epc_cg]
    that was charged. *)
Definition alloc_charged (fuel : nat) (owner : nat) (reclaim : bool)
           (epc_cg : nat) : M (option ptr_or_err) :=
  r <- alloc_loop fuel owner reclaim ;;
  match r with
  | None => ret None
  | Some entry =>
      when (CONFIG_CGROUP_SGX_EPC H)
           (match entry with
            | Ptr p => modify (set_epc_cg p epc_cg)
            | Err _ => tell (sgx_epc_cgroup_uncharge epc_cg false)
            end) ;;;
      s <- get ;;
      when (sgx_should_reclaim (SGX_NR_LOW_PAGES H) s) (tell wake_up) ;;;
      ret (Some entry)
  end.

(** [sgx_alloc_epc_page].  A negative answer of the charge is an
    [ERR_PTR]. *)
Definition sgx_alloc_epc_page (fuel : nat) (owner : nat) (reclaim : bool)
  : M (option ptr_or_err) :=
  if CONFIG_CGROUP_SGX_EPC H then
    fun w =>
      let '(epc_cg, w1) := sgx_epc_cgroup_try_charge E reclaim w in
      if epc_cg <? 0 then (Some (Err epc_cg), w1)
      else alloc_charged fuel owner reclaim (Z.to_nat epc_cg) w1
  else alloc_charged fuel owner reclaim O.

(** ** Section setup *)

Fixpoint kfree_all (l : list nat) : M unit :=
  match l with
  | [] => ret tt
  | p :: rest => tell (kfree p) ;;; kfree_all rest
  end.

(** [sgx_free_epc_section]. *)
Definition sgx_free_epc_section (i : nat) : M unit :=
  s <- get ;;
  let x := sgx_epc_sections s i in
  kfree_all (page_list x) ;;;
  kfree_all (unsanitized_page_list x) ;;;
  modify (set_section i (mk_section (pa x) (va x) [] [] (free_cnt x))) ;;;
  tell (memunmap (va x)).

Definition section_add_unsanitized (i : nat) (p : nat) (s : kstate) : kstate :=
  let x := sgx_epc_sections s i in
  set_section i (mk_section (pa x) (va x) (page_list x)
                   (unsanitized_page_list x ++ [p]) (free_cnt x)) s.

(** The [for] loop of [sgx_setup_epc_section]: [todo] is the number of
    iterations left and [i] the loop counter; [false] when [kzalloc]
    failed. *)
Fixpoint setup_loop (todo : nat) (i : Z) (addr index : Z) (section : nat)
  : M bool :=
  match todo with
  | O => ret true
  | S todo' =>
      page <- ask E kzalloc ;;
      if page =? 0 then ret false
      else
        modify (set_pages_at (Z.to_nat page)
                  (mk_epc_page
                     (Z.lor (wrap64 (addr + wrap64 (Z.shiftl i PAGE_SHIFT)))
                            index) O O)) ;;;
        modify (section_add_unsanitized section (Z.to_nat page)) ;;;
        setup_loop todo' (i + 1) addr index section
  end.

(** [sgx_setup_epc_section]. *)
Definition sgx_setup_epc_section (addr sz : Z) (index : Z) (section : nat)
  : M bool :=
  let nr_pages := Z.shiftr sz PAGE_SHIFT in
  v <- ask E (memremap addr sz) ;;
  s <- get ;;
  let x := sgx_epc_sections s section in
  modify (set_section section
            (mk_section (pa x) v (page_list x) (unsanitized_page_list x)
                        (free_cnt x))) ;;;
  if v =? 0 then ret false
  else
    modify (set_section section (mk_section addr v [] [] (free_cnt x))) ;;;
    ok <- setup_loop (Z.to_nat nr_pages) 0 addr index section ;;
    if ok then
      s1 <- get ;;
      let y := sgx_epc_sections s1 section in
      modify (set_section section
                (mk_section (pa y) (va y) (page_list y)
                            (unsanitized_page_list y) nr_pages)) ;;;
      ret true
    else
      sgx_free_epc_section section ;;;
      ret false.

End Model.

(** ** Section enumeration, teardown and start-up *)

(** [GENMASK_ULL(h, l)] of [linux/bits.h]: the 64-bit word whose bits [l]
    to [h] are set. *)
Definition GENMASK_ULL (h l : Z) : Z :=
  Z.land (wrap64 (Z.ones 64 - Z.shiftl 1 l + 1))
         (Z.shiftr (Z.ones 64) (63 - h)).

(** [sgx_calc_section_metric]. *)
Definition sgx_calc_section_metric (low high : Z) : Z :=
  wrap64 (Z.land low (GENMASK_ULL 31 12) +
          wrap64 (Z.shiftl (Z.land high (GENMASK_ULL 19 0)) 32)).

(** The processor and the constants of [asm/sgx_arch.h] that
    [sgx_page_cache_init] reads.  [cpuid_count] answers a leaf and a
    sub-leaf with the four registers. *)
Record platform := mk_platform {
  SGX_MAX_EPC_SECTIONS : nat;
  SGX_CPUID : Z;
  SGX_CPUID_FIRST_VARIABLE_SUB_LEAF : Z;
  SGX_CPUID_SUB_LEAF_TYPE_MASK : Z;
  SGX_CPUID_SUB_LEAF_INVALID : Z;
  SGX_CPUID_SUB_LEAF_EPC_SECTION : Z;
  cpuid_count : Z -> Z -> Z * Z * Z * Z
}.

(** The answers that [sgx_init] gets from the rest of the kernel:
    [boot_cpu_has(X86_FEATURE_SGX)], whether [kthread_run] returned an
    error pointer, and the results of [misc_register], [sgx_drv_init] and
    [sgx_virt_epc_init].  Each is called at most once, and none of them is
    given access to the section table or the LRU lists. *)
Record boot_answers := mk_boot_answers {
  boot_cpu_has_sgx : bool;
  kthread_run_is_err : bool;
  misc_register_ret : Z;
  sgx_drv_init_ret : Z;
  sgx_virt_epc_init_ret : Z
}.

(** The calls of [sgx_init] that leave this file. *)
Inductive init_call :=
| kthread_run
| misc_register
| sgx_drv_init
| sgx_virt_epc_init
| misc_deregister
| kthread_stop.

Section Boot.

Variable E : externals.
Variable P : platform.
Variable B : boot_answers.

(** The registers of sub-leaf [i + SGX_CPUID_FIRST_VARIABLE_SUB_LEAF], each
    a [u32]. *)
Definition cpuid_section (i : nat) : Z * Z * Z * Z :=
  let '(a, b, c, d) :=
    cpuid_count P (SGX_CPUID P)
      (wrap32 (Z.of_nat i + SGX_CPUID_FIRST_VARIABLE_SUB_LEAF P)) in
  (wrap32 a, wrap32 b, wrap32 c, wrap32 d).

(** The [for] loop of [sgx_page_cache_init]: [todo] is the number of
    iterations left and [i] the loop counter. *)
Fixpoint page_cache_init_loop (todo i : nat) : M unit :=
  match todo with
  | O => ret tt
  | S todo' =>
      let '(eax, ebx, ecx, edx) := cpuid_section i in
      let type := Z.land eax (SGX_CPUID_SUB_LEAF_TYPE_MASK P) in
      if type =? SGX_CPUID_SUB_LEAF_INVALID P then ret tt
      else if negb (type =? SGX_CPUID_SUB_LEAF_EPC_SECTION P) then ret tt
      else
        let pa := sgx_calc_section_metric eax ebx in
        let size := sgx_calc_section_metric ecx edx in
        ok <- sgx_setup_epc_section E pa size (Z.of_nat i) i ;;
        if ok then
          modify (fun s => set_nr_sections (S (sgx_nr_epc_sections s)) s) ;;;
          page_cache_init_loop todo' (S i)
        else ret tt
  end.

(** [sgx_page_cache_init]. *)
Definition sgx_page_cache_init : M bool :=
  page_cache_init_loop (SGX_MAX_EPC_SECTIONS P) O ;;;
  s <- get ;;
  ret (negb (Nat.eqb (sgx_nr_epc_sections s) 0)).

Fixpoint free_sections (l : list nat) : M unit :=
  match l with
  | [] => ret tt
  | i :: rest => sgx_free_epc_section i ;;; free_sections rest
  end.

(** [sgx_page_cache_teardown]. *)
Definition sgx_page_cache_teardown : M unit :=
  s <- get ;;
  free_sections (seq 0 (sgx_nr_epc_sections s)).

(** [sgx_page_reclaimer_init]: the thread that [kthread_run] starts runs
    [ksgxswapd] beside the caller; here only the result of [kthread_run]
    and [sgx_lru_init(&sgx_global_lru)] are kept. *)
Definition sgx_page_reclaimer_init : M bool :=
  if kthread_run_is_err B then ret false
  else modify (set_global_lru (mk_lru [] [])) ;;; ret true.

(** The labels [err_page_cache], [err_kthread] and [err_provision] of
    [sgx_init]; each falls through to the one before it.  [log] holds the
    calls made so far. *)
Definition err_page_cache (log : list init_call) : M (list init_call) :=
  sgx_page_cache_teardown ;;; ret log.

Definition err_kthread (log : list init_call) : M (list init_call) :=
  err_page_cache (log ++ [kthread_stop]).

Definition err_provision (log : list init_call) : M (list init_call) :=
  err_kthread (log ++ [misc_deregister]).

(** [sgx_init]: the result is the list of the calls it made outside this
    file, in order. *)
Definition sgx_init : M (list init_call) :=
  if negb (boot_cpu_has_sgx B) then ret []
  else
    ok <- sgx_page_cache_init ;;
    if negb ok then ret []
    else
      started <- sgx_page_reclaimer_init ;;
      if negb started then err_page_cache [kthread_run]
      else
        let r := misc_register_ret B in
        if truthy r then err_kthread [kthread_run; misc_register]
        else
          let r := sgx_drv_init_ret B in
          let r := if truthy (sgx_virt_epc_init_ret B) then r else 0 in
          if truthy r then
            err_provision
              [kthread_run; misc_register; sgx_drv_init; sgx_virt_epc_init]
          else
            ret [kthread_run; misc_register; sgx_drv_init; sgx_virt_epc_init].

End Boot.

(** ** The cache of the launch-key hash registers *)

(** The per-CPU array [sgx_lepubkeyhash_cache], the model-specific registers
    of each CPU, and the [wrmsrl] calls made so far (CPU, register,
    value). *)
Record msr_world := mk_msr_world {
  sgx_lepubkeyhash_cache : nat -> nat -> Z;
  msr : nat -> Z -> Z;
  wrmsrl_log : list (nat * Z * Z)
}.

(** [wrmsrl(reg, v)] on CPU [cpu]. *)
Definition wrmsrl (cpu : nat) (reg v : Z) (m : msr_world) : msr_world :=
  mk_msr_world (sgx_lepubkeyhash_cache m)
               (upd (msr m) cpu (updZ (msr m cpu) reg v))
               (wrmsrl_log m ++ [(cpu, reg, v)]).

(** [cache[i] = v] for the array of CPU [cpu]. *)
Definition set_cache (cpu i : nat) (v : Z) (m : msr_world) : msr_world :=
  mk_msr_world (upd (sgx_lepubkeyhash_cache m) cpu
                    (upd (sgx_lepubkeyhash_cache m cpu) i v))
               (msr m) (wrmsrl_log m).

(** The [for] loop of [sgx_update_lepubkeyhash_msrs]; [cpu] is
    [smp_processor_id()] and [MSR0] is [MSR_IA32_SGXLEPUBKEYHASH0]. *)
Fixpoint lepubkeyhash_loop (MSR0 : Z) (cpu : nat) (lepubkeyhash : nat -> Z)
         (enforce : bool) (todo i : nat) (m : msr_world) : msr_world :=
  match todo with
  | O => m
  | S todo' =>
      lepubkeyhash_loop MSR0 cpu lepubkeyhash enforce todo' (S i)
        (if enforce ||
            negb (lepubkeyhash i =? sgx_lepubkeyhash_cache m cpu i)
         then set_cache cpu i (lepubkeyhash i)
                (wrmsrl cpu (MSR0 + Z.of_nat i) (lepubkeyhash i) m)
         else m)
  end.

(** [sgx_update_lepubkeyhash_msrs]. *)
Definition sgx_update_lepubkeyhash_msrs (MSR0 : Z) (cpu : nat)
           (lepubkeyhash : nat -> Z) (enforce : bool) (m : msr_world)
  : msr_world :=
  lepubkeyhash_loop MSR0 cpu lepubkeyhash enforce 4 0 m.

(** ** The provisioning attribute *)

Definition EINVAL : Z := 22.

(** [sgx_set_attribute].  [fget] answers a descriptor with a file ([0] is
    [NULL]), [f_op] is the operations table of a file and
    [sgx_provision_fops] the address of the table of this file.  The result
    is the return value, the new [*allowed_attributes] and the files that
    [fput] was called on. *)
Definition sgx_set_attribute (fget : Z -> nat) (f_op : nat -> nat)
           (sgx_provision_fops : nat) (SGX_ATTR_PROVISIONKEY : Z)
           (allowed_attributes : Z) (attribute_fd : Z)
  : Z * Z * list nat :=
  let attribute_file := fget attribute_fd in
  if Nat.eqb attribute_file 0 then (- EINVAL, allowed_attributes, [])
  else if negb (Nat.eqb (f_op attribute_file) sgx_provision_fops)
  then (- EINVAL, allowed_attributes, [attribute_file])
  else (0, Z.lor allowed_attributes SGX_ATTR_PROVISIONKEY, [attribute_file]).

(** * Scenarios

    Concrete constants, oracles and worlds on which the model is run. *)

(** One choice of the header constants. *)
Definition hdr (cgroup : bool) : headers :=
  mk_headers cgroup 255 256 512 1024 2048 1 2 4 8 1 11 32 64
             (fun d => clear_bits d 4095)
             (fun d b => Z.shiftr (d - b) PAGE_SHIFT).

(** The oracle that answers every call with the same value. *)
Definition env_const (r : Z) : list event -> call -> Z := fun _ _ => r.

(** Externals whose procedures of other files leave the kernel data alone
    and whose mms have no VMA. *)
Definition ext (e : list event -> call -> Z) : externals :=
  mk_externals e (fun _ _ => []) 7 (fun _ s => s) (fun _ s => s) (fun _ s => s)
               (fun _ w => (0, w)) (fun _ n dst s => (n, dst, s))
               (fun _ _ => true).

Definition section0 : sgx_epc_section := mk_section 0 0 [] [] 0.
Definition lru0 : sgx_epc_lru := mk_lru [] [].
Definition page0 : sgx_epc_page := mk_epc_page 0 O O.
Definition encl_page0 : sgx_encl_page := mk_encl_page O 0 O O.
Definition encl0 : sgx_encl := mk_encl O 0 0 O 0 0 [] [] 0.

(** The kernel data before any section is set up. *)
Definition kstate0 : kstate :=
  mk_kstate (fun _ => section0) O lru0 (fun _ => lru0) (fun _ => page0)
            (fun _ => encl_page0) (fun _ => encl0).

Definition world0 : world := mk_world kstate0 [].

(** An LRU with three enclave pages: pages 1 and 3 belong to enclave 1,
    which holds one reference; page 2 belongs to enclave 2, whose last
    reference is gone. *)
Definition w_iso : world :=
  mk_world
    (mk_kstate (fun _ => section0) 1 (mk_lru [2; 1; 3]%nat [])
               (fun _ => lru0)
               (fun p => mk_epc_page 1280 p O)
               (fun q => mk_encl_page (if Nat.eqb q 2 then 2 else 1)%nat 0 q O)
               (fun e => mk_encl (if Nat.eqb e 1 then 1 else 0)%nat 3 1 O
                                 0 0 [] [] 0))
    [].

(** A boot-time oracle: [memremap] succeeds, [kzalloc] hands out fresh
    pointers, every other call answers zero (the ENCLS leaves succeed, no
    stop is requested, no signal is pending). *)
Definition env_boot : list event -> call -> Z :=
  fun t c =>
    match c with
    | memremap _ _ => 4096
    | kzalloc => Z.of_nat (length t) + 1
    | _ => 0
    end.

(** The world after [sgx_setup_epc_section] has set up section 0 with two
    pages at physical address [0x100000]. *)
Definition w_setup : world :=
  snd (sgx_setup_epc_section (ext env_boot) 1048576 8192 0 O world0).

(** An initialized enclave (enclave 1, one reference) whose last resident
    child is page 1, on the reclaimable list; its SECS page is page 2, on
    the unreclaimable list.  Both pages belong to section 0, whose free
    list is empty. *)
Definition w_last_child : world :=
  mk_world
    (mk_kstate (fun _ => section0) 1 (mk_lru [1%nat] [2%nat])
               (fun _ => lru0)
               (fun p => if Nat.eqb p 1 then mk_epc_page 1280 1 O
                         else mk_epc_page 1024 9 O)
               (fun q => if Nat.eqb q 9 then mk_encl_page 1 0 2 O
                         else mk_encl_page 1 4096 1 O)
               (fun _ => mk_encl 1 3 1 9 0 8192 [] [5%nat] 0))
    [].

(** Whether [EREMOVE] was already called on a page. *)
Definition is_eremove (p : nat) (ev : event) : bool :=
  match fst ev with eremove q => Nat.eqb q p | _ => false end.

(** Boot with two sections: [EREMOVE] on pages 7 and 8 (SECS pages whose
    children are still present) fails with [SGX_CHILD_PRESENT = 13] the
    first time it is tried on each, and succeeds from then on. *)
Definition env_parent : list event -> call -> Z :=
  fun t c =>
    match c with
    | memremap _ _ => 4096
    | kzalloc => Z.of_nat (length t) + 1
    | eremove p =>
        if (Nat.eqb p 7 || Nat.eqb p 8) && negb (existsb (is_eremove p) t)
        then 13 else 0
    | _ => 0
    end.

(** Section 0 with four pages (2, 3, 4, 5) and section 1 with two pages
    (7, 8), set up by [sgx_setup_epc_section], with
    [sgx_nr_epc_sections = 2]. *)
Definition w_two_sections : world :=
  let w1 :=
    snd (sgx_setup_epc_section (ext env_parent) 1048576 16384 0 O world0) in
  let w2 :=
    snd (sgx_setup_epc_section (ext env_parent) 2097152 8192 1 1%nat w1) in
  mk_world (set_nr_sections 2 (k w2)) (trace w2).

(** Pages that are charged to charge group 3; page 1 is on the reclaimable
    list of the group and in the hands of the reclaimer, page 2 is on it
    and idle. *)
Definition w_charged : world :=
  mk_world
    (mk_kstate (fun _ => section0) 1 lru0
               (fun c => if Nat.eqb c 3 then mk_lru [1; 2]%nat [] else lru0)
               (fun p => if Nat.eqb p 1 then mk_epc_page 768 O 3
                         else mk_epc_page 256 O 3)
               (fun _ => encl_page0) (fun _ => encl0))
    [].

(** An unreclaimable list of two pages whose owners give no reference. *)
Definition w_no_victim : world :=
  mk_world
    (mk_kstate (fun _ => section0) 1 (mk_lru [] [1; 2]%nat)
               (fun _ => lru0) (fun _ => page0)
               (fun _ => encl_page0) (fun _ => encl0))
    [].

(** An unreclaimable list that holds one version-array page of enclave 1,
    which is created and initialized, holds one reference and is mapped by
    mm 4. *)
Definition w_oom : world :=
  mk_world
    (mk_kstate (fun _ => section0) 1 (mk_lru [] [3%nat])
               (fun _ => lru0) (fun _ => mk_epc_page 2048 1 O)
               (fun _ => encl_page0)
               (fun _ => mk_encl 1 3 0 9 65536 8192 [4%nat] [] 0))
    [].

(** An oracle for the [NOT_TRACKED] ladder: the first two write-backs
    answer [SGX_NOT_TRACKED = 11], every mm gives a reference, and mm [m]
    runs on CPU [m]. *)
Definition env_not_tracked : list event -> call -> Z :=
  fun t c =>
    match c with
    | ewb _ _ _ _ =>
        if (length (filter (fun ev => match fst ev with
                                      | ewb _ _ _ _ => true
                                      | _ => false
                                      end) t) <? 2)%nat
        then 11 else 0
    | mmget_not_zero _ => 1
    | mm_cpumask m => Z.shiftl 1 (Z.of_nat m)
    | _ => 0
    end.

(** The enclave of [w_last_child] with a second resident child and two
    mms. *)
Definition w_mapped : world :=
  mk_world
    (mk_kstate (fun _ => section0) 1 (mk_lru [1%nat] [2%nat])
               (fun _ => lru0)
               (fun p => if Nat.eqb p 1 then mk_epc_page 1280 1 O
                         else mk_epc_page 1024 9 O)
               (fun q => if Nat.eqb q 9 then mk_encl_page 1 0 2 O
                         else mk_encl_page 1 4096 1 O)
               (fun _ => mk_encl 1 3 2 9 0 8192 [4; 5]%nat [6%nat] 0))
    [].

(** A reclaimable list whose first page lacks the [ENCLAVE] flag: isolation
    warns and leaves it where it is. *)
Definition k_stuck : kstate :=
  mk_kstate (fun _ => section0) 1 (mk_lru [1%nat] []) (fun _ => lru0)
            (fun _ => mk_epc_page 256 O O) (fun _ => encl_page0)
            (fun _ => encl0).

(** The mappings of an enclave at [0x10000] of two pages, mapped by two
    adjacent VMAs with the operations table 7 and the owner 1, a VMA of
    another mapping right behind them, and a VMA far above. *)
Definition vma_first : Vma.vm_area_struct := Vma.mk_vma 65536 69632 7 1.
Definition vma_second : Vma.vm_area_struct := Vma.mk_vma 69632 73728 7 1.
Definition vma_other : Vma.vm_area_struct := Vma.mk_vma 73728 77824 0 0.
Definition vma_stack : Vma.vm_area_struct := Vma.mk_vma 1048576 1052672 0 0.

(** Two sections: section 0 has no free page, section 1 has the free
    pages 7 and 8, whose descriptors carry the section index 1. *)
Definition w_second_section : world :=
  mk_world
    (mk_kstate (fun i => if Nat.eqb i 1
                         then mk_section 2097152 4096 [7; 8]%nat [] 2
                         else section0)
               2 lru0 (fun _ => lru0)
               (fun p => mk_epc_page (if Nat.eqb p 8 then 2101249 else 2097153)
                                     O O)
               (fun _ => encl_page0) (fun _ => encl0))
    [].

(** A processor that enumerates one EPC section of two pages at [0x100000]
    in sub-leaf 2 of leaf [0x12]; the sub-leaves behind it are invalid.
    The table of sections has eight entries. *)
Definition platform_one_section : platform :=
  mk_platform 8 18 2 15 0 1
              (fun _ sub => if sub =? 2 then (1048577, 0, 8193, 0)
                            else (0, 0, 0, 0)).

(** The enclave of [w_last_child] after it was marked dead. *)
Definition w_dead : world :=
  mk_world
    (mk_kstate (fun _ => section0) 1 (mk_lru [1%nat] [2%nat])
               (fun _ => lru0)
               (fun p => if Nat.eqb p 1 then mk_epc_page 1280 1 O
                         else mk_epc_page 1024 9 O)
               (fun q => if Nat.eqb q 9 then mk_encl_page 1 0 2 O
                         else mk_encl_page 1 4096 1 O)
               (fun _ => mk_encl 1 7 1 9 0 8192 [] [5%nat] 0))
    [].

(** Externals whose charge-group module charges every allocation to the
    group 3. *)
Definition ext_charge : externals :=
  mk_externals (env_const 0) (fun _ _ => []) 7
               (fun _ s => s) (fun _ s => s) (fun _ s => s)
               (fun _ w => (3, w)) (fun _ n dst s => (n, dst, s))
               (fun _ _ => true).

(** Externals in which every call answers 1 and the mm 4 maps the enclave
    of [w_oom] with [vma_first] and [vma_second], followed by one VMA of
    another mapping, the last of the mm. *)
Definition ext_mapped : externals :=
  mk_externals (env_const 1)
               (fun mm _ => if Nat.eqb mm 4
                            then [vma_first; vma_second; vma_other] else [])
               7 (fun _ s => s) (fun _ s => s) (fun _ s => s)
               (fun _ w => (0, w)) (fun _ n dst s => (n, dst, s))
               (fun _ _ => true).

(** An unreclaimable list of four pages: page 1 belongs to the virtual EPC
    module, page 2 is a version array of the enclave 2, which has no
    reference left, and the pages 3 and 4 are version arrays of the
    enclave 1 of [w_oom]. *)
Definition w_oom_mixed : world :=
  mk_world
    (mk_kstate (fun _ => section0) 1 (mk_lru [] [1; 2; 3; 4]%nat)
               (fun _ => lru0)
               (fun p => if Nat.eqb p 1 then page0
                         else if Nat.eqb p 2 then mk_epc_page 2048 2 O
                         else mk_epc_page 2048 1 O)
               (fun _ => encl_page0)
               (fun e => if Nat.eqb e 1
                         then mk_encl 1 3 0 9 65536 8192 [4%nat] [] 0
                         else encl0))
    [].

(** An oracle for the swap thread: [kthread_should_stop] answers 0 three
    times and 1 from its fourth call on; every other call answers 0. *)
Definition env_stop_at_fourth : list event -> call -> Z :=
  fun t c =>
    match c with
    | kthread_should_stop =>
        if (length (filter (fun ev => match fst ev with
                                      | kthread_should_stop => true
                                      | _ => false
                                      end) t) <? 3)%nat
        then 0 else 1
    | _ => 0
    end.

(** The LRU of [w_iso] in the order 1, 2, 3, with a second page that
    lacks the [ENCLAVE] flag. *)
Definition w_iso_mixed : world :=
  mk_world
    (mk_kstate (fun _ => section0) 1 (mk_lru [1; 2; 3]%nat [])
               (fun _ => lru0)
               (fun p => if Nat.eqb p 2 then mk_epc_page 256 2 O
                         else mk_epc_page 1280 p O)
               (fun q => mk_encl_page (if Nat.eqb q 2 then 2 else 1)%nat 0 q O)
               (fun e => mk_encl (if Nat.eqb e 1 then 1 else 0)%nat 3 1 O
                                 0 0 [] [] 0))
    [].



(** * Vocabulary of the statements *)

(** A page is linked when one of the lists of the kernel state holds it. *)
Definition linked (s : kstate) (p : nat) : Prop :=
  (exists i, In p (page_list (sgx_epc_sections s i)) \/
             In p (unsanitized_page_list (sgx_epc_sections s i))) \/
  (exists l, In p (reclaimable (lru_of l s)) \/
             In p (unreclaimable (lru_of l s))).

Definition flag_set (d m : Z) : Prop := Z.land d m <> 0.

(** Whether [sgx_oom_get_ref] would obtain the reference of the owner of a
    page in a given world. *)
Definition oom_ref_available (H : headers) (E : externals) (w : world)
           (p : nat) : bool :=
  let s := k w in
  if truthy (Z.land (desc (pages s p)) (SGX_EPC_PAGE_ENCLAVE H)) then
    negb (Nat.eqb (refcount (encls s (encl (encl_pages s (owner (pages s p))))))
                  0)
  else if truthy (Z.land (desc (pages s p)) (SGX_EPC_PAGE_VERSION_ARRAY H))
  then negb (Nat.eqb (refcount (encls s (owner (pages s p)))) 0)
  else truthy (env E (trace w) (sgx_virt_epc_get_ref p)).

(** The call that [sgx_oom_get_ref] makes for a page in a given world: none
    for a page of an enclave or of a version array, whose reference is
    counted in the kernel data. *)
Definition oom_ref_events (H : headers) (E : externals) (w : world)
           (p : nat) : list event :=
  let s := k w in
  if truthy (Z.land (desc (pages s p)) (SGX_EPC_PAGE_ENCLAVE H)) then []
  else if truthy (Z.land (desc (pages s p)) (SGX_EPC_PAGE_VERSION_ARRAY H))
  then []
  else [(sgx_virt_epc_get_ref p, env E (trace w) (sgx_virt_epc_get_ref p))].

(** The owners of the pages [ps], asked one after the other from the trace
    [t] on, all refuse their reference: the result is then the trace after
    the last refusal.  [None] when one of them gives its reference. *)
Fixpoint oom_refused (H : headers) (E : externals) (s : kstate)
         (t : list event) (ps : list nat) : option (list event) :=
  match ps with
  | [] => Some t
  | q :: rest =>
      if oom_ref_available H E (mk_world s t) q then None
      else oom_refused H E s (t ++ oom_ref_events H E (mk_world s t) q) rest
  end.

(** The pages whose reference is asked of the virtual EPC module. *)
Definition oom_virt_page (H : headers) (s : kstate) (p : nat) : bool :=
  negb (truthy (Z.land (desc (pages s p)) (SGX_EPC_PAGE_ENCLAVE H))) &&
  negb (truthy (Z.land (desc (pages s p)) (SGX_EPC_PAGE_VERSION_ARRAY H))).

(** The calls of [zap_page_range] for a list of ranges. *)
Definition zap_events (mm : nat) (zaps : list (Z * Z)) : list event :=
  map (fun z => (zap_page_range mm (fst z) (snd z), 0)) zaps.

(** The enclave that [sgx_epc_oom] kills for a victim owned by an enclave
    page or by a version array. *)
Definition oom_victim_encl (H : headers) (s : kstate) (p : nat) : nat :=
  if truthy (Z.land (desc (pages s p)) (SGX_EPC_PAGE_ENCLAVE H))
  then encl (encl_pages s (owner (pages s p)))
  else owner (pages s p).

(** The kernel data after [kref_put] and the calls it makes. *)
Definition kref_put_k (E : externals) (e : nat) (s : kstate) : kstate :=
  let x := encls s e in
  let s1 := set_encl e (mk_encl (Nat.pred (refcount x)) (flags x)
                          (secs_child_cnt x) (secs x) (base x) (size x)
                          (mm_list x) (va_pages x) (cpumask x)) s in
  if Nat.eqb (refcount x) 1 then sgx_encl_release E e s1 else s1.

Definition kref_put_events (e : nat) (s : kstate) : list event :=
  if Nat.eqb (refcount (encls s e)) 1 then [(call_sgx_encl_release e, 0)]
  else [].

(** [sgx_oom_encl] leaves early for these flags. *)
Definition oom_encl_early (H : headers) (encl_flags : Z) : bool :=
  truthy (Z.land encl_flags (SGX_ENCL_DEAD_OR_OOM H)) ||
  negb (truthy (Z.land encl_flags (SGX_ENCL_CREATED H))).

(** The enclave that owns an enclave page's EPC page, and whether its
    reference count is not zero. *)
Definition encl_of (s : kstate) (p : nat) : nat :=
  encl (encl_pages s (owner (pages s p))).

Definition encl_live (s : kstate) (p : nat) : bool :=
  negb (Nat.eqb (refcount (encls s (encl_of s p))) 0).

Definition inc_refcount (e : nat) (s : kstate) : kstate :=
  let x := encls s e in
  set_encl e (mk_encl (S (refcount x)) (flags x) (secs_child_cnt x) (secs x)
                (base x) (size x) (mm_list x) (va_pages x) (cpumask x)) s.

(** The kernel data after one iteration of [sgx_isolate_epc_pages] that
    takes, respectively drops, the first reclaimable page [p]. *)
Definition iso_take (H : headers) (l p : nat) (s : kstate) : kstate :=
  lru_pop_reclaimable l
    (set_desc p (Z.lor (desc (pages s p)) (SGX_EPC_PAGE_RECLAIM_IN_PROGRESS H))
       (inc_refcount (encl_of s p) s)).

Definition iso_drop (H : headers) (l p : nat) (s : kstate) : kstate :=
  lru_pop_reclaimable l
    (set_desc p (clear_bits (desc (pages s p)) (SGX_EPC_PAGE_RECLAIMABLE H)) s).

(** What one iteration keeps: owners, enclave pages, and which reference
    counts are zero. *)
Definition iso_stable (s s' : kstate) : Prop :=
  encl_pages s' = encl_pages s /\
  (forall q, owner (pages s' q) = owner (pages s q)) /\
  (forall e, refcount (encls s' e) = O <-> refcount (encls s e) = O).

(** The pages of [ps] whose enclave gives a reference, and how many of them
    belong to the enclave [e]. *)
Definition taken (s : kstate) (ps : list nat) : list nat :=
  filter (encl_live s) ps.

Definition taken_of (s : kstate) (e : nat) (ps : list nat) : nat :=
  length (filter (fun q => Nat.eqb (encl_of s q) e) (taken s ps)).

(** The pages at the head of [ps] that carry the [ENCLAVE] flag, up to the
    first page that does not. *)
Fixpoint enclave_run (H : headers) (s : kstate) (ps : list nat) : list nat :=
  match ps with
  | [] => []
  | p :: rest =>
      if truthy (Z.land (desc (pages s p)) (SGX_EPC_PAGE_ENCLAVE H))
      then p :: enclave_run H s rest
      else []
  end.

(** Events of the write-back ladder. *)
Definition is_etrack (ev : event) : bool :=
  match fst ev with etrack _ => true | _ => false end.

Definition is_ipi (ev : event) : bool :=
  match fst ev with on_each_cpu_mask _ => true | _ => false end.

Definition is_free_va_slot (ev : event) : bool :=
  match fst ev with sgx_free_va_slot _ _ => true | _ => false end.

(** A query of [sgx_encl_ewb_cpumask] about an mm of the list. *)
Definition is_mm_query (mms : list nat) (ev : event) : Prop :=
  exists mm, In mm mms /\
             ((exists g, ev = (mmget_not_zero mm, g)) \/
              (exists c, ev = (mm_cpumask mm, c))).

(** The CPU sets that were answered. *)
Definition cpumask_answers (evs : list event) : list Z :=
  flat_map (fun ev => match fst ev with mm_cpumask _ => [snd ev] | _ => [] end)
           evs.

(** The calls of the [NOT_TRACKED] ladder of [sgx_encl_ewb] and the last
    value of [ret]: [wb] is the write-back call, [trk] the track call and
    [mms] the mm list of the enclave. *)
Inductive ewb_ladder (NT : Z) (wb trk : call) (mms : list nat)
  : list event -> Z -> Prop :=
| ladder_once (r1 : Z) :
    r1 <> NT ->
    ewb_ladder NT wb trk mms [(wb, r1)] r1
| ladder_track (rt r2 : Z) :
    r2 <> NT ->
    ewb_ladder NT wb trk mms [(wb, NT); (trk, rt); (wb, r2)] r2
| ladder_ipi (rt r3 : Z) (maskev : list event) :
    (forall ev, In ev maskev -> is_mm_query mms ev) ->
    (forall mm, In mm mms ->
                In (mmget_not_zero mm, 0) maskev \/
                exists c, In (mm_cpumask mm, c) maskev) ->
    ewb_ladder NT wb trk mms
      ([(wb, NT); (trk, rt); (wb, NT)] ++ maskev ++
       [(on_each_cpu_mask (fold_left Z.lor (cpumask_answers maskev) 0), 0);
        (wb, r3)])
      r3.

(** The accounting of a section: the free counter counts the pages on the
    free list, the pages that wait for sanitization, and [parked] pages that
    a sanitization round has set aside. *)
Definition section_accounted (x : sgx_epc_section) (parked : nat) : Prop :=
  free_cnt x =
  Z.of_nat (length (page_list x) + length (unsanitized_page_list x) + parked).

(** Between two states of a section the free counter has followed the free
    list: the unsanitized list is the same, and the counter and the length
    of the free list have changed by the same amount. *)
Definition free_list_tracks (x x' : sgx_epc_section) : Prop :=
  unsanitized_page_list x' = unsanitized_page_list x /\
  free_cnt x' - free_cnt x =
  Z.of_nat (length (page_list x')) - Z.of_nat (length (page_list x)).

Definition is_ewb (ev : event) : bool :=
  match fst ev with ewb _ _ _ _ => true | _ => false end.

(** The outcomes of [sgx_alloc_epc_page] that the spec names. *)
Definition alloc_outcome (s : kstate) (o : nat) (e : ptr_or_err) : Prop :=
  (exists p, e = Ptr p /\ owner (pages s p) = o) \/
  e = Err (- ENOMEM) \/ e = Err (- EBUSY) \/ e = Err (- ERESTARTSYS).





(** What [sgx_alloc_epc_page] does after its loop has produced [entry]. *)
Definition alloc_post (H : headers) (E : externals) (epc_cg : nat)
           (entry : ptr_or_err) (w : world) : world :=
  let w1 :=
    if CONFIG_CGROUP_SGX_EPC H then
      match entry with
      | Ptr p => mk_world (set_epc_cg p epc_cg (k w)) (trace w)
      | Err _ =>
          mk_world (k w)
                   (trace w ++ [(sgx_epc_cgroup_uncharge epc_cg false, 0)])
      end
    else w in
  if sgx_should_reclaim H E (SGX_NR_LOW_PAGES H) (k w1)
  then mk_world (k w1) (trace w1 ++ [(wake_up, 0)])
  else w1.

(** The test at the head of the first loop of [sgx_reclaim_epc_pages]:
    [true] when the page is skipped because [SGX_MAX_NR_TO_RECLAIM] pages
    are accepted already or because it is young and age counts. *)
Definition reclaim_skip_test (H : headers) (E : externals) (ignore_age : bool)
           (p : nat) (i : Z) : M bool :=
  if i =? SGX_MAX_NR_TO_RECLAIM then ret true
  else if ignore_age then ret false
  else bind (sgx_reclaimer_age H E p) (fun a => ret (negb a)).

(** The kernel data of [reclaim_skip] before it puts the reference. *)
Definition reclaim_skip_relinked (H : headers) (p : nat) (s : kstate)
  : kstate :=
  lru_add_tail_reclaimable (sgx_lru H p s) p
    (set_desc p (clear_bits (desc (pages s p))
                   (SGX_EPC_PAGE_RECLAIM_IN_PROGRESS H)) s).

(** An isolation procedure of the charge-group module moves at most the
    number of pages it is asked for. *)
Definition cgroup_isolate_bounded (E : externals) : Prop :=
  forall cg n dst s,
    Z.of_nat (length (snd (fst (sgx_epc_cgroup_isolate_pages E cg n dst s))))
    <= Z.of_nat (length dst) + Z.max n 0.

(** [reclaim_write_page] up to and including [kref_put]. *)
Definition reclaim_write_prefix (H : headers) (E : externals) (p : nat)
           (b : sgx_backing) : M unit :=
  bind get (fun s =>
  let encl_page := owner (pages s p) in
  bind (sgx_reclaimer_write H E p b) (fun _ =>
  bind (tell (sgx_encl_put_backing b true)) (fun _ =>
  bind get (fun s1 =>
  kref_put E (encl (encl_pages s1 encl_page)))))).

(** The cache of a CPU agrees with its four hash registers. *)
Definition msr_cache_coherent (MSR0 : Z) (cpu : nat) (m : msr_world) : Prop :=
  forall i, (i < 4)%nat ->
            sgx_lepubkeyhash_cache m cpu i = msr m cpu (MSR0 + Z.of_nat i).

(** The entry [i] of the hash is written when the caller enforces it or the
    cache of the CPU holds another value. *)
Definition lepubkeyhash_stale (cpu : nat) (lepubkeyhash : nat -> Z)
           (enforce : bool) (m : msr_world) (i : nat) : bool :=
  enforce || negb (lepubkeyhash i =? sgx_lepubkeyhash_cache m cpu i).

(** A machine whose caches and registers are all zero. *)
Definition msr_world0 : msr_world :=
  mk_msr_world (fun _ _ => 0) (fun _ _ => 0) [].

(** The test that keeps the [do ... while] loop of [sgx_epc_oom_zap] going
    when [tmp] points to [t]. *)
Definition zap_continues (owner ops : nat) (stop : Z)
           (vma t : Vma.vm_area_struct) : bool :=
  Nat.eqb (Vma.vm_ops t) ops && Nat.eqb (Vma.vm_private_data vma) owner &&
  (Vma.vm_start t <? stop).

(** The end of the last VMA of a run that started with a VMA ending at
    [e]. *)
Definition run_end (e : Z) (run : list Vma.vm_area_struct) : Z :=
  fold_left (fun _ t => Vma.vm_end t) run e.

(** The calls of [zap_page_range] of an outcome. *)
Definition zaps_of (o : Vma.outcome) : list (Z * Z) :=
  match o with
  | Vma.returned zaps => zaps
  | Vma.null_dereference zaps => zaps
  end.

(** The hardware lets sanitization through: nobody asks the thread to stop
    and [EREMOVE] succeeds on every page. *)
Definition sanitize_unhindered (E : externals) : Prop :=
  forall t, env E t kthread_should_stop = 0 /\
            forall p, env E t (eremove p) = 0.

(** A section after each page of its unsanitized list was moved to the head
    of its free list, in the order of the unsanitized list. *)
Definition sanitized_section (x : sgx_epc_section) : sgx_epc_section :=
  mk_section (pa x) (va x) (rev (unsanitized_page_list x) ++ page_list x) []
             (free_cnt x).

(** The page structures that [kzalloc] handed out, and those that were
    given to [kfree], in the order of the calls. *)
Definition kzalloc_pages (evs : list event) : list nat :=
  flat_map (fun ev => match fst ev with
                      | kzalloc => if snd ev =? 0 then [] else [Z.to_nat (snd ev)]
                      | _ => []
                      end) evs.

Definition kfreed (evs : list event) : list nat :=
  flat_map (fun ev => match fst ev with kfree p => [p] | _ => [] end) evs.

(** The calls of [sgx_free_epc_section] on a section. *)
Definition free_section_events (x : sgx_epc_section) : list event :=
  map (fun p => (kfree p, 0)) (page_list x) ++
  map (fun p => (kfree p, 0)) (unsanitized_page_list x) ++
  [(memunmap (va x), 0)].

(** Section [i] as [sgx_page_cache_init] sets it up from the registers of
    its sub-leaf: the sub-leaf describes an EPC section, the section starts
    at the address of the first two registers, its free list is empty, and
    its counter and the length of its unsanitized list are the number of
    pages in the size of the last two registers. *)
Definition section_enumerated (P : platform) (i : nat) (x : sgx_epc_section)
  : Prop :=
  let '(eax, ebx, ecx, edx) := cpuid_section P i in
  Z.land eax (SGX_CPUID_SUB_LEAF_TYPE_MASK P) =
  SGX_CPUID_SUB_LEAF_EPC_SECTION P /\
  pa x = sgx_calc_section_metric eax ebx /\
  page_list x = [] /\
  free_cnt x = Z.shiftr (sgx_calc_section_metric ecx edx) PAGE_SHIFT /\
  Z.of_nat (length (unsanitized_page_list x)) =
  Z.shiftr (sgx_calc_section_metric ecx edx) PAGE_SHIFT.

(** Events of the reclaimer. *)
Definition is_eblock (ev : event) : bool :=
  match fst ev with eblock _ => true | _ => false end.

(** The calls that [sgx_reclaimer_age] makes for the mms of a list and an
    enclave page. *)
Definition is_age_query (mms : list nat) (page : nat) (ev : event) : Prop :=
  exists mm, In mm mms /\
             ((exists g, ev = (mmget_not_zero mm, g)) \/
              (exists y, ev = (sgx_encl_test_and_clear_young mm page, y))).

(** The calls of an iteration of [ksgxswapd] that does not reclaim. *)
Definition is_idle_call (ev : event) : bool :=
  match fst ev with
  | kthread_should_stop | try_to_freeze | wait_event_freezable => true
  | _ => false
  end.











(** * Properties *)

Ltac mred :=
  unfold bind, ret, get, modify, ask, tell, when in *; cbn [fst snd k trace] in *.

(** ** Bits *)

Lemma clear_bits_land_same (d m : Z) : Z.land (clear_bits d m) m = 0.
Proof.
  apply Z.bits_inj'; intros n Hn. unfold clear_bits.
  rewrite !Z.land_spec, Z.lnot_spec, Z.bits_0 by lia.
  destruct (Z.testbit d n), (Z.testbit m n); reflexivity.
Qed.

Lemma clear_bits_lor_l (d a b : Z) : Z.land (clear_bits d (Z.lor a b)) a = 0.
Proof.
  apply Z.bits_inj'; intros n Hn. unfold clear_bits.
  rewrite !Z.land_spec, Z.lnot_spec, Z.lor_spec, Z.bits_0 by lia.
  destruct (Z.testbit d n), (Z.testbit a n), (Z.testbit b n); reflexivity.
Qed.

Lemma clear_bits_lor_r (d a b : Z) : Z.land (clear_bits d (Z.lor a b)) b = 0.
Proof.
  rewrite Z.lor_comm. apply clear_bits_lor_l.
Qed.

Lemma lor_land_same (d m : Z) : Z.land (Z.lor d m) m = m.
Proof.
  apply Z.bits_inj'; intros n Hn.
  rewrite Z.land_spec, Z.lor_spec.
  destruct (Z.testbit d n), (Z.testbit m n); reflexivity.
Qed.

Lemma truthy_true (x : Z) : truthy x = true <-> x <> 0.
Proof.
  unfold truthy. destruct (Z.eqb_spec x 0); cbn; split; congruence.
Qed.

Lemma truthy_false (x : Z) : truthy x = false <-> x = 0.
Proof.
  unfold truthy. destruct (Z.eqb_spec x 0); cbn; split; congruence.
Qed.

(** ** Lists *)

Lemma In_firstn (A : Type) (n : nat) (l : list A) (x : A) :
  In x (firstn n l) -> In x l.
Proof.
  revert l. induction n as [| n IH]; intros [| a l]; cbn; try tauto.
  intros [-> | Hx]; [ left; reflexivity | right; apply IH; exact Hx ].
Qed.

Lemma list_del_not_in (p : nat) (l : list nat) : ~ In p (list_del p l).
Proof.
  unfold list_del. rewrite filter_In. intros [_ Hp].
  rewrite Nat.eqb_refl in Hp. discriminate.
Qed.

Lemma list_del_in_other (p q : nat) (l : list nat) :
  q <> p -> (In q (list_del p l) <-> In q l).
Proof.
  intros Hq. unfold list_del. rewrite filter_In.
  apply Nat.eqb_neq in Hq. rewrite Hq. cbn. tauto.
Qed.

Lemma lru_of_list_del_page (p l : nat) (s : kstate) :
  lru_of l (list_del_page p s) = lru_del p (lru_of l s).
Proof.
  destruct l; reflexivity.
Qed.

Lemma list_del_page_unlinks (p : nat) (s : kstate) :
  ~ linked (list_del_page p s) p.
Proof.
  intros [[i Hi] | [l Hl]].
  - cbn in Hi. destruct Hi as [Hi | Hi]; exact (list_del_not_in _ _ Hi).
  - rewrite lru_of_list_del_page in Hl. cbn in Hl.
    destruct Hl as [Hl | Hl]; exact (list_del_not_in _ _ Hl).
Qed.

Lemma list_del_page_keeps (p q : nat) (s : kstate) :
  q <> p -> (linked (list_del_page p s) q <-> linked s q).
Proof.
  intros Hq. unfold linked.
  split; intros [[i Hi] | [l Hl]].
  - left. exists i. cbn in Hi. rewrite !list_del_in_other in Hi by exact Hq.
    exact Hi.
  - right. exists l. rewrite lru_of_list_del_page in Hl. cbn in Hl.
    rewrite !list_del_in_other in Hl by exact Hq. exact Hl.
  - left. exists i. cbn. rewrite !list_del_in_other by exact Hq. exact Hi.
  - right. exists l. rewrite lru_of_list_del_page. cbn.
    rewrite !list_del_in_other by exact Hq. exact Hl.
Qed.

Lemma linked_set_desc (p : nat) (d : Z) (s : kstate) (q : nat) :
  linked (set_desc p d s) q <-> linked s q.
Proof.
  unfold linked. split; intros [[i Hi] | [l Hl]].
  - left. exists i. exact Hi.
  - right. exists l. destruct l; exact Hl.
  - left. exists i. exact Hi.
  - right. exists l. destruct l; exact Hl.
Qed.

(** ** Dropping a page from its LRU *)

(** C7.  [sgx_drop_epc_page] returns [-EBUSY] exactly when the page has both
    [RECLAIMABLE] and [RECLAIM_IN_PROGRESS] set, and then changes nothing;
    in every other case it returns [0], the page is on no list any more,
    both reclaim flags are clear, and the list membership of every other
    page is as before. *)
Theorem sgx_drop_epc_page_busy_or_detached (H : headers) (p : nat) (w : world) :
  let d := desc (pages (k w) p) in
  let r := sgx_drop_epc_page H p w in
  (fst r = - EBUSY <->
   flag_set d (SGX_EPC_PAGE_RECLAIMABLE H) /\
   flag_set d (SGX_EPC_PAGE_RECLAIM_IN_PROGRESS H)) /\
  (fst r = - EBUSY -> snd r = w) /\
  (fst r <> - EBUSY ->
   fst r = 0 /\
   ~ linked (k (snd r)) p /\
   Z.land (desc (pages (k (snd r)) p)) (SGX_EPC_PAGE_RECLAIMABLE H) = 0 /\
   Z.land (desc (pages (k (snd r)) p))
          (SGX_EPC_PAGE_RECLAIM_IN_PROGRESS H) = 0 /\
   (forall q, q <> p -> (linked (k (snd r)) q <-> linked (k w) q)) /\
   (forall q, q <> p -> pages (k (snd r)) q = pages (k w) q) /\
   trace (snd r) = trace w).
Proof.
  intros d r. subst r. unfold sgx_drop_epc_page, flag_set. mred.
  fold d.
  destruct (truthy (Z.land d (SGX_EPC_PAGE_RECLAIMABLE H))) eqn:Ha;
    destruct (truthy (Z.land d (SGX_EPC_PAGE_RECLAIM_IN_PROGRESS H))) eqn:Hb;
    cbn [andb fst snd k trace].
  1: { apply truthy_true in Ha, Hb.
       split; [ tauto | ].
       split; [ intros _; destruct w; reflexivity | ].
       intros Hne. exfalso. apply Hne. reflexivity. }
  all: split; [ split; [ unfold EBUSY; discriminate
                       | intros [Hx Hy]; apply truthy_true in Hx, Hy;
                         congruence ] | ].
  all: split; [ unfold EBUSY; discriminate | ].
  all: intros _; split; [ reflexivity | ].
  all: split; [ intros Hl; apply linked_set_desc in Hl;
                exact (list_del_page_unlinks _ _ Hl) | ].
  all: cbn [pages set_desc set_pages list_del_page]; unfold upd;
       rewrite Nat.eqb_refl; cbn [desc].
  all: split; [ apply clear_bits_lor_l | ].
  all: split; [ apply clear_bits_lor_r | ].
  all: split; [ intros q Hq; rewrite linked_set_desc;
                apply list_del_page_keeps; exact Hq | ].
  all: split; [ | reflexivity ].
  all: intros q Hq; apply Nat.eqb_neq in Hq; rewrite Hq; reflexivity.
Qed.

(** ** The free path *)

(** C9.  When [EREMOVE] fails, [sgx_free_epc_page] returns with the kernel
    data as it found them: the page is not put on the free list of its
    section, the free counter is not incremented, and the charge group
    pointer of the page is kept; the only effect is the [EREMOVE] call. *)
Theorem sgx_free_epc_page_eremove_failed
        (H : headers) (E : externals) (p : nat) (w : world) :
  env E (trace w) (eremove p) <> 0 ->
  let w' := snd (sgx_free_epc_page H E p w) in
  k w' = k w /\
  (forall i, page_list (sgx_epc_sections (k w') i) =
             page_list (sgx_epc_sections (k w) i) /\
             free_cnt (sgx_epc_sections (k w') i) =
             free_cnt (sgx_epc_sections (k w) i)) /\
  epc_cg (pages (k w') p) = epc_cg (pages (k w) p) /\
  trace w' = trace w ++ [(eremove p, env E (trace w) (eremove p))].
Proof.
  intros Hr. unfold sgx_free_epc_page. mred.
  apply truthy_true in Hr. rewrite Hr. cbn.
  repeat split; reflexivity.
Qed.

(** ** Reference counts *)

Lemma kref_put_eq (E : externals) (e : nat) (w : world) :
  kref_put E e w =
  (tt, mk_world (kref_put_k E e (k w))
                (trace w ++ kref_put_events e (k w))).
Proof.
  unfold kref_put, kref_put_k, kref_put_events. mred.
  destruct (Nat.eqb (refcount (encls (k w) e)) 1); cbn.
  - reflexivity.
  - rewrite app_nil_r. reflexivity.
Qed.

Lemma kref_get_unless_zero_zero (e : nat) (w : world) :
  refcount (encls (k w) e) = O -> kref_get_unless_zero e w = (false, w).
Proof.
  intros Hz. unfold kref_get_unless_zero. mred. rewrite Hz. reflexivity.
Qed.

Lemma kref_get_unless_zero_pos (e : nat) (w : world) :
  refcount (encls (k w) e) <> O ->
  kref_get_unless_zero e w =
  (true,
   mk_world (set_encl e (mk_encl (S (refcount (encls (k w) e)))
                           (flags (encls (k w) e))
                           (secs_child_cnt (encls (k w) e))
                           (secs (encls (k w) e)) (base (encls (k w) e))
                           (size (encls (k w) e)) (mm_list (encls (k w) e))
                           (va_pages (encls (k w) e))
                           (cpumask (encls (k w) e))) (k w))
            (trace w)).
Proof.
  intros Hz. unfold kref_get_unless_zero. mred.
  destruct (refcount (encls (k w) e)); [ congruence | reflexivity ].
Qed.

Lemma lru_of_set_lru (l : nat) (x : sgx_epc_lru) (s : kstate) :
  lru_of l (set_lru l x s) = x.
Proof.
  destruct l; cbn; [ reflexivity | ].
  unfold upd. rewrite Nat.eqb_refl. reflexivity.
Qed.

Lemma lru_of_set_lru_other (l l' : nat) (x : sgx_epc_lru) (s : kstate) :
  l' <> l -> lru_of l' (set_lru l x s) = lru_of l' s.
Proof.
  intros Hne. destruct l, l'; cbn; try reflexivity; try congruence.
  unfold upd. apply Nat.eqb_neq in Hne. rewrite Hne. reflexivity.
Qed.

(** ** Out of memory: the victim *)

Section Oom.

Variable H : headers.
Variable E : externals.

(** A refused reference changes no kernel data; the query of the virtual
    EPC module, when one is made, is in the trace. *)
Lemma sgx_oom_get_ref_refused (p : nat) (w : world) :
  oom_ref_available H E w p = false ->
  sgx_oom_get_ref H E p w =
  (false, mk_world (k w) (trace w ++ oom_ref_events H E w p)).
Proof.
  unfold oom_ref_available, oom_ref_events, sgx_oom_get_ref. intros Ha.
  unfold bind at 1. unfold get. cbv zeta in *.
  destruct (truthy (Z.land (desc (pages (k w) p)) (SGX_EPC_PAGE_ENCLAVE H))).
  - rewrite kref_get_unless_zero_zero.
    + rewrite app_nil_r. destruct w; reflexivity.
    + apply negb_false_iff in Ha. apply Nat.eqb_eq in Ha. exact Ha.
  - destruct (truthy (Z.land (desc (pages (k w) p))
                             (SGX_EPC_PAGE_VERSION_ARRAY H))).
    + rewrite kref_get_unless_zero_zero.
      * rewrite app_nil_r. destruct w; reflexivity.
      * apply negb_false_iff in Ha. apply Nat.eqb_eq in Ha. exact Ha.
    + unfold bind, ask, ret. cbv zeta. rewrite Ha. reflexivity.
Qed.

(** A reference that is given: the count of the enclave goes up by one for
    a page of an enclave or of a version array, and the virtual EPC module
    is asked for any other page. *)
Lemma sgx_oom_get_ref_given (p : nat) (w : world) :
  oom_ref_available H E w p = true ->
  sgx_oom_get_ref H E p w =
  (true,
   mk_world (if oom_virt_page H (k w) p then k w
             else inc_refcount (oom_victim_encl H (k w) p) (k w))
            (trace w ++ oom_ref_events H E w p)).
Proof.
  unfold oom_ref_available, oom_ref_events, sgx_oom_get_ref, oom_virt_page,
    oom_victim_encl.
  intros Ha. unfold bind at 1. unfold get. cbv zeta in *.
  destruct (truthy (Z.land (desc (pages (k w) p)) (SGX_EPC_PAGE_ENCLAVE H))).
  - cbn [negb andb]. rewrite kref_get_unless_zero_pos.
    + rewrite app_nil_r. reflexivity.
    + apply negb_true_iff in Ha. apply Nat.eqb_neq in Ha. exact Ha.
  - destruct (truthy (Z.land (desc (pages (k w) p))
                             (SGX_EPC_PAGE_VERSION_ARRAY H))).
    + cbn [negb andb]. rewrite kref_get_unless_zero_pos.
      * rewrite app_nil_r. reflexivity.
      * apply negb_true_iff in Ha. apply Nat.eqb_neq in Ha. exact Ha.
    + cbn [negb andb]. unfold bind, ask, ret. cbv zeta. rewrite Ha.
      reflexivity.
Qed.

(** Whether a reference is given depends on the pages, the enclave pages,
    the enclaves and the trace only. *)
Lemma oom_ref_available_fields (s s' : kstate) (t : list event) (p : nat) :
  pages s' = pages s -> encl_pages s' = encl_pages s -> encls s' = encls s ->
  oom_ref_available H E (mk_world s' t) p =
  oom_ref_available H E (mk_world s t) p.
Proof.
  intros Hp Hq He. unfold oom_ref_available. cbn [k trace].
  rewrite Hp, Hq, He. reflexivity.
Qed.

Lemma oom_ref_events_fields (s s' : kstate) (t : list event) (p : nat) :
  pages s' = pages s ->
  oom_ref_events H E (mk_world s' t) p = oom_ref_events H E (mk_world s t) p.
Proof.
  intros Hp. unfold oom_ref_events. cbn [k trace]. rewrite Hp. reflexivity.
Qed.

Lemma oom_refused_fields (s s' : kstate) (ps : list nat) :
  pages s' = pages s -> encl_pages s' = encl_pages s -> encls s' = encls s ->
  forall t, oom_refused H E s' t ps = oom_refused H E s t ps.
Proof.
  intros Hp Hq He. induction ps as [| q ps IH]; intros t; cbn [oom_refused].
  - reflexivity.
  - rewrite (oom_ref_available_fields s s' t q Hp Hq He).
    rewrite (oom_ref_events_fields s s' t q Hp). rewrite IH. reflexivity.
Qed.

(** The trace after a run of refusals: one query of the virtual EPC module,
    answered zero, for every page that is neither a page of an enclave nor
    a version array, in the order of the list. *)
Lemma oom_refused_trace (s : kstate) (ps : list nat) :
  forall t t1,
    oom_refused H E s t ps = Some t1 ->
    t1 = t ++ map (fun q => (sgx_virt_epc_get_ref q, 0))
                  (filter (oom_virt_page H s) ps).
Proof.
  induction ps as [| q ps IH]; intros t t1; cbn [oom_refused filter map].
  - intros Heq. injection Heq as <-. rewrite app_nil_r. reflexivity.
  - destruct (oom_ref_available H E (mk_world s t) q) eqn:Ha;
      [ discriminate | ].
    intros Hr. apply IH in Hr. rewrite Hr.
    unfold oom_ref_available in Ha. unfold oom_ref_events, oom_virt_page.
    cbn [k trace] in *.
    destruct (truthy (Z.land (desc (pages s q)) (SGX_EPC_PAGE_ENCLAVE H))).
    + cbn [negb andb]. rewrite app_nil_r. reflexivity.
    + destruct (truthy (Z.land (desc (pages s q))
                               (SGX_EPC_PAGE_VERSION_ARRAY H))).
      * cbn [negb andb]. rewrite app_nil_r. reflexivity.
      * cbn [negb andb map]. apply truthy_false in Ha. rewrite Ha.
        rewrite <- app_assoc. reflexivity.
Qed.

Lemma lru_of_same_fields (l : nat) (s s' : kstate) :
  sgx_global_lru s' = sgx_global_lru s ->
  cg_lru s' = cg_lru s ->
  lru_of l s' = lru_of l s.
Proof.
  intros Hg Hc. destruct l; cbn; [ exact Hg | rewrite Hc; reflexivity ].
Qed.

Lemma oom_victim_scan_cons (l p : nat) (rest : list nat) (w : world) :
  oom_victim_scan H E l (p :: rest) w =
  let '(g, w2) :=
    sgx_oom_get_ref H E p
      (mk_world (lru_pop_unreclaimable l (k w)) (trace w)) in
  if g then (Some p, w2) else oom_victim_scan H E l rest w2.
Proof.
  cbn [oom_victim_scan]. unfold bind, modify, ret.
  destruct (sgx_oom_get_ref H E p _) as [[|] w2]; reflexivity.
Qed.

Lemma lru_pop_unreclaimable_fields (l : nat) (s : kstate) :
  sgx_epc_sections (lru_pop_unreclaimable l s) = sgx_epc_sections s /\
  pages (lru_pop_unreclaimable l s) = pages s /\
  encl_pages (lru_pop_unreclaimable l s) = encl_pages s /\
  encls (lru_pop_unreclaimable l s) = encls s.
Proof.
  destruct l; repeat split; reflexivity.
Qed.

Lemma inc_refcount_fields (e : nat) (s : kstate) :
  sgx_epc_sections (inc_refcount e s) = sgx_epc_sections s /\
  sgx_global_lru (inc_refcount e s) = sgx_global_lru s /\
  cg_lru (inc_refcount e s) = cg_lru s /\
  pages (inc_refcount e s) = pages s /\
  encl_pages (inc_refcount e s) = encl_pages s.
Proof.
  repeat split; reflexivity.
Qed.

(** The scan stops at the first page whose owner gives a reference; every
    page before it, and that page, is off the list. *)
Lemma oom_victim_scan_spec (l : nat) (pre post : list nat) :
  forall w t,
    unreclaimable (lru_of l (k w)) = pre ++ post ->
    oom_refused H E (k w) (trace w) pre = Some t ->
    (forall p post', post = p :: post' ->
                     oom_ref_available H E (mk_world (k w) t) p = true) ->
    let r := oom_victim_scan H E l (pre ++ post) w in
    fst r = hd_error post /\
    unreclaimable (lru_of l (k (snd r))) = tl post /\
    reclaimable (lru_of l (k (snd r))) = reclaimable (lru_of l (k w)) /\
    (forall l', l' <> l -> lru_of l' (k (snd r)) = lru_of l' (k w)) /\
    sgx_epc_sections (k (snd r)) = sgx_epc_sections (k w) /\
    pages (k (snd r)) = pages (k w) /\
    encl_pages (k (snd r)) = encl_pages (k w) /\
    trace (snd r) =
    t ++ match post with
         | [] => []
         | p :: _ => oom_ref_events H E (mk_world (k w) t) p
         end /\
    encls (k (snd r)) =
    match post with
    | [] => encls (k w)
    | p :: _ => if oom_virt_page H (k w) p then encls (k w)
                else encls (inc_refcount (oom_victim_encl H (k w) p) (k w))
    end.
Proof.
  induction pre as [| q pre IH]; intros w t Hl Hpre Hpost.
  - cbn [app oom_refused] in *. injection Hpre as <-.
    destruct post as [| p post'].
    + cbn. rewrite Hl, app_nil_r. repeat split; reflexivity.
    + cbv zeta. rewrite oom_victim_scan_cons.
      set (s1 := lru_pop_unreclaimable l (k w)).
      destruct (lru_pop_unreclaimable_fields l (k w))
        as (Fs & Fp & Fq & Fe). fold s1 in Fs, Fp, Fq, Fe.
      assert (Ha : oom_ref_available H E (mk_world s1 (trace w)) p = true).
      { rewrite (oom_ref_available_fields (k w) s1 (trace w) p Fp Fq Fe).
        eapply Hpost. reflexivity. }
      rewrite (sgx_oom_get_ref_given p _ Ha). cbn [fst snd k trace hd_error tl].
      assert (Hv : oom_virt_page H s1 p = oom_virt_page H (k w) p).
      { unfold oom_virt_page. rewrite Fp. reflexivity. }
      assert (Hoe : oom_victim_encl H s1 p = oom_victim_encl H (k w) p).
      { unfold oom_victim_encl. rewrite Fp, Fq. reflexivity. }
      rewrite Hv, Hoe.
      rewrite (oom_ref_events_fields (k w) s1 (trace w) p Fp).
      set (s2 := if oom_virt_page H (k w) p then s1
                 else inc_refcount (oom_victim_encl H (k w) p) s1).
      assert (Hlru : forall l', lru_of l' s2 = lru_of l' s1).
      { intros l'. subst s2. destruct (oom_virt_page H (k w) p);
          [ reflexivity | ].
        apply lru_of_same_fields; reflexivity. }
      rewrite !Hlru. subst s1. unfold lru_pop_unreclaimable at 1 2.
      rewrite !lru_of_set_lru. cbn [unreclaimable reclaimable].
      rewrite Hl. cbn [tl].
      split; [ reflexivity | ]. split; [ reflexivity | ].
      split; [ reflexivity | ].
      split.
      { intros l' Hne. rewrite Hlru. unfold lru_pop_unreclaimable.
        apply lru_of_set_lru_other. exact Hne. }
      subst s2.
      destruct (oom_virt_page H (k w) p).
      * rewrite Fs, Fp, Fq, Fe. repeat split; reflexivity.
      * split; [ exact Fs | ]. split; [ exact Fp | ]. split; [ exact Fq | ].
        split; [ reflexivity | ].
        unfold inc_refcount, set_encl, set_encls. cbn [encls].
        rewrite Fe. reflexivity.
  - cbv zeta. cbn [app]. rewrite oom_victim_scan_cons.
    cbn [oom_refused] in Hpre.
    destruct (oom_ref_available H E (mk_world (k w) (trace w)) q) eqn:Hq;
      [ discriminate | ].
    set (s1 := lru_pop_unreclaimable l (k w)).
    destruct (lru_pop_unreclaimable_fields l (k w))
      as (Fs & Fp & Fq & Fe). fold s1 in Fs, Fp, Fq, Fe.
    assert (Ha : oom_ref_available H E (mk_world s1 (trace w)) q = false).
    { rewrite (oom_ref_available_fields (k w) s1 (trace w) q Fp Fq Fe).
      exact Hq. }
    rewrite (sgx_oom_get_ref_refused q _ Ha). cbn [k trace].
    rewrite (oom_ref_events_fields (k w) s1 (trace w) q Fp).
    set (w1 := mk_world s1
                 (trace w ++
                  oom_ref_events H E (mk_world (k w) (trace w)) q)).
    assert (Hl1 : unreclaimable (lru_of l (k w1)) = pre ++ post).
    { subst w1 s1. cbn [k]. unfold lru_pop_unreclaimable.
      rewrite lru_of_set_lru. cbn [unreclaimable]. rewrite Hl. reflexivity. }
    specialize (IH w1 t Hl1).
    destruct IH as (I1 & I2 & I3 & I4 & I5 & I6 & I7 & I8 & I9).
    { subst w1. cbn [k trace].
      rewrite (oom_refused_fields (k w) s1 pre Fp Fq Fe). exact Hpre. }
    { intros p post' Hp. subst w1. cbn [k].
      rewrite (oom_ref_available_fields (k w) s1 t p Fp Fq Fe).
      eapply Hpost. exact Hp. }
    assert (Hk1 : k w1 = s1) by reflexivity.
    rewrite Hk1 in *.
    split; [ exact I1 | ]. split; [ exact I2 | ].
    split.
    { rewrite I3. subst s1. unfold lru_pop_unreclaimable.
      rewrite lru_of_set_lru. reflexivity. }
    split.
    { intros l' Hne. rewrite I4 by exact Hne. subst s1.
      unfold lru_pop_unreclaimable. apply lru_of_set_lru_other. exact Hne. }
    split; [ rewrite I5; exact Fs | ].
    split; [ rewrite I6; exact Fp | ].
    split; [ rewrite I7; exact Fq | ].
    split.
    { rewrite I8. destruct post as [| p post']; [ reflexivity | ].
      rewrite (oom_ref_events_fields (k w) s1 t p Fp). reflexivity. }
    rewrite I9. destruct post as [| p post']; [ exact Fe | ].
    assert (Hv : oom_virt_page H s1 p = oom_virt_page H (k w) p).
    { unfold oom_virt_page. rewrite Fp. reflexivity. }
    assert (Hoe : oom_victim_encl H s1 p = oom_victim_encl H (k w) p).
    { unfold oom_victim_encl. rewrite Fp, Fq. reflexivity. }
    rewrite Hv, Hoe. destruct (oom_virt_page H (k w) p); [ exact Fe | ].
    unfold inc_refcount, set_encl, set_encls. cbn [encls].
    rewrite Fe. reflexivity.
Qed.

Lemma sgx_oom_get_victim_eq (l : nat) (w : world) :
  sgx_oom_get_victim H E l w =
  oom_victim_scan H E l (unreclaimable (lru_of l (k w))) w.
Proof.
  reflexivity.
Qed.

(** C10.  [sgx_oom_get_victim] unlinks every page it visits, whether or not
    the owner gives a reference.  Let the unreclaimable list be [pre ++
    post], let the owners of the pages of [pre], asked in turn, all refuse
    (every refused query of the virtual EPC module is recorded in the
    trace, answered zero), and let the first page of [post] (if any) give
    its reference after them.  Then the result is that page, the list that
    remains is the tail of [post], and no other list has changed, so no
    page of [pre] is put back anywhere.  The reference of a page is asked
    for in the world in which the page is already off the list.  When no
    page gives a reference, [sgx_epc_oom] returns [false] and leaves the
    unreclaimable list empty. *)
Theorem sgx_oom_get_victim_unlinks_scanned
        (l : nat) (w : world) (pre post : list nat) (t : list event) :
  unreclaimable (lru_of l (k w)) = pre ++ post ->
  oom_refused H E (k w) (trace w) pre = Some t ->
  (forall p post', post = p :: post' ->
                   oom_ref_available H E (mk_world (k w) t) p = true) ->
  let v := sgx_oom_get_victim H E l w in
  let r := sgx_epc_oom H E l w in
  fst v = hd_error post /\
  unreclaimable (lru_of l (k (snd v))) = tl post /\
  reclaimable (lru_of l (k (snd v))) = reclaimable (lru_of l (k w)) /\
  (forall l', l' <> l -> lru_of l' (k (snd v)) = lru_of l' (k w)) /\
  sgx_epc_sections (k (snd v)) = sgx_epc_sections (k w) /\
  pages (k (snd v)) = pages (k w) /\
  t = trace w ++ map (fun q => (sgx_virt_epc_get_ref q, 0))
                     (filter (oom_virt_page H (k w)) pre) /\
  trace (snd v) =
  t ++ match post with
       | [] => []
       | p :: _ => oom_ref_events H E (mk_world (k w) t) p
       end /\
  (forall p rest w1,
     oom_victim_scan H E l (p :: rest) w1 =
     let '(g, w2) :=
       sgx_oom_get_ref H E p
         (mk_world (lru_pop_unreclaimable l (k w1)) (trace w1)) in
     if g then (Some p, w2) else oom_victim_scan H E l rest w2) /\
  (post = [] ->
   fst r = Some false /\
   unreclaimable (lru_of l (k (snd r))) = [] /\
   reclaimable (lru_of l (k (snd r))) = reclaimable (lru_of l (k w)) /\
   (forall l', l' <> l -> lru_of l' (k (snd r)) = lru_of l' (k w)) /\
   sgx_epc_sections (k (snd r)) = sgx_epc_sections (k w) /\
   pages (k (snd r)) = pages (k w) /\
   encls (k (snd r)) = encls (k w) /\
   trace (snd r) = t).
Proof.
  intros Hl Hpre Hpost v r.
  pose proof (oom_victim_scan_spec l pre post w t Hl Hpre Hpost) as Hs.
  cbv zeta in Hs. rewrite <- Hl, <- sgx_oom_get_victim_eq in Hs.
  fold v in Hs.
  destruct Hs as (S1 & S2 & S3 & S4 & S5 & S6 & S7 & S8 & S9).
  split; [ exact S1 | ]. split; [ exact S2 | ]. split; [ exact S3 | ].
  split; [ exact S4 | ]. split; [ exact S5 | ]. split; [ exact S6 | ].
  split; [ apply oom_refused_trace; exact Hpre | ].
  split; [ exact S8 | ].
  split; [ intros p rest w1; apply oom_victim_scan_cons | ].
  intros Hnil. subst post. cbn [hd_error tl] in *.
  assert (Hr : r = (Some false, snd v)).
  { subst r. unfold sgx_epc_oom, bind. fold v.
    destruct v as [o w1]. cbn [fst snd] in *. subst o. reflexivity. }
  rewrite Hr. cbn [fst snd]. rewrite app_nil_r in S8.
  repeat split; assumption.
Qed.

(** ** Out of memory: the kill *)

Lemma zap_page_ranges_eq (mm : nat) (zaps : list (Z * Z)) :
  forall w,
    zap_page_ranges mm zaps w =
    (tt, mk_world (k w) (trace w ++ zap_events mm zaps)).
Proof.
  induction zaps as [| [a sz] zaps IH]; intros w.
  - cbn. unfold ret. rewrite app_nil_r. destruct w; reflexivity.
  - cbn [zap_page_ranges]. unfold bind, tell. rewrite IH. cbn [k trace].
    unfold zap_events. cbn [map fst snd]. rewrite <- app_assoc.
    reflexivity.
Qed.

(** [sgx_epc_oom_zap] makes the calls of [zap_page_range] that the walk
    over the VMAs has reached, and returns unless the walk has read through
    a [NULL] pointer. *)
Lemma sgx_epc_oom_zap_eq (owner mm : nat) (a b : Z) (ops : nat) (w : world) :
  sgx_epc_oom_zap E owner mm a b ops w =
  match Vma.sgx_epc_oom_zap owner (find_vma E mm a) b ops with
  | Vma.returned zaps =>
      (true, mk_world (k w) (trace w ++ zap_events mm zaps))
  | Vma.null_dereference zaps =>
      (false, mk_world (k w) (trace w ++ zap_events mm zaps))
  end.
Proof.
  unfold sgx_epc_oom_zap.
  destruct (Vma.sgx_epc_oom_zap owner (find_vma E mm a) b ops) as [z | z];
    unfold bind; rewrite zap_page_ranges_eq; reflexivity.
Qed.

(** The walk of [sgx_oom_encl] ends at the first mm whose VMAs make
    [sgx_epc_oom_zap] read through [NULL]. *)
Lemma oom_zap_walk_faults (e mm : nat) (a b : Z) (mms : list nat)
      (zaps : list (Z * Z)) (w : world) :
  env E (trace w) (mmget_not_zero mm) <> 0 ->
  Vma.sgx_epc_oom_zap e (find_vma E mm a) b (sgx_vm_ops E) =
  Vma.null_dereference zaps ->
  oom_zap_walk E e a b (mm :: mms) w =
  (false,
   mk_world (k w)
            (trace w ++
             [(mmget_not_zero mm, env E (trace w) (mmget_not_zero mm))] ++
             zap_events mm zaps)).
Proof.
  intros Hg Hz. cbn [oom_zap_walk]. unfold bind at 1. unfold ask. cbv zeta.
  apply truthy_true in Hg. rewrite Hg.
  unfold bind, ret. rewrite sgx_epc_oom_zap_eq, Hz. cbn [k trace].
  rewrite <- app_assoc. reflexivity.
Qed.

Lemma encls_set_flags_same (e : nat) (f : Z) (s : kstate) :
  encls (set_flags e f s) e =
  mk_encl (refcount (encls s e)) f (secs_child_cnt (encls s e))
          (secs (encls s e)) (base (encls s e)) (size (encls s e))
          (mm_list (encls s e)) (va_pages (encls s e)) (cpumask (encls s e)).
Proof.
  unfold set_flags, set_encl, set_encls, upd. cbn [encls].
  rewrite Nat.eqb_refl. reflexivity.
Qed.

(** [sgx_oom_encl] on an enclave that is created and neither dead nor
    marked, whose first mm gives a reference and has VMAs on which
    [sgx_epc_oom_zap] reads through [NULL]: the mark is set, and neither
    [sgx_encl_destroy] nor [kref_put] is reached. *)
Lemma sgx_oom_encl_faults (e mm : nat) (mms : list nat)
      (zaps : list (Z * Z)) (w : world) :
  let x := encls (k w) e in
  oom_encl_early H (flags x) = false ->
  mm_list x = mm :: mms ->
  env E (trace w) (mmget_not_zero mm) <> 0 ->
  Vma.sgx_epc_oom_zap e (find_vma E mm (base x))
                      (wrap64 (base x + size x)) (sgx_vm_ops E) =
  Vma.null_dereference zaps ->
  sgx_oom_encl H E e w =
  (false,
   mk_world (set_flags e (Z.lor (flags x) (SGX_ENCL_OOM H)) (k w))
            (trace w ++
             [(mmget_not_zero mm, env E (trace w) (mmget_not_zero mm))] ++
             zap_events mm zaps)).
Proof.
  intros x Hearly Hmm Hg Hz. unfold sgx_oom_encl.
  unfold bind at 1. unfold get. cbv zeta.
  unfold bind at 1. unfold modify at 1.
  unfold oom_encl_early in Hearly. fold x. rewrite Hearly.
  unfold bind at 1. unfold get. cbn [k trace].
  rewrite encls_set_flags_same. fold x. cbn [base size mm_list].
  rewrite Hmm. unfold bind.
  rewrite (oom_zap_walk_faults e mm _ _ mms zaps); [ reflexivity | | ].
  - cbn [trace]. exact Hg.
  - exact Hz.
Qed.

Lemma oom_ref_events_counted (w : world) (p : nat) :
  oom_virt_page H (k w) p = false -> oom_ref_events H E w p = [].
Proof.
  unfold oom_virt_page, oom_ref_events. cbv zeta.
  destruct (truthy (Z.land (desc (pages (k w) p)) (SGX_EPC_PAGE_ENCLAVE H)));
    [ reflexivity | ].
  destruct (truthy (Z.land (desc (pages (k w) p))
                           (SGX_EPC_PAGE_VERSION_ARRAY H)));
    [ reflexivity | discriminate ].
Qed.

Lemma oom_ref_available_counted (w : world) (p : nat) :
  oom_virt_page H (k w) p = false ->
  oom_ref_available H E w p =
  negb (Nat.eqb (refcount (encls (k w) (oom_victim_encl H (k w) p))) 0).
Proof.
  unfold oom_virt_page, oom_ref_available, oom_victim_encl. cbv zeta.
  destruct (truthy (Z.land (desc (pages (k w) p)) (SGX_EPC_PAGE_ENCLAVE H)));
    [ reflexivity | ].
  destruct (truthy (Z.land (desc (pages (k w) p))
                           (SGX_EPC_PAGE_VERSION_ARRAY H)));
    [ reflexivity | discriminate ].
Qed.

Lemma encls_inc_refcount_same (e : nat) (s : kstate) :
  encls (inc_refcount e s) e =
  mk_encl (S (refcount (encls s e))) (flags (encls s e))
          (secs_child_cnt (encls s e)) (secs (encls s e))
          (base (encls s e)) (size (encls s e)) (mm_list (encls s e))
          (va_pages (encls s e)) (cpumask (encls s e)).
Proof.
  unfold inc_refcount, set_encl, set_encls, upd. cbn [encls].
  rewrite Nat.eqb_refl. reflexivity.
Qed.

(** [sgx_epc_oom] with a first unreclaimable page of an enclave or of a
    version array that gives its reference: the page is the victim, and
    [sgx_oom_encl] runs on its enclave with the reference taken. *)
Lemma sgx_epc_oom_counted_head (l p : nat) (rest : list nat) (w : world) :
  let e := oom_victim_encl H (k w) p in
  unreclaimable (lru_of l (k w)) = p :: rest ->
  oom_virt_page H (k w) p = false ->
  refcount (encls (k w) e) <> O ->
  sgx_epc_oom H E l w =
  let o := sgx_oom_encl H E e
             (mk_world (inc_refcount e (lru_pop_unreclaimable l (k w)))
                       (trace w)) in
  (if fst o then Some true else None, snd o).
Proof.
  intros e Hl Hv Hr. unfold sgx_epc_oom. unfold bind at 1.
  rewrite sgx_oom_get_victim_eq, Hl, oom_victim_scan_cons.
  set (s1 := lru_pop_unreclaimable l (k w)).
  destruct (lru_pop_unreclaimable_fields l (k w)) as (Fs & Fp & Fq & Fe).
  fold s1 in Fs, Fp, Fq, Fe.
  assert (Hv1 : oom_virt_page H s1 p = false).
  { unfold oom_virt_page. rewrite Fp. exact Hv. }
  assert (He1 : oom_victim_encl H s1 p = e).
  { unfold oom_victim_encl. rewrite Fp, Fq. reflexivity. }
  assert (Ha : oom_ref_available H E (mk_world s1 (trace w)) p = true).
  { rewrite oom_ref_available_counted by exact Hv1. cbn [k].
    rewrite He1, Fe. apply negb_true_iff. apply Nat.eqb_neq. exact Hr. }
  rewrite (sgx_oom_get_ref_given p _ Ha). cbn [k trace].
  rewrite Hv1, He1.
  rewrite (oom_ref_events_counted (mk_world s1 (trace w)) p Hv1).
  rewrite app_nil_r.
  unfold bind at 1. unfold get. cbn [k].
  assert (Hp2 : pages (inc_refcount e s1) = pages (k w)) by exact Fp.
  assert (Hq2 : encl_pages (inc_refcount e s1) = encl_pages (k w))
    by exact Fq.
  rewrite Hp2, Hq2.
  unfold oom_virt_page in Hv. subst e. unfold oom_victim_encl.
  destruct (truthy (Z.land (desc (pages (k w) p)) (SGX_EPC_PAGE_ENCLAVE H))).
  - unfold bind. cbv zeta. destruct (sgx_oom_encl H E _ _) as [[|] w2];
      reflexivity.
  - destruct (truthy (Z.land (desc (pages (k w) p))
                             (SGX_EPC_PAGE_VERSION_ARRAY H)));
      [ | discriminate ].
    unfold bind. cbv zeta. destruct (sgx_oom_encl H E _ _) as [[|] w2];
      reflexivity.
Qed.

(** C8, where the code departs from it.  Let the first page of the
    unreclaimable list belong to an enclave (as an enclave page or as a
    version array) that gives its reference, is created and is neither dead
    nor marked; let the first mm of the enclave give a reference, and let
    its VMAs be such that [sgx_epc_oom_zap] reads [tmp->vm_start] through a
    [NULL] pointer (one VMA of another mapping, the last of the mm, behind
    the VMAs of the enclave).  Then [sgx_epc_oom] does not return [true]:
    it has unlinked the victim, taken the reference, set the OOM mark and
    zapped the ranges reached so far, and stops in [sgx_epc_oom_zap];
    [sgx_encl_destroy] is not called and the reference is not put. *)
Theorem sgx_epc_oom_null_dereference
        (l : nat) (w : world) (p : nat) (rest : list nat)
        (mm : nat) (mms : list nat) (zaps : list (Z * Z)) :
  let e := oom_victim_encl H (k w) p in
  let x := encls (k w) e in
  unreclaimable (lru_of l (k w)) = p :: rest ->
  oom_virt_page H (k w) p = false ->
  refcount x <> O ->
  oom_encl_early H (flags x) = false ->
  mm_list x = mm :: mms ->
  env E (trace w) (mmget_not_zero mm) <> 0 ->
  Vma.sgx_epc_oom_zap e (find_vma E mm (base x))
                      (wrap64 (base x + size x)) (sgx_vm_ops E) =
  Vma.null_dereference zaps ->
  let r := sgx_epc_oom H E l w in
  let made := [(mmget_not_zero mm, env E (trace w) (mmget_not_zero mm))] ++
              zap_events mm zaps in
  oom_ref_available H E w p = true /\
  fst r = None /\
  k (snd r) =
  set_flags e (Z.lor (flags x) (SGX_ENCL_OOM H))
            (inc_refcount e (lru_pop_unreclaimable l (k w))) /\
  trace (snd r) = trace w ++ made /\
  ~ In (call_sgx_encl_destroy e, 0) made /\
  unreclaimable (lru_of l (k (snd r))) = rest /\
  refcount (encls (k (snd r)) e) = S (refcount x) /\
  flags (encls (k (snd r)) e) = Z.lor (flags x) (SGX_ENCL_OOM H).
Proof.
  intros e x Hl Hv Hr Hearly Hmm Hg Hz r made.
  split.
  { rewrite oom_ref_available_counted by exact Hv.
    apply negb_true_iff. apply Nat.eqb_neq. exact Hr. }
  set (s1 := lru_pop_unreclaimable l (k w)).
  destruct (lru_pop_unreclaimable_fields l (k w)) as (Fs & Fp & Fq & Fe).
  fold s1 in Fs, Fp, Fq, Fe.
  assert (Hx : encls (inc_refcount e s1) e =
               mk_encl (S (refcount x)) (flags x) (secs_child_cnt x)
                       (secs x) (base x) (size x) (mm_list x) (va_pages x)
                       (cpumask x)).
  { rewrite encls_inc_refcount_same. rewrite Fe. reflexivity. }
  assert (Heq : r =
    (None,
     mk_world (set_flags e (Z.lor (flags x) (SGX_ENCL_OOM H))
                 (inc_refcount e s1))
              (trace w ++ made))).
  { subst r. rewrite (sgx_epc_oom_counted_head l p rest w Hl Hv Hr).
    fold e. fold s1. cbv zeta.
    rewrite (sgx_oom_encl_faults e mm mms zaps).
    - cbn [fst snd k trace]. rewrite Hx. reflexivity.
    - cbn [k]. rewrite Hx. exact Hearly.
    - cbn [k]. rewrite Hx. exact Hmm.
    - exact Hg.
    - cbn [k]. rewrite Hx. exact Hz. }
  rewrite Heq. cbn [fst snd k trace].
  split; [ reflexivity | ]. split; [ reflexivity | ].
  split; [ reflexivity | ].
  split.
  { subst made. intros [Hin | Hin]; [ discriminate | ].
    unfold zap_events in Hin. apply in_map_iff in Hin.
    destruct Hin as (z & Hzz & _). discriminate. }
  split.
  { assert (Hlru : lru_of l (set_flags e (Z.lor (flags x) (SGX_ENCL_OOM H))
                               (inc_refcount e s1)) = lru_of l s1).
    { apply lru_of_same_fields; reflexivity. }
    rewrite Hlru. subst s1. unfold lru_pop_unreclaimable.
    rewrite lru_of_set_lru. cbn [unreclaimable]. rewrite Hl. reflexivity. }
  rewrite encls_set_flags_same, Hx. split; reflexivity.
Qed.

End Oom.

(** ** Isolation *)

Section Isolate.

Variable H : headers.

Lemma isolate_loop_S (f l : nat) (n : Z) (dst : list nat) (w : world) :
  n > 0 ->
  isolate_loop H (S f) l n dst w =
  match reclaimable (lru_of l (k w)) with
  | [] => ((n, dst), w)
  | p :: _ =>
      if negb (truthy (Z.land (desc (pages (k w) p)) (SGX_EPC_PAGE_ENCLAVE H)))
      then isolate_loop H f l (n - 1) dst w
      else if encl_live (k w) p
           then isolate_loop H f l (n - 1) (dst ++ [p])
                             (mk_world (iso_take H l p (k w)) (trace w))
           else isolate_loop H f l (n - 1) dst
                             (mk_world (iso_drop H l p (k w)) (trace w))
  end.
Proof.
  intros Hn. cbn [isolate_loop].
  assert (Hgt : (n >? 0) = true) by (apply Z.gtb_lt; lia).
  rewrite Hgt. unfold bind at 1. unfold get at 1.
  destruct (reclaimable (lru_of l (k w))) as [| p rest];
    [ destruct w; reflexivity | ].
  destruct (negb (truthy (Z.land (desc (pages (k w) p))
                                 (SGX_EPC_PAGE_ENCLAVE H)))).
  { destruct w; reflexivity. }
  unfold encl_live, encl_of, iso_take, iso_drop, inc_refcount, encl_of.
  unfold bind at 1. unfold kref_get_unless_zero, bind, get, modify, ret.
  cbn [k trace].
  destruct (refcount (encls (k w)
                        (encl (encl_pages (k w) (owner (pages (k w) p))))))
    eqn:Hrc; cbn [Nat.eqb negb].
  - destruct w; reflexivity.
  - reflexivity.
Qed.

Lemma lru_of_set_desc (l p : nat) (d : Z) (s : kstate) :
  lru_of l (set_desc p d s) = lru_of l s.
Proof.
  destruct l; reflexivity.
Qed.

Lemma lru_of_inc_refcount (l e : nat) (s : kstate) :
  lru_of l (inc_refcount e s) = lru_of l s.
Proof.
  destruct l; reflexivity.
Qed.

Lemma lru_of_pop_reclaimable (l : nat) (s : kstate) :
  lru_of l (lru_pop_reclaimable l s) =
  mk_lru (tl (reclaimable (lru_of l s))) (unreclaimable (lru_of l s)).
Proof.
  unfold lru_pop_reclaimable. apply lru_of_set_lru.
Qed.

Lemma lru_of_pop_reclaimable_other (l l' : nat) (s : kstate) :
  l' <> l -> lru_of l' (lru_pop_reclaimable l s) = lru_of l' s.
Proof.
  intros Hne. unfold lru_pop_reclaimable. apply lru_of_set_lru_other.
  exact Hne.
Qed.

Lemma pages_pop_reclaimable (l : nat) (s : kstate) :
  pages (lru_pop_reclaimable l s) = pages s /\
  encl_pages (lru_pop_reclaimable l s) = encl_pages s /\
  encls (lru_pop_reclaimable l s) = encls s /\
  sgx_epc_sections (lru_pop_reclaimable l s) = sgx_epc_sections s.
Proof.
  destruct l; repeat split; reflexivity.
Qed.

Lemma iso_take_frame (l p : nat) (s : kstate) :
  let s' := iso_take H l p s in
  reclaimable (lru_of l s') = tl (reclaimable (lru_of l s)) /\
  unreclaimable (lru_of l s') = unreclaimable (lru_of l s) /\
  (forall l', l' <> l -> lru_of l' s' = lru_of l' s) /\
  sgx_epc_sections s' = sgx_epc_sections s /\
  encl_pages s' = encl_pages s /\
  (forall q, owner (pages s' q) = owner (pages s q)) /\
  desc (pages s' p) =
  Z.lor (desc (pages s p)) (SGX_EPC_PAGE_RECLAIM_IN_PROGRESS H) /\
  (forall q, q <> p -> desc (pages s' q) = desc (pages s q)) /\
  (forall e, refcount (encls s' e) =
             if Nat.eqb e (encl_of s p) then S (refcount (encls s e))
             else refcount (encls s e)).
Proof.
  intros s'. subst s'. unfold iso_take.
  rewrite lru_of_pop_reclaimable, lru_of_set_desc, lru_of_inc_refcount.
  cbn [reclaimable unreclaimable].
  destruct (pages_pop_reclaimable l
              (set_desc p (Z.lor (desc (pages s p))
                                 (SGX_EPC_PAGE_RECLAIM_IN_PROGRESS H))
                 (inc_refcount (encl_of s p) s))) as (Hp & Hep & He & Hs).
  rewrite Hp, Hep, He, Hs.
  split; [ reflexivity | ]. split; [ reflexivity | ].
  split.
  { intros l' Hne. rewrite lru_of_pop_reclaimable_other by exact Hne.
    rewrite lru_of_set_desc, lru_of_inc_refcount. reflexivity. }
  split; [ reflexivity | ]. split; [ reflexivity | ].
  cbn [set_desc set_pages pages inc_refcount set_encl set_encls encls].
  unfold upd.
  split.
  { intros q. destruct (Nat.eqb q p) eqn:Hq; [ | reflexivity ].
    apply Nat.eqb_eq in Hq. subst q. reflexivity. }
  split; [ rewrite Nat.eqb_refl; reflexivity | ].
  split.
  { intros q Hq. apply Nat.eqb_neq in Hq. rewrite Hq. reflexivity. }
  intros e. destruct (Nat.eqb e (encl_of s p)) eqn:Hq; [ | reflexivity ].
  apply Nat.eqb_eq in Hq. subst e. reflexivity.
Qed.

Lemma iso_drop_frame (l p : nat) (s : kstate) :
  let s' := iso_drop H l p s in
  reclaimable (lru_of l s') = tl (reclaimable (lru_of l s)) /\
  unreclaimable (lru_of l s') = unreclaimable (lru_of l s) /\
  (forall l', l' <> l -> lru_of l' s' = lru_of l' s) /\
  sgx_epc_sections s' = sgx_epc_sections s /\
  encl_pages s' = encl_pages s /\
  (forall q, owner (pages s' q) = owner (pages s q)) /\
  desc (pages s' p) =
  clear_bits (desc (pages s p)) (SGX_EPC_PAGE_RECLAIMABLE H) /\
  (forall q, q <> p -> desc (pages s' q) = desc (pages s q)) /\
  encls s' = encls s.
Proof.
  intros s'. subst s'. unfold iso_drop.
  rewrite lru_of_pop_reclaimable, lru_of_set_desc.
  cbn [reclaimable unreclaimable].
  destruct (pages_pop_reclaimable l
              (set_desc p (clear_bits (desc (pages s p))
                                      (SGX_EPC_PAGE_RECLAIMABLE H)) s))
    as (Hp & Hep & He & Hs).
  rewrite Hp, Hep, He, Hs.
  split; [ reflexivity | ]. split; [ reflexivity | ].
  split.
  { intros l' Hne. rewrite lru_of_pop_reclaimable_other by exact Hne.
    rewrite lru_of_set_desc. reflexivity. }
  split; [ reflexivity | ]. split; [ reflexivity | ].
  cbn [set_desc set_pages pages]. unfold upd.
  split.
  { intros q. destruct (Nat.eqb q p) eqn:Hq; [ | reflexivity ].
    apply Nat.eqb_eq in Hq. subst q. reflexivity. }
  split; [ rewrite Nat.eqb_refl; reflexivity | ].
  split; [ | reflexivity ].
  intros q Hq. apply Nat.eqb_neq in Hq. rewrite Hq. reflexivity.
Qed.

Lemma iso_stable_encl_of (s s' : kstate) (q : nat) :
  iso_stable s s' -> encl_of s' q = encl_of s q.
Proof.
  intros (Hep & Ho & _). unfold encl_of. rewrite Hep, Ho. reflexivity.
Qed.

Lemma iso_stable_encl_live (s s' : kstate) (q : nat) :
  iso_stable s s' -> encl_live s' q = encl_live s q.
Proof.
  intros Hst. unfold encl_live.
  rewrite (iso_stable_encl_of s s' q Hst).
  destruct Hst as (_ & _ & Hz). specialize (Hz (encl_of s q)).
  destruct (Nat.eqb_spec (refcount (encls s' (encl_of s q))) 0) as [Ha | Ha];
    destruct (Nat.eqb_spec (refcount (encls s (encl_of s q))) 0) as [Hb | Hb];
    try reflexivity; exfalso; tauto.
Qed.

Lemma iso_take_stable (l p : nat) (s : kstate) :
  encl_live s p = true -> iso_stable s (iso_take H l p s).
Proof.
  intros Hlive.
  destruct (iso_take_frame l p s) as (_ & _ & _ & _ & Hep & Ho & _ & _ & Hr).
  split; [ exact Hep | ]. split; [ exact Ho | ].
  intros e. rewrite Hr. destruct (Nat.eqb_spec e (encl_of s p)) as [-> | Hne].
  - unfold encl_live in Hlive. apply negb_true_iff in Hlive.
    apply Nat.eqb_neq in Hlive. split; [ discriminate | tauto ].
  - tauto.
Qed.

Lemma iso_drop_stable (l p : nat) (s : kstate) :
  iso_stable s (iso_drop H l p s).
Proof.
  destruct (iso_drop_frame l p s) as (_ & _ & _ & _ & Hep & Ho & _ & _ & Hr).
  split; [ exact Hep | ]. split; [ exact Ho | ]. rewrite Hr. tauto.
Qed.

Lemma iso_stable_refl (s : kstate) : iso_stable s s.
Proof.
  split; [ reflexivity | ]. split; [ reflexivity | ]. tauto.
Qed.

Lemma iso_stable_trans (s1 s2 s3 : kstate) :
  iso_stable s1 s2 -> iso_stable s2 s3 -> iso_stable s1 s3.
Proof.
  intros (A1 & A2 & A3) (B1 & B2 & B3).
  split; [ congruence | ]. split; [ intros q; rewrite B2; apply A2 | ].
  intros e. rewrite B3. apply A3.
Qed.

Lemma taken_stable (s s' : kstate) (ps : list nat) :
  iso_stable s s' -> taken s' ps = taken s ps.
Proof.
  intros Hst. unfold taken. apply filter_ext.
  intros q. apply iso_stable_encl_live. exact Hst.
Qed.

Lemma taken_of_stable (s s' : kstate) (e : nat) (ps : list nat) :
  iso_stable s s' -> taken_of s' e ps = taken_of s e ps.
Proof.
  intros Hst. unfold taken_of. rewrite (taken_stable s s' ps Hst).
  f_equal. apply filter_ext. intros q.
  rewrite (iso_stable_encl_of s s' q Hst). reflexivity.
Qed.

Lemma isolate_loop_spec (fuel : nat) :
  forall (l : nat) (w : world) (dst : list nat),
    let recl := reclaimable (lru_of l (k w)) in
    let scanned := firstn fuel recl in
    NoDup recl ->
    (forall p, In p scanned ->
               flag_set (desc (pages (k w) p)) (SGX_EPC_PAGE_ENCLAVE H)) ->
    let r := isolate_loop H fuel l (Z.of_nat fuel) dst w in
    let s' := k (snd r) in
    fst (fst r) = Z.of_nat fuel - Z.of_nat (length scanned) /\
    snd (fst r) = dst ++ taken (k w) scanned /\
    reclaimable (lru_of l s') = skipn fuel recl /\
    unreclaimable (lru_of l s') = unreclaimable (lru_of l (k w)) /\
    (forall l', l' <> l -> lru_of l' s' = lru_of l' (k w)) /\
    sgx_epc_sections s' = sgx_epc_sections (k w) /\
    trace (snd r) = trace w /\
    iso_stable (k w) s' /\
    (forall q, In q scanned -> encl_live (k w) q = true ->
               desc (pages s' q) =
               Z.lor (desc (pages (k w) q))
                     (SGX_EPC_PAGE_RECLAIM_IN_PROGRESS H)) /\
    (forall q, In q scanned -> encl_live (k w) q = false ->
               desc (pages s' q) =
               clear_bits (desc (pages (k w) q))
                          (SGX_EPC_PAGE_RECLAIMABLE H)) /\
    (forall q, ~ In q scanned -> desc (pages s' q) = desc (pages (k w) q)) /\
    (forall e, refcount (encls s' e) =
               (refcount (encls (k w) e) + taken_of (k w) e scanned)%nat).
Proof.
  induction fuel as [| f IH]; intros l w dst recl scanned Hnd Henc r s'.
  - subst r s' scanned. cbn. unfold ret. cbn.
    rewrite app_nil_r.
    split; [ reflexivity | ]. split; [ reflexivity | ].
    split; [ reflexivity | ]. split; [ reflexivity | ].
    split; [ reflexivity | ]. split; [ reflexivity | ].
    split; [ reflexivity | ]. split; [ apply iso_stable_refl | ].
    split; [ tauto | ]. split; [ tauto | ]. split; [ reflexivity | ].
    intros e. unfold taken_of. cbn. lia.
  - subst r s'. rewrite isolate_loop_S by lia.
    fold recl. subst scanned.
    destruct recl as [| p rest] eqn:Hrecl.
    + cbn. rewrite app_nil_r.
      split; [ lia | ]. split; [ reflexivity | ].
      split; [ exact Hrecl | ]. split; [ reflexivity | ].
      split; [ reflexivity | ]. split; [ reflexivity | ].
      split; [ reflexivity | ]. split; [ apply iso_stable_refl | ].
      split; [ tauto | ]. split; [ tauto | ]. split; [ reflexivity | ].
      intros e. unfold taken_of. cbn. lia.
    + assert (Hp : truthy (Z.land (desc (pages (k w) p))
                                  (SGX_EPC_PAGE_ENCLAVE H)) = true).
      { apply truthy_true. apply Henc. left. reflexivity. }
      rewrite Hp. cbn [negb].
      replace (Z.of_nat (S f) - 1) with (Z.of_nat f) by lia.
      inversion Hnd as [| p' rest' Hnotin Hnd' ]; subst p' rest'.
      cbn [firstn skipn length] in *.
      destruct (encl_live (k w) p) eqn:Hlive.
      * pose proof (iso_take_frame l p (k w)) as Hf. cbv zeta in Hf.
        destruct Hf as (F1 & F2 & F3 & F4 & F5 & F6 & F7 & F8 & F9).
        pose proof (iso_take_stable l p (k w) Hlive) as Hst.
        set (w1 := mk_world (iso_take H l p (k w)) (trace w)) in *.
        assert (Hrecl1 : reclaimable (lru_of l (k w1)) = rest).
        { subst w1. cbn [k]. rewrite F1. unfold recl in Hrecl.
          rewrite Hrecl. reflexivity. }
        specialize (IH l w1 (dst ++ [p])). cbv zeta in IH.
        rewrite Hrecl1 in IH.
        destruct IH as (I1 & I2 & I3 & I4 & I5 & I6 & I7 & I8 & I9 & I10
                        & I11 & I12).
        { exact Hnd'. }
        { intros q Hq. unfold flag_set. subst w1. cbn [k].
          rewrite F8.
          - apply Henc. right. exact Hq.
          - intros ->. apply Hnotin. eapply In_firstn. exact Hq. }
        split; [ rewrite I1; lia | ].
        split.
        { rewrite I2. subst w1. cbn [k].
          rewrite (taken_stable _ _ _ Hst). unfold taken at 2.
          cbn [filter]. rewrite Hlive. rewrite <- app_assoc. reflexivity. }
        split; [ exact I3 | ].
        split; [ rewrite I4; exact F2 | ].
        split; [ intros l' Hne; rewrite I5 by exact Hne; apply F3; exact Hne | ].
        split; [ rewrite I6; exact F4 | ].
        split; [ exact I7 | ].
        split; [ eapply iso_stable_trans; [ exact Hst | exact I8 ] | ].
        split.
        { intros q [<- | Hq] Hl.
          - rewrite I11; [ exact F7 | ].
            intros Hin. apply Hnotin. eapply In_firstn. exact Hin.
          - rewrite I9; [ | exact Hq | ].
            + subst w1. cbn [k]. rewrite F8; [ reflexivity | ].
              intros ->. apply Hnotin. eapply In_firstn. exact Hq.
            + subst w1. cbn [k]. rewrite (iso_stable_encl_live _ _ q Hst).
              exact Hl. }
        split.
        { intros q [<- | Hq] Hl; [ congruence | ].
          rewrite I10; [ | exact Hq | ].
          - subst w1. cbn [k]. rewrite F8; [ reflexivity | ].
            intros ->. apply Hnotin. eapply In_firstn. exact Hq.
          - subst w1. cbn [k]. rewrite (iso_stable_encl_live _ _ q Hst).
            exact Hl. }
        split.
        { intros q Hq. rewrite I11.
          - subst w1. cbn [k]. apply F8. intros ->. apply Hq. left. reflexivity.
          - intros Hin. apply Hq. right. exact Hin. }
        intros e. rewrite I12. subst w1. cbn [k].
        rewrite (taken_of_stable _ _ e _ Hst). rewrite F9.
        unfold taken_of, taken. cbn [filter]. rewrite Hlive. cbn [filter].
        rewrite (Nat.eqb_sym e). destruct (Nat.eqb (encl_of (k w) p) e);
          cbn [length]; lia.
      * pose proof (iso_drop_frame l p (k w)) as Hf. cbv zeta in Hf.
        destruct Hf as (F1 & F2 & F3 & F4 & F5 & F6 & F7 & F8 & F9).
        pose proof (iso_drop_stable l p (k w)) as Hst.
        set (w1 := mk_world (iso_drop H l p (k w)) (trace w)) in *.
        assert (Hrecl1 : reclaimable (lru_of l (k w1)) = rest).
        { subst w1. cbn [k]. rewrite F1. unfold recl in Hrecl.
          rewrite Hrecl. reflexivity. }
        specialize (IH l w1 dst). cbv zeta in IH.
        rewrite Hrecl1 in IH.
        destruct IH as (I1 & I2 & I3 & I4 & I5 & I6 & I7 & I8 & I9 & I10
                        & I11 & I12).
        { exact Hnd'. }
        { intros q Hq. unfold flag_set. subst w1. cbn [k].
          rewrite F8.
          - apply Henc. right. exact Hq.
          - intros ->. apply Hnotin. eapply In_firstn. exact Hq. }
        split; [ rewrite I1; lia | ].
        split.
        { rewrite I2. subst w1. cbn [k].
          rewrite (taken_stable _ _ _ Hst). unfold taken at 2.
          cbn [filter]. rewrite Hlive. reflexivity. }
        split; [ exact I3 | ].
        split; [ rewrite I4; exact F2 | ].
        split; [ intros l' Hne; rewrite I5 by exact Hne; apply F3; exact Hne | ].
        split; [ rewrite I6; exact F4 | ].
        split; [ exact I7 | ].
        split; [ eapply iso_stable_trans; [ exact Hst | exact I8 ] | ].
        split.
        { intros q [<- | Hq] Hl; [ congruence | ].
          rewrite I9; [ | exact Hq | ].
          - subst w1. cbn [k]. rewrite F8; [ reflexivity | ].
            intros ->. apply Hnotin. eapply In_firstn. exact Hq.
          - subst w1. cbn [k]. rewrite (iso_stable_encl_live _ _ q Hst).
            exact Hl. }
        split.
        { intros q [<- | Hq] Hl.
          - rewrite I11; [ exact F7 | ].
            intros Hin. apply Hnotin. eapply In_firstn. exact Hin.
          - rewrite I10; [ | exact Hq | ].
            + subst w1. cbn [k]. rewrite F8; [ reflexivity | ].
              intros ->. apply Hnotin. eapply In_firstn. exact Hq.
            + subst w1. cbn [k]. rewrite (iso_stable_encl_live _ _ q Hst).
              exact Hl. }
        split.
        { intros q Hq. rewrite I11.
          - subst w1. cbn [k]. apply F8. intros ->. apply Hq. left. reflexivity.
          - intros Hin. apply Hq. right. exact Hin. }
        intros e. rewrite I12. subst w1. cbn [k].
        rewrite (taken_of_stable _ _ e _ Hst). rewrite F9.
        unfold taken_of, taken. cbn [filter]. rewrite Hlive. reflexivity.
Qed.

Lemma NoDup_firstn_skipn (n : nat) (l : list nat) (x : nat) :
  NoDup l -> In x (firstn n l) -> ~ In x (skipn n l).
Proof.
  revert l. induction n as [| n IH]; intros [| a l] Hnd Hin; cbn in *;
    try tauto.
  inversion Hnd as [| a' l' Ha Hl]; subst.
  destruct Hin as [<- | Hin].
  - intros Hs. apply Ha. clear - Hs. revert l Hs.
    induction n as [| n IH]; intros [| b l]; cbn; try tauto.
    intros Hs. right. apply IH. exact Hs.
  - apply IH; assumption.
Qed.

(** A page without the enclave flag at the head of the list stays there,
    and every iteration that is left is spent on it. *)
Lemma isolate_loop_stuck (l p : nat) (rest dst : list nat) (w : world) :
  reclaimable (lru_of l (k w)) = p :: rest ->
  Z.land (desc (pages (k w) p)) (SGX_EPC_PAGE_ENCLAVE H) = 0 ->
  forall (f : nat) (n : Z),
    n = Z.of_nat f ->
    isolate_loop H f l n dst w = ((0, dst), w).
Proof.
  intros Hhead Hflag. induction f as [| f IH]; intros n Hn.
  - subst n. reflexivity.
  - rewrite isolate_loop_S by lia. rewrite Hhead, Hflag.
    cbn [truthy Z.eqb negb]. apply IH. lia.
Qed.

Lemma isolate_loop_empty (l : nat) (dst : list nat) (w : world) (f : nat) :
  reclaimable (lru_of l (k w)) = [] ->
  isolate_loop H f l (Z.of_nat f) dst w = ((Z.of_nat f, dst), w).
Proof.
  intros Hnil. destruct f as [| f]; [ reflexivity | ].
  rewrite isolate_loop_S by lia. rewrite Hnil. reflexivity.
Qed.

(** The first [a] iterations of the loop and the [b] iterations behind
    them. *)
Lemma isolate_loop_split (a b : nat) :
  forall (l : nat) (dst : list nat) (w : world),
    isolate_loop H (a + b) l (Z.of_nat (a + b)) dst w =
    let r1 := isolate_loop H a l (Z.of_nat a) dst w in
    if fst (fst r1) =? 0
    then isolate_loop H b l (Z.of_nat b) (snd (fst r1)) (snd r1)
    else ((fst (fst r1) + Z.of_nat b, snd (fst r1)), snd r1).
Proof.
  induction a as [| a IH]; intros l dst w.
  - reflexivity.
  - cbv zeta. change (S a + b)%nat with (S (a + b)).
    rewrite !isolate_loop_S by lia.
    replace (Z.of_nat (S (a + b)) - 1) with (Z.of_nat (a + b)) by lia.
    replace (Z.of_nat (S a) - 1) with (Z.of_nat a) by lia.
    destruct (reclaimable (lru_of l (k w))) as [| p rest].
    + cbn [fst snd].
      assert (Hz : (Z.of_nat (S a) =? 0) = false) by (apply Z.eqb_neq; lia).
      rewrite Hz. f_equal. f_equal. lia.
    + destruct (negb (truthy (Z.land (desc (pages (k w) p))
                                     (SGX_EPC_PAGE_ENCLAVE H)))).
      * apply IH.
      * destruct (encl_live (k w) p); apply IH.
Qed.

Lemma enclave_run_prefix (s : kstate) (ps : list nat) :
  firstn (length (enclave_run H s ps)) ps = enclave_run H s ps.
Proof.
  induction ps as [| p ps IH]; cbn [enclave_run]; [ reflexivity | ].
  destruct (truthy (Z.land (desc (pages s p)) (SGX_EPC_PAGE_ENCLAVE H)));
    [ | reflexivity ].
  cbn [length firstn]. rewrite IH. reflexivity.
Qed.

Lemma enclave_run_flagged (s : kstate) (ps : list nat) (q : nat) :
  In q (enclave_run H s ps) ->
  flag_set (desc (pages s q)) (SGX_EPC_PAGE_ENCLAVE H).
Proof.
  induction ps as [| p ps IH]; cbn [enclave_run]; [ intros [] | ].
  destruct (truthy (Z.land (desc (pages s p)) (SGX_EPC_PAGE_ENCLAVE H)))
    eqn:Hp; [ | intros [] ].
  intros [<- | Hin]; [ | apply IH; exact Hin ].
  unfold flag_set. apply truthy_true. exact Hp.
Qed.

Lemma enclave_run_length (s : kstate) (ps : list nat) :
  (length (enclave_run H s ps) <= length ps)%nat.
Proof.
  induction ps as [| p ps IH]; cbn [enclave_run length]; [ lia | ].
  destruct (truthy (Z.land (desc (pages s p)) (SGX_EPC_PAGE_ENCLAVE H)));
    cbn [length]; lia.
Qed.

(** Behind a run that is shorter than the list comes a page without the
    flag, which is not in the run when the list has no repetition. *)
Lemma enclave_run_blocker (s : kstate) (ps : list nat) :
  (length (enclave_run H s ps) < length ps)%nat ->
  exists b rest,
    skipn (length (enclave_run H s ps)) ps = b :: rest /\
    Z.land (desc (pages s b)) (SGX_EPC_PAGE_ENCLAVE H) = 0.
Proof.
  induction ps as [| p ps IH]; cbn [enclave_run length]; [ lia | ].
  destruct (truthy (Z.land (desc (pages s p)) (SGX_EPC_PAGE_ENCLAVE H)))
    eqn:Hp.
  - cbn [length skipn]. intros Hlt. apply IH. lia.
  - intros _. exists p, ps. split; [ reflexivity | ].
    apply truthy_false. exact Hp.
Qed.

Lemma firstn_firstn_le (A : Type) (a b : nat) (ps : list A) :
  (a <= b)%nat -> firstn a (firstn b ps) = firstn a ps.
Proof.
  intros Hle. rewrite firstn_firstn. f_equal. lia.
Qed.

Lemma skipn_firstn_head (A : Type) (a b : nat) (ps : list A) (x : A)
      (rest : list A) :
  skipn a (firstn b ps) = x :: rest ->
  exists rest', skipn a ps = x :: rest'.
Proof.
  revert b ps. induction a as [| a IH]; intros b ps.
  - cbn [skipn]. destruct b as [| b]; [ discriminate | ].
    destruct ps as [| y ps]; [ discriminate | ].
    cbn [firstn]. intros Heq. injection Heq as -> _. exists ps. reflexivity.
  - destruct b as [| b]; [ cbn; discriminate | ].
    destruct ps as [| y ps]; [ cbn; discriminate | ].
    cbn [firstn skipn]. apply IH.
Qed.

(** The loop on a list whose pages need not all carry the [ENCLAVE] flag:
    the flagged pages at the head, within the budget, are unlinked; a page
    without the flag behind them uses up what is left of the budget. *)
Lemma isolate_loop_run (fuel : nat) (l : nat) (w : world) (dst : list nat) :
  let recl := reclaimable (lru_of l (k w)) in
  let scanned := enclave_run H (k w) (firstn fuel recl) in
  NoDup recl ->
  let r := isolate_loop H fuel l (Z.of_nat fuel) dst w in
  let s' := k (snd r) in
  fst (fst r) =
  (if (length scanned <? length (firstn fuel recl))%nat then 0
   else Z.of_nat fuel - Z.of_nat (length scanned)) /\
  snd (fst r) = dst ++ taken (k w) scanned /\
  reclaimable (lru_of l s') = skipn (length scanned) recl /\
  unreclaimable (lru_of l s') = unreclaimable (lru_of l (k w)) /\
  (forall l', l' <> l -> lru_of l' s' = lru_of l' (k w)) /\
  sgx_epc_sections s' = sgx_epc_sections (k w) /\
  trace (snd r) = trace w /\
  (forall q, In q scanned -> encl_live (k w) q = true ->
             desc (pages s' q) =
             Z.lor (desc (pages (k w) q))
                   (SGX_EPC_PAGE_RECLAIM_IN_PROGRESS H)) /\
  (forall q, In q scanned -> encl_live (k w) q = false ->
             desc (pages s' q) =
             clear_bits (desc (pages (k w) q))
                        (SGX_EPC_PAGE_RECLAIMABLE H)) /\
  (forall q, ~ In q scanned -> desc (pages s' q) = desc (pages (k w) q)) /\
  (forall e, refcount (encls s' e) =
             (refcount (encls (k w) e) + taken_of (k w) e scanned)%nat).
Proof.
  intros recl scanned Hnd.
  set (m := length scanned).
  assert (Hmb : (m <= length (firstn fuel recl))%nat)
    by apply enclave_run_length.
  assert (Hmf : (m <= fuel)%nat).
  { pose proof (firstn_le_length fuel recl). lia. }
  assert (Hfirst : firstn m recl = scanned).
  { rewrite <- (firstn_firstn_le nat m fuel recl Hmf).
    apply enclave_run_prefix. }
  assert (Hflag : forall p, In p (firstn m recl) ->
                            flag_set (desc (pages (k w) p))
                                     (SGX_EPC_PAGE_ENCLAVE H)).
  { intros p Hp. rewrite Hfirst in Hp.
    eapply enclave_run_flagged. exact Hp. }
  pose proof (isolate_loop_spec m l w dst Hnd Hflag) as Hs.
  cbv zeta in Hs. fold recl in Hs. rewrite Hfirst in Hs. fold m in Hs.
  destruct Hs as (I1 & I2 & I3 & I4 & I5 & I6 & I7 & I8 & I9 & I10 & I11
                  & I12).
  replace (Z.of_nat m - Z.of_nat m) with 0 in I1 by lia.
  intros r s'.
  assert (Hr : r = isolate_loop H (fuel - m) l (Z.of_nat (fuel - m))
                     (dst ++ taken (k w) scanned)
                     (snd (isolate_loop H m l (Z.of_nat m) dst w))).
  { subst r. replace fuel with (m + (fuel - m))%nat at 1 2 by lia.
    rewrite isolate_loop_split. cbv zeta. rewrite I1, I2. reflexivity. }
  set (w1 := snd (isolate_loop H m l (Z.of_nat m) dst w)) in *.
  destruct (Nat.ltb_spec m (length (firstn fuel recl))) as [Hlt | Hge].
  - destruct (enclave_run_blocker (k w) (firstn fuel recl) Hlt)
      as (b & rest & Hsk & Hb).
    fold scanned in Hsk. fold m in Hsk.
    destruct (skipn_firstn_head nat m fuel recl b rest Hsk) as (rest' & Hsk').
    assert (Hbn : ~ In b scanned).
    { intros Hin. rewrite <- Hfirst in Hin.
      apply (NoDup_firstn_skipn m recl b Hnd Hin).
      rewrite Hsk'. left. reflexivity. }
    assert (Hstuck : r = ((0, dst ++ taken (k w) scanned), w1)).
    { rewrite Hr. apply (isolate_loop_stuck l b rest').
      - rewrite I3. exact Hsk'.
      - rewrite (I11 b Hbn). exact Hb.
      - reflexivity. }
    subst s'. rewrite Hstuck. cbn [fst snd].
    repeat split; assumption.
  - assert (Hm : m = length (firstn fuel recl)) by lia.
    assert (Hend : r = ((Z.of_nat (fuel - m), dst ++ taken (k w) scanned),
                        w1)).
    { rewrite Hr. destruct (Nat.eq_dec m fuel) as [-> | Hne].
      - rewrite Nat.sub_diag. reflexivity.
      - apply isolate_loop_empty. rewrite I3.
        rewrite length_firstn in Hm.
        apply skipn_all2. lia. }
    subst s'. rewrite Hend. cbn [fst snd].
    split; [ lia | ]. repeat split; assumption.
Qed.

(** C4, as the code has it.  [sgx_isolate_epc_pages] runs one iteration for
    each unit of [want], always on the first page of the reclaimable list,
    and ends early when the list is empty.  An iteration on a page with the
    [ENCLAVE] flag unlinks it: a page whose enclave gives a reference gets
    [RECLAIM_IN_PROGRESS] and goes to the tail of [dst], with the reference
    count of its enclave incremented; any other such page loses
    [RECLAIMABLE] and is on neither list.  An iteration on a page without
    the [ENCLAVE] flag changes nothing, so that page stays at the head of
    the list and all iterations that are left are spent on it.  [want] is
    decremented once per iteration: by the number of pages unlinked when no
    page without the flag is met within the budget, and to zero otherwise.
    The number of pages moved to [dst] is at most the decrement.  [scanned]
    are the pages unlinked: the flagged pages at the head of the list,
    within the first [want].  The list has no repetition, as an intrusive
    list has none. *)
Theorem sgx_isolate_epc_pages_examined
        (l : nat) (want : Z) (dst : list nat) (w : world) :
  let recl := reclaimable (lru_of l (k w)) in
  let budget := firstn (Z.to_nat want) recl in
  let scanned := enclave_run H (k w) budget in
  let blocked := (length scanned <? length budget)%nat in
  NoDup recl ->
  let r := sgx_isolate_epc_pages H l want dst w in
  let s' := k (snd r) in
  let moved := taken (k w) scanned in
  fst (fst r) = (if blocked then 0 else want - Z.of_nat (length scanned)) /\
  snd (fst r) = dst ++ moved /\
  Z.of_nat (length moved) <= want - fst (fst r) /\
  (length moved <= Z.to_nat want)%nat /\
  reclaimable (lru_of l s') = skipn (length scanned) recl /\
  (blocked = true ->
   exists b rest,
     reclaimable (lru_of l s') = b :: rest /\
     Z.land (desc (pages s' b)) (SGX_EPC_PAGE_ENCLAVE H) = 0 /\
     desc (pages s' b) = desc (pages (k w) b) /\
     0 < want) /\
  (blocked = false -> scanned = budget) /\
  (forall q, In q scanned -> encl_live (k w) q = true ->
             In q moved /\
             Z.land (desc (pages s' q)) (SGX_EPC_PAGE_RECLAIM_IN_PROGRESS H) =
             SGX_EPC_PAGE_RECLAIM_IN_PROGRESS H /\
             ~ In q (reclaimable (lru_of l s'))) /\
  (forall q, In q scanned -> encl_live (k w) q = false ->
             ~ In q moved /\
             Z.land (desc (pages s' q)) (SGX_EPC_PAGE_RECLAIMABLE H) = 0 /\
             ~ In q (reclaimable (lru_of l s'))) /\
  (forall q, ~ In q scanned -> desc (pages s' q) = desc (pages (k w) q)) /\
  (forall e, refcount (encls s' e) =
             (refcount (encls (k w) e) + taken_of (k w) e scanned)%nat) /\
  unreclaimable (lru_of l s') = unreclaimable (lru_of l (k w)) /\
  (forall l', l' <> l -> lru_of l' s' = lru_of l' (k w)) /\
  sgx_epc_sections s' = sgx_epc_sections (k w) /\
  trace (snd r) = trace w.
Proof.
  intros recl budget scanned blocked Hnd r s' moved.
  assert (Hlen : (length moved <= length scanned)%nat).
  { subst moved. unfold taken. apply filter_length_le. }
  assert (Hsb : (length scanned <= length budget)%nat)
    by apply enclave_run_length.
  assert (Hbw : (length budget <= Z.to_nat want)%nat).
  { subst budget. apply firstn_le_length. }
  assert (Hfirst : firstn (length scanned) recl = scanned).
  { rewrite <- (firstn_firstn_le nat (length scanned) (Z.to_nat want) recl)
      by lia.
    apply enclave_run_prefix. }
  assert (Hspec :
    fst (fst r) = (if blocked then 0 else want - Z.of_nat (length scanned)) /\
    snd (fst r) = dst ++ moved /\
    reclaimable (lru_of l s') = skipn (length scanned) recl /\
    unreclaimable (lru_of l s') = unreclaimable (lru_of l (k w)) /\
    (forall l', l' <> l -> lru_of l' s' = lru_of l' (k w)) /\
    sgx_epc_sections s' = sgx_epc_sections (k w) /\
    trace (snd r) = trace w /\
    (forall q, In q scanned -> encl_live (k w) q = true ->
               desc (pages s' q) =
               Z.lor (desc (pages (k w) q))
                     (SGX_EPC_PAGE_RECLAIM_IN_PROGRESS H)) /\
    (forall q, In q scanned -> encl_live (k w) q = false ->
               desc (pages s' q) =
               clear_bits (desc (pages (k w) q))
                          (SGX_EPC_PAGE_RECLAIMABLE H)) /\
    (forall q, ~ In q scanned -> desc (pages s' q) = desc (pages (k w) q)) /\
    (forall e, refcount (encls s' e) =
               (refcount (encls (k w) e) + taken_of (k w) e scanned)%nat)).
  { destruct (Z.le_gt_cases want 0) as [Hle | Hgt].
    - assert (Hz : Z.to_nat want = O) by lia.
      subst r s' moved blocked scanned budget.
      unfold sgx_isolate_epc_pages.
      rewrite Hz. cbn. unfold ret. cbn. rewrite app_nil_r.
      repeat split; try reflexivity; try tauto; try lia.
    - pose proof (isolate_loop_run (Z.to_nat want) l w dst Hnd) as Hs.
      cbv zeta in Hs. rewrite Z2Nat.id in Hs by lia.
      exact Hs. }
  destruct Hspec as (S1 & S2 & S3 & S4 & S5 & S6 & S7 & S8 & S9 & S10 & S11).
  assert (Hnin : forall q, In q scanned -> ~ In q (reclaimable (lru_of l s'))).
  { intros q Hq. rewrite S3. apply NoDup_firstn_skipn; [ exact Hnd | ].
    rewrite Hfirst. exact Hq. }
  split; [ exact S1 | ]. split; [ exact S2 | ].
  split.
  { rewrite S1. destruct blocked eqn:Hb; [ | lia ].
    subst blocked. apply Nat.ltb_lt in Hb. lia. }
  split; [ lia | ].
  split; [ exact S3 | ].
  split.
  { intros Hb. subst blocked. apply Nat.ltb_lt in Hb.
    destruct (enclave_run_blocker (k w) budget Hb) as (b & rest & Hsk & Hz).
    fold scanned in Hsk.
    destruct (skipn_firstn_head nat (length scanned) (Z.to_nat want) recl
                                b rest Hsk) as (rest' & Hsk').
    assert (Hbn : ~ In b scanned).
    { intros Hin. rewrite <- Hfirst in Hin.
      apply (NoDup_firstn_skipn (length scanned) recl b Hnd Hin).
      rewrite Hsk'. left. reflexivity. }
    exists b, rest'. split; [ rewrite S3; exact Hsk' | ].
    split; [ rewrite (S10 b Hbn); exact Hz | ].
    split; [ exact (S10 b Hbn) | lia ]. }
  split.
  { intros Hb. subst blocked. apply Nat.ltb_ge in Hb.
    assert (He : length scanned = length budget) by lia.
    subst scanned. rewrite <- (enclave_run_prefix (k w) budget).
    rewrite He. apply firstn_all. }
  split.
  { intros q Hq Hl. split; [ | split ].
    - subst moved. unfold taken. apply filter_In. split; assumption.
    - rewrite S8 by assumption. apply lor_land_same.
    - apply Hnin. exact Hq. }
  split.
  { intros q Hq Hl. split; [ | split ].
    - subst moved. unfold taken. rewrite filter_In. intros [_ Hx]. congruence.
    - rewrite S9 by assumption. apply clear_bits_land_same.
    - apply Hnin. exact Hq. }
  split; [ exact S10 | ]. split; [ exact S11 | ]. split; [ exact S4 | ].
  split; [ exact S5 | ]. split; [ exact S6 | exact S7 ].
Qed.

End Isolate.

Lemma NoDup_123 : NoDup [1; 2; 3]%nat.
Proof.
  repeat constructor; cbn; intuition discriminate.
Qed.

(** The theorem on an LRU of three pages with [want = 3] whose second page
    lacks the [ENCLAVE] flag: the first page is moved, the second page
    stays at the head of the list, [want] reaches zero, and the decrement
    of three stands against one page moved and none dropped. *)
Lemma sgx_isolate_epc_pages_examined_witness :
  let r := sgx_isolate_epc_pages (hdr false) O 3 [] w_iso_mixed in
  NoDup (reclaimable (lru_of O (k w_iso_mixed))) /\
  fst (fst r) = 0 /\ snd (fst r) = [1%nat] /\
  reclaimable (lru_of O (k (snd r))) = [2; 3]%nat /\
  desc (pages (k (snd r)) 2) = desc (pages (k w_iso_mixed) 2).
Proof.
  pose proof (sgx_isolate_epc_pages_examined (hdr false) O 3 [] w_iso_mixed)
    as T.
  cbv zeta in T.
  assert (Hnd : NoDup (reclaimable (lru_of O (k w_iso_mixed))))
    by exact NoDup_123.
  specialize (T Hnd).
  destruct T as (T1 & T2 & _ & _ & T5 & _ & _ & _ & _ & T10 & _).
  cbv zeta. split; [ exact Hnd | ].
  split; [ rewrite T1; reflexivity | ].
  split; [ rewrite T2; reflexivity | ].
  split; [ rewrite T5; reflexivity | ].
  apply T10. vm_compute. intuition discriminate.
Defined.

(** C4 as stated fails: with [want = 1] and a first page whose enclave has
    no reference left, [want] is decremented by one although no page is
    moved to [dst]. *)
Lemma sgx_isolate_epc_pages_decrement_counterexample :
  let r := sgx_isolate_epc_pages (hdr false) O 1 [] w_iso in
  snd (fst r) = [] /\
  1 - fst (fst r) <> Z.of_nat (length (snd (fst r))).
Proof.
  vm_compute. split; [ reflexivity | discriminate ].
Qed.

(** ** Write-back *)

Section Ewb.

Variable H : headers.
Variable E : externals.

Lemma is_mm_query_weaken (mm : nat) (mms : list nat) (ev : event) :
  is_mm_query mms ev -> is_mm_query (mm :: mms) ev.
Proof.
  intros (m & Hin & Hev). exists m. split; [ right; exact Hin | exact Hev ].
Qed.

Lemma ewb_cpumask_walk_spec (mms : list nat) :
  forall (mask : Z) (w : world),
  exists maskev,
    ewb_cpumask_walk E mms mask w =
    (fold_left Z.lor (cpumask_answers maskev) mask,
     mk_world (k w) (trace w ++ maskev)) /\
    (forall ev, In ev maskev -> is_mm_query mms ev) /\
    (forall mm, In mm mms ->
                In (mmget_not_zero mm, 0) maskev \/
                exists c, In (mm_cpumask mm, c) maskev).
Proof.
  induction mms as [| mm mms IH]; intros mask w.
  - exists []. split; [ | split; [ intros ev [] | intros mm [] ] ].
    cbn. unfold ret. rewrite app_nil_r. destruct w; reflexivity.
  - cbn [ewb_cpumask_walk]. unfold bind at 1. unfold ask at 1. cbv zeta.
    set (g := env E (trace w) (mmget_not_zero mm)).
    destruct (truthy g) eqn:Hg.
    + unfold bind at 1. unfold ask at 1. cbv zeta. cbn [k trace].
      set (c := env E (trace w ++ [(mmget_not_zero mm, g)]) (mm_cpumask mm)).
      destruct (IH (Z.lor mask c)
                   (mk_world (k w)
                      ((trace w ++ [(mmget_not_zero mm, g)]) ++
                       [(mm_cpumask mm, c)]))) as (ev & He & Hq & Hc).
      exists ((mmget_not_zero mm, g) :: (mm_cpumask mm, c) :: ev).
      split; [ | split ].
      * rewrite He. cbn [k trace cpumask_answers flat_map fst snd app
                         fold_left].
        rewrite <- !app_assoc. reflexivity.
      * intros x [<- | [<- | Hx]].
        -- exists mm. split; [ left; reflexivity | left; eexists; reflexivity ].
        -- exists mm. split; [ left; reflexivity | right; eexists; reflexivity ].
        -- apply is_mm_query_weaken. apply Hq. exact Hx.
      * intros mm' [<- | Hin].
        -- right. exists c. right. left. reflexivity.
        -- destruct (Hc mm' Hin) as [Hx | (c' & Hx)].
           ++ left. right. right. exact Hx.
           ++ right. exists c'. right. right. exact Hx.
    + destruct (IH mask (mk_world (k w)
                           (trace w ++ [(mmget_not_zero mm, g)])))
        as (ev & He & Hq & Hc).
      exists ((mmget_not_zero mm, g) :: ev).
      split; [ | split ].
      * rewrite He. cbn [k trace cpumask_answers flat_map fst snd app].
        rewrite <- !app_assoc. reflexivity.
      * intros x [<- | Hx].
        -- exists mm. split; [ left; reflexivity | left; eexists; reflexivity ].
        -- apply is_mm_query_weaken. apply Hq. exact Hx.
      * intros mm' [<- | Hin].
        -- left. left. apply truthy_false in Hg. rewrite Hg. reflexivity.
        -- destruct (Hc mm' Hin) as [Hx | (c' & Hx)].
           ++ left. right. exact Hx.
           ++ right. exists c'. right. exact Hx.
Qed.

Lemma ewb_retry_spec (e p va : nat) (va_offset : Z) (b : sgx_backing)
      (w : world) :
  exists events r s',
    ewb_retry H E e p va va_offset b w =
    (r, mk_world s' (trace w ++ events)) /\
    ewb_ladder (SGX_NOT_TRACKED H) (ewb p va va_offset b)
               (etrack (epc_page (encl_pages (k w) (secs (encls (k w) e)))))
               (mm_list (encls (k w) e)) events r /\
    encl_pages s' = encl_pages (k w) /\
    pages s' = pages (k w) /\
    sgx_epc_sections s' = sgx_epc_sections (k w).
Proof.
  unfold ewb_retry, __sgx_encl_ewb.
  unfold bind at 1. unfold ask at 1. cbv zeta.
  set (wb := ewb p va va_offset b).
  set (r1 := env E (trace w) wb).
  destruct (Z.eqb_spec r1 (SGX_NOT_TRACKED H)) as [Hr1 | Hr1].
  2: { exists [(wb, r1)], r1, (k w). unfold ret. cbn [k trace].
       split; [ reflexivity | ].
       split; [ constructor; exact Hr1 | ].
       repeat split; reflexivity. }
  unfold bind at 1. unfold get at 1. cbn [k trace].
  unfold bind at 1. unfold ask at 1. cbv zeta. cbn [k trace].
  set (trk := etrack (epc_page (encl_pages (k w) (secs (encls (k w) e))))).
  set (rt := env E (trace w ++ [(wb, r1)]) trk).
  unfold bind at 1. unfold ask at 1. cbv zeta. cbn [k trace].
  set (r2 := env E ((trace w ++ [(wb, r1)]) ++ [(trk, rt)]) wb).
  destruct (Z.eqb_spec r2 (SGX_NOT_TRACKED H)) as [Hr2 | Hr2].
  2: { exists [(wb, r1); (trk, rt); (wb, r2)], r2, (k w).
       unfold ret. cbn [k trace].
       split; [ rewrite <- !app_assoc; reflexivity | ].
       split; [ rewrite Hr1; constructor; exact Hr2 | ].
       repeat split; reflexivity. }
  unfold sgx_encl_ewb_cpumask.
  unfold bind at 1. unfold bind at 1. unfold get at 1. cbn [k trace].
  unfold bind at 1.
  destruct (ewb_cpumask_walk_spec (mm_list (encls (k w) e)) 0
              (mk_world (k w)
                 (((trace w ++ [(wb, r1)]) ++ [(trk, rt)]) ++ [(wb, r2)])))
    as (maskev & He & Hq & Hc).
  rewrite He. cbn [k trace].
  unfold bind, modify, ret, tell, ask. cbn [k trace].
  set (m := fold_left Z.lor (cpumask_answers maskev) 0).
  eexists ([(wb, r1); (trk, rt); (wb, r2)] ++ maskev ++
           [(on_each_cpu_mask m, 0); (wb, _)]), _, _.
  split; [ rewrite <- !app_assoc; cbn [app]; reflexivity | ].
  split; [ rewrite Hr1, Hr2; apply ladder_ipi; assumption | ].
  repeat split; reflexivity.
Qed.

Lemma filter_none (A : Type) (f : A -> bool) (l : list A) :
  (forall x, In x l -> f x = false) -> filter f l = [].
Proof.
  induction l as [| a l IH]; intros Hf; cbn; [ reflexivity | ].
  rewrite (Hf a) by (left; reflexivity).
  apply IH. intros x Hx. apply Hf. right. exact Hx.
Qed.

Lemma is_mm_query_not_ladder (mms : list nat) (ev : event) :
  is_mm_query mms ev -> is_etrack ev = false /\ is_ipi ev = false.
Proof.
  intros (mm & _ & [(g & ->) | (c & ->)]); split; reflexivity.
Qed.

(** The ladder tracks at most once and kicks at most once. *)
Lemma ewb_ladder_counts (p va sp : nat) (va_offset : Z) (b : sgx_backing)
      (mms : list nat) (events : list event) (r : Z) :
  ewb_ladder (SGX_NOT_TRACKED H) (ewb p va va_offset b) (etrack sp) mms
             events r ->
  (length (filter is_etrack events) <= 1)%nat /\
  (length (filter is_ipi events) <= 1)%nat.
Proof.
  intros Hl. inversion Hl as [r1 Hr1 | rt r2 Hr2 | rt r3 maskev Hq Hc]; subst.
  - cbn. lia.
  - cbn. lia.
  - rewrite !filter_app.
    rewrite (filter_none _ is_etrack maskev)
      by (intros x Hx; apply (is_mm_query_not_ladder mms); apply Hq; exact Hx).
    rewrite (filter_none _ is_ipi maskev)
      by (intros x Hx; apply (is_mm_query_not_ladder mms); apply Hq; exact Hx).
    cbn. lia.
Qed.

Lemma set_ep_desc_keeps (q : nat) (d : Z) (s : kstate) :
  (forall x, epc_page (encl_pages (set_ep_desc q d s) x) =
             epc_page (encl_pages s x)) /\
  (forall x, encl (encl_pages (set_ep_desc q d s) x) =
             encl (encl_pages s x)) /\
  encls (set_ep_desc q d s) = encls s /\
  pages (set_ep_desc q d s) = pages s /\
  sgx_epc_sections (set_ep_desc q d s) = sgx_epc_sections s.
Proof.
  unfold set_ep_desc, set_encl_page, set_encl_pages. cbn [encl_pages encls].
  unfold upd. repeat split.
  - intros x. destruct (Nat.eqb_spec x q) as [-> | Hne]; reflexivity.
  - intros x. destruct (Nat.eqb_spec x q) as [-> | Hne]; reflexivity.
Qed.

Lemma va_pages_move_tail_keeps (e : nat) (s : kstate) :
  encl_pages (va_pages_move_tail e s) = encl_pages s /\
  (forall x, secs (encls (va_pages_move_tail e s) x) = secs (encls s x)) /\
  (forall x, mm_list (encls (va_pages_move_tail e s) x) =
             mm_list (encls s x)) /\
  pages (va_pages_move_tail e s) = pages s /\
  sgx_epc_sections (va_pages_move_tail e s) = sgx_epc_sections s.
Proof.
  unfold va_pages_move_tail, set_encl, set_encls. cbn [encl_pages encls].
  unfold upd. repeat split.
  - intros x. destruct (Nat.eqb_spec x e) as [-> | Hne]; reflexivity.
  - intros x. destruct (Nat.eqb_spec x e) as [-> | Hne]; reflexivity.
Qed.

Lemma sgx_encl_ewb_eq (p : nat) (b : sgx_backing) (w : world) :
  sgx_encl_ewb H E p b w =
  let q := owner (pages (k w) p) in
  let e := encl (encl_pages (k w) q) in
  let va := hd O (va_pages (encls (k w) e)) in
  let s1 := set_ep_desc q (clear_bits (ep_desc (encl_pages (k w) q))
                             (SGX_ENCL_PAGE_RECLAIMED H)) (k w) in
  let va_offset := env E (trace w) (sgx_alloc_va_slot va) in
  let full := env E (trace w ++ [(sgx_alloc_va_slot va, va_offset)])
                  (sgx_va_page_full va) in
  let t2 := (trace w ++ [(sgx_alloc_va_slot va, va_offset)]) ++
            [(sgx_va_page_full va, full)] in
  let s2 := if truthy full then va_pages_move_tail e s1 else s1 in
  let rw := ewb_retry H E e p va va_offset b (mk_world s2 t2) in
  if truthy (fst rw) then
    (tt, mk_world (k (snd rw))
                  (trace (snd rw) ++ [(sgx_free_va_slot va va_offset, 0)]))
  else
    (tt, mk_world
           (set_va_page q va
              (set_ep_desc q (Z.lor (ep_desc (encl_pages (k (snd rw)) q))
                                    va_offset) (k (snd rw))))
           (trace (snd rw))).
Proof.
  unfold sgx_encl_ewb. unfold bind, get, modify, ask, tell, when, ret.
  cbn [k trace]. cbv zeta.
  destruct (truthy (env E (trace w ++ _) (sgx_va_page_full _)));
    destruct (ewb_retry H E _ p _ _ b _) as [r w3]; cbn [fst snd];
    destruct (truthy r); reflexivity.
Qed.

(** C5.  [sgx_encl_ewb] takes a version-array slot and writes back.  A first
    [NOT_TRACKED] is followed by one [ETRACK] on the SECS page of the
    enclave and a second write-back; a second [NOT_TRACKED] is followed by
    the queries for the CPU sets of the mms of the enclave, one
    [on_each_cpu_mask] on the union of the answers, and a third write-back.
    So there is at most one [ETRACK] and at most one IPI broadcast; the slot
    is freed whenever the last write-back did not return zero, and recorded
    in the enclave page when it did. *)
Theorem sgx_encl_ewb_track_then_kick (p : nat) (b : sgx_backing) (w : world) :
  let q := owner (pages (k w) p) in
  let e := encl (encl_pages (k w) q) in
  let va := hd O (va_pages (encls (k w) e)) in
  let secs_page := epc_page (encl_pages (k w) (secs (encls (k w) e))) in
  let w' := snd (sgx_encl_ewb H E p b w) in
  exists va_offset full events r,
    let calls :=
      [(sgx_alloc_va_slot va, va_offset); (sgx_va_page_full va, full)] ++
      events ++
      (if truthy r then [(sgx_free_va_slot va va_offset, 0)] else []) in
    trace w' = trace w ++ calls /\
    ewb_ladder (SGX_NOT_TRACKED H) (ewb p va va_offset b) (etrack secs_page)
               (mm_list (encls (k w) e)) events r /\
    (length (filter is_etrack calls) <= 1)%nat /\
    (length (filter is_ipi calls) <= 1)%nat /\
    (r <> 0 -> r <> SGX_NOT_TRACKED H ->
     In (sgx_free_va_slot va va_offset, 0) calls) /\
    (r = 0 ->
     filter is_free_va_slot calls = [] /\
     va_page (encl_pages (k w') q) = va /\
     ep_desc (encl_pages (k w') q) =
     Z.lor (clear_bits (ep_desc (encl_pages (k w) q))
                       (SGX_ENCL_PAGE_RECLAIMED H)) va_offset).
Proof.
  intros q e va secs_page w'. subst w'.
  rewrite sgx_encl_ewb_eq. cbv zeta. fold q. fold e. fold va.
  set (s1 := set_ep_desc q _ (k w)).
  set (va_offset := env E (trace w) (sgx_alloc_va_slot va)).
  set (full := env E (trace w ++ [(sgx_alloc_va_slot va, va_offset)])
                   (sgx_va_page_full va)).
  set (t2 := (trace w ++ [(sgx_alloc_va_slot va, va_offset)]) ++
             [(sgx_va_page_full va, full)]).
  set (s2 := if truthy full then va_pages_move_tail e s1 else s1).
  destruct (set_ep_desc_keeps q
              (clear_bits (ep_desc (encl_pages (k w) q))
                          (SGX_ENCL_PAGE_RECLAIMED H)) (k w))
    as (K1 & K2 & K3 & K4 & K5).
  fold s1 in K1, K2, K3, K4, K5.
  destruct (va_pages_move_tail_keeps e s1) as (V1 & V2 & V3 & V4 & V5).
  assert (Hsecs : epc_page (encl_pages s2 (secs (encls s2 e))) = secs_page).
  { subst s2 secs_page. destruct (truthy full).
    - rewrite V1, V2, K1, K3. reflexivity.
    - rewrite K1, K3. reflexivity. }
  assert (Hmm : mm_list (encls s2 e) = mm_list (encls (k w) e)).
  { subst s2. destruct (truthy full).
    - rewrite V3, K3. reflexivity.
    - rewrite K3. reflexivity. }
  assert (Hep2 : encl_pages s2 = encl_pages s1).
  { subst s2. destruct (truthy full); [ exact V1 | reflexivity ]. }
  destruct (ewb_retry_spec e p va va_offset b (mk_world s2 t2))
    as (events & r & s3 & Hr & Hlad & R1 & R2 & R3).
  cbn [k trace] in Hlad, R1, R2, R3. rewrite Hsecs, Hmm in Hlad.
  rewrite Hr. cbn [fst snd k trace].
  destruct (ewb_ladder_counts _ _ _ _ _ _ _ _ Hlad) as [Ct Ci].
  exists va_offset, full, events, r. cbv zeta.
  destruct (truthy r) eqn:Htr.
  - cbn [snd k trace].
    split; [ subst t2; rewrite <- !app_assoc; reflexivity | ].
    split; [ exact Hlad | ].
    split; [ cbn [app filter is_etrack fst]; rewrite filter_app;
             cbn [filter is_etrack fst]; rewrite app_nil_r; exact Ct | ].
    split; [ cbn [app filter is_ipi fst]; rewrite filter_app;
             cbn [filter is_ipi fst]; rewrite app_nil_r; exact Ci | ].
    split.
    + intros _ _. apply in_or_app. right. apply in_or_app. right.
      left. reflexivity.
    + intros Hz. apply truthy_true in Htr. congruence.
  - cbn [snd k trace].
    split; [ subst t2; rewrite <- !app_assoc; rewrite app_nil_r;
             reflexivity | ].
    split; [ exact Hlad | ].
    split; [ cbn [app filter is_etrack fst]; rewrite app_nil_r; exact Ct | ].
    split; [ cbn [app filter is_ipi fst]; rewrite app_nil_r; exact Ci | ].
    split.
    + intros Hnz. apply truthy_false in Htr. congruence.
    + intros _. split; [ | split ].
      * cbn [app filter is_free_va_slot fst]. rewrite app_nil_r.
        apply filter_none. intros x Hx.
        inversion Hlad as [r1 Hr1 | rt r2 Hr2 | rt r3 maskev Hq Hc]; subst.
        -- destruct Hx as [<- | []]. reflexivity.
        -- destruct Hx as [<- | [<- | [<- | []]]]; reflexivity.
        -- apply in_app_or in Hx. destruct Hx as [Hx | Hx].
           ++ destruct Hx as [<- | [<- | [<- | []]]]; reflexivity.
           ++ apply in_app_or in Hx. destruct Hx as [Hx | Hx].
              ** destruct (Hq x Hx) as (mm & _ & [(g & ->) | (c & ->)]);
                   reflexivity.
              ** destruct Hx as [<- | [<- | []]]; reflexivity.
      * unfold set_va_page, set_ep_desc, set_encl_page, set_encl_pages.
        cbn [encl_pages va_page]. unfold upd. rewrite !Nat.eqb_refl.
        reflexivity.
      * unfold set_va_page, set_ep_desc, set_encl_page, set_encl_pages.
        cbn [encl_pages ep_desc]. unfold upd. rewrite !Nat.eqb_refl.
        cbn [ep_desc]. rewrite R1, Hep2. subst s1.
        unfold set_ep_desc, set_encl_page, set_encl_pages.
        cbn [encl_pages]. unfold upd. rewrite Nat.eqb_refl. reflexivity.
Qed.

End Ewb.

(** ** The free counter *)

Section FreeCounter.

Variable H : headers.
Variable E : externals.

Lemma sections_set_section_same (i : nat) (x : sgx_epc_section) (s : kstate) :
  sgx_epc_sections (set_section i x s) i = x.
Proof.
  cbn. unfold upd. rewrite Nat.eqb_refl. reflexivity.
Qed.

Lemma sections_set_section_other (i j : nat) (x : sgx_epc_section)
      (s : kstate) :
  j <> i -> sgx_epc_sections (set_section i x s) j = sgx_epc_sections s j.
Proof.
  intros Hne. cbn. unfold upd. apply Nat.eqb_neq in Hne. rewrite Hne.
  reflexivity.
Qed.

Lemma setup_loop_S (addr index : Z) (section : nat) (todo : nat) (i : Z)
      (w : world) :
  setup_loop E (S todo) i addr index section w =
  let page := env E (trace w) kzalloc in
  if page =? 0 then (false, mk_world (k w) (trace w ++ [(kzalloc, page)]))
  else
    setup_loop E todo (i + 1) addr index section
      (mk_world
         (section_add_unsanitized section (Z.to_nat page)
            (set_pages_at (Z.to_nat page)
               (mk_epc_page
                  (Z.lor (wrap64 (addr + wrap64 (Z.shiftl i PAGE_SHIFT)))
                         index) O O) (k w)))
         (trace w ++ [(kzalloc, page)])).
Proof.
  cbn [setup_loop]. unfold bind, ask, modify, ret. cbn [k trace]. cbv zeta.
  destruct (env E (trace w) kzalloc =? 0); reflexivity.
Qed.

Lemma setup_loop_spec (addr index : Z) (section : nat) (todo : nat) :
  forall (i : Z) (w : world),
    fst (setup_loop E todo i addr index section w) = true ->
    let x := sgx_epc_sections (k w) section in
    let x' := sgx_epc_sections
                (k (snd (setup_loop E todo i addr index section w)))
                section in
    length (unsanitized_page_list x') =
    (length (unsanitized_page_list x) + todo)%nat /\
    page_list x' = page_list x /\
    free_cnt x' = free_cnt x.
Proof.
  induction todo as [| todo IH]; intros i w Hr.
  - cbn. repeat split; try reflexivity. lia.
  - rewrite setup_loop_S in *. cbv zeta in *.
    destruct (env E (trace w) kzalloc =? 0) eqn:Hz.
    { cbn in Hr. discriminate. }
    specialize (IH _ _ Hr). cbv zeta in IH.
    destruct IH as (I1 & I2 & I3).
    cbn [k] in I1, I2, I3.
    unfold section_add_unsanitized in I1 at 2.
    unfold section_add_unsanitized in I2 at 2.
    unfold section_add_unsanitized in I3 at 2.
    rewrite sections_set_section_same in I1, I2, I3.
    cbn [unsanitized_page_list page_list free_cnt] in I1, I2, I3.
    rewrite length_app in I1. cbn [length] in I1.
    split; [ rewrite I1; cbn; lia | ].
    split; [ exact I2 | exact I3 ].
Qed.

Lemma sgx_setup_epc_section_eq (addr sz index : Z) (section : nat)
      (w : world) :
  sgx_setup_epc_section E addr sz index section w =
  let v := env E (trace w) (memremap addr sz) in
  let x := sgx_epc_sections (k w) section in
  let t1 := trace w ++ [(memremap addr sz, v)] in
  if v =? 0 then
    (false,
     mk_world (set_section section
                 (mk_section (pa x) v (page_list x) (unsanitized_page_list x)
                             (free_cnt x)) (k w)) t1)
  else
    let w1 :=
      mk_world
        (set_section section (mk_section addr v [] [] (free_cnt x))
           (set_section section
              (mk_section (pa x) v (page_list x) (unsanitized_page_list x)
                          (free_cnt x)) (k w))) t1 in
    let rl := setup_loop E (Z.to_nat (Z.shiftr sz PAGE_SHIFT)) 0 addr index
                         section w1 in
    if fst rl then
      let y := sgx_epc_sections (k (snd rl)) section in
      (true,
       mk_world (set_section section
                   (mk_section (pa y) (va y) (page_list y)
                               (unsanitized_page_list y)
                               (Z.shiftr sz PAGE_SHIFT)) (k (snd rl)))
                (trace (snd rl)))
    else (false, snd (sgx_free_epc_section section (snd rl))).
Proof.
  unfold sgx_setup_epc_section. unfold bind, ask, get, modify, ret.
  cbn [k trace]. cbv zeta.
  destruct (env E (trace w) (memremap addr sz) =? 0); [ reflexivity | ].
  destruct (setup_loop E _ 0 addr index section _) as [[|] w2];
    cbn [fst snd]; [ reflexivity | ].
  destruct (sgx_free_epc_section section w2). reflexivity.
Qed.

Lemma sgx_setup_epc_section_spec (addr sz index : Z) (section : nat)
      (w : world) :
  0 <= sz ->
  fst (sgx_setup_epc_section E addr sz index section w) = true ->
  let x' := sgx_epc_sections
              (k (snd (sgx_setup_epc_section E addr sz index section w)))
              section in
  page_list x' = [] /\
  Z.of_nat (length (unsanitized_page_list x')) = Z.shiftr sz PAGE_SHIFT /\
  free_cnt x' = Z.shiftr sz PAGE_SHIFT.
Proof.
  intros Hsz Hr.
  assert (Hnr : 0 <= Z.shiftr sz PAGE_SHIFT) by (apply Z.shiftr_nonneg; lia).
  rewrite sgx_setup_epc_section_eq in *. cbv zeta in *.
  destruct (env E (trace w) (memremap addr sz) =? 0).
  { cbn in Hr. discriminate. }
  set (w1 := mk_world _ _) in *.
  pose proof (setup_loop_spec addr index section
                (Z.to_nat (Z.shiftr sz PAGE_SHIFT)) 0 w1) as Hl.
  destruct (fst (setup_loop E _ 0 addr index section w1)).
  2: { cbn in Hr. discriminate. }
  destruct (Hl eq_refl) as (L1 & L2 & L3).
  subst w1. cbn [k] in L1, L2, L3.
  rewrite sections_set_section_same in L1, L2, L3.
  cbn [unsanitized_page_list page_list free_cnt length] in L1, L2, L3.
  cbn [snd k]. rewrite sections_set_section_same.
  cbn [unsanitized_page_list page_list free_cnt].
  split; [ exact L2 | ].
  split; [ rewrite L1, Nat.add_0_l, Z2Nat.id by exact Hnr; reflexivity
         | reflexivity ].
Qed.

Lemma sanitize_loop_cons (i page : nat) (rest secs_list : list nat)
      (w : world) :
  sanitize_loop E i (page :: rest) secs_list w =
  let stop := env E (trace w) kthread_should_stop in
  let t1 := trace w ++ [(kthread_should_stop, stop)] in
  if truthy stop then (secs_list, mk_world (k w) t1)
  else
    let r := env E t1 (eremove page) in
    let t2 := t1 ++ [(eremove page, r)] in
    if truthy r then
      sanitize_loop E i rest (secs_list ++ [page])
                    (mk_world (section_pop_unsanitized i (k w)) t2)
    else
      sanitize_loop E i rest secs_list
                    (mk_world (section_sanitized i page (k w)) t2).
Proof.
  cbn [sanitize_loop]. unfold bind, ask, modify, ret. cbn [k trace]. cbv zeta.
  destruct (truthy (env E (trace w) kthread_should_stop)); [ reflexivity | ].
  destruct (truthy (env E _ (eremove page))); reflexivity.
Qed.

(** Sanitization leaves the counter alone and keeps every page on the free
    list, on the unsanitized list or on the local list. *)
Lemma sanitize_loop_spec (i : nat) (ps : list nat) :
  forall (secs_list : list nat) (w : world),
    unsanitized_page_list (sgx_epc_sections (k w) i) = ps ->
    let r := sanitize_loop E i ps secs_list w in
    let x := sgx_epc_sections (k w) i in
    let x' := sgx_epc_sections (k (snd r)) i in
    free_cnt x' = free_cnt x /\
    (length (page_list x') + length (unsanitized_page_list x') +
     length (fst r) =
     length (page_list x) + length ps + length secs_list)%nat /\
    (forall j, j <> i ->
               sgx_epc_sections (k (snd r)) j = sgx_epc_sections (k w) j).
Proof.
  induction ps as [| page rest IH]; intros secs_list w Hps r x x'.
  - subst r x x'. cbn. rewrite Hps. cbn.
    split; [ reflexivity | ]. split; [ lia | reflexivity ].
  - subst r x x'. rewrite sanitize_loop_cons. cbv zeta.
    destruct (truthy (env E (trace w) kthread_should_stop)).
    { cbn [fst snd k]. rewrite Hps.
      split; [ reflexivity | ]. split; [ lia | reflexivity ]. }
    destruct (truthy (env E _ (eremove page))).
    + set (w1 := mk_world (section_pop_unsanitized i (k w)) _).
      assert (Hx1 : sgx_epc_sections (k w1) i =
                    mk_section (pa (sgx_epc_sections (k w) i))
                               (va (sgx_epc_sections (k w) i))
                               (page_list (sgx_epc_sections (k w) i))
                               rest
                               (free_cnt (sgx_epc_sections (k w) i))).
      { subst w1. cbn [k]. unfold section_pop_unsanitized.
        rewrite sections_set_section_same, Hps. reflexivity. }
      specialize (IH (secs_list ++ [page]) w1). cbv zeta in IH.
      rewrite Hx1 in IH. cbn [unsanitized_page_list page_list free_cnt] in IH.
      destruct (IH eq_refl) as (I1 & I2 & I3).
      split; [ exact I1 | ].
      split; [ rewrite I2, length_app; cbn; lia | ].
      intros j Hj. rewrite I3 by exact Hj. subst w1. cbn [k].
      unfold section_pop_unsanitized.
      apply sections_set_section_other. exact Hj.
    + set (w1 := mk_world (section_sanitized i page (k w)) _).
      assert (Hx1 : sgx_epc_sections (k w1) i =
                    mk_section (pa (sgx_epc_sections (k w) i))
                               (va (sgx_epc_sections (k w) i))
                               (page :: page_list (sgx_epc_sections (k w) i))
                               rest
                               (free_cnt (sgx_epc_sections (k w) i))).
      { subst w1. cbn [k]. unfold section_sanitized.
        rewrite sections_set_section_same, Hps. reflexivity. }
      specialize (IH secs_list w1). cbv zeta in IH.
      rewrite Hx1 in IH. cbn [unsanitized_page_list page_list free_cnt] in IH.
      destruct (IH eq_refl) as (I1 & I2 & I3).
      split; [ exact I1 | ].
      split; [ rewrite I2; cbn; lia | ].
      intros j Hj. rewrite I3 by exact Hj. subst w1. cbn [k].
      unfold section_sanitized.
      apply sections_set_section_other. exact Hj.
Qed.

Lemma wrap64_small (x : Z) : 0 <= x < 2 ^ 64 -> wrap64 x = x.
Proof.
  intros Hx. unfold wrap64. apply Z.mod_small. exact Hx.
Qed.

Lemma alloc_from_section_eq (i : nat) (w : world) :
  __sgx_alloc_epc_page_from_section i w =
  let x := sgx_epc_sections (k w) i in
  match page_list x with
  | [] => (None, w)
  | page :: rest =>
      (Some page,
       mk_world (set_section i (mk_section (pa x) (va x) rest
                                  (unsanitized_page_list x)
                                  (wrap64 (free_cnt x - 1))) (k w))
                (trace w))
  end.
Proof.
  unfold __sgx_alloc_epc_page_from_section, bind, get, modify, ret.
  cbv zeta. destruct (page_list (sgx_epc_sections (k w) i));
    destruct w; reflexivity.
Qed.

Lemma alloc_from_section_accounted (i j : nat) (parked : nat) (w : world) :
  section_accounted (sgx_epc_sections (k w) j) parked ->
  free_cnt (sgx_epc_sections (k w) j) < 2 ^ 64 ->
  let w' := snd (__sgx_alloc_epc_page_from_section i w) in
  section_accounted (sgx_epc_sections (k w') j) parked /\
  free_cnt (sgx_epc_sections (k w') j) < 2 ^ 64.
Proof.
  intros Hacc Hlt. rewrite alloc_from_section_eq. cbv zeta.
  destruct (page_list (sgx_epc_sections (k w) i)) as [| page rest] eqn:Hpl.
  - split; assumption.
  - cbn [snd k]. destruct (Nat.eq_dec j i) as [-> | Hne].
    + rewrite sections_set_section_same.
      unfold section_accounted in *. cbn [free_cnt page_list
                                           unsanitized_page_list].
      rewrite Hpl in Hacc. cbn [length] in Hacc.
      rewrite wrap64_small by lia. split; lia.
    + rewrite sections_set_section_other by exact Hne. split; assumption.
Qed.

Lemma alloc_walk_accounted (j : nat) (parked : nat) (l : list nat) :
  forall w,
    section_accounted (sgx_epc_sections (k w) j) parked ->
    free_cnt (sgx_epc_sections (k w) j) < 2 ^ 64 ->
    section_accounted (sgx_epc_sections (k (snd (alloc_walk l w))) j) parked.
Proof.
  induction l as [| i l IH]; intros w Hacc Hlt.
  - exact Hacc.
  - cbn [alloc_walk]. unfold bind.
    destruct (alloc_from_section_accounted i j parked w Hacc Hlt)
      as [Ha Hb].
    destruct (__sgx_alloc_epc_page_from_section i w) as [[page |] w1];
      cbn [snd] in *.
    + exact Ha.
    + apply IH; assumption.
Qed.

Lemma free_add_tail_accounted (i j p : nat) (parked : nat) (s : kstate) :
  section_accounted (sgx_epc_sections s j) parked ->
  free_cnt (sgx_epc_sections s j) < 2 ^ 64 - 1 ->
  section_accounted (sgx_epc_sections (section_free_add_tail i p s) j) parked.
Proof.
  intros Hacc Hlt. unfold section_free_add_tail.
  destruct (Nat.eq_dec j i) as [-> | Hne].
  - rewrite sections_set_section_same. unfold section_accounted in *.
    cbn [free_cnt page_list unsanitized_page_list].
    rewrite length_app. cbn [length]. rewrite wrap64_small by lia. lia.
  - rewrite sections_set_section_other by exact Hne. exact Hacc.
Qed.

Lemma sections_set_epc_cg (p c : nat) (s : kstate) :
  sgx_epc_sections (set_epc_cg p c s) = sgx_epc_sections s.
Proof.
  reflexivity.
Qed.

Lemma __sgx_free_epc_page_sections (p : nat) (w : world) :
  sgx_epc_sections (k (snd (__sgx_free_epc_page H p w))) =
  sgx_epc_sections (section_free_add_tail (sgx_get_epc_section H p (k w)) p
                                          (k w)).
Proof.
  unfold __sgx_free_epc_page, bind, get, modify, when, tell, ret.
  destruct (CONFIG_CGROUP_SGX_EPC H &&
            negb (Nat.eqb (epc_cg (pages (k w) p)) 0)); reflexivity.
Qed.

End FreeCounter.

(** ** Allocation *)

Section Alloc.

Variable H : headers.
Variable E : externals.

Lemma alloc_walk_empty (l : list nat) (w : world) :
  (forall i, In i l -> page_list (sgx_epc_sections (k w) i) = []) ->
  alloc_walk l w = (Err (- ENOMEM), w).
Proof.
  induction l as [| i l IH]; intros Hl.
  - reflexivity.
  - cbn [alloc_walk]. unfold bind. rewrite alloc_from_section_eq. cbv zeta.
    rewrite (Hl i) by (left; reflexivity).
    apply IH. intros j Hj. apply Hl. right. exact Hj.
Qed.

Lemma __sgx_alloc_epc_page_empty (w : world) :
  (forall i, (i < sgx_nr_epc_sections (k w))%nat ->
             page_list (sgx_epc_sections (k w) i) = []) ->
  __sgx_alloc_epc_page w = (Err (- ENOMEM), w).
Proof.
  intros Hl. unfold __sgx_alloc_epc_page, bind, get.
  apply alloc_walk_empty. intros i Hi. apply Hl.
  apply in_seq in Hi. lia.
Qed.

Lemma alloc_loop_S_miss (fuel o : nat) (reclaim : bool) (w : world) :
  (forall i, (i < sgx_nr_epc_sections (k w))%nat ->
             page_list (sgx_epc_sections (k w) i) = []) ->
  alloc_loop H E (S fuel) o reclaim w =
  if negb (sgx_can_reclaim H E (k w)) then (Some (Err (- ENOMEM)), w)
  else if negb reclaim then (Some (Err (- EBUSY)), w)
  else
    let sig := env E (trace w) signal_pending in
    let w1 := mk_world (k w) (trace w ++ [(signal_pending, sig)]) in
    if truthy sig then (Some (Err (- ERESTARTSYS)), w1)
    else alloc_loop H E fuel o reclaim
                    (snd (sgx_reclaim_epc_pages H E SGX_NR_TO_SCAN false O w1)).
Proof.
  intros Hl. cbn [alloc_loop]. unfold bind at 1.
  rewrite (__sgx_alloc_epc_page_empty w Hl).
  unfold bind at 1. unfold get at 1.
  destruct (negb (sgx_can_reclaim H E (k w))); [ reflexivity | ].
  destruct (negb reclaim); [ reflexivity | ].
  unfold bind at 1. unfold ask at 1. cbv zeta.
  destruct (truthy (env E (trace w) signal_pending)); [ reflexivity | ].
  unfold bind.
  destruct (sgx_reclaim_epc_pages H E SGX_NR_TO_SCAN false 0 _). reflexivity.
Qed.

Lemma alloc_walk_ptr_or_enomem (l : list nat) :
  forall w, (exists p, fst (alloc_walk l w) = Ptr p) \/
            alloc_walk l w = (Err (- ENOMEM), w).
Proof.
  induction l as [| i l IH]; intros w.
  - right. reflexivity.
  - cbn [alloc_walk]. unfold bind. rewrite alloc_from_section_eq. cbv zeta.
    destruct (page_list (sgx_epc_sections (k w) i)) as [| page rest].
    + apply IH.
    + left. exists page. reflexivity.
Qed.

(** Whatever leaves the loop is a page bound to the owner or one of the
    three errors. *)
Lemma alloc_loop_outcome (o : nat) (reclaim : bool) (fuel : nat) :
  forall w e,
    fst (alloc_loop H E fuel o reclaim w) = Some e ->
    alloc_outcome (k (snd (alloc_loop H E fuel o reclaim w))) o e.
Proof.
  induction fuel as [| fuel IH]; intros w e He.
  - cbn in He. discriminate.
  - cbn [alloc_loop] in *. unfold bind at 1 in He. unfold bind at 1.
    unfold __sgx_alloc_epc_page, bind at 1, get at 1 in He.
    unfold __sgx_alloc_epc_page, bind at 1, get at 1.
    destruct (alloc_walk (seq 0 (sgx_nr_epc_sections (k w))) w)
      as [[p | err] w1].
    + unfold bind, modify, ret in *. cbn [fst snd k] in *.
      injection He as <-. left. exists p. split; [ reflexivity | ].
      cbn. unfold upd. rewrite Nat.eqb_refl. reflexivity.
    + unfold bind at 1 in He. unfold bind at 1. unfold get at 1 in He.
      unfold get at 1.
      destruct (negb (sgx_can_reclaim H E (k w1))).
      { cbn in *. injection He as <-. right. left. reflexivity. }
      destruct (negb reclaim).
      { cbn in *. injection He as <-. right. right. left. reflexivity. }
      unfold bind at 1 in He. unfold bind at 1. unfold ask at 1 in He.
      unfold ask at 1. cbv zeta in *.
      destruct (truthy (env E (trace w1) signal_pending)).
      { cbn in *. injection He as <-. right. right. right. reflexivity. }
      unfold bind in *.
      destruct (sgx_reclaim_epc_pages H E SGX_NR_TO_SCAN false 0 _)
        as [n w2].
      apply IH. exact He.
Qed.

Lemma alloc_charged_eq (fuel o : nat) (reclaim : bool) (cg : nat)
      (w : world) :
  alloc_charged H E fuel o reclaim cg w =
  match fst (alloc_loop H E fuel o reclaim w) with
  | None => (None, snd (alloc_loop H E fuel o reclaim w))
  | Some entry =>
      (Some entry,
       alloc_post H E cg entry (snd (alloc_loop H E fuel o reclaim w)))
  end.
Proof.
  unfold alloc_charged, alloc_post. unfold bind at 1.
  destruct (alloc_loop H E fuel o reclaim w) as [[entry |] w1];
    cbn [fst snd]; [ | reflexivity ].
  unfold bind, get, modify, tell, when, ret. cbv zeta.
  destruct (CONFIG_CGROUP_SGX_EPC H); [ destruct entry | ]; cbn [k trace];
    match goal with
    | |- context [sgx_should_reclaim H E ?a ?b] =>
        destruct (sgx_should_reclaim H E a b)
    end; try reflexivity; destruct w1; reflexivity.
Qed.



End Alloc.

(** ** The reclaim pass *)

Section Reclaim.

Variable H : headers.
Variable E : externals.

Lemma bind_eq (A B : Type) (m : M A) (f : A -> M B) (w : world) :
  bind m f w = f (fst (m w)) (snd (m w)).
Proof.
  unfold bind. destruct (m w). reflexivity.
Qed.

Lemma isolate_loop_bound (fuel : nat) :
  forall (l : nat) (dst : list nat) (w : world),
    let r := isolate_loop H fuel l (Z.of_nat fuel) dst w in
    0 <= fst (fst r) /\
    Z.of_nat (length (snd (fst r))) + fst (fst r) <=
    Z.of_nat (length dst) + Z.of_nat fuel.
Proof.
  induction fuel as [| f IH]; intros l dst w r.
  - subst r. cbn. lia.
  - subst r. rewrite isolate_loop_S by lia.
    replace (Z.of_nat (S f) - 1) with (Z.of_nat f) by lia.
    destruct (reclaimable (lru_of l (k w))) as [| p rest].
    + cbn [fst snd]. lia.
    + destruct (negb _).
      * specialize (IH l dst w). cbv zeta in IH. lia.
      * destruct (encl_live (k w) p).
        -- match goal with
           | |- context [isolate_loop H f l _ ?d ?w1] =>
               specialize (IH l d w1)
           end.
           cbv zeta in IH. rewrite length_app in IH. cbn [length] in IH. lia.
        -- match goal with
           | |- context [isolate_loop H f l _ ?d ?w1] =>
               specialize (IH l d w1)
           end.
           cbv zeta in IH. lia.
Qed.

Lemma sgx_isolate_epc_pages_bound (l : nat) (n : Z) (w : world) :
  let r := sgx_isolate_epc_pages H l n [] w in
  Z.of_nat (length (snd (fst r))) + Z.max (fst (fst r)) 0 <= Z.max n 0.
Proof.
  cbv zeta. unfold sgx_isolate_epc_pages.
  destruct (Z.le_gt_cases n 0) as [Hle | Hgt].
  - replace (Z.to_nat n) with O by lia. cbn. lia.
  - pose proof (isolate_loop_bound (Z.to_nat n) l [] w) as Hb.
    cbv zeta in Hb. rewrite Z2Nat.id in Hb by lia. cbn [length] in Hb. lia.
Qed.

Lemma reclaim_isolate_bound (n : Z) (cg : nat) (w : world) :
  CONFIG_CGROUP_SGX_EPC H = false \/ cgroup_isolate_bounded E ->
  Z.of_nat (length (fst (reclaim_isolate H E n cg w))) <= Z.max n 0.
Proof.
  intros Hcfg. unfold reclaim_isolate. rewrite bind_eq.
  destruct (CONFIG_CGROUP_SGX_EPC H) eqn:Hc.
  - destruct Hcfg as [Hcfg | Hb]; [ discriminate | ].
    cbn [negb orb].
    destruct (Nat.eqb cg 0).
    + pose proof (sgx_isolate_epc_pages_bound O n w) as Hi. cbv zeta in Hi.
      destruct (sgx_isolate_epc_pages H 0 n [] w) as [[n1 iso] w1].
      cbn [fst snd] in *.
      specialize (Hb cg n1 iso (k w1)).
      destruct (sgx_epc_cgroup_isolate_pages E cg n1 iso (k w1))
        as [[n2 iso2] s2].
      cbn [fst snd] in *. lia.
    + unfold ret. cbn [fst snd].
      specialize (Hb cg n [] (k w)).
      destruct (sgx_epc_cgroup_isolate_pages E cg n [] (k w))
        as [[n2 iso2] s2].
      cbn [fst snd length] in *. lia.
  - cbn [negb orb].
    pose proof (sgx_isolate_epc_pages_bound O n w) as Hi. cbv zeta in Hi.
    destruct (sgx_isolate_epc_pages H 0 n [] w) as [[n1 iso] w1].
    unfold ret. cbn [fst snd] in *. lia.
Qed.

Lemma reclaim_scan_cons (ignore_age : bool) (p : nat) (rest : list nat)
      (i : Z) (b : Z -> sgx_backing) (w : world) :
  reclaim_scan H E ignore_age (p :: rest) i b w =
  let encl_page := owner (pages (k w) p) in
  let t := reclaim_skip_test H E ignore_age p i w in
  if fst t then
    reclaim_scan H E ignore_age rest i b (snd (reclaim_skip H E p (snd t)))
  else
    let w1 := snd t in
    let e := encl (encl_pages (k w1) encl_page) in
    let index := SGX_ENCL_PAGE_INDEX H (ep_desc (encl_pages (k w1) encl_page))
                                     (base (encls (k w1) e)) in
    let r := env E (trace w1) (sgx_encl_get_backing e index) in
    let w2 := mk_world (k w1)
                       (trace w1 ++ [(sgx_encl_get_backing e index, r)]) in
    if truthy r then
      reclaim_scan H E ignore_age rest i b (snd (reclaim_skip H E p w2))
    else
      let w3 :=
        mk_world (set_ep_desc encl_page
                    (Z.lor (ep_desc (encl_pages (k w2) encl_page))
                           (SGX_ENCL_PAGE_RECLAIMED H)) (k w2))
                 (trace w2) in
      let rr := reclaim_scan H E ignore_age rest (i + 1)
                             (updZ b i (mk_backing e index)) w3 in
      ((fst (fst (fst rr)), p :: snd (fst (fst rr)), snd (fst rr)), snd rr).
Proof.
  cbn [reclaim_scan].
  change (if i =? SGX_MAX_NR_TO_RECLAIM then ret true
          else if ignore_age then ret false
               else bind (sgx_reclaimer_age H E p) (fun a => ret (negb a)))
    with (reclaim_skip_test H E ignore_age p i).
  unfold bind, get, modify, ask, ret. cbv zeta. cbn [k trace].
  destruct (reclaim_skip_test H E ignore_age p i w) as [[|] w1];
    cbn [fst snd].
  - destruct (reclaim_skip H E p w1). reflexivity.
  - destruct (truthy (env E (trace w1) _)).
    + destruct (reclaim_skip H E p _). reflexivity.
    + destruct (reclaim_scan H E ignore_age rest (i + 1) _ _)
        as [[[i' iso'] b'] w4].
      reflexivity.
Qed.

(** The first loop counts the pages it keeps. *)
Lemma reclaim_scan_count (ignore_age : bool) (iso : list nat) :
  forall (i : Z) (b : Z -> sgx_backing) (w : world),
    let r := reclaim_scan H E ignore_age iso i b w in
    fst (fst (fst r)) = i + Z.of_nat (length (snd (fst (fst r)))) /\
    (length (snd (fst (fst r))) <= length iso)%nat.
Proof.
  induction iso as [| p rest IH]; intros i b w r.
  - subst r. cbn. lia.
  - subst r. rewrite reclaim_scan_cons. cbv zeta.
    destruct (fst (reclaim_skip_test H E ignore_age p i w)).
    + match goal with
      | |- context [reclaim_scan H E ignore_age rest ?i0 ?b0 ?w0] =>
          specialize (IH i0 b0 w0)
      end. cbv zeta in IH. cbn [length]. lia.
    + destruct (truthy _).
      * match goal with
        | |- context [reclaim_scan H E ignore_age rest ?i0 ?b0 ?w0] =>
            specialize (IH i0 b0 w0)
        end. cbv zeta in IH. cbn [length]. lia.
      * match goal with
        | |- context [reclaim_scan H E ignore_age rest ?i0 ?b0 ?w0] =>
            specialize (IH i0 b0 w0)
        end. cbv zeta in IH. cbn [fst snd length]. lia.
Qed.

(** The third loop counts the pages it moves. *)
Lemma reclaim_write_count (iso : list nat) :
  forall (i : Z) (b : Z -> sgx_backing) (w : world),
    fst (reclaim_write H E iso i b w) = i + Z.of_nat (length iso).
Proof.
  induction iso as [| p rest IH]; intros i b w.
  - cbn. lia.
  - cbn [reclaim_write]. rewrite bind_eq. rewrite IH. cbn [length]. lia.
Qed.

Lemma reclaim_result_is_kept_count (n : Z) (ignore_age : bool) (cg : nat)
      (w : world) :
  fst (sgx_reclaim_epc_pages H E n ignore_age cg w) =
  Z.of_nat (length (fst (reclaim_accepted H E n ignore_age cg w))) /\
  (length (fst (reclaim_accepted H E n ignore_age cg w)) <=
   length (fst (reclaim_isolate H E n cg w)))%nat.
Proof.
  unfold sgx_reclaim_epc_pages, reclaim_accepted. rewrite !bind_eq.
  pose proof (reclaim_scan_count ignore_age
                (fst (reclaim_isolate H E n cg w)) 0
                (fun _ => mk_backing O 0)
                (snd (reclaim_isolate H E n cg w))) as Hc.
  cbv zeta in Hc.
  destruct (fst (reclaim_isolate H E n cg w)) as [| p iso] eqn:Hiso.
  - cbn. split; [ reflexivity | lia ].
  - rewrite !bind_eq.
    destruct (reclaim_scan H E ignore_age (p :: iso) 0 _ _)
      as [[[i' iso'] b'] w2].
    cbn [fst snd] in *. rewrite bind_eq. rewrite reclaim_write_count.
    unfold ret. cbn [fst]. split; [ lia | lia ].
Qed.

Lemma lru_add_tail_reclaimable_frame (l p : nat) (s : kstate) :
  let s' := lru_add_tail_reclaimable l p s in
  reclaimable (lru_of l s') = reclaimable (lru_of l s) ++ [p] /\
  pages s' = pages s /\ encl_pages s' = encl_pages s /\ encls s' = encls s.
Proof.
  cbv zeta. unfold lru_add_tail_reclaimable. rewrite lru_of_set_lru.
  destruct l; repeat split; reflexivity.
Qed.

Lemma reclaim_skip_relinked_frame (p : nat) (s : kstate) :
  let s' := reclaim_skip_relinked H p s in
  reclaimable (lru_of (sgx_lru H p s) s') =
  reclaimable (lru_of (sgx_lru H p s) s) ++ [p] /\
  Z.land (desc (pages s' p)) (SGX_EPC_PAGE_RECLAIM_IN_PROGRESS H) = 0 /\
  encl_pages s' = encl_pages s /\ encls s' = encls s /\
  (forall q, owner (pages s' q) = owner (pages s q)).
Proof.
  cbv zeta. unfold reclaim_skip_relinked.
  destruct (lru_add_tail_reclaimable_frame (sgx_lru H p s) p
              (set_desc p (clear_bits (desc (pages s p))
                                      (SGX_EPC_PAGE_RECLAIM_IN_PROGRESS H)) s))
    as (F1 & F2 & F3 & F4).
  rewrite F1, F2, F3, F4, lru_of_set_desc.
  split; [ reflexivity | ].
  split.
  { cbn. unfold upd. rewrite Nat.eqb_refl. cbn [desc].
    apply clear_bits_land_same. }
  split; [ reflexivity | ]. split; [ reflexivity | ].
  intros q. cbn. unfold upd.
  destruct (Nat.eqb_spec q p) as [-> | Hne]; reflexivity.
Qed.

Lemma reclaim_skip_eq (p : nat) (w : world) :
  reclaim_skip H E p w =
  (tt, mk_world (kref_put_k E (encl_of (k w) p)
                            (reclaim_skip_relinked H p (k w)))
                (trace w ++ kref_put_events (encl_of (k w) p)
                                            (reclaim_skip_relinked H p (k w)))).
Proof.
  unfold reclaim_skip. unfold bind, get, modify. cbn [k trace].
  rewrite kref_put_eq. cbn [k trace].
  destruct (reclaim_skip_relinked_frame p (k w)) as (_ & _ & F3 & _).
  cbv zeta in F3. unfold reclaim_skip_relinked in *. rewrite F3.
  reflexivity.
Qed.

Lemma kref_put_k_not_last (e : nat) (s : kstate) :
  refcount (encls s e) <> 1%nat ->
  (forall l, lru_of l (kref_put_k E e s) = lru_of l s) /\
  pages (kref_put_k E e s) = pages s /\
  sgx_epc_sections (kref_put_k E e s) = sgx_epc_sections s /\
  refcount (encls (kref_put_k E e s) e) = Nat.pred (refcount (encls s e)).
Proof.
  intros Hne. unfold kref_put_k. apply Nat.eqb_neq in Hne. rewrite Hne.
  split; [ intros l; destruct l; reflexivity | ].
  split; [ reflexivity | ]. split; [ reflexivity | ].
  cbn. unfold upd. rewrite Nat.eqb_refl. reflexivity.
Qed.

Lemma reclaim_write_page_eq (p : nat) (b : sgx_backing) (w : world) :
  reclaim_write_page H E p b w =
  let w2 := snd (reclaim_write_prefix H E p b w) in
  let s2 := set_desc p (clear_bits (desc (pages (k w2) p))
                          (SGX_EPC_PAGE_RECLAIM_FLAGS H)) (k w2) in
  let charged := CONFIG_CGROUP_SGX_EPC H &&
                 negb (Nat.eqb (epc_cg (pages (k w2) p)) 0) in
  let s3 := if charged then set_epc_cg p 0 s2 else s2 in
  let t3 := if charged
            then trace w2 ++
                 [(sgx_epc_cgroup_uncharge (epc_cg (pages (k w2) p)) true, 0)]
            else trace w2 in
  (tt, mk_world (section_free_add_tail (sgx_get_epc_section H p s3) p s3) t3).
Proof.
  unfold reclaim_write_page, reclaim_write_prefix.
  unfold bind, get, modify, tell, when, ret. cbn [k trace]. cbv zeta.
  destruct (sgx_reclaimer_write H E p b w) as [[] w1]. cbn [k trace].
  destruct (kref_put E _ _) as [[] w2]. cbn [fst snd k trace].
  destruct (CONFIG_CGROUP_SGX_EPC H &&
            negb (Nat.eqb (epc_cg (pages (k w2) p)) 0)); reflexivity.
Qed.

Lemma reclaim_write_page_moves (p : nat) (b : sgx_backing) (w : world) :
  let w2 := snd (reclaim_write_page H E p b w) in
  (exists l,
     page_list (sgx_epc_sections (k w2) (sgx_get_epc_section H p (k w2))) =
     l ++ [p]) /\
  Z.land (desc (pages (k w2) p)) (SGX_EPC_PAGE_RECLAIMABLE H) = 0 /\
  Z.land (desc (pages (k w2) p)) (SGX_EPC_PAGE_RECLAIM_IN_PROGRESS H) = 0.
Proof.
  cbv zeta. rewrite reclaim_write_page_eq. cbv zeta. cbn [snd k].
  set (w2 := snd (reclaim_write_prefix H E p b w)).
  set (s2 := set_desc p _ (k w2)).
  set (s3 := if CONFIG_CGROUP_SGX_EPC H &&
                negb (Nat.eqb (epc_cg (pages (k w2) p)) 0)
             then set_epc_cg p O s2 else s2).
  assert (Hd : desc (pages s3 p) =
               clear_bits (desc (pages (k w2) p))
                          (SGX_EPC_PAGE_RECLAIM_FLAGS H)).
  { subst s3 s2. destruct (_ && _); cbn; unfold upd;
      rewrite ?Nat.eqb_refl; reflexivity. }
  assert (Hp : pages (section_free_add_tail (sgx_get_epc_section H p s3) p s3)
               = pages s3) by reflexivity.
  assert (Hi : sgx_get_epc_section H p
                 (section_free_add_tail (sgx_get_epc_section H p s3) p s3) =
               sgx_get_epc_section H p s3).
  { reflexivity. }
  rewrite Hi, Hp, Hd.
  split.
  { unfold section_free_add_tail. rewrite sections_set_section_same.
    cbn [page_list]. eexists. reflexivity. }
  split; [ apply clear_bits_lor_l | apply clear_bits_lor_r ].
Qed.


End Reclaim.


(** ** Sanitization at boot *)

(** C2 fails on the code.  With two sections of four and two pages, where
    [EREMOVE] fails on pages 7 and 8 the first time and would succeed the
    second time, the two rounds of [ksgxswapd] put the four pages of
    section 0 on its free list, but pages 7 and 8 end on no list of
    section 1: the first round moves them to the local [secs_list] of
    [sgx_sanitize_section], which is gone when the function returns, so
    the second round finds the unsanitized list empty and calls [EREMOVE]
    on neither page again. *)
Lemma ksgxswapd_sanitize_loses_parked_pages :
  let w := snd (ksgxswapd_sanitize (ext env_parent) w_two_sections) in
  unsanitized_page_list (sgx_epc_sections (k w_two_sections) O) =
  [2; 3; 4; 5]%nat /\
  unsanitized_page_list (sgx_epc_sections (k w_two_sections) 1%nat) =
  [7; 8]%nat /\
  page_list (sgx_epc_sections (k w) O) = [5; 4; 3; 2]%nat /\
  unsanitized_page_list (sgx_epc_sections (k w) O) = [] /\
  page_list (sgx_epc_sections (k w) 1%nat) = [] /\
  unsanitized_page_list (sgx_epc_sections (k w) 1%nat) = [] /\
  free_cnt (sgx_epc_sections (k w) 1%nat) = 2 /\
  length (filter (is_eremove 7) (trace w)) = 1%nat /\
  length (filter (is_eremove 8) (trace w)) = 1%nat /\
  env_parent (trace w) (eremove 7) = 0 /\
  env_parent (trace w) (eremove 8) = 0.
Proof.
  vm_compute. repeat split; reflexivity.
Qed.

(** ** The theorems at concrete inputs *)

(** [sgx_drop_epc_page] on a page in the hands of the reclaimer and on an
    idle page of the same list. *)
Lemma sgx_drop_epc_page_busy_or_detached_witness :
  sgx_drop_epc_page (hdr true) 1 w_charged = (- EBUSY, w_charged) /\
  fst (sgx_drop_epc_page (hdr true) 2 w_charged) = 0 /\
  ~ linked (k (snd (sgx_drop_epc_page (hdr true) 2 w_charged))) 2.
Proof.
  pose proof (sgx_drop_epc_page_busy_or_detached (hdr true) 1 w_charged) as T1.
  pose proof (sgx_drop_epc_page_busy_or_detached (hdr true) 2 w_charged) as T2.
  cbv zeta in T1, T2.
  destruct T1 as (_ & B & _). destruct T2 as (_ & _ & D).
  assert (H1 : fst (sgx_drop_epc_page (hdr true) 1 w_charged) = - EBUSY)
    by reflexivity.
  assert (H2 : fst (sgx_drop_epc_page (hdr true) 2 w_charged) <> - EBUSY)
    by (vm_compute; discriminate).
  split.
  - rewrite <- (B H1) at 2. rewrite <- H1.
    destruct (sgx_drop_epc_page (hdr true) 1 w_charged). reflexivity.
  - destruct (D H2) as (D1 & D2 & _). split; assumption.
Defined.

(** [sgx_free_epc_page] on a charged page when [EREMOVE] fails. *)
Lemma sgx_free_epc_page_eremove_failed_witness :
  env (ext (env_const 13)) (trace w_charged) (eremove 2) <> 0 /\
  k (snd (sgx_free_epc_page (hdr true) (ext (env_const 13)) 2 w_charged)) =
  k w_charged /\
  epc_cg (pages (k (snd (sgx_free_epc_page (hdr true) (ext (env_const 13)) 2
                                           w_charged))) 2) = 3%nat.
Proof.
  assert (Hf : env (ext (env_const 13)) (trace w_charged) (eremove 2) <> 0)
    by (vm_compute; discriminate).
  split; [ exact Hf | ].
  destruct (sgx_free_epc_page_eremove_failed (hdr true) (ext (env_const 13))
              2 w_charged Hf) as (T1 & _ & T3 & _).
  split; [ exact T1 | ]. rewrite T3. reflexivity.
Defined.

(** [sgx_oom_get_victim] on a list whose first two pages are refused, one
    by the virtual EPC module and one by an enclave without reference, and
    [sgx_epc_oom] on a list of two pages that the virtual EPC module
    refuses: the refused pages are off the list and both queries are in the
    trace. *)
Lemma sgx_oom_get_victim_unlinks_scanned_witness :
  (let v := sgx_oom_get_victim (hdr false) (ext (env_const 0)) O
                               w_oom_mixed in
   fst v = Some 3%nat /\
   unreclaimable (lru_of O (k (snd v))) = [4%nat] /\
   trace (snd v) = [(sgx_virt_epc_get_ref 1, 0)]) /\
  (let r := sgx_epc_oom (hdr false) (ext (env_const 0)) O w_no_victim in
   fst r = Some false /\
   unreclaimable (lru_of O (k (snd r))) = [] /\
   trace (snd r) = [(sgx_virt_epc_get_ref 1, 0);
                    (sgx_virt_epc_get_ref 2, 0)]).
Proof.
  split.
  - assert (Hl : unreclaimable (lru_of O (k w_oom_mixed)) =
                 [1; 2]%nat ++ [3; 4]%nat) by reflexivity.
    assert (Hpre : oom_refused (hdr false) (ext (env_const 0))
                     (k w_oom_mixed) (trace w_oom_mixed) [1; 2]%nat =
                   Some [(sgx_virt_epc_get_ref 1, 0)]) by reflexivity.
    assert (Hpost : forall p post',
               [3; 4]%nat = p :: post' ->
               oom_ref_available (hdr false) (ext (env_const 0))
                 (mk_world (k w_oom_mixed) [(sgx_virt_epc_get_ref 1, 0)])
                 p = true).
    { intros p post' Hx. injection Hx as <- _. reflexivity. }
    destruct (sgx_oom_get_victim_unlinks_scanned (hdr false)
                (ext (env_const 0)) O w_oom_mixed [1; 2]%nat [3; 4]%nat
                _ Hl Hpre Hpost)
      as (T1 & T2 & _ & _ & _ & _ & _ & T8 & _).
    cbv zeta. split; [ exact T1 | ]. split; [ exact T2 | exact T8 ].
  - assert (Hl : unreclaimable (lru_of O (k w_no_victim)) = [1; 2]%nat ++ [])
      by reflexivity.
    assert (Hpre : oom_refused (hdr false) (ext (env_const 0))
                     (k w_no_victim) (trace w_no_victim) [1; 2]%nat =
                   Some [(sgx_virt_epc_get_ref 1, 0);
                         (sgx_virt_epc_get_ref 2, 0)]) by reflexivity.
    assert (Hpost : forall p post',
               @nil nat = p :: post' ->
               oom_ref_available (hdr false) (ext (env_const 0))
                 (mk_world (k w_no_victim)
                           [(sgx_virt_epc_get_ref 1, 0);
                            (sgx_virt_epc_get_ref 2, 0)]) p = true).
    { intros p post' Hx. discriminate. }
    destruct (sgx_oom_get_victim_unlinks_scanned (hdr false)
                (ext (env_const 0)) O w_no_victim [1; 2]%nat [] _
                Hl Hpre Hpost)
      as (_ & _ & _ & _ & _ & _ & _ & _ & _ & T).
    destruct (T eq_refl) as (T1 & T2 & _ & _ & _ & _ & _ & T8).
    cbv zeta. split; [ exact T1 | ]. split; [ exact T2 | exact T8 ].
Defined.

(** [sgx_epc_oom] on a list that holds one version-array page of a live
    enclave whose mm has one VMA of another mapping behind the two VMAs of
    the enclave: the enclave is marked and its two pages are zapped, and
    [sgx_epc_oom] ends in [sgx_epc_oom_zap] with the reference still
    held. *)
Lemma sgx_epc_oom_null_dereference_witness :
  let r := sgx_epc_oom (hdr false) ext_mapped O w_oom in
  fst r = None /\
  trace (snd r) = [(mmget_not_zero 4, 1); (zap_page_range 4 65536 8192, 0)] /\
  unreclaimable (lru_of O (k (snd r))) = [] /\
  refcount (encls (k (snd r)) 1) = 2%nat /\
  flags (encls (k (snd r)) 1) = 11.
Proof.
  pose proof (sgx_epc_oom_null_dereference (hdr false) ext_mapped O w_oom
                3 [] 4 [] [(65536, 8192)]) as T.
  cbv zeta in T.
  assert (H1 : unreclaimable (lru_of O (k w_oom)) = [3%nat]) by reflexivity.
  assert (H2 : oom_virt_page (hdr false) (k w_oom) 3 = false)
    by reflexivity.
  assert (H3 : refcount (encls (k w_oom)
                           (oom_victim_encl (hdr false) (k w_oom) 3)) <> O)
    by (vm_compute; discriminate).
  assert (H4 : oom_encl_early (hdr false)
                 (flags (encls (k w_oom)
                           (oom_victim_encl (hdr false) (k w_oom) 3))) =
               false) by reflexivity.
  assert (H5 : mm_list (encls (k w_oom)
                          (oom_victim_encl (hdr false) (k w_oom) 3)) =
               [4%nat]) by reflexivity.
  assert (H6 : env ext_mapped (trace w_oom) (mmget_not_zero 4) <> 0)
    by (vm_compute; discriminate).
  specialize (T H1 H2 H3 H4 H5 H6 eq_refl).
  destruct T as (_ & T2 & _ & T4 & _ & T6 & T7 & T8).
  cbv zeta. split; [ exact T2 | ]. split; [ exact T4 | ].
  split; [ exact T6 | ]. split; [ exact T7 | exact T8 ].
Defined.

(** ** The allocation loop need not terminate *)

Lemma reclaim_stuck (t : list event) :
  sgx_reclaim_epc_pages (hdr false) (ext (env_const 0)) SGX_NR_TO_SCAN false O
                        (mk_world k_stuck t) =
  (0, mk_world k_stuck t).
Proof.
  reflexivity.
Qed.

(** With nothing on the free lists, a reclaimable list that isolation
    cannot make progress on and no signal, the loop of
    [sgx_alloc_epc_page] is still running after any number of
    iterations. *)
Remark alloc_loop_can_spin (fuel : nat) :
  forall t,
    fst (alloc_loop (hdr false) (ext (env_const 0)) fuel 7 true
                    (mk_world k_stuck t)) = None.
Proof.
  induction fuel as [| fuel IH]; intros t.
  - reflexivity.
  - rewrite alloc_loop_S_miss by (intros i Hi; reflexivity).
    cbn [k trace]. cbv zeta.
    change (sgx_can_reclaim (hdr false) (ext (env_const 0)) k_stuck)
      with true.
    cbn [negb]. change (env (ext (env_const 0)) t signal_pending) with 0.
    change (truthy 0) with false. cbv iota.
    rewrite reclaim_stuck. cbn [snd]. apply IH.
Qed.

(** ** Runs of the scenarios of the specification *)

(** S3: two [NOT_TRACKED] answers give write-back, track on the SECS page,
    write-back, the CPU sets of both mms, one kick of CPUs 4 and 5, and a
    last write-back. *)
Example run_not_tracked_escalation :
  trace (snd (sgx_encl_ewb (hdr false) (ext env_not_tracked) 1
                           (mk_backing 1 1) w_mapped)) =
  [(sgx_alloc_va_slot 6, 0); (sgx_va_page_full 6, 0);
   (ewb 1 6 0 (mk_backing 1 1), 11); (etrack 2, 0);
   (ewb 1 6 0 (mk_backing 1 1), 11);
   (mmget_not_zero 4, 1); (mm_cpumask 4, 16);
   (mmget_not_zero 5, 1); (mm_cpumask 5, 32);
   (on_each_cpu_mask 48, 0); (ewb 1 6 0 (mk_backing 1 1), 0)].
Proof.
  vm_compute. reflexivity.
Qed.

(** S2 in small: with an empty free pool and one reclaimable page, an
    allocation that may reclaim runs one reclaim pass and returns a page
    bound to its owner. *)
Example run_allocate_under_pressure :
  let r := sgx_alloc_epc_page (hdr false) (ext (env_const 0)) 2 7 true
                              w_last_child in
  fst r = Some (Ptr 2) /\
  owner (pages (k (snd r)) 2) = 7%nat /\
  page_list (sgx_epc_sections (k (snd r)) O) = [1%nat] /\
  free_cnt (sgx_epc_sections (k (snd r)) O) = 1.
Proof.
  vm_compute. repeat split; reflexivity.
Qed.

(** S4: a pending signal ends the allocation before any call to the
    reclaimer; the swap thread is woken because the pool is below the low
    watermark. *)
Example run_allocation_cancelled :
  let r := sgx_alloc_epc_page (hdr false) (ext (env_const 1)) 2 7 true
                              w_last_child in
  fst r = Some (Err (- ERESTARTSYS)) /\
  trace (snd r) = [(signal_pending, 1); (wake_up, 0)] /\
  reclaimable (sgx_global_lru (k (snd r))) = [1%nat].
Proof.
  vm_compute. repeat split; reflexivity.
Qed.

(** Round trip of [sgx_record_epc_page] and [sgx_drop_epc_page] on a page
    without reclaim flags. *)
Example run_record_then_drop :
  let w1 := snd (sgx_record_epc_page (hdr false) 5 256 world0) in
  let r := sgx_drop_epc_page (hdr false) 5 w1 in
  reclaimable (sgx_global_lru (k w1)) = [5%nat] /\
  desc (pages (k w1) 5) = 256 /\
  fst r = 0 /\
  reclaimable (sgx_global_lru (k (snd r))) = [] /\
  desc (pages (k (snd r)) 5) = 0.
Proof.
  vm_compute. repeat split; reflexivity.
Qed.

(** ** Section metrics *)

Lemma GENMASK_ULL_31_12 : GENMASK_ULL 31 12 = Z.shiftl (Z.ones 20) 12.
Proof.
  reflexivity.
Qed.

Lemma GENMASK_ULL_19_0 : GENMASK_ULL 19 0 = Z.ones 20.
Proof.
  reflexivity.
Qed.

Lemma testbit_low_part (low n : Z) :
  0 <= n ->
  Z.testbit (Z.land low (GENMASK_ULL 31 12)) n =
  Z.testbit low n && ((12 <=? n) && (n <? 32)).
Proof.
  intros Hn. rewrite GENMASK_ULL_31_12, Z.land_spec.
  rewrite Z.shiftl_spec by exact Hn.
  destruct (12 <=? n) eqn:H12.
  - apply Z.leb_le in H12. rewrite Z.testbit_ones_nonneg by lia.
    replace (n - 12 <? 20) with (n <? 32); [ reflexivity | ].
    destruct (n <? 32) eqn:H32.
    + apply Z.ltb_lt in H32. symmetry. apply Z.ltb_lt. lia.
    + apply Z.ltb_ge in H32. symmetry. apply Z.ltb_ge. lia.
  - apply Z.leb_gt in H12. rewrite (Z.testbit_neg_r (Z.ones 20)) by lia.
    reflexivity.
Qed.

Lemma testbit_high_part (high n : Z) :
  0 <= n ->
  Z.testbit (Z.shiftl (Z.land high (GENMASK_ULL 19 0)) 32) n =
  Z.testbit high (n - 32) && ((32 <=? n) && (n <? 52)).
Proof.
  intros Hn. rewrite GENMASK_ULL_19_0, Z.shiftl_spec by exact Hn.
  rewrite Z.land_spec.
  destruct (32 <=? n) eqn:H32.
  - apply Z.leb_le in H32. rewrite Z.testbit_ones_nonneg by lia.
    replace (n - 32 <? 20) with (n <? 52); [ reflexivity | ].
    destruct (n <? 52) eqn:H52.
    + apply Z.ltb_lt in H52. symmetry. apply Z.ltb_lt. lia.
    + apply Z.ltb_ge in H52. symmetry. apply Z.ltb_ge. lia.
  - apply Z.leb_gt in H32. rewrite (Z.testbit_neg_r (Z.ones 20)) by lia.
    cbn [andb]. rewrite !andb_false_r. reflexivity.
Qed.

Lemma wrap64_testbit (x n : Z) :
  0 <= n -> Z.testbit (wrap64 x) n = Z.testbit x n && (n <? 64).
Proof.
  intros Hn. unfold wrap64. destruct (n <? 64) eqn:H64.
  - apply Z.ltb_lt in H64. rewrite Z.mod_pow2_bits_low by lia.
    rewrite andb_true_r. reflexivity.
  - apply Z.ltb_ge in H64. rewrite Z.mod_pow2_bits_high by lia.
    rewrite andb_false_r. reflexivity.
Qed.

(** The two parts of a metric share no bit, so their sum is their
    bitwise or. *)
Lemma metric_parts_disjoint (low high : Z) :
  Z.land (Z.land low (GENMASK_ULL 31 12))
         (wrap64 (Z.shiftl (Z.land high (GENMASK_ULL 19 0)) 32)) = 0.
Proof.
  apply Z.bits_inj'. intros n Hn.
  rewrite Z.land_spec, testbit_low_part, wrap64_testbit, testbit_high_part,
    Z.bits_0 by exact Hn.
  destruct (n <? 32) eqn:H32.
  - apply Z.ltb_lt in H32.
    assert (H0 : (32 <=? n) = false) by (apply Z.leb_gt; lia).
    rewrite H0, !andb_false_r. reflexivity.
  - rewrite !andb_false_r. reflexivity.
Qed.

Lemma sgx_calc_section_metric_testbit (low high n : Z) :
  0 <= n ->
  Z.testbit (sgx_calc_section_metric low high) n =
  if (12 <=? n) && (n <? 32) then Z.testbit low n
  else if (32 <=? n) && (n <? 52) then Z.testbit high (n - 32)
  else false.
Proof.
  intros Hn. unfold sgx_calc_section_metric.
  rewrite Z.add_nocarry_lxor by apply metric_parts_disjoint.
  rewrite Z.lxor_lor by apply metric_parts_disjoint.
  rewrite wrap64_testbit, Z.lor_spec, testbit_low_part, wrap64_testbit,
    testbit_high_part by exact Hn.
  destruct (12 <=? n) eqn:H12, (n <? 32) eqn:H32, (32 <=? n) eqn:H32',
           (n <? 52) eqn:H52, (n <? 64) eqn:H64;
    cbn [andb orb]; rewrite ?andb_true_r, ?andb_false_r, ?orb_false_r;
    try reflexivity;
    repeat match goal with
           | Hx : (_ <=? _) = true |- _ => apply Z.leb_le in Hx
           | Hx : (_ <=? _) = false |- _ => apply Z.leb_gt in Hx
           | Hx : (_ <? _) = true |- _ => apply Z.ltb_lt in Hx
           | Hx : (_ <? _) = false |- _ => apply Z.ltb_ge in Hx
           end; try lia.
Qed.

(** X1.  The bit layout that the comment of [sgx_calc_section_metric]
    promises, for any two register values: bits 12 to 31 of the metric are
    bits 12 to 31 of [low], bits 32 to 51 are bits 0 to 19 of [high], and
    every other bit is clear. *)
Theorem sgx_calc_section_metric_layout (low high : Z) (n : nat) :
  Z.testbit (sgx_calc_section_metric low high) (Z.of_nat n) =
  if (12 <=? n)%nat && (n <? 32)%nat then Z.testbit low (Z.of_nat n)
  else if (32 <=? n)%nat && (n <? 52)%nat
       then Z.testbit high (Z.of_nat (n - 32))
       else false.
Proof.
  rewrite sgx_calc_section_metric_testbit by lia.
  destruct (12 <=? n)%nat eqn:H12, (n <? 32)%nat eqn:H32,
           (32 <=? n)%nat eqn:H32', (n <? 52)%nat eqn:H52;
    repeat match goal with
           | Hx : (_ <=? _)%nat = true |- _ => apply Nat.leb_le in Hx
           | Hx : (_ <=? _)%nat = false |- _ => apply Nat.leb_gt in Hx
           | Hx : (_ <? _)%nat = true |- _ => apply Nat.ltb_lt in Hx
           | Hx : (_ <? _)%nat = false |- _ => apply Nat.ltb_ge in Hx
           end; try lia;
    repeat match goal with
           | |- context [?a <=? ?b] =>
               let Hx := fresh in
               destruct (a <=? b) eqn:Hx;
               [ apply Z.leb_le in Hx | apply Z.leb_gt in Hx ]; try lia
           | |- context [?a <? ?b] =>
               let Hx := fresh in
               destruct (a <? b) eqn:Hx;
               [ apply Z.ltb_lt in Hx | apply Z.ltb_ge in Hx ]; try lia
           end;
    cbn [andb]; try reflexivity.
  f_equal. lia.
Qed.

Lemma testbit_false_above (x b : Z) :
  0 <= b ->
  (forall n, b <= n -> Z.testbit x n = false) ->
  0 <= x -> x < 2 ^ b.
Proof.
  intros Hb Hbits Hx.
  assert (Hm : x mod 2 ^ b = x).
  { apply Z.bits_inj'. intros n Hn.
    destruct (Z.lt_ge_cases n b) as [Hlt | Hge].
    - apply Z.mod_pow2_bits_low. lia.
    - rewrite Z.mod_pow2_bits_high by lia. symmetry. apply Hbits. exact Hge. }
  rewrite <- Hm. apply Z.mod_pos_bound. apply Z.pow_pos_nonneg; lia.
Qed.

Lemma testbit_false_below (x b : Z) :
  0 <= b ->
  (forall n, 0 <= n < b -> Z.testbit x n = false) ->
  x mod 2 ^ b = 0.
Proof.
  intros Hb Hbits. apply Z.bits_inj'. intros n Hn. rewrite Z.bits_0.
  destruct (Z.lt_ge_cases n b) as [Hlt | Hge].
  - rewrite Z.mod_pow2_bits_low by lia. apply Hbits. lia.
  - apply Z.mod_pow2_bits_high. lia.
Qed.

Lemma sgx_calc_section_metric_nonneg (low high : Z) :
  0 <= sgx_calc_section_metric low high.
Proof.
  unfold sgx_calc_section_metric, wrap64. apply Z.mod_pos_bound. lia.
Qed.

(** X2.  Whatever the registers hold, a section metric is a multiple of the
    page size below [2 ^ 52]: a section starts on a page boundary and holds
    a whole number of pages. *)
Theorem sgx_calc_section_metric_page_aligned (low high : Z) :
  0 <= sgx_calc_section_metric low high < 2 ^ 52 /\
  sgx_calc_section_metric low high mod 2 ^ PAGE_SHIFT = 0.
Proof.
  split; [ split | ].
  - apply sgx_calc_section_metric_nonneg.
  - apply testbit_false_above;
      [ lia | | apply sgx_calc_section_metric_nonneg ].
    intros n Hn. rewrite sgx_calc_section_metric_testbit by lia.
    assert (H1 : (n <? 32) = false) by (apply Z.ltb_ge; lia).
    assert (H2 : (n <? 52) = false) by (apply Z.ltb_ge; lia).
    rewrite H1, H2, !andb_false_r. reflexivity.
  - apply testbit_false_below; [ unfold PAGE_SHIFT; lia | ].
    unfold PAGE_SHIFT. intros n Hn.
    rewrite sgx_calc_section_metric_testbit by lia.
    assert (H1 : (12 <=? n) = false) by (apply Z.leb_gt; lia).
    assert (H2 : (32 <=? n) = false) by (apply Z.leb_gt; lia).
    rewrite H1, H2. reflexivity.
Qed.

(** X3.  Every page-aligned value below [2 ^ 52] is the metric of its own
    two halves: the low 32 bits in the first register and the bits from 32
    up in the second. *)
Theorem sgx_calc_section_metric_round_trip (m : Z) :
  0 <= m < 2 ^ 52 ->
  m mod 2 ^ PAGE_SHIFT = 0 ->
  sgx_calc_section_metric (m mod 2 ^ 32) (m / 2 ^ 32) = m.
Proof.
  intros Hm Hal. apply Z.bits_inj'. intros n Hn.
  rewrite sgx_calc_section_metric_testbit by exact Hn.
  destruct ((12 <=? n) && (n <? 32)) eqn:Hlo.
  - apply andb_prop in Hlo. destruct Hlo as [H12 H32].
    apply Z.leb_le in H12. apply Z.ltb_lt in H32.
    apply Z.mod_pow2_bits_low. lia.
  - destruct ((32 <=? n) && (n <? 52)) eqn:Hhi.
    + apply andb_prop in Hhi. destruct Hhi as [H32 H52].
      apply Z.leb_le in H32. apply Z.ltb_lt in H52.
      rewrite Z.div_pow2_bits by lia. f_equal. lia.
    + symmetry.
      destruct (Z.lt_ge_cases n 12) as [Hlt | Hge].
      * rewrite <- (Z.mod_pow2_bits_low m PAGE_SHIFT n)
          by (unfold PAGE_SHIFT; lia).
        rewrite Hal. apply Z.bits_0.
      * assert (H52 : 52 <= n).
        { destruct (Z.lt_ge_cases n 32) as [Hlt32 | Hge32].
          - assert (Ha : (12 <=? n) = true) by (apply Z.leb_le; lia).
            assert (Hb : (n <? 32) = true) by (apply Z.ltb_lt; lia).
            rewrite Ha, Hb in Hlo. discriminate.
          - destruct (Z.lt_ge_cases n 52) as [Hlt52 | Hge52];
              [ | exact Hge52 ].
            assert (Ha : (32 <=? n) = true) by (apply Z.leb_le; lia).
            assert (Hb : (n <? 52) = true) by (apply Z.ltb_lt; lia).
            rewrite Ha, Hb in Hhi. discriminate. }
        rewrite <- (Z.mod_small m (2 ^ 52)) by lia.
        apply Z.mod_pow2_bits_high. lia.
Qed.

(** The round trip for the section at [0x7_0020_0000]. *)
Lemma sgx_calc_section_metric_round_trip_witness :
  sgx_calc_section_metric (30066868224 mod 2 ^ 32) (30066868224 / 2 ^ 32) =
  30066868224.
Proof.
  apply (sgx_calc_section_metric_round_trip 30066868224).
  - lia.
  - reflexivity.
Defined.

(** ** The cache of the launch-key hash registers *)

Section Lepubkeyhash.

Variable MSR0 : Z.
Variable cpu : nat.
Variable lepubkeyhash : nat -> Z.
Variable enforce : bool.

Lemma lepubkeyhash_loop_S (todo i : nat) (m : msr_world) :
  lepubkeyhash_loop MSR0 cpu lepubkeyhash enforce (S todo) i m =
  lepubkeyhash_loop MSR0 cpu lepubkeyhash enforce todo (S i)
    (if lepubkeyhash_stale cpu lepubkeyhash enforce m i
     then set_cache cpu i (lepubkeyhash i)
            (wrmsrl cpu (MSR0 + Z.of_nat i) (lepubkeyhash i) m)
     else m).
Proof.
  reflexivity.
Qed.

Lemma cache_set_cache_same (i : nat) (v : Z) (m : msr_world) :
  sgx_lepubkeyhash_cache (set_cache cpu i v m) cpu i = v.
Proof.
  cbn. unfold upd. rewrite !Nat.eqb_refl. reflexivity.
Qed.

Lemma cache_set_cache_other (i j : nat) (v : Z) (m : msr_world) :
  j <> i ->
  sgx_lepubkeyhash_cache (set_cache cpu i v m) cpu j =
  sgx_lepubkeyhash_cache m cpu j.
Proof.
  intros Hne. cbn. unfold upd. rewrite Nat.eqb_refl.
  apply Nat.eqb_neq in Hne. rewrite Hne. reflexivity.
Qed.

Lemma msr_wrmsrl_same (r v : Z) (m : msr_world) :
  msr (wrmsrl cpu r v m) cpu r = v.
Proof.
  cbn. unfold upd, updZ. rewrite Nat.eqb_refl, Z.eqb_refl. reflexivity.
Qed.

Lemma msr_wrmsrl_other (r r' v : Z) (m : msr_world) :
  r' <> r -> msr (wrmsrl cpu r v m) cpu r' = msr m cpu r'.
Proof.
  intros Hne. cbn. unfold upd, updZ. rewrite Nat.eqb_refl.
  apply Z.eqb_neq in Hne. rewrite Hne. reflexivity.
Qed.

(** What one pass of the loop over the entries [i], ..., [i + todo - 1]
    leaves behind. *)
Lemma lepubkeyhash_loop_spec (todo : nat) :
  forall (i : nat) (m : msr_world),
    let m' := lepubkeyhash_loop MSR0 cpu lepubkeyhash enforce todo i m in
    (forall j, (i <= j < i + todo)%nat ->
               sgx_lepubkeyhash_cache m' cpu j = lepubkeyhash j) /\
    (forall j, ~ (i <= j < i + todo)%nat ->
               sgx_lepubkeyhash_cache m' cpu j =
               sgx_lepubkeyhash_cache m cpu j) /\
    (forall r, (forall j, (i <= j < i + todo)%nat -> r <> MSR0 + Z.of_nat j) ->
               msr m' cpu r = msr m cpu r) /\
    (forall c, c <> cpu ->
               sgx_lepubkeyhash_cache m' c = sgx_lepubkeyhash_cache m c /\
               msr m' c = msr m c) /\
    ((enforce = true \/
      forall j, (i <= j < i + todo)%nat ->
                sgx_lepubkeyhash_cache m cpu j =
                msr m cpu (MSR0 + Z.of_nat j)) ->
     forall j, (i <= j < i + todo)%nat ->
               msr m' cpu (MSR0 + Z.of_nat j) = lepubkeyhash j).
Proof.
  induction todo as [| todo IH]; intros i m m'.
  - subst m'. cbn [lepubkeyhash_loop].
    split; [ intros j Hj; lia | ].
    split; [ reflexivity | ].
    split; [ reflexivity | ].
    split; [ intros c Hc; split; reflexivity | ].
    intros _ j Hj. lia.
  - subst m'. rewrite lepubkeyhash_loop_S.
    set (m1 := if lepubkeyhash_stale cpu lepubkeyhash enforce m i
               then set_cache cpu i (lepubkeyhash i)
                      (wrmsrl cpu (MSR0 + Z.of_nat i) (lepubkeyhash i) m)
               else m).
    assert (Hc1 : sgx_lepubkeyhash_cache m1 cpu i = lepubkeyhash i).
    { subst m1. unfold lepubkeyhash_stale.
      destruct enforce; cbn [orb].
      - apply cache_set_cache_same.
      - destruct (lepubkeyhash i =? sgx_lepubkeyhash_cache m cpu i) eqn:He;
          cbn [negb].
        + apply Z.eqb_eq in He. symmetry. exact He.
        + apply cache_set_cache_same. }
    assert (Hc2 : forall j, j <> i ->
                            sgx_lepubkeyhash_cache m1 cpu j =
                            sgx_lepubkeyhash_cache m cpu j).
    { intros j Hj. subst m1.
      destruct (lepubkeyhash_stale cpu lepubkeyhash enforce m i);
        [ | reflexivity ].
      rewrite cache_set_cache_other by exact Hj. reflexivity. }
    assert (Hm2 : forall r, r <> MSR0 + Z.of_nat i ->
                            msr m1 cpu r = msr m cpu r).
    { intros r Hr. subst m1.
      destruct (lepubkeyhash_stale cpu lepubkeyhash enforce m i);
        [ | reflexivity ].
      cbn [set_cache msr]. apply msr_wrmsrl_other. exact Hr. }
    assert (Ho : forall c, c <> cpu ->
                           sgx_lepubkeyhash_cache m1 c =
                           sgx_lepubkeyhash_cache m c /\
                           msr m1 c = msr m c).
    { intros c Hc. subst m1.
      destruct (lepubkeyhash_stale cpu lepubkeyhash enforce m i);
        [ | split; reflexivity ].
      cbn. unfold upd. apply Nat.eqb_neq in Hc. rewrite Hc.
      split; reflexivity. }
    destruct (IH (S i) m1) as (I1 & I2 & I3 & I4 & I5).
    split.
    { intros j Hj. destruct (Nat.eq_dec j i) as [-> | Hne].
      - rewrite I2 by lia. exact Hc1.
      - apply I1. lia. }
    split.
    { intros j Hj. rewrite I2 by lia. apply Hc2. lia. }
    split.
    { intros r Hr. rewrite I3.
      - apply Hm2. apply Hr. lia.
      - intros j Hj. apply Hr. lia. }
    split.
    { intros c Hc. destruct (I4 c Hc) as [Ia Ib].
      destruct (Ho c Hc) as [Oa Ob].
      split; [ rewrite Ia; exact Oa | rewrite Ib; exact Ob ]. }
    intros Hcoh j Hj. destruct (Nat.eq_dec j i) as [-> | Hne].
    + rewrite I3 by (intros j Hj'; lia).
      subst m1. unfold lepubkeyhash_stale.
      destruct enforce eqn:Henf; cbn [orb].
      * cbn [set_cache msr]. apply msr_wrmsrl_same.
      * destruct Hcoh as [Hx | Hcoh]; [ discriminate | ].
        destruct (lepubkeyhash i =? sgx_lepubkeyhash_cache m cpu i) eqn:He;
          cbn [negb].
        -- apply Z.eqb_eq in He. rewrite He. symmetry. apply Hcoh. lia.
        -- cbn [set_cache msr]. apply msr_wrmsrl_same.
    + apply I5; [ | lia ].
      destruct Hcoh as [Hx | Hcoh]; [ left; exact Hx | right ].
      intros j' Hj'. rewrite Hc2 by lia. rewrite Hm2 by lia.
      apply Hcoh. lia.
Qed.

(** X4.  [sgx_update_lepubkeyhash_msrs] loads the hash: when the caller
    enforces the write, or the cache of the CPU agreed with its registers
    before, the four hash registers of the CPU hold the hash afterwards and
    the cache agrees with them again.  The caches and registers of the
    other CPUs are not touched. *)
Theorem sgx_update_lepubkeyhash_msrs_loads (m : msr_world) :
  enforce = true \/ msr_cache_coherent MSR0 cpu m ->
  let m' := sgx_update_lepubkeyhash_msrs MSR0 cpu lepubkeyhash enforce m in
  (forall i, (i < 4)%nat ->
             msr m' cpu (MSR0 + Z.of_nat i) = lepubkeyhash i) /\
  msr_cache_coherent MSR0 cpu m' /\
  (forall c, c <> cpu ->
             sgx_lepubkeyhash_cache m' c = sgx_lepubkeyhash_cache m c /\
             msr m' c = msr m c).
Proof.
  intros Hpre m'. subst m'. unfold sgx_update_lepubkeyhash_msrs.
  destruct (lepubkeyhash_loop_spec 4 0 m) as (I1 & _ & _ & I4 & I5).
  assert (Hmsr : forall i, (i < 4)%nat ->
                           msr (lepubkeyhash_loop MSR0 cpu lepubkeyhash
                                                  enforce 4 0 m)
                               cpu (MSR0 + Z.of_nat i) = lepubkeyhash i).
  { intros i Hi. apply I5; [ | lia ].
    destruct Hpre as [Hx | Hcoh]; [ left; exact Hx | right ].
    intros j Hj. apply Hcoh. lia. }
  split; [ exact Hmsr | ].
  split; [ | exact I4 ].
  intros i Hi. rewrite Hmsr by exact Hi. apply I1. lia.
Qed.

(** The registers that one pass writes, in order. *)
Lemma lepubkeyhash_loop_log (todo : nat) :
  forall (i : nat) (m : msr_world),
    wrmsrl_log (lepubkeyhash_loop MSR0 cpu lepubkeyhash enforce todo i m) =
    wrmsrl_log m ++
    map (fun j => (cpu, MSR0 + Z.of_nat j, lepubkeyhash j))
        (filter (lepubkeyhash_stale cpu lepubkeyhash enforce m) (seq i todo)).
Proof.
  induction todo as [| todo IH]; intros i m.
  - cbn. rewrite app_nil_r. reflexivity.
  - rewrite lepubkeyhash_loop_S, IH. cbn [seq filter].
    assert (Hf : forall m1,
               (forall j, j <> i ->
                          sgx_lepubkeyhash_cache m1 cpu j =
                          sgx_lepubkeyhash_cache m cpu j) ->
               filter (lepubkeyhash_stale cpu lepubkeyhash enforce m1)
                      (seq (S i) todo) =
               filter (lepubkeyhash_stale cpu lepubkeyhash enforce m)
                      (seq (S i) todo)).
    { intros m1 Hm1. apply filter_ext_in. intros j Hj.
      apply in_seq in Hj. unfold lepubkeyhash_stale.
      rewrite Hm1 by lia. reflexivity. }
    destruct (lepubkeyhash_stale cpu lepubkeyhash enforce m i).
    + rewrite Hf.
      * cbn [set_cache wrmsrl wrmsrl_log map]. rewrite <- app_assoc.
        reflexivity.
      * intros j Hj. rewrite cache_set_cache_other by exact Hj. reflexivity.
    + reflexivity.
Qed.

(** X5.  [sgx_update_lepubkeyhash_msrs] writes exactly the registers whose
    entry is stale (every entry when the caller enforces the write), in the
    order of the entries, each with the value of the hash. *)
Theorem sgx_update_lepubkeyhash_msrs_writes (m : msr_world) :
  wrmsrl_log (sgx_update_lepubkeyhash_msrs MSR0 cpu lepubkeyhash enforce m) =
  wrmsrl_log m ++
  map (fun i => (cpu, MSR0 + Z.of_nat i, lepubkeyhash i))
      (filter (lepubkeyhash_stale cpu lepubkeyhash enforce m) [0; 1; 2; 3]%nat).
Proof.
  unfold sgx_update_lepubkeyhash_msrs. apply lepubkeyhash_loop_log.
Qed.

Lemma lepubkeyhash_loop_quiet (todo : nat) :
  forall (i : nat) (m : msr_world),
    (forall j, (i <= j < i + todo)%nat ->
               sgx_lepubkeyhash_cache m cpu j = lepubkeyhash j) ->
    lepubkeyhash_loop MSR0 cpu lepubkeyhash false todo i m = m.
Proof.
  induction todo as [| todo IH]; intros i m Hc.
  - reflexivity.
  - cbn [lepubkeyhash_loop orb]. rewrite Hc by lia. rewrite Z.eqb_refl.
    cbn [negb]. apply IH. intros j Hj. apply Hc. lia.
Qed.

(** X6.  Once the hash is loaded on a CPU, a further update of that CPU with
    the same hash that does not enforce the write changes nothing: no
    register is written again. *)
Theorem sgx_update_lepubkeyhash_msrs_cached (m : msr_world) :
  sgx_update_lepubkeyhash_msrs MSR0 cpu lepubkeyhash false
    (sgx_update_lepubkeyhash_msrs MSR0 cpu lepubkeyhash enforce m) =
  sgx_update_lepubkeyhash_msrs MSR0 cpu lepubkeyhash enforce m.
Proof.
  unfold sgx_update_lepubkeyhash_msrs at 1.
  apply lepubkeyhash_loop_quiet. intros j Hj.
  unfold sgx_update_lepubkeyhash_msrs.
  destruct (lepubkeyhash_loop_spec 4 0 m) as (I1 & _).
  apply I1. lia.
Qed.

End Lepubkeyhash.

(** The theorem on CPU 1 of a machine whose caches and registers are zero,
    for the registers from [0x8C] on. *)
Lemma sgx_update_lepubkeyhash_msrs_loads_witness :
  let m' := sgx_update_lepubkeyhash_msrs 140 1 (fun i => Z.of_nat i + 7)
                                         false msr_world0 in
  (forall i, (i < 4)%nat -> msr m' 1%nat (140 + Z.of_nat i) = Z.of_nat i + 7) /\
  msr_cache_coherent 140 1 m' /\
  (forall c, c <> 1%nat ->
             sgx_lepubkeyhash_cache m' c = sgx_lepubkeyhash_cache msr_world0 c /\
             msr m' c = msr msr_world0 c).
Proof.
  apply (sgx_update_lepubkeyhash_msrs_loads 140 1 (fun i => Z.of_nat i + 7)
                                            false msr_world0).
  right. intros i Hi. reflexivity.
Defined.

(** ** The provisioning attribute *)

(** X7.  [sgx_set_attribute] grants the provisioning key only for a
    descriptor of the provision device: it returns [0] exactly when the
    descriptor names a file whose operations are [sgx_provision_fops], and
    [-EINVAL] otherwise.  On success the provisioning bit is added; on
    failure the attributes are left as they were; no bit is ever cleared;
    and the reference that [fget] took is put back exactly once. *)
Theorem sgx_set_attribute_grants
        (fget : Z -> nat) (f_op : nat -> nat) (sgx_provision_fops : nat)
        (SGX_ATTR_PROVISIONKEY allowed_attributes attribute_fd : Z) :
  let r := sgx_set_attribute fget f_op sgx_provision_fops
                             SGX_ATTR_PROVISIONKEY allowed_attributes
                             attribute_fd in
  let ret := fst (fst r) in
  let allowed' := snd (fst r) in
  (ret = 0 <->
   fget attribute_fd <> O /\ f_op (fget attribute_fd) = sgx_provision_fops) /\
  (ret <> 0 -> ret = - EINVAL /\ allowed' = allowed_attributes) /\
  (ret = 0 -> allowed' = Z.lor allowed_attributes SGX_ATTR_PROVISIONKEY) /\
  (forall n, Z.testbit allowed_attributes n = true ->
             Z.testbit allowed' n = true) /\
  snd r = (if Nat.eqb (fget attribute_fd) 0 then [] else [fget attribute_fd]).
Proof.
  unfold sgx_set_attribute. cbv zeta.
  destruct (Nat.eqb (fget attribute_fd) 0) eqn:Hnull.
  - apply Nat.eqb_eq in Hnull. cbn [fst snd].
    split; [ split; [ unfold EINVAL; intros Hx; discriminate
                    | intros [Hx _]; contradiction ] | ].
    split; [ intros _; split; reflexivity | ].
    split; [ unfold EINVAL; intros Hx; discriminate | ].
    split; [ intros n Hn; exact Hn | reflexivity ].
  - apply Nat.eqb_neq in Hnull.
    destruct (Nat.eqb (f_op (fget attribute_fd)) sgx_provision_fops) eqn:Hop;
      cbn [negb fst snd].
    + apply Nat.eqb_eq in Hop.
      split; [ split; [ intros _; split; assumption | reflexivity ] | ].
      split; [ intros Hx; contradiction Hx; reflexivity | ].
      split; [ reflexivity | ].
      split; [ | reflexivity ].
      intros n Hn. rewrite Z.lor_spec, Hn. reflexivity.
    + apply Nat.eqb_neq in Hop.
      split; [ split; [ unfold EINVAL; intros Hx; discriminate
                      | intros [_ Hx]; contradiction ] | ].
      split; [ intros _; split; reflexivity | ].
      split; [ unfold EINVAL; intros Hx; discriminate | ].
      split; [ intros n Hn; exact Hn | reflexivity ].
Qed.

(** ** Zapping the mappings of an OOM victim *)

Section Zap.

Variable owner ops : nat.
Variable stop : Z.
Variable vma : Vma.vm_area_struct.

Lemma zap_walk_do_while_cons (e : Z) (t : Vma.vm_area_struct)
      (rest : list Vma.vm_area_struct) (zaps : list (Z * Z)) :
  Vma.zap_walk owner ops stop vma (Vma.do_while e) (t :: rest) zaps =
  if zap_continues owner ops stop vma t
  then Vma.zap_walk owner ops stop vma (Vma.do_while (Vma.vm_end t)) rest zaps
  else Vma.zap_walk owner ops stop vma Vma.for_condition rest
         (zaps ++ [(Vma.vm_start vma, wrap64 (e - Vma.vm_start vma))]).
Proof.
  reflexivity.
Qed.

(** The [do ... while] loop runs through a run of VMAs that pass its
    test. *)
Lemma zap_walk_run (run : list Vma.vm_area_struct) :
  forall (e : Z) (rest : list Vma.vm_area_struct) (zaps : list (Z * Z)),
    Forall (fun t => zap_continues owner ops stop vma t = true) run ->
    Vma.zap_walk owner ops stop vma (Vma.do_while e) (run ++ rest) zaps =
    Vma.zap_walk owner ops stop vma (Vma.do_while (run_end e run)) rest zaps.
Proof.
  induction run as [| t run IH]; intros e rest zaps Hrun.
  - reflexivity.
  - inversion Hrun as [| t' run' Ht Hrun' ]; subst.
    cbn [app]. rewrite zap_walk_do_while_cons, Ht.
    rewrite IH by exact Hrun'. reflexivity.
Qed.

Lemma sgx_epc_oom_zap_enters (chain : list Vma.vm_area_struct) :
  Vma.vm_ops vma = ops ->
  Vma.vm_private_data vma = owner ->
  Vma.vm_start vma < stop ->
  Vma.sgx_epc_oom_zap owner (vma :: chain) stop ops =
  Vma.zap_walk owner ops stop vma (Vma.do_while (Vma.vm_end vma)) chain [].
Proof.
  intros Hops Hown Hstart. unfold Vma.sgx_epc_oom_zap.
  rewrite Hops, Hown, !Nat.eqb_refl. cbn [negb orb].
  assert (Hge : (Vma.vm_start vma >=? stop) = false).
  { rewrite Z.geb_leb. apply Z.leb_gt. exact Hstart. }
  rewrite Hge. cbn [Vma.zap_walk].
  assert (Hlt : (Vma.vm_start vma <? stop) = true)
    by (apply Z.ltb_lt; exact Hstart).
  rewrite Hlt. reflexivity.
Qed.

(** X8.  When the VMA that [find_vma] returns belongs to the victim and a
    run of VMAs that pass the loop test follows it, [sgx_epc_oom_zap] makes
    one call of [zap_page_range], from the start of the first VMA to the
    end of the last VMA of the run, provided the run ends the chain or is
    followed by a VMA that fails the test and then by a VMA that starts at
    or after [end]. *)
Theorem sgx_epc_oom_zap_one_range
        (run rest : list Vma.vm_area_struct) :
  Vma.vm_ops vma = ops ->
  Vma.vm_private_data vma = owner ->
  Vma.vm_start vma < stop ->
  Forall (fun t => zap_continues owner ops stop vma t = true) run ->
  rest = [] \/
  (exists u v rest', rest = u :: v :: rest' /\
                     zap_continues owner ops stop vma u = false /\
                     stop <= Vma.vm_start v) ->
  Vma.sgx_epc_oom_zap owner (vma :: run ++ rest) stop ops =
  Vma.returned
    [(Vma.vm_start vma,
      wrap64 (run_end (Vma.vm_end vma) run - Vma.vm_start vma))].
Proof.
  intros Hops Hown Hstart Hrun Hrest.
  rewrite sgx_epc_oom_zap_enters by assumption.
  rewrite zap_walk_run by exact Hrun.
  destruct Hrest as [-> | (u & v & rest' & -> & Hu & Hv)].
  - reflexivity.
  - rewrite zap_walk_do_while_cons, Hu. cbn [Vma.zap_walk app].
    assert (Hlt : (Vma.vm_start v <? stop) = false)
      by (apply Z.ltb_ge; exact Hv).
    rewrite Hlt. reflexivity.
Qed.

(** X9.  When exactly one VMA follows the run and fails the loop test,
    [sgx_epc_oom_zap] zaps the run and then evaluates [tmp->vm_start] with
    [tmp == NULL]: the [for] loop advances to [vm_next] of the last VMA
    before it tests its condition. *)
Theorem sgx_epc_oom_zap_null_dereference
        (run : list Vma.vm_area_struct) (u : Vma.vm_area_struct) :
  Vma.vm_ops vma = ops ->
  Vma.vm_private_data vma = owner ->
  Vma.vm_start vma < stop ->
  Forall (fun t => zap_continues owner ops stop vma t = true) run ->
  zap_continues owner ops stop vma u = false ->
  Vma.sgx_epc_oom_zap owner (vma :: run ++ [u]) stop ops =
  Vma.null_dereference
    [(Vma.vm_start vma,
      wrap64 (run_end (Vma.vm_end vma) run - Vma.vm_start vma))].
Proof.
  intros Hops Hown Hstart Hrun Hu.
  rewrite sgx_epc_oom_zap_enters by assumption.
  rewrite zap_walk_run by exact Hrun.
  rewrite zap_walk_do_while_cons, Hu. reflexivity.
Qed.

(** Every range that the walk zaps starts at the start of [vma] and ends at
    the end of a VMA of the chain. *)
Lemma zap_walk_ranges (chain : list Vma.vm_area_struct)
      (tmp : list Vma.vm_area_struct) :
  forall (at_ : Vma.position) (zaps : list (Z * Z)),
    let good z :=
      fst z = Vma.vm_start vma /\
      exists t, In t chain /\
                snd z = wrap64 (Vma.vm_end t - Vma.vm_start vma) in
    (forall t, In t tmp -> In t chain) ->
    match at_ with
    | Vma.for_condition => True
    | Vma.do_while e => exists t, In t chain /\ e = Vma.vm_end t
    end ->
    Forall good zaps ->
    Forall good (zaps_of (Vma.zap_walk owner ops stop vma at_ tmp zaps)).
Proof.
  induction tmp as [| t rest IH]; intros at_ zaps good Hsub Hat Hz.
  - destruct at_ as [| e]; cbn [Vma.zap_walk zaps_of]; [ exact Hz | ].
    apply Forall_app. split; [ exact Hz | ].
    constructor; [ | constructor ].
    destruct Hat as (t & Ht & ->). split; [ reflexivity | ].
    exists t. split; [ exact Ht | reflexivity ].
  - assert (Hsub' : forall x, In x rest -> In x chain).
    { intros x Hx. apply Hsub. right. exact Hx. }
    assert (Ht : In t chain) by (apply Hsub; left; reflexivity).
    destruct at_ as [| e].
    + cbn [Vma.zap_walk]. destruct (Vma.vm_start t <? stop).
      * apply IH; [ exact Hsub' | | exact Hz ].
        exists t. split; [ exact Ht | reflexivity ].
      * exact Hz.
    + rewrite zap_walk_do_while_cons.
      destruct (zap_continues owner ops stop vma t).
      * apply IH; [ exact Hsub' | | exact Hz ].
        exists t. split; [ exact Ht | reflexivity ].
      * apply IH; [ exact Hsub' | exact I | ].
        apply Forall_app. split; [ exact Hz | ].
        constructor; [ | constructor ].
        destruct Hat as (t0 & Ht0 & ->). split; [ reflexivity | ].
        exists t0. split; [ exact Ht0 | reflexivity ].
Qed.

End Zap.

(** X10.  Whatever the chain of VMAs, every call of [zap_page_range] that
    [sgx_epc_oom_zap] makes is on the VMA that [find_vma] returned, starts
    at the start of that VMA and ends at the end of a VMA of the chain; when
    that first VMA has other operations, another owner or starts at or after
    [end], nothing is zapped. *)
Theorem sgx_epc_oom_zap_ranges
        (owner ops : nat) (stop : Z) (found : list Vma.vm_area_struct) :
  let o := Vma.sgx_epc_oom_zap owner found stop ops in
  (forall vma rest, found = vma :: rest ->
     Forall (fun z =>
               fst z = Vma.vm_start vma /\
               exists t, In t found /\
                         snd z = wrap64 (Vma.vm_end t - Vma.vm_start vma))
            (zaps_of o)) /\
  (match found with
   | [] => True
   | vma :: _ =>
       Vma.vm_ops vma <> ops \/ Vma.vm_private_data vma <> owner \/
       stop <= Vma.vm_start vma
   end -> o = Vma.returned []).
Proof.
  cbv zeta. split.
  - intros vma rest ->. unfold Vma.sgx_epc_oom_zap.
    destruct (negb (Nat.eqb (Vma.vm_ops vma) ops) ||
              negb (Nat.eqb (Vma.vm_private_data vma) owner) ||
              (Vma.vm_start vma >=? stop)).
    + constructor.
    + apply zap_walk_ranges; [ intros t Ht; exact Ht | exact I | constructor ].
  - destruct found as [| vma rest]; [ reflexivity | ].
    intros Hg. unfold Vma.sgx_epc_oom_zap.
    destruct Hg as [Hg | [Hg | Hg]].
    + apply Nat.eqb_neq in Hg. rewrite Hg. reflexivity.
    + apply Nat.eqb_neq in Hg. rewrite Hg. cbn [negb].
      rewrite orb_true_r. reflexivity.
    + assert (Hge : (Vma.vm_start vma >=? stop) = true).
      { rewrite Z.geb_leb. apply Z.leb_le. exact Hg. }
      rewrite Hge, orb_true_r. reflexivity.
Qed.

(** The theorem on an enclave of two VMAs that is followed by two other
    VMAs. *)
Lemma sgx_epc_oom_zap_one_range_witness :
  Vma.sgx_epc_oom_zap 1 [vma_first; vma_second; vma_other; vma_stack]
                      73728 7 =
  Vma.returned [(65536, 8192)].
Proof.
  apply (sgx_epc_oom_zap_one_range 1 7 73728 vma_first [vma_second]
                                   [vma_other; vma_stack]).
  - reflexivity.
  - reflexivity.
  - cbn. lia.
  - constructor; [ reflexivity | constructor ].
  - right. exists vma_other, vma_stack, []. split; [ reflexivity | ].
    split; [ reflexivity | cbn; lia ].
Defined.

(** The theorem on the same enclave when only one other VMA follows it. *)
Lemma sgx_epc_oom_zap_null_dereference_witness :
  Vma.sgx_epc_oom_zap 1 [vma_first; vma_second; vma_other] 73728 7 =
  Vma.null_dereference [(65536, 8192)].
Proof.
  apply (sgx_epc_oom_zap_null_dereference 1 7 73728 vma_first [vma_second]
                                          vma_other).
  - reflexivity.
  - reflexivity.
  - cbn. lia.
  - constructor; [ reflexivity | constructor ].
  - reflexivity.
Defined.

(** ** Allocation takes the first free page *)

Lemma alloc_walk_skip_empty (l1 l2 : list nat) (w : world) :
  (forall j, In j l1 -> page_list (sgx_epc_sections (k w) j) = []) ->
  alloc_walk (l1 ++ l2) w = alloc_walk l2 w.
Proof.
  induction l1 as [| j l1 IH]; intros Hl.
  - reflexivity.
  - cbn [app alloc_walk]. unfold bind. rewrite alloc_from_section_eq.
    cbv zeta. rewrite (Hl j) by (left; reflexivity).
    apply IH. intros j' Hj'. apply Hl. right. exact Hj'.
Qed.

Lemma __sgx_alloc_epc_page_hit (i p : nat) (rest : list nat) (w : world) :
  (i < sgx_nr_epc_sections (k w))%nat ->
  (forall j, (j < i)%nat -> page_list (sgx_epc_sections (k w) j) = []) ->
  page_list (sgx_epc_sections (k w) i) = p :: rest ->
  __sgx_alloc_epc_page w =
  (Ptr p,
   mk_world
     (set_section i
        (mk_section (pa (sgx_epc_sections (k w) i))
                    (va (sgx_epc_sections (k w) i)) rest
                    (unsanitized_page_list (sgx_epc_sections (k w) i))
                    (wrap64 (free_cnt (sgx_epc_sections (k w) i) - 1)))
        (k w))
     (trace w)).
Proof.
  intros Hi Hbefore Hhead. unfold __sgx_alloc_epc_page, bind, get.
  replace (sgx_nr_epc_sections (k w))
    with (i + S (sgx_nr_epc_sections (k w) - S i))%nat by lia.
  rewrite seq_app. rewrite alloc_walk_skip_empty.
  - cbn [seq alloc_walk Nat.add]. unfold bind.
    rewrite alloc_from_section_eq. cbv zeta. rewrite Hhead. reflexivity.
  - intros j Hj. apply in_seq in Hj. apply Hbefore. lia.
Qed.

(** X11.  [__sgx_alloc_epc_page] is first fit in the order of the section
    indices: when the sections below [i] have no free page and section [i]
    has one, the result is the first page of the free list of section [i];
    that page is unlinked, the counter of section [i] drops by one, and
    nothing else changes. *)
Theorem __sgx_alloc_epc_page_first_fit
        (i p : nat) (rest : list nat) (w : world) :
  (i < sgx_nr_epc_sections (k w))%nat ->
  (forall j, (j < i)%nat -> page_list (sgx_epc_sections (k w) j) = []) ->
  page_list (sgx_epc_sections (k w) i) = p :: rest ->
  let x := sgx_epc_sections (k w) i in
  let r := __sgx_alloc_epc_page w in
  fst r = Ptr p /\
  sgx_epc_sections (k (snd r)) i =
  mk_section (pa x) (va x) rest (unsanitized_page_list x)
             (wrap64 (free_cnt x - 1)) /\
  (forall j, j <> i ->
             sgx_epc_sections (k (snd r)) j = sgx_epc_sections (k w) j) /\
  pages (k (snd r)) = pages (k w) /\
  sgx_global_lru (k (snd r)) = sgx_global_lru (k w) /\
  trace (snd r) = trace w.
Proof.
  intros Hi Hbefore Hhead x r. subst x r.
  rewrite (__sgx_alloc_epc_page_hit i p rest w Hi Hbefore Hhead).
  cbn [fst snd k trace].
  split; [ reflexivity | ].
  split; [ apply sections_set_section_same | ].
  split; [ intros j Hj; apply sections_set_section_other; exact Hj | ].
  split; [ reflexivity | ]. split; reflexivity.
Qed.

Lemma sgx_free_epc_page_sections (H : headers) (E : externals) (p : nat)
      (w : world) :
  env E (trace w) (eremove p) = 0 ->
  sgx_epc_sections (k (snd (sgx_free_epc_page H E p w))) =
  sgx_epc_sections (section_free_add_tail (sgx_get_epc_section H p (k w)) p
                                          (k w)).
Proof.
  intros Hrm. unfold sgx_free_epc_page. unfold bind at 1. unfold ask at 1.
  cbv zeta. rewrite Hrm. cbn [truthy Z.eqb negb].
  rewrite __sgx_free_epc_page_sections. reflexivity.
Qed.

(** X12.  The free list of a section is a queue: a page that
    [__sgx_alloc_epc_page] took from the head of the list of its section
    and that [sgx_free_epc_page] gives back, with [EREMOVE] succeeding, is
    at the tail of that list, and the free counter is back at its value. *)
Theorem sgx_free_epc_page_after_alloc
        (H : headers) (E : externals)
        (i p : nat) (rest : list nat) (w : world) :
  (i < sgx_nr_epc_sections (k w))%nat ->
  (forall j, (j < i)%nat -> page_list (sgx_epc_sections (k w) j) = []) ->
  page_list (sgx_epc_sections (k w) i) = p :: rest ->
  sgx_get_epc_section H p (k w) = i ->
  1 <= free_cnt (sgx_epc_sections (k w) i) < 2 ^ 64 ->
  env E (trace w) (eremove p) = 0 ->
  let x := sgx_epc_sections (k w) i in
  let w1 := snd (__sgx_alloc_epc_page w) in
  let w2 := snd (sgx_free_epc_page H E p w1) in
  sgx_epc_sections (k w2) i =
  mk_section (pa x) (va x) (rest ++ [p]) (unsanitized_page_list x)
             (free_cnt x) /\
  (forall j, j <> i -> sgx_epc_sections (k w2) j = sgx_epc_sections (k w) j).
Proof.
  intros Hi Hbefore Hhead Hsec Hcnt Hrm x w1 w2. subst x w1 w2.
  rewrite (__sgx_alloc_epc_page_hit i p rest w Hi Hbefore Hhead).
  cbn [snd]. rewrite sgx_free_epc_page_sections by exact Hrm. cbn [k].
  assert (Hs : sgx_get_epc_section H p
                 (set_section i
                    (mk_section (pa (sgx_epc_sections (k w) i))
                       (va (sgx_epc_sections (k w) i)) rest
                       (unsanitized_page_list (sgx_epc_sections (k w) i))
                       (wrap64 (free_cnt (sgx_epc_sections (k w) i) - 1)))
                    (k w)) = i) by exact Hsec.
  rewrite Hs. unfold section_free_add_tail. cbv zeta.
  split.
  - rewrite !sections_set_section_same.
    cbn [pa va page_list unsanitized_page_list free_cnt].
    rewrite (wrap64_small (free_cnt (sgx_epc_sections (k w) i) - 1)) by lia.
    rewrite wrap64_small by lia. f_equal. lia.
  - intros j Hj. rewrite (sections_set_section_other i j) by exact Hj.
    rewrite (sections_set_section_other i j) by exact Hj. reflexivity.
Qed.

(** The theorem on two sections of which the first is exhausted. *)
Lemma __sgx_alloc_epc_page_first_fit_witness :
  let x := sgx_epc_sections (k w_second_section) 1 in
  let r := __sgx_alloc_epc_page w_second_section in
  fst r = Ptr 7 /\
  sgx_epc_sections (k (snd r)) 1 =
  mk_section (pa x) (va x) [8%nat] (unsanitized_page_list x)
             (wrap64 (free_cnt x - 1)) /\
  (forall j, j <> 1%nat ->
             sgx_epc_sections (k (snd r)) j =
             sgx_epc_sections (k w_second_section) j) /\
  pages (k (snd r)) = pages (k w_second_section) /\
  sgx_global_lru (k (snd r)) = sgx_global_lru (k w_second_section) /\
  trace (snd r) = trace w_second_section.
Proof.
  apply (__sgx_alloc_epc_page_first_fit 1 7 [8%nat] w_second_section).
  - cbn. lia.
  - intros j Hj. assert (Hz : j = O) by lia. subst j. reflexivity.
  - reflexivity.
Defined.

(** The theorem on the same two sections: page 7 leaves the head of the
    list of section 1 and comes back at its tail. *)
Lemma sgx_free_epc_page_after_alloc_witness :
  let x := sgx_epc_sections (k w_second_section) 1 in
  let w1 := snd (__sgx_alloc_epc_page w_second_section) in
  let w2 := snd (sgx_free_epc_page (hdr false) (ext (env_const 0)) 7 w1) in
  sgx_epc_sections (k w2) 1 =
  mk_section (pa x) (va x) ([8%nat] ++ [7%nat]) (unsanitized_page_list x)
             (free_cnt x) /\
  (forall j, j <> 1%nat ->
             sgx_epc_sections (k w2) j =
             sgx_epc_sections (k w_second_section) j).
Proof.
  apply (sgx_free_epc_page_after_alloc (hdr false) (ext (env_const 0)) 1 7
                                       [8%nat] w_second_section).
  - cbn. lia.
  - intros j Hj. assert (Hz : j = O) by lia. subst j. reflexivity.
  - reflexivity.
  - reflexivity.
  - cbn. lia.
  - reflexivity.
Defined.

(** ** A page without the enclave flag at the head of the list *)

(** X13.  A page without the [ENCLAVE] flag at the head of a reclaimable
    list blocks isolation: [sgx_isolate_epc_pages] leaves the page where it
    is, moves nothing to [dst], changes no data and uses up the whole scan
    budget, whatever pages are behind it on the list; without charge groups
    [sgx_reclaim_epc_pages] then returns [0] and changes nothing. *)
Theorem sgx_isolate_epc_pages_blocked
        (H : headers) (E : externals) (l p : nat) (rest dst : list nat)
        (n : Z) (ignore_age : bool) (w : world) :
  reclaimable (lru_of l (k w)) = p :: rest ->
  Z.land (desc (pages (k w) p)) (SGX_EPC_PAGE_ENCLAVE H) = 0 ->
  sgx_isolate_epc_pages H l n dst w = ((Z.min n 0, dst), w) /\
  (CONFIG_CGROUP_SGX_EPC H = false -> l = O ->
   sgx_reclaim_epc_pages H E n ignore_age O w = (0, w)).
Proof.
  intros Hhead Hflag.
  assert (Hiso : forall d, sgx_isolate_epc_pages H l n d w =
                           ((Z.min n 0, d), w)).
  { intros d. unfold sgx_isolate_epc_pages.
    destruct (Z.le_gt_cases n 0) as [Hle | Hgt].
    - rewrite Z.min_l by exact Hle.
      replace (Z.to_nat n) with O by lia. reflexivity.
    - rewrite Z.min_r by lia.
      apply (isolate_loop_stuck H l p rest d w Hhead Hflag). lia. }
  split; [ apply Hiso | ].
  intros Hcfg Hl. subst l.
  unfold sgx_reclaim_epc_pages, reclaim_isolate. rewrite Hcfg.
  cbn [negb orb]. unfold bind. rewrite Hiso. reflexivity.
Qed.

(** The theorem on a list of one page that lacks the flag. *)
Lemma sgx_isolate_epc_pages_blocked_witness :
  sgx_isolate_epc_pages (hdr false) O 16 [] (mk_world k_stuck []) =
  ((Z.min 16 0, []), mk_world k_stuck []) /\
  (CONFIG_CGROUP_SGX_EPC (hdr false) = false -> O = O ->
   sgx_reclaim_epc_pages (hdr false) (ext (env_const 0)) 16 false O
                         (mk_world k_stuck []) =
   (0, mk_world k_stuck [])).
Proof.
  apply (sgx_isolate_epc_pages_blocked (hdr false) (ext (env_const 0)) O 1
                                       [] [] 16 false (mk_world k_stuck [])).
  - reflexivity.
  - reflexivity.
Defined.

(** ** Sanitization when the hardware lets it through *)

Section Sanitize.

Variable E : externals.
Hypothesis Hclean : sanitize_unhindered E.

Lemma sanitize_loop_unhindered (i : nat) (ps : list nat) :
  forall (secs_list : list nat) (w : world),
    unsanitized_page_list (sgx_epc_sections (k w) i) = ps ->
    let r := sanitize_loop E i ps secs_list w in
    fst r = secs_list /\
    sgx_epc_sections (k (snd r)) i =
    sanitized_section (sgx_epc_sections (k w) i) /\
    (forall j, j <> i ->
               sgx_epc_sections (k (snd r)) j = sgx_epc_sections (k w) j) /\
    sgx_nr_epc_sections (k (snd r)) = sgx_nr_epc_sections (k w).
Proof.
  induction ps as [| page rest IH]; intros secs_list w Hps r; subst r.
  - cbn [sanitize_loop ret fst snd]. unfold sanitized_section.
    rewrite Hps. cbn [rev app].
    split; [ reflexivity | ].
    split; [ rewrite <- Hps; destruct (sgx_epc_sections (k w) i); reflexivity
           | ].
    split; reflexivity.
  - rewrite sanitize_loop_cons. cbv zeta.
    destruct (Hclean (trace w)) as [Hstop _]. rewrite Hstop.
    cbn [truthy Z.eqb negb].
    destruct (Hclean (trace w ++ [(kthread_should_stop, 0)])) as [_ Hrm].
    rewrite Hrm. cbn [truthy Z.eqb negb].
    set (w1 := mk_world (section_sanitized i page (k w)) _).
    assert (Hx1 : sgx_epc_sections (k w1) i =
                  mk_section (pa (sgx_epc_sections (k w) i))
                             (va (sgx_epc_sections (k w) i))
                             (page :: page_list (sgx_epc_sections (k w) i))
                             rest
                             (free_cnt (sgx_epc_sections (k w) i))).
    { subst w1. cbn [k]. unfold section_sanitized.
      rewrite sections_set_section_same, Hps. reflexivity. }
    assert (Hu1 : unsanitized_page_list (sgx_epc_sections (k w1) i) = rest)
      by (rewrite Hx1; reflexivity).
    destruct (IH secs_list w1 Hu1) as (I1 & I2 & I3 & I4).
    split; [ exact I1 | ].
    split.
    { rewrite I2, Hx1. unfold sanitized_section.
      cbn [pa va page_list unsanitized_page_list free_cnt].
      rewrite Hps. cbn [rev]. rewrite <- app_assoc. reflexivity. }
    split.
    { intros j Hj. rewrite I3 by exact Hj. subst w1. cbn [k].
      unfold section_sanitized. apply sections_set_section_other. exact Hj. }
    rewrite I4. reflexivity.
Qed.

Lemma sgx_sanitize_section_unhindered (i : nat) (w : world) :
  let r := sgx_sanitize_section E i w in
  fst r = [] /\
  sgx_epc_sections (k (snd r)) i =
  sanitized_section (sgx_epc_sections (k w) i) /\
  (forall j, j <> i ->
             sgx_epc_sections (k (snd r)) j = sgx_epc_sections (k w) j) /\
  sgx_nr_epc_sections (k (snd r)) = sgx_nr_epc_sections (k w).
Proof.
  unfold sgx_sanitize_section, bind, get.
  apply sanitize_loop_unhindered. reflexivity.
Qed.

Lemma sanitize_sections_unhindered (l : list nat) :
  forall (w : world),
    NoDup l ->
    let w' := snd (sanitize_sections E l w) in
    (forall i, In i l ->
               sgx_epc_sections (k w') i =
               sanitized_section (sgx_epc_sections (k w) i)) /\
    (forall i, ~ In i l ->
               sgx_epc_sections (k w') i = sgx_epc_sections (k w) i) /\
    sgx_nr_epc_sections (k w') = sgx_nr_epc_sections (k w).
Proof.
  induction l as [| i l IH]; intros w Hnd w'; subst w'.
  - cbn [sanitize_sections ret snd].
    split; [ intros i [] | ]. split; reflexivity.
  - cbn [sanitize_sections]. rewrite bind_eq.
    inversion Hnd as [| i' l' Hni Hnd' ]; subst.
    destruct (sgx_sanitize_section_unhindered i w) as (_ & S2 & S3 & S4).
    destruct (IH (snd (sgx_sanitize_section E i w)) Hnd') as (I1 & I2 & I3).
    split.
    { intros j [<- | Hj].
      - rewrite I2 by exact Hni. exact S2.
      - rewrite I1 by exact Hj. rewrite S3; [ reflexivity | ].
        intros ->. contradiction. }
    split.
    { intros j Hj. rewrite I2.
      - apply S3. intros ->. apply Hj. left. reflexivity.
      - intros Hin. apply Hj. right. exact Hin. }
    rewrite I3. exact S4.
Qed.

Lemma sanitized_section_idem (x : sgx_epc_section) :
  sanitized_section (sanitized_section x) = sanitized_section x.
Proof.
  reflexivity.
Qed.

End Sanitize.

Lemma ksgxswapd_sanitize_eq (E : externals) (w : world) :
  snd (ksgxswapd_sanitize E w) =
  snd (sanitize_sections E
         (seq 0 (sgx_nr_epc_sections
                   (k (snd (sanitize_sections E
                              (seq 0 (sgx_nr_epc_sections (k w))) w)))))
         (snd (sanitize_sections E (seq 0 (sgx_nr_epc_sections (k w))) w))).
Proof.
  unfold ksgxswapd_sanitize, bind, get.
  destruct (sanitize_sections E (seq 0 (sgx_nr_epc_sections (k w))) w)
    as [u w1].
  reflexivity.
Qed.

(** X14.  When nobody asks the thread to stop and [EREMOVE] succeeds,
    [sgx_sanitize_section] empties the unsanitized list of the section: its
    pages are on the free list, in front of the pages that were there and
    in reverse order, because each one is moved to the head of the free
    list.  The local list of pages to retry is empty, the free counter and
    the other sections are as before. *)
Theorem sgx_sanitize_section_moves_all
        (E : externals) (i : nat) (w : world) :
  sanitize_unhindered E ->
  let x := sgx_epc_sections (k w) i in
  let r := sgx_sanitize_section E i w in
  fst r = [] /\
  sgx_epc_sections (k (snd r)) i =
  mk_section (pa x) (va x) (rev (unsanitized_page_list x) ++ page_list x) []
             (free_cnt x) /\
  (forall j, j <> i ->
             sgx_epc_sections (k (snd r)) j = sgx_epc_sections (k w) j).
Proof.
  intros Hclean x r. subst x r.
  destruct (sgx_sanitize_section_unhindered E Hclean i w) as (S1 & S2 & S3 & _).
  split; [ exact S1 | ]. split; [ exact S2 | exact S3 ].
Qed.

(** X15.  The two sanitization rounds at the head of [ksgxswapd], when
    nobody asks the thread to stop and [EREMOVE] succeeds: every section
    below [sgx_nr_epc_sections] ends with an empty unsanitized list and all
    its pages on the free list, and the other sections are not touched.  A
    section whose counter counted its free and its unsanitized pages, as
    [sgx_setup_epc_section] leaves it, then has a counter equal to the
    length of its free list. *)
Theorem ksgxswapd_sanitize_moves_all (E : externals) (w : world) :
  sanitize_unhindered E ->
  let w' := snd (ksgxswapd_sanitize E w) in
  (forall i, (i < sgx_nr_epc_sections (k w))%nat ->
     let x := sgx_epc_sections (k w) i in
     let x' := sgx_epc_sections (k w') i in
     x' = mk_section (pa x) (va x)
                     (rev (unsanitized_page_list x) ++ page_list x) []
                     (free_cnt x) /\
     (section_accounted x 0 ->
      free_cnt x' = Z.of_nat (length (page_list x')))) /\
  (forall i, (sgx_nr_epc_sections (k w) <= i)%nat ->
             sgx_epc_sections (k w') i = sgx_epc_sections (k w) i).
Proof.
  intros Hclean w'. subst w'. rewrite ksgxswapd_sanitize_eq.
  set (w1 := snd (sanitize_sections E (seq 0 (sgx_nr_epc_sections (k w))) w)).
  destruct (sanitize_sections_unhindered E Hclean
              (seq 0 (sgx_nr_epc_sections (k w))) w
              (seq_NoDup _ _)) as (A1 & A2 & A3).
  fold w1 in A1, A2, A3. rewrite A3.
  destruct (sanitize_sections_unhindered E Hclean
              (seq 0 (sgx_nr_epc_sections (k w))) w1
              (seq_NoDup _ _)) as (B1 & B2 & _).
  split.
  - intros i Hi x x'. subst x x'.
    assert (Hin : In i (seq 0 (sgx_nr_epc_sections (k w))))
      by (apply in_seq; lia).
    rewrite B1 by exact Hin. rewrite A1 by exact Hin.
    rewrite sanitized_section_idem.
    split; [ reflexivity | ].
    intros Hacc. unfold section_accounted in Hacc.
    unfold sanitized_section. cbn [free_cnt page_list].
    rewrite Hacc, length_app, length_rev. f_equal. lia.
  - intros i Hi.
    assert (Hout : ~ In i (seq 0 (sgx_nr_epc_sections (k w)))).
    { intros Hin. apply in_seq in Hin. lia. }
    rewrite B2 by exact Hout. apply A2. exact Hout.
Qed.

(** The theorem on the section that was just set up with two pages. *)
Lemma sgx_sanitize_section_moves_all_witness :
  let x := sgx_epc_sections (k w_setup) O in
  let r := sgx_sanitize_section (ext (env_const 0)) O w_setup in
  fst r = [] /\
  sgx_epc_sections (k (snd r)) O =
  mk_section (pa x) (va x) (rev (unsanitized_page_list x) ++ page_list x) []
             (free_cnt x) /\
  (forall j, j <> O ->
             sgx_epc_sections (k (snd r)) j = sgx_epc_sections (k w_setup) j).
Proof.
  apply (sgx_sanitize_section_moves_all (ext (env_const 0)) O w_setup).
  intros t. split; [ reflexivity | intros p; reflexivity ].
Defined.

(** The theorem on the two sections of four and two pages. *)
Lemma ksgxswapd_sanitize_moves_all_witness :
  let w' := snd (ksgxswapd_sanitize (ext (env_const 0)) w_two_sections) in
  (forall i, (i < sgx_nr_epc_sections (k w_two_sections))%nat ->
     let x := sgx_epc_sections (k w_two_sections) i in
     let x' := sgx_epc_sections (k w') i in
     x' = mk_section (pa x) (va x)
                     (rev (unsanitized_page_list x) ++ page_list x) []
                     (free_cnt x) /\
     (section_accounted x 0 ->
      free_cnt x' = Z.of_nat (length (page_list x')))) /\
  (forall i, (sgx_nr_epc_sections (k w_two_sections) <= i)%nat ->
             sgx_epc_sections (k w') i =
             sgx_epc_sections (k w_two_sections) i).
Proof.
  apply (ksgxswapd_sanitize_moves_all (ext (env_const 0)) w_two_sections).
  intros t. split; [ reflexivity | intros p; reflexivity ].
Defined.

(** ** Setting up and freeing a section *)

Section Setup.

Variable E : externals.

Lemma kfree_all_eq (l : list nat) :
  forall w, kfree_all l w =
            (tt, mk_world (k w) (trace w ++ map (fun p => (kfree p, 0)) l)).
Proof.
  induction l as [| p l IH]; intros w.
  - cbn. rewrite app_nil_r. destruct w; reflexivity.
  - cbn [kfree_all map]. unfold bind at 1. unfold tell at 1.
    rewrite IH. cbn [k trace]. rewrite <- app_assoc. reflexivity.
Qed.

Lemma sgx_free_epc_section_eq (i : nat) (w : world) :
  sgx_free_epc_section i w =
  let x := sgx_epc_sections (k w) i in
  (tt, mk_world (set_section i (mk_section (pa x) (va x) [] [] (free_cnt x))
                             (k w))
                (trace w ++ free_section_events x)).
Proof.
  unfold sgx_free_epc_section, free_section_events.
  unfold bind at 1. unfold get at 1.
  unfold bind at 1. rewrite kfree_all_eq.
  unfold bind at 1. rewrite kfree_all_eq. cbn [k trace].
  unfold bind, modify, tell. cbn [k trace]. cbv zeta.
  rewrite <- !app_assoc. reflexivity.
Qed.

Lemma kfreed_app (a b : list event) : kfreed (a ++ b) = kfreed a ++ kfreed b.
Proof.
  apply flat_map_app.
Qed.

Lemma kzalloc_pages_app (a b : list event) :
  kzalloc_pages (a ++ b) = kzalloc_pages a ++ kzalloc_pages b.
Proof.
  apply flat_map_app.
Qed.

Lemma kfreed_kfree_events (l : list nat) :
  kfreed (map (fun p => (kfree p, 0)) l) = l.
Proof.
  induction l as [| p l IH]; [ reflexivity | ].
  cbn. f_equal. exact IH.
Qed.

Lemma kzalloc_pages_kfree_events (l : list nat) :
  kzalloc_pages (map (fun p => (kfree p, 0)) l) = [].
Proof.
  induction l as [| p l IH]; [ reflexivity | exact IH ].
Qed.

Lemma kfreed_free_section_events (x : sgx_epc_section) :
  kfreed (free_section_events x) = page_list x ++ unsanitized_page_list x.
Proof.
  unfold free_section_events. rewrite !kfreed_app, !kfreed_kfree_events.
  cbn. rewrite app_nil_r. reflexivity.
Qed.

Lemma kzalloc_pages_free_section_events (x : sgx_epc_section) :
  kzalloc_pages (free_section_events x) = [].
Proof.
  unfold free_section_events.
  rewrite !kzalloc_pages_app, !kzalloc_pages_kfree_events. reflexivity.
Qed.

(** The allocation loop of a section: its calls are calls of [kzalloc], and
    the pages it got are appended to the unsanitized list in the order in
    which it got them. *)
Lemma setup_loop_trace (addr index : Z) (section : nat) (todo : nat) :
  forall (i : Z) (w : world),
    let r := setup_loop E todo i addr index section w in
    let x := sgx_epc_sections (k w) section in
    let x' := sgx_epc_sections (k (snd r)) section in
    exists evs,
      trace (snd r) = trace w ++ evs /\
      kfreed evs = [] /\
      unsanitized_page_list x' =
      unsanitized_page_list x ++ kzalloc_pages evs /\
      page_list x' = page_list x /\
      free_cnt x' = free_cnt x /\
      va x' = va x /\ pa x' = pa x /\
      (forall j, j <> section ->
                 sgx_epc_sections (k (snd r)) j = sgx_epc_sections (k w) j).
Proof.
  induction todo as [| todo IH]; intros i w r x x'; subst r x x'.
  - exists []. cbn [setup_loop ret snd]. rewrite !app_nil_r.
    repeat (split; [ reflexivity | ]). reflexivity.
  - rewrite setup_loop_S. cbv zeta.
    destruct (env E (trace w) kzalloc =? 0) eqn:Hz.
    + exists [(kzalloc, env E (trace w) kzalloc)]. cbn [snd k trace].
      split; [ reflexivity | ]. split; [ reflexivity | ].
      split; [ unfold kzalloc_pages; cbn; rewrite Hz, app_nil_r; reflexivity
             | ].
      repeat (split; [ reflexivity | ]). reflexivity.
    + set (w1 := mk_world _ (trace w ++ [(kzalloc, env E (trace w) kzalloc)])).
      destruct (IH (i + 1) w1) as (evs & T1 & T2 & T3 & T4 & T5 & T6 & T7 & T8).
      assert (Hx1 : sgx_epc_sections (k w1) section =
                    mk_section (pa (sgx_epc_sections (k w) section))
                               (va (sgx_epc_sections (k w) section))
                               (page_list (sgx_epc_sections (k w) section))
                               (unsanitized_page_list
                                  (sgx_epc_sections (k w) section) ++
                                [Z.to_nat (env E (trace w) kzalloc)])
                               (free_cnt (sgx_epc_sections (k w) section))).
      { subst w1. cbn [k]. unfold section_add_unsanitized.
        rewrite sections_set_section_same. reflexivity. }
      rewrite Hx1 in T3, T4, T5, T6, T7.
      cbn [pa va page_list unsanitized_page_list free_cnt] in T3, T4, T5, T6, T7.
      exists ((kzalloc, env E (trace w) kzalloc) :: evs).
      split; [ rewrite T1; subst w1; cbn [trace]; rewrite <- app_assoc;
               reflexivity | ].
      split; [ exact T2 | ].
      split.
      { rewrite T3, <- app_assoc. f_equal.
        unfold kzalloc_pages at 2. cbn [flat_map fst snd]. rewrite Hz.
        reflexivity. }
      split; [ exact T4 | ]. split; [ exact T5 | ].
      split; [ exact T6 | ]. split; [ exact T7 | ].
      intros j Hj. rewrite T8 by exact Hj. subst w1. cbn [k].
      unfold section_add_unsanitized.
      rewrite sections_set_section_other by exact Hj. reflexivity.
Qed.

End Setup.

(** ** The free counter of a section *)

Section FreeCounterInvariant.

Variable H : headers.
Variable E : externals.

Lemma free_list_tracks_refl (x : sgx_epc_section) : free_list_tracks x x.
Proof.
  split; [ reflexivity | lia ].
Qed.

Lemma free_list_tracks_trans (x y z : sgx_epc_section) :
  free_list_tracks x y -> free_list_tracks y z -> free_list_tracks x z.
Proof.
  intros [U1 D1] [U2 D2]. split; [ congruence | lia ].
Qed.

Lemma free_list_tracks_accounted (x y : sgx_epc_section) (parked : nat) :
  free_list_tracks x y -> section_accounted x parked ->
  section_accounted y parked.
Proof.
  unfold section_accounted. intros [U D] Hacc. rewrite U. lia.
Qed.

Lemma alloc_from_section_tracks (i j : nat) (parked : nat) (w : world) :
  section_accounted (sgx_epc_sections (k w) j) parked ->
  free_cnt (sgx_epc_sections (k w) j) < 2 ^ 64 ->
  free_list_tracks
    (sgx_epc_sections (k w) j)
    (sgx_epc_sections (k (snd (__sgx_alloc_epc_page_from_section i w))) j).
Proof.
  intros Hacc Hlt. rewrite alloc_from_section_eq. cbv zeta.
  destruct (page_list (sgx_epc_sections (k w) i)) as [| page rest] eqn:Hpl.
  - apply free_list_tracks_refl.
  - cbn [snd k]. destruct (Nat.eq_dec j i) as [-> | Hne].
    + rewrite sections_set_section_same. unfold free_list_tracks.
      unfold section_accounted in Hacc.
      cbn [free_cnt page_list unsanitized_page_list].
      rewrite Hpl in *. cbn [length] in *.
      rewrite wrap64_small by lia. split; [ reflexivity | lia ].
    + rewrite sections_set_section_other by exact Hne.
      apply free_list_tracks_refl.
Qed.

Lemma alloc_walk_tracks (j : nat) (parked : nat) (l : list nat) :
  forall w,
    section_accounted (sgx_epc_sections (k w) j) parked ->
    free_cnt (sgx_epc_sections (k w) j) < 2 ^ 64 ->
    free_list_tracks (sgx_epc_sections (k w) j)
                     (sgx_epc_sections (k (snd (alloc_walk l w))) j).
Proof.
  induction l as [| i l IH]; intros w Hacc Hlt.
  - apply free_list_tracks_refl.
  - cbn [alloc_walk]. unfold bind.
    pose proof (alloc_from_section_tracks i j parked w Hacc Hlt) as Ht.
    destruct (alloc_from_section_accounted i j parked w Hacc Hlt)
      as [Ha Hb].
    destruct (__sgx_alloc_epc_page_from_section i w) as [[page |] w1];
      cbn [snd] in *.
    + exact Ht.
    + eapply free_list_tracks_trans; [ exact Ht | ].
      apply IH; assumption.
Qed.

Lemma free_add_tail_tracks (i j p : nat) (parked : nat) (s : kstate) :
  section_accounted (sgx_epc_sections s j) parked ->
  free_cnt (sgx_epc_sections s j) < 2 ^ 64 - 1 ->
  free_list_tracks (sgx_epc_sections s j)
                   (sgx_epc_sections (section_free_add_tail i p s) j).
Proof.
  intros Hacc Hlt. unfold section_free_add_tail.
  destruct (Nat.eq_dec j i) as [-> | Hne].
  - rewrite sections_set_section_same. unfold free_list_tracks.
    unfold section_accounted in Hacc.
    cbn [free_cnt page_list unsanitized_page_list].
    rewrite length_app. cbn [length]. rewrite wrap64_small by lia.
    split; [ reflexivity | lia ].
  - rewrite sections_set_section_other by exact Hne.
    apply free_list_tracks_refl.
Qed.

(** A set-up that fails does not write the free counter; when the mapping
    had succeeded it leaves both lists of the section empty. *)
Lemma sgx_setup_epc_section_failed (addr sz index : Z) (section : nat)
      (w : world) :
  let r := sgx_setup_epc_section E addr sz index section w in
  let x := sgx_epc_sections (k w) section in
  let x' := sgx_epc_sections (k (snd r)) section in
  fst r = false ->
  free_cnt x' = free_cnt x /\
  (env E (trace w) (memremap addr sz) <> 0 ->
   page_list x' = [] /\ unsanitized_page_list x' = []) /\
  (env E (trace w) (memremap addr sz) = 0 ->
   page_list x' = page_list x /\
   unsanitized_page_list x' = unsanitized_page_list x).
Proof.
  cbv zeta. rewrite sgx_setup_epc_section_eq. cbv zeta.
  destruct (env E (trace w) (memremap addr sz) =? 0) eqn:Hv.
  { intros _. cbn [fst snd k trace]. rewrite sections_set_section_same.
    cbn [free_cnt page_list unsanitized_page_list].
    split; [ reflexivity | ].
    split; [ intros Hne; apply Z.eqb_eq in Hv; contradiction | ].
    intros _. split; reflexivity. }
  set (w1 := mk_world _ _).
  destruct (setup_loop_trace E addr index section
              (Z.to_nat (Z.shiftr sz PAGE_SHIFT)) 0 w1)
    as (evs & T1 & T2 & T3 & T4 & T5 & T6 & T7 & _).
  assert (Hx1 : sgx_epc_sections (k w1) section =
                mk_section addr (env E (trace w) (memremap addr sz)) [] []
                           (free_cnt (sgx_epc_sections (k w) section))).
  { subst w1. cbn [k]. rewrite sections_set_section_same. reflexivity. }
  rewrite Hx1 in T5. cbn [free_cnt] in T5.
  destruct (fst (setup_loop E _ 0 addr index section w1)) eqn:Hok.
  - cbn [fst]. discriminate.
  - intros _. rewrite sgx_free_epc_section_eq. cbv zeta. cbn [fst snd k trace].
    rewrite sections_set_section_same.
    cbn [free_cnt page_list unsanitized_page_list].
    split; [ exact T5 | ].
    split; [ intros _; split; reflexivity | ].
    intros Hz. apply Z.eqb_neq in Hv. contradiction.
Qed.

(** C1, as the code has it.  [sgx_setup_epc_section] leaves the free list
    empty and sets the free counter to the number of pages it put on the
    unsanitized list; when it fails it does not write the counter.  From
    there on, and until [sgx_free_epc_section], the counter of a section is
    the number of pages on its free list plus the number of its pages that
    are not sanitized yet (on the unsanitized list, or set aside by a
    sanitization round).  [sgx_sanitize_section] moves pages from the
    unsanitized list to the free list or sets them aside, without changing
    the counter.  The two allocation functions, the two free functions and
    the final move of the reclaimer leave the unsanitized list as it is and
    change the counter and the length of the free list by the same amount.
    So the counter is the length of the free list once no page of the
    section waits for sanitization.  [sgx_free_epc_section] empties both
    lists and leaves the counter as it is, which ends the accounting of a
    section whose counter is not zero. *)
Theorem free_cnt_counts_free_and_unsanitized
        (i : nat) (parked : nat) (w : world) :
  let x := sgx_epc_sections (k w) i in
  section_accounted x parked ->
  free_cnt x < 2 ^ 64 - 1 ->
  (forall addr sz index w0,
     0 <= sz ->
     let r := sgx_setup_epc_section E addr sz index i w0 in
     let x0 := sgx_epc_sections (k w0) i in
     let x' := sgx_epc_sections (k (snd r)) i in
     (fst r = true ->
      page_list x' = [] /\
      free_cnt x' = Z.of_nat (length (unsanitized_page_list x')) /\
      section_accounted x' 0) /\
     (fst r = false ->
      free_cnt x' = free_cnt x0 /\
      (env E (trace w0) (memremap addr sz) <> 0 ->
       page_list x' = [] /\ unsanitized_page_list x' = []) /\
      (env E (trace w0) (memremap addr sz) = 0 ->
       page_list x' = page_list x0 /\
       unsanitized_page_list x' = unsanitized_page_list x0))) /\
  (let r := sgx_sanitize_section E i w in
   let x' := sgx_epc_sections (k (snd r)) i in
   free_cnt x' = free_cnt x /\
   (length (page_list x') + length (unsanitized_page_list x') +
    length (fst r) =
    length (page_list x) + length (unsanitized_page_list x))%nat /\
   section_accounted x' (parked + length (fst r))) /\
  (forall j,
     let x' := sgx_epc_sections
                 (k (snd (__sgx_alloc_epc_page_from_section j w))) i in
     free_list_tracks x x' /\ section_accounted x' parked) /\
  (let x' := sgx_epc_sections (k (snd (__sgx_alloc_epc_page w))) i in
   free_list_tracks x x' /\ section_accounted x' parked) /\
  (forall p,
     let x' := sgx_epc_sections (k (snd (__sgx_free_epc_page H p w))) i in
     free_list_tracks x x' /\ section_accounted x' parked) /\
  (forall p,
     let x' := sgx_epc_sections (k (snd (sgx_free_epc_page H E p w))) i in
     free_list_tracks x x' /\ section_accounted x' parked) /\
  (forall j p,
     let x' := sgx_epc_sections (section_free_add_tail j p (k w)) i in
     free_list_tracks x x' /\ section_accounted x' parked) /\
  (unsanitized_page_list x = [] -> parked = O ->
   free_cnt x = Z.of_nat (length (page_list x))) /\
  (let x' := sgx_epc_sections (k (snd (sgx_free_epc_section i w))) i in
   page_list x' = [] /\ unsanitized_page_list x' = [] /\
   free_cnt x' = free_cnt x /\
   (section_accounted x' 0 <-> free_cnt x = 0)).
Proof.
  intros x Hacc Hlt.
  assert (Hlt' : free_cnt x < 2 ^ 64) by lia.
  assert (Hboth : forall x', free_list_tracks x x' ->
                             free_list_tracks x x' /\
                             section_accounted x' parked).
  { intros x' Ht. split; [ exact Ht | ].
    eapply free_list_tracks_accounted; [ exact Ht | exact Hacc ]. }
  split.
  { intros addr sz index w0 Hsz r x0 x'. split.
    - intros Hr. subst x' r.
      destruct (sgx_setup_epc_section_spec E addr sz index i w0 Hsz Hr)
        as (S1 & S2 & S3).
      split; [ exact S1 | ]. split; [ rewrite S3, S2; reflexivity | ].
      unfold section_accounted. rewrite S1, S3, <- S2. cbn [length]. lia.
    - intros Hr. subst x' x0 r.
      apply sgx_setup_epc_section_failed. exact Hr. }
  split.
  { cbv zeta. unfold sgx_sanitize_section. unfold bind, get.
    pose proof (sanitize_loop_spec E i
                  (unsanitized_page_list (sgx_epc_sections (k w) i)) [] w
                  eq_refl) as Hs.
    cbv zeta in Hs. destruct Hs as (S1 & S2 & _).
    cbn [length] in S2. rewrite Nat.add_0_r in S2. subst x.
    split; [ exact S1 | ]. split; [ exact S2 | ].
    unfold section_accounted in *. rewrite S1, Hacc. lia. }
  split.
  { intros j x'. apply Hboth.
    apply (alloc_from_section_tracks j i parked w Hacc Hlt'). }
  split.
  { cbv zeta. apply Hboth. unfold __sgx_alloc_epc_page, bind, get.
    apply (alloc_walk_tracks i parked _ w Hacc Hlt'). }
  split.
  { intros p x'. apply Hboth. subst x'.
    rewrite __sgx_free_epc_page_sections.
    apply (free_add_tail_tracks _ i p parked (k w) Hacc Hlt). }
  split.
  { intros p x'. apply Hboth. subst x'.
    unfold sgx_free_epc_page. unfold bind at 1. unfold ask at 1.
    cbv zeta. destruct (truthy (env E (trace w) (eremove p))).
    - apply free_list_tracks_refl.
    - rewrite __sgx_free_epc_page_sections. cbn [k].
      apply (free_add_tail_tracks _ i p parked (k w) Hacc Hlt). }
  split.
  { intros j p x'. apply Hboth.
    apply (free_add_tail_tracks j i p parked (k w) Hacc Hlt). }
  split.
  { intros Hu Hp. unfold section_accounted in Hacc. rewrite Hacc, Hu, Hp.
    cbn [length]. f_equal. lia. }
  cbv zeta. rewrite sgx_free_epc_section_eq. cbv zeta. cbn [snd k].
  rewrite sections_set_section_same.
  cbn [page_list unsanitized_page_list free_cnt].
  split; [ reflexivity | ]. split; [ reflexivity | ].
  split; [ reflexivity | ].
  unfold section_accounted. cbn [page_list unsanitized_page_list free_cnt
                                 length]. fold x. split; intros Hz; lia.
Qed.

End FreeCounterInvariant.

(** The theorem on the section that [sgx_setup_epc_section] has just set
    up with two pages: a sanitization round keeps the accounting, and
    [sgx_free_epc_section] ends it. *)
Lemma free_cnt_counts_free_and_unsanitized_witness :
  section_accounted (sgx_epc_sections (k w_setup) O) O /\
  free_cnt (sgx_epc_sections (k w_setup) O) < 2 ^ 64 - 1 /\
  section_accounted
    (sgx_epc_sections
       (k (snd (sgx_sanitize_section (ext env_boot) O w_setup))) O)
    (O + length (fst (sgx_sanitize_section (ext env_boot) O w_setup))) /\
  ~ section_accounted
      (sgx_epc_sections (k (snd (sgx_free_epc_section O w_setup))) O) O.
Proof.
  assert (Ha : section_accounted (sgx_epc_sections (k w_setup) O) O)
    by (vm_compute; reflexivity).
  assert (Hb : free_cnt (sgx_epc_sections (k w_setup) O) < 2 ^ 64 - 1)
    by (vm_compute; reflexivity).
  split; [ exact Ha | ]. split; [ exact Hb | ].
  destruct (free_cnt_counts_free_and_unsanitized (hdr false) (ext env_boot)
              O O w_setup Ha Hb)
    as (_ & (_ & _ & T2) & _ & _ & _ & _ & _ & _ & (_ & _ & _ & T9)).
  split; [ exact T2 | ].
  intros Hacc. apply T9 in Hacc. vm_compute in Hacc. discriminate.
Defined.

(** C1 as stated fails: right after [sgx_setup_epc_section] the free counter
    of the section is 2 while its free list is empty, and both pages are on
    the unsanitized list. *)
Lemma free_cnt_after_setup_counterexample :
  free_cnt (sgx_epc_sections (k w_setup) O) = 2 /\
  page_list (sgx_epc_sections (k w_setup) O) = [] /\
  length (unsanitized_page_list (sgx_epc_sections (k w_setup) O)) = 2%nat /\
  free_cnt (sgx_epc_sections (k w_setup) O) <>
  Z.of_nat (length (page_list (sgx_epc_sections (k w_setup) O))).
Proof.
  vm_compute. repeat split; try reflexivity. discriminate.
Qed.

(** X16.  [sgx_setup_epc_section] leaks no page structure.  When it
    succeeds, the unsanitized list of the section holds exactly the pages
    that [kzalloc] handed out, in that order, the free list is empty and
    nothing was freed.  When it fails, every page that [kzalloc] handed out
    was given to [kfree] once, the free counter is not written, and, unless
    [memremap] itself failed, both lists of the section are empty and the
    mapping was undone. *)
Theorem sgx_setup_epc_section_no_leak
        (E : externals) (addr sz index : Z) (section : nat) (w : world) :
  let r := sgx_setup_epc_section E addr sz index section w in
  let x := sgx_epc_sections (k w) section in
  let x' := sgx_epc_sections (k (snd r)) section in
  exists evs,
    trace (snd r) = trace w ++ evs /\
    if fst r then
      kfreed evs = [] /\
      unsanitized_page_list x' = kzalloc_pages evs /\
      page_list x' = [] /\
      pa x' = addr
    else
      kfreed evs = kzalloc_pages evs /\
      free_cnt x' = free_cnt x /\
      (env E (trace w) (memremap addr sz) <> 0 ->
       page_list x' = [] /\ unsanitized_page_list x' = [] /\
       In (memunmap (va x'), 0) evs) /\
      (env E (trace w) (memremap addr sz) = 0 ->
       page_list x' = page_list x /\
       unsanitized_page_list x' = unsanitized_page_list x).
Proof.
  cbv zeta. rewrite sgx_setup_epc_section_eq. cbv zeta.
  destruct (env E (trace w) (memremap addr sz) =? 0) eqn:Hv.
  { exists [(memremap addr sz, env E (trace w) (memremap addr sz))].
    cbn [fst snd k trace]. rewrite sections_set_section_same.
    cbn [free_cnt page_list unsanitized_page_list].
    split; [ reflexivity | ]. split; [ reflexivity | ].
    split; [ reflexivity | ].
    split; [ intros Hne; apply Z.eqb_eq in Hv; contradiction | ].
    intros _. split; reflexivity. }
  set (w1 := mk_world _ _).
  destruct (setup_loop_trace E addr index section
              (Z.to_nat (Z.shiftr sz PAGE_SHIFT)) 0 w1)
    as (evs & T1 & T2 & T3 & T4 & T5 & T6 & T7 & _).
  assert (Hx1 : sgx_epc_sections (k w1) section =
                mk_section addr (env E (trace w) (memremap addr sz)) [] []
                           (free_cnt (sgx_epc_sections (k w) section))).
  { subst w1. cbn [k]. rewrite sections_set_section_same. reflexivity. }
  rewrite Hx1 in T3, T4, T5, T6, T7.
  cbn [pa va page_list unsanitized_page_list free_cnt app] in T3, T4, T5, T6, T7.
  assert (Ht1 : trace w1 =
                trace w ++ [(memremap addr sz,
                             env E (trace w) (memremap addr sz))])
    by reflexivity.
  destruct (fst (setup_loop E _ 0 addr index section w1)) eqn:Hok.
  - exists ((memremap addr sz, env E (trace w) (memremap addr sz)) :: evs).
    cbn [fst snd k trace]. rewrite sections_set_section_same.
    cbn [pa page_list unsanitized_page_list].
    split; [ rewrite T1, Ht1, <- app_assoc; reflexivity | ].
    split; [ exact T2 | ].
    split; [ exact T3 | ]. split; [ exact T4 | exact T7 ].
  - rewrite sgx_free_epc_section_eq. cbv zeta. cbn [fst snd k trace].
    rewrite sections_set_section_same.
    cbn [free_cnt page_list unsanitized_page_list va].
    exists ((memremap addr sz, env E (trace w) (memremap addr sz)) ::
            evs ++
            free_section_events
              (sgx_epc_sections
                 (k (snd (setup_loop E (Z.to_nat (Z.shiftr sz PAGE_SHIFT)) 0
                                     addr index section w1))) section)).
    split.
    { rewrite T1, Ht1, <- !app_assoc. reflexivity. }
    split.
    { change (kfreed ((memremap addr sz, env E (trace w) (memremap addr sz))
                      :: ?l)) with (kfreed l).
      change (kzalloc_pages
                ((memremap addr sz, env E (trace w) (memremap addr sz))
                 :: ?l)) with (kzalloc_pages l).
      rewrite kfreed_app, kzalloc_pages_app, T2.
      rewrite kfreed_free_section_events, kzalloc_pages_free_section_events.
      rewrite T3, T4, app_nil_r. reflexivity. }
    split; [ exact T5 | ].
    split.
    { intros _. split; [ reflexivity | ]. split; [ reflexivity | ].
      right. apply in_or_app. right. unfold free_section_events.
      apply in_or_app. right. apply in_or_app. right. left. reflexivity. }
    intros Hz. apply Z.eqb_neq in Hv. contradiction.
Qed.

(** ** Tearing the page cache down *)

Lemma flat_map_agree {A B : Type} (f g : A -> list B) (l : list A) :
  (forall a, In a l -> f a = g a) -> flat_map f l = flat_map g l.
Proof.
  induction l as [| a l IH]; intros Hfg; [ reflexivity | ].
  cbn [flat_map]. rewrite (Hfg a) by (left; reflexivity).
  rewrite IH; [ reflexivity | ]. intros b Hb. apply Hfg. right. exact Hb.
Qed.

Lemma free_sections_spec (l : list nat) :
  forall (w : world),
    NoDup l ->
    let w' := snd (free_sections l w) in
    trace w' =
    trace w ++
    flat_map (fun i => free_section_events (sgx_epc_sections (k w) i)) l /\
    (forall i, In i l ->
               sgx_epc_sections (k w') i =
               mk_section (pa (sgx_epc_sections (k w) i))
                          (va (sgx_epc_sections (k w) i)) [] []
                          (free_cnt (sgx_epc_sections (k w) i))) /\
    (forall i, ~ In i l ->
               sgx_epc_sections (k w') i = sgx_epc_sections (k w) i) /\
    sgx_nr_epc_sections (k w') = sgx_nr_epc_sections (k w).
Proof.
  induction l as [| i l IH]; intros w Hnd w'; subst w'.
  - cbn [free_sections ret snd flat_map]. rewrite app_nil_r.
    split; [ reflexivity | ]. split; [ intros i [] | ].
    split; reflexivity.
  - cbn [free_sections]. rewrite bind_eq, sgx_free_epc_section_eq.
    cbv zeta. cbn [fst snd].
    inversion Hnd as [| i' l' Hni Hnd' ]; subst.
    set (w1 := mk_world _ _).
    destruct (IH w1 Hnd') as (I1 & I2 & I3 & I4).
    assert (Hsame : sgx_epc_sections (k w1) i =
                    mk_section (pa (sgx_epc_sections (k w) i))
                               (va (sgx_epc_sections (k w) i)) [] []
                               (free_cnt (sgx_epc_sections (k w) i))).
    { subst w1. cbn [k]. apply sections_set_section_same. }
    assert (Hother : forall j, j <> i ->
                               sgx_epc_sections (k w1) j =
                               sgx_epc_sections (k w) j).
    { intros j Hj. subst w1. cbn [k].
      apply sections_set_section_other. exact Hj. }
    split.
    { rewrite I1.
      assert (Ht : trace w1 =
                   trace w ++
                   free_section_events (sgx_epc_sections (k w) i))
        by reflexivity.
      rewrite Ht. cbn [flat_map]. rewrite <- app_assoc.
      f_equal. f_equal. apply flat_map_agree. intros j Hj.
      rewrite Hother; [ reflexivity | ].
      intros ->. contradiction. }
    split.
    { intros j [<- | Hj].
      - rewrite I3 by exact Hni. exact Hsame.
      - rewrite I2 by exact Hj. rewrite Hother; [ reflexivity | ].
        intros ->. contradiction. }
    split.
    { intros j Hj. rewrite I3.
      - apply Hother. intros ->. apply Hj. left. reflexivity.
      - intros Hin. apply Hj. right. exact Hin. }
    rewrite I4. reflexivity.
Qed.

Lemma kfreed_flat_map_sections (f : nat -> sgx_epc_section) (l : list nat) :
  kfreed (flat_map (fun i => free_section_events (f i)) l) =
  flat_map (fun i => page_list (f i) ++ unsanitized_page_list (f i)) l.
Proof.
  induction l as [| i l IH]; [ reflexivity | ].
  cbn [flat_map]. rewrite kfreed_app, kfreed_free_section_events, IH.
  reflexivity.
Qed.

(** X17.  [sgx_page_cache_teardown] frees, section by section in index
    order, every page structure on the free list and then on the
    unsanitized list of each section below [sgx_nr_epc_sections], each
    once, and unmaps the section.  Afterwards both lists of these sections
    are empty; their free counters, [sgx_nr_epc_sections] and the sections
    from [sgx_nr_epc_sections] on keep their values. *)
Theorem sgx_page_cache_teardown_frees (w : world) :
  let w' := snd (sgx_page_cache_teardown w) in
  let n := sgx_nr_epc_sections (k w) in
  exists evs,
    trace w' = trace w ++ evs /\
    evs = flat_map (fun i => free_section_events (sgx_epc_sections (k w) i))
                   (seq 0 n) /\
    kfreed evs =
    flat_map (fun i => page_list (sgx_epc_sections (k w) i) ++
                       unsanitized_page_list (sgx_epc_sections (k w) i))
             (seq 0 n) /\
    (forall i, (i < n)%nat ->
               page_list (sgx_epc_sections (k w') i) = [] /\
               unsanitized_page_list (sgx_epc_sections (k w') i) = [] /\
               free_cnt (sgx_epc_sections (k w') i) =
               free_cnt (sgx_epc_sections (k w) i)) /\
    (forall i, (n <= i)%nat ->
               sgx_epc_sections (k w') i = sgx_epc_sections (k w) i) /\
    sgx_nr_epc_sections (k w') = n.
Proof.
  cbv zeta. unfold sgx_page_cache_teardown. rewrite bind_eq.
  unfold get at 1 2. cbn [fst snd].
  destruct (free_sections_spec (seq 0 (sgx_nr_epc_sections (k w))) w
                               (seq_NoDup _ _)) as (F1 & F2 & F3 & F4).
  eexists. split; [ exact F1 | ]. split; [ reflexivity | ].
  split; [ apply kfreed_flat_map_sections | ].
  split.
  { intros i Hi. rewrite F2 by (apply in_seq; lia).
    split; [ reflexivity | ]. split; reflexivity. }
  split; [ | exact F4 ].
  intros i Hi. apply F3. intros Hin. apply in_seq in Hin. lia.
Qed.

(** ** Enumerating the sections *)

Section PageCacheInit.

Variable E : externals.
Variable P : platform.

Lemma setup_loop_nr (addr index : Z) (section : nat) (todo : nat) :
  forall (i : Z) (w : world),
    sgx_nr_epc_sections (k (snd (setup_loop E todo i addr index section w))) =
    sgx_nr_epc_sections (k w).
Proof.
  induction todo as [| todo IH]; intros i w.
  - reflexivity.
  - rewrite setup_loop_S. cbv zeta.
    destruct (env E (trace w) kzalloc =? 0); [ reflexivity | ].
    rewrite IH. reflexivity.
Qed.

(** [sgx_setup_epc_section] writes one section only. *)
Lemma sgx_setup_epc_section_frame (addr sz index : Z) (section : nat)
      (w : world) :
  let r := sgx_setup_epc_section E addr sz index section w in
  sgx_nr_epc_sections (k (snd r)) = sgx_nr_epc_sections (k w) /\
  (forall j, j <> section ->
             sgx_epc_sections (k (snd r)) j = sgx_epc_sections (k w) j) /\
  (fst r = true -> pa (sgx_epc_sections (k (snd r)) section) = addr).
Proof.
  cbv zeta. rewrite sgx_setup_epc_section_eq. cbv zeta.
  destruct (env E (trace w) (memremap addr sz) =? 0).
  { cbn [fst snd k]. split; [ reflexivity | ].
    split; [ intros j Hj; apply sections_set_section_other; exact Hj | ].
    intros Hx. discriminate. }
  set (w1 := mk_world _ _).
  pose proof (setup_loop_nr addr index section
                (Z.to_nat (Z.shiftr sz PAGE_SHIFT)) 0 w1) as Hnr.
  destruct (setup_loop_trace E addr index section
              (Z.to_nat (Z.shiftr sz PAGE_SHIFT)) 0 w1)
    as (evs & _ & _ & _ & _ & _ & _ & T7 & T8).
  assert (Hother : forall j, j <> section ->
                             sgx_epc_sections (k w1) j =
                             sgx_epc_sections (k w) j).
  { intros j Hj. subst w1. cbn [k].
    rewrite !sections_set_section_other by exact Hj. reflexivity. }
  assert (Hpa : pa (sgx_epc_sections (k w1) section) = addr).
  { subst w1. cbn [k]. rewrite sections_set_section_same. reflexivity. }
  destruct (fst (setup_loop E _ 0 addr index section w1)).
  - cbn [fst snd k].
    split; [ exact Hnr | ].
    split.
    + intros j Hj. rewrite sections_set_section_other by exact Hj.
      rewrite T8 by exact Hj. apply Hother. exact Hj.
    + intros _. rewrite sections_set_section_same. cbn [pa].
      rewrite T7. exact Hpa.
  - rewrite sgx_free_epc_section_eq. cbv zeta. cbn [fst snd k].
    split; [ exact Hnr | ].
    split; [ | intros Hx; discriminate ].
    intros j Hj. rewrite sections_set_section_other by exact Hj.
    rewrite T8 by exact Hj. apply Hother. exact Hj.
Qed.

Lemma page_cache_init_loop_S (todo i : nat) (w : world) :
  page_cache_init_loop E P (S todo) i w =
  let '(eax, ebx, ecx, edx) := cpuid_section P i in
  let type := Z.land eax (SGX_CPUID_SUB_LEAF_TYPE_MASK P) in
  if type =? SGX_CPUID_SUB_LEAF_INVALID P then (tt, w)
  else if negb (type =? SGX_CPUID_SUB_LEAF_EPC_SECTION P) then (tt, w)
  else
    let r := sgx_setup_epc_section E (sgx_calc_section_metric eax ebx)
               (sgx_calc_section_metric ecx edx) (Z.of_nat i) i w in
    if fst r then
      page_cache_init_loop E P todo (S i)
        (mk_world (set_nr_sections (S (sgx_nr_epc_sections (k (snd r))))
                                   (k (snd r)))
                  (trace (snd r)))
    else (tt, snd r).
Proof.
  cbn [page_cache_init_loop].
  destruct (cpuid_section P i) as [[[eax ebx] ecx] edx]. cbv zeta.
  destruct (Z.land eax (SGX_CPUID_SUB_LEAF_TYPE_MASK P) =?
            SGX_CPUID_SUB_LEAF_INVALID P); [ reflexivity | ].
  destruct (negb (Z.land eax (SGX_CPUID_SUB_LEAF_TYPE_MASK P) =?
                  SGX_CPUID_SUB_LEAF_EPC_SECTION P)); [ reflexivity | ].
  rewrite bind_eq.
  destruct (sgx_setup_epc_section E _ _ (Z.of_nat i) i w) as [[|] w1];
    cbn [fst snd]; reflexivity.
Qed.

Lemma page_cache_init_loop_spec (todo : nat) :
  forall (i : nat) (w : world),
    sgx_nr_epc_sections (k w) = i ->
    let w' := snd (page_cache_init_loop E P todo i w) in
    let n' := sgx_nr_epc_sections (k w') in
    (i <= n' <= i + todo)%nat /\
    (forall j, (i <= j < n')%nat ->
               section_enumerated P j (sgx_epc_sections (k w') j)) /\
    (forall j, (j < i)%nat ->
               sgx_epc_sections (k w') j = sgx_epc_sections (k w) j).
Proof.
  induction todo as [| todo IH]; intros i w Hnr w' n'; subst w' n'.
  - cbn [page_cache_init_loop ret snd]. rewrite Hnr.
    split; [ lia | ]. split; [ intros j Hj; lia | reflexivity ].
  - rewrite page_cache_init_loop_S.
    assert (Hstop : (i <= sgx_nr_epc_sections (k w) <= i + S todo)%nat /\
                    (forall j, (i <= j < sgx_nr_epc_sections (k w))%nat ->
                               section_enumerated P j
                                 (sgx_epc_sections (k w) j)) /\
                    (forall j, (j < i)%nat ->
                               sgx_epc_sections (k w) j =
                               sgx_epc_sections (k w) j)).
    { rewrite Hnr. split; [ lia | ].
      split; [ intros j Hj; lia | reflexivity ]. }
    destruct (cpuid_section P i) as [[[eax ebx] ecx] edx] eqn:Hregs.
    cbv zeta.
    destruct (Z.land eax (SGX_CPUID_SUB_LEAF_TYPE_MASK P) =?
              SGX_CPUID_SUB_LEAF_INVALID P); [ exact Hstop | ].
    destruct (Z.land eax (SGX_CPUID_SUB_LEAF_TYPE_MASK P) =?
              SGX_CPUID_SUB_LEAF_EPC_SECTION P) eqn:Htype;
      cbn [negb]; [ | exact Hstop ].
    apply Z.eqb_eq in Htype.
    set (pa0 := sgx_calc_section_metric eax ebx).
    set (sz0 := sgx_calc_section_metric ecx edx).
    destruct (sgx_setup_epc_section_frame pa0 sz0 (Z.of_nat i) i w)
      as (F1 & F2 & F3).
    pose proof (sgx_setup_epc_section_spec E pa0 sz0 (Z.of_nat i) i w
                  (sgx_calc_section_metric_nonneg ecx edx)) as Hspec.
    destruct (fst (sgx_setup_epc_section E pa0 sz0 (Z.of_nat i) i w))
      eqn:Hok.
    + set (w1 := mk_world _ _).
      assert (Hnr1 : sgx_nr_epc_sections (k w1) = S i).
      { subst w1. cbn [k sgx_nr_epc_sections set_nr_sections].
        rewrite F1, Hnr. reflexivity. }
      destruct (IH (S i) w1 Hnr1) as (I1 & I2 & I3).
      split; [ lia | ].
      split.
      * intros j Hj. destruct (Nat.eq_dec j i) as [-> | Hne].
        -- rewrite I3 by lia. subst w1. cbn [k sgx_epc_sections
                                               set_nr_sections].
           destruct (Hspec eq_refl) as (S1 & S2 & S3).
           unfold section_enumerated. rewrite Hregs.
           split; [ exact Htype | ].
           split; [ apply F3; reflexivity | ].
           split; [ exact S1 | ]. split; [ exact S3 | exact S2 ].
        -- apply I2. lia.
      * intros j Hj. rewrite I3 by lia. subst w1.
        cbn [k sgx_epc_sections set_nr_sections]. apply F2. lia.
    + cbn [snd]. rewrite F1, Hnr.
      split; [ lia | ].
      split; [ intros j Hj; lia | ].
      intros j Hj. apply F2. lia.
Qed.

End PageCacheInit.

(** X18.  [sgx_page_cache_init], entered with no section, sets up at most
    [SGX_MAX_EPC_SECTIONS] sections and returns whether it set up at least
    one.  Each section below [sgx_nr_epc_sections] was enumerated by a
    sub-leaf of the EPC-section type: it starts at the address that the
    sub-leaf gives, has an empty free list, and counts in its free counter
    the pages of the size that the sub-leaf gives, all of them on its
    unsanitized list. *)
Theorem sgx_page_cache_init_sections
        (E : externals) (P : platform) (w : world) :
  sgx_nr_epc_sections (k w) = O ->
  let r := sgx_page_cache_init E P w in
  let n' := sgx_nr_epc_sections (k (snd r)) in
  fst r = negb (Nat.eqb n' 0) /\
  (n' <= SGX_MAX_EPC_SECTIONS P)%nat /\
  (forall j, (j < n')%nat ->
             section_enumerated P j (sgx_epc_sections (k (snd r)) j)).
Proof.
  intros Hnr r n'. subst r n'.
  assert (Heq : sgx_page_cache_init E P w =
                (negb (Nat.eqb (sgx_nr_epc_sections
                                  (k (snd (page_cache_init_loop E P
                                             (SGX_MAX_EPC_SECTIONS P) 0 w))))
                               0),
                 snd (page_cache_init_loop E P (SGX_MAX_EPC_SECTIONS P) 0 w))).
  { unfold sgx_page_cache_init, bind, get, ret.
    destruct (page_cache_init_loop E P (SGX_MAX_EPC_SECTIONS P) 0 w).
    reflexivity. }
  rewrite Heq. cbn [fst snd].
  destruct (page_cache_init_loop_spec E P (SGX_MAX_EPC_SECTIONS P) 0 w Hnr)
    as (L1 & L2 & _).
  split; [ reflexivity | ].
  split; [ lia | ].
  intros j Hj. apply L2. lia.
Qed.

(** The theorem on a processor with one section. *)
Lemma sgx_page_cache_init_sections_witness :
  let r := sgx_page_cache_init (ext env_boot) platform_one_section world0 in
  let n' := sgx_nr_epc_sections (k (snd r)) in
  fst r = negb (Nat.eqb n' 0) /\
  (n' <= SGX_MAX_EPC_SECTIONS platform_one_section)%nat /\
  (forall j, (j < n')%nat ->
             section_enumerated platform_one_section j
                                (sgx_epc_sections (k (snd r)) j)).
Proof.
  apply (sgx_page_cache_init_sections (ext env_boot) platform_one_section
                                      world0).
  reflexivity.
Defined.

(** On that processor the page cache has one section, with two pages. *)
Example run_page_cache_init :
  let r := sgx_page_cache_init (ext env_boot) platform_one_section world0 in
  fst r = true /\
  sgx_nr_epc_sections (k (snd r)) = 1%nat /\
  sgx_epc_sections (k (snd r)) O = mk_section 1048576 4096 [] [2; 3]%nat 2.
Proof.
  vm_compute. split; [ reflexivity | ]. split; reflexivity.
Qed.

(** ** Recording a page and dropping it again *)

Lemma list_del_id (p : nat) (l : list nat) : ~ In p l -> list_del p l = l.
Proof.
  induction l as [| q l IH]; intros Hni; [ reflexivity | ].
  unfold list_del. cbn [filter].
  destruct (Nat.eqb q p) eqn:Hq.
  - apply Nat.eqb_eq in Hq. subst q. contradiction Hni. left. reflexivity.
  - cbn [negb]. f_equal. apply IH. intros Hin. apply Hni. right. exact Hin.
Qed.

Lemma list_del_app_self (p : nat) (l : list nat) :
  ~ In p l -> list_del p (l ++ [p]) = l.
Proof.
  intros Hni. unfold list_del. rewrite filter_app. cbn [filter].
  rewrite Nat.eqb_refl. cbn [negb]. rewrite app_nil_r.
  apply list_del_id. exact Hni.
Qed.

Lemma lru_del_id (p : nat) (x : sgx_epc_lru) :
  ~ In p (reclaimable x) -> ~ In p (unreclaimable x) -> lru_del p x = x.
Proof.
  intros Ha Hb. unfold lru_del. rewrite !list_del_id by assumption.
  destruct x; reflexivity.
Qed.

Lemma section_del_id (p : nat) (x : sgx_epc_section) :
  ~ In p (page_list x) -> ~ In p (unsanitized_page_list x) ->
  section_del p x = x.
Proof.
  intros Ha Hb. unfold section_del. rewrite !list_del_id by assumption.
  destruct x; reflexivity.
Qed.

Lemma sgx_record_epc_page_eq (H : headers) (p : nat) (fl : Z) (w : world) :
  sgx_record_epc_page H p fl w =
  (tt,
   mk_world
     (let s1 := set_desc p (Z.lor (desc (pages (k w) p)) fl) (k w) in
      if truthy (Z.land fl (SGX_EPC_PAGE_RECLAIMABLE H))
      then lru_add_tail_reclaimable (sgx_lru H p (k w)) p s1
      else lru_add_tail_unreclaimable (sgx_lru H p (k w)) p s1)
     (trace w)).
Proof.
  unfold sgx_record_epc_page, bind, get, modify. cbn [k trace]. cbv zeta.
  destruct (truthy (Z.land fl (SGX_EPC_PAGE_RECLAIMABLE H))); reflexivity.
Qed.

Lemma sgx_drop_epc_page_idle (H : headers) (p : nat) (w : world) :
  Z.land (desc (pages (k w) p)) (SGX_EPC_PAGE_RECLAIM_IN_PROGRESS H) = 0 ->
  sgx_drop_epc_page H p w =
  (0, mk_world (set_desc p (clear_bits (desc (pages (k w) p))
                              (SGX_EPC_PAGE_RECLAIM_FLAGS H))
                         (list_del_page p (k w)))
               (trace w)).
Proof.
  intros Hrip. unfold sgx_drop_epc_page, bind, get, modify, ret.
  cbn [k trace]. rewrite Hrip. cbn [truthy Z.eqb negb].
  rewrite andb_false_r. reflexivity.
Qed.

Lemma pages_add_tail (l p : nat) (s : kstate) :
  pages (lru_add_tail_reclaimable l p s) = pages s /\
  pages (lru_add_tail_unreclaimable l p s) = pages s /\
  sgx_epc_sections (lru_add_tail_reclaimable l p s) = sgx_epc_sections s /\
  sgx_epc_sections (lru_add_tail_unreclaimable l p s) = sgx_epc_sections s.
Proof.
  unfold lru_add_tail_reclaimable, lru_add_tail_unreclaimable.
  destruct l; cbn; repeat split; reflexivity.
Qed.

(** X19.  [sgx_record_epc_page] links a page that is on no list at the tail
    of the reclaimable list of its LRU when the flags it is given have
    [SGX_EPC_PAGE_RECLAIMABLE], at the tail of the unreclaimable list
    otherwise, and ors the flags into the descriptor.  [sgx_drop_epc_page]
    undoes it when the page is not being reclaimed: it returns [0], every
    LRU list and every section list is as before, and the descriptor is the
    recorded one with the two reclaim flags cleared. *)
Theorem sgx_record_then_drop
        (H : headers) (p : nat) (fl : Z) (w : world) :
  ~ linked (k w) p ->
  Z.land (Z.lor (desc (pages (k w) p)) fl)
         (SGX_EPC_PAGE_RECLAIM_IN_PROGRESS H) = 0 ->
  let l := sgx_lru H p (k w) in
  let w1 := snd (sgx_record_epc_page H p fl w) in
  let r := sgx_drop_epc_page H p w1 in
  lru_of l (k w1) =
  (if truthy (Z.land fl (SGX_EPC_PAGE_RECLAIMABLE H))
   then mk_lru (reclaimable (lru_of l (k w)) ++ [p])
               (unreclaimable (lru_of l (k w)))
   else mk_lru (reclaimable (lru_of l (k w)))
               (unreclaimable (lru_of l (k w)) ++ [p])) /\
  desc (pages (k w1) p) = Z.lor (desc (pages (k w) p)) fl /\
  fst r = 0 /\
  (forall l', lru_of l' (k (snd r)) = lru_of l' (k w)) /\
  (forall i, sgx_epc_sections (k (snd r)) i = sgx_epc_sections (k w) i) /\
  desc (pages (k (snd r)) p) =
  clear_bits (Z.lor (desc (pages (k w) p)) fl) (SGX_EPC_PAGE_RECLAIM_FLAGS H) /\
  (forall q, q <> p -> pages (k (snd r)) q = pages (k w) q).
Proof.
  intros Hnl Hrip l w1 r. subst r w1.
  rewrite sgx_record_epc_page_eq. cbn [snd]. fold l.
  set (s1 := set_desc p (Z.lor (desc (pages (k w) p)) fl) (k w)).
  set (s2 := if truthy (Z.land fl (SGX_EPC_PAGE_RECLAIMABLE H))
             then lru_add_tail_reclaimable l p s1
             else lru_add_tail_unreclaimable l p s1).
  cbv zeta. fold s1. fold s2.
  assert (Hnr : forall l', ~ In p (reclaimable (lru_of l' (k w)))).
  { intros l' Hin. apply Hnl. right. exists l'. left. exact Hin. }
  assert (Hnu : forall l', ~ In p (unreclaimable (lru_of l' (k w)))).
  { intros l' Hin. apply Hnl. right. exists l'. right. exact Hin. }
  assert (Hnp : forall i, ~ In p (page_list (sgx_epc_sections (k w) i))).
  { intros i Hin. apply Hnl. left. exists i. left. exact Hin. }
  assert (Hns : forall i, ~ In p (unsanitized_page_list
                                    (sgx_epc_sections (k w) i))).
  { intros i Hin. apply Hnl. left. exists i. right. exact Hin. }
  assert (Hl1 : forall l', lru_of l' s1 = lru_of l' (k w)).
  { intros l'. apply lru_of_set_desc. }
  assert (Hlru : lru_of l s2 =
                 (if truthy (Z.land fl (SGX_EPC_PAGE_RECLAIMABLE H))
                  then mk_lru (reclaimable (lru_of l (k w)) ++ [p])
                              (unreclaimable (lru_of l (k w)))
                  else mk_lru (reclaimable (lru_of l (k w)))
                              (unreclaimable (lru_of l (k w)) ++ [p]))).
  { subst s2. destruct (truthy (Z.land fl (SGX_EPC_PAGE_RECLAIMABLE H)));
      unfold lru_add_tail_reclaimable, lru_add_tail_unreclaimable;
      rewrite lru_of_set_lru, Hl1; reflexivity. }
  assert (Hlo : forall l', l' <> l -> lru_of l' s2 = lru_of l' (k w)).
  { intros l' Hne. subst s2.
    destruct (truthy (Z.land fl (SGX_EPC_PAGE_RECLAIMABLE H)));
      unfold lru_add_tail_reclaimable, lru_add_tail_unreclaimable;
      rewrite lru_of_set_lru_other by exact Hne; apply Hl1. }
  assert (Hpg : pages s2 = pages s1).
  { subst s2. destruct (pages_add_tail l p s1) as (A & B & _).
    destruct (truthy (Z.land fl (SGX_EPC_PAGE_RECLAIMABLE H)));
      assumption. }
  assert (Hsec : sgx_epc_sections s2 = sgx_epc_sections (k w)).
  { subst s2. destruct (pages_add_tail l p s1) as (_ & _ & A & B).
    destruct (truthy (Z.land fl (SGX_EPC_PAGE_RECLAIMABLE H)));
      [ rewrite A | rewrite B ]; reflexivity. }
  assert (Hd : desc (pages s2 p) = Z.lor (desc (pages (k w) p)) fl).
  { rewrite Hpg. subst s1. cbn. unfold upd. rewrite Nat.eqb_refl.
    reflexivity. }
  split; [ exact Hlru | ].
  split; [ exact Hd | ].
  rewrite sgx_drop_epc_page_idle by (cbn [k]; rewrite Hd; exact Hrip).
  cbn [fst snd k].
  split; [ reflexivity | ].
  split.
  { intros l'. rewrite lru_of_set_desc, lru_of_list_del_page.
    destruct (Nat.eq_dec l' l) as [-> | Hne].
    - rewrite Hlru.
      destruct (truthy (Z.land fl (SGX_EPC_PAGE_RECLAIMABLE H)));
        unfold lru_del; cbn [reclaimable unreclaimable].
      + rewrite list_del_app_self by apply Hnr.
        rewrite list_del_id by apply Hnu.
        destruct (lru_of l (k w)); reflexivity.
      + rewrite list_del_app_self by apply Hnu.
        rewrite list_del_id by apply Hnr.
        destruct (lru_of l (k w)); reflexivity.
    - rewrite Hlo by exact Hne.
      apply lru_del_id; [ apply Hnr | apply Hnu ]. }
  split.
  { intros i. cbn [set_desc set_pages sgx_epc_sections list_del_page].
    rewrite Hsec. apply section_del_id; [ apply Hnp | apply Hns ]. }
  split.
  { rewrite Hd. cbn. unfold upd. rewrite Nat.eqb_refl. reflexivity. }
  intros q Hq. cbn [set_desc set_pages pages list_del_page]. unfold upd.
  apply Nat.eqb_neq in Hq. rewrite Hq. rewrite Hpg. subst s1.
  cbn. unfold upd. rewrite Hq. reflexivity.
Qed.

(** The theorem on a page recorded as reclaimable before any other. *)
Lemma sgx_record_then_drop_witness :
  let l := sgx_lru (hdr false) 5 (k world0) in
  let w1 := snd (sgx_record_epc_page (hdr false) 5 1280 world0) in
  let r := sgx_drop_epc_page (hdr false) 5 w1 in
  lru_of l (k w1) =
  (if truthy (Z.land 1280 (SGX_EPC_PAGE_RECLAIMABLE (hdr false)))
   then mk_lru (reclaimable (lru_of l (k world0)) ++ [5%nat])
               (unreclaimable (lru_of l (k world0)))
   else mk_lru (reclaimable (lru_of l (k world0)))
               (unreclaimable (lru_of l (k world0)) ++ [5%nat])) /\
  desc (pages (k w1) 5) = Z.lor (desc (pages (k world0) 5)) 1280 /\
  fst r = 0 /\
  (forall l', lru_of l' (k (snd r)) = lru_of l' (k world0)) /\
  (forall i, sgx_epc_sections (k (snd r)) i = sgx_epc_sections (k world0) i) /\
  desc (pages (k (snd r)) 5) =
  clear_bits (Z.lor (desc (pages (k world0) 5)) 1280)
             (SGX_EPC_PAGE_RECLAIM_FLAGS (hdr false)) /\
  (forall q, q <> 5%nat -> pages (k (snd r)) q = pages (k world0) q).
Proof.
  apply (sgx_record_then_drop (hdr false) 5 1280 world0).
  - intros [[i [Hin | Hin]] | [l [Hin | Hin]]];
      try (destruct l); exact Hin.
  - reflexivity.
Defined.

(** ** A page that is isolated and skipped *)

Lemma clear_bits_lor_same (d m : Z) :
  Z.land d m = 0 -> clear_bits (Z.lor d m) m = d.
Proof.
  intros Hdm. unfold clear_bits. apply Z.bits_inj'. intros n Hn.
  rewrite Z.land_spec, Z.lor_spec, Z.lnot_spec by exact Hn.
  assert (Hb : Z.testbit d n && Z.testbit m n = false).
  { rewrite <- Z.land_spec, Hdm. apply Z.bits_0. }
  destruct (Z.testbit d n), (Z.testbit m n); try reflexivity.
  discriminate.
Qed.

Lemma sgx_isolate_epc_pages_one (H : headers) (l p : nat) (rest : list nat)
      (w : world) :
  reclaimable (lru_of l (k w)) = p :: rest ->
  flag_set (desc (pages (k w) p)) (SGX_EPC_PAGE_ENCLAVE H) ->
  encl_live (k w) p = true ->
  sgx_isolate_epc_pages H l 1 [] w =
  ((0, [p]), mk_world (iso_take H l p (k w)) (trace w)).
Proof.
  intros Hhead Hflag Hlive. unfold sgx_isolate_epc_pages.
  change (Z.to_nat 1) with 1%nat.
  rewrite isolate_loop_S by lia. rewrite Hhead.
  apply truthy_true in Hflag. rewrite Hflag. cbn [negb]. rewrite Hlive.
  reflexivity.
Qed.

(** X20.  A page that [sgx_isolate_epc_pages] takes from the head of a
    reclaimable list and that [sgx_reclaim_epc_pages] then skips comes back
    at the tail of that list: between the two steps it carries
    [SGX_EPC_PAGE_RECLAIM_IN_PROGRESS] and its enclave holds one reference
    more; afterwards the descriptor and every reference count are as
    before, nothing was released, and the list is rotated by one page. *)
Theorem sgx_isolate_then_skip_rotates
        (H : headers) (E : externals) (l p : nat) (rest : list nat)
        (w : world) :
  reclaimable (lru_of l (k w)) = p :: rest ->
  flag_set (desc (pages (k w) p)) (SGX_EPC_PAGE_ENCLAVE H) ->
  encl_live (k w) p = true ->
  Z.land (desc (pages (k w) p)) (SGX_EPC_PAGE_RECLAIM_IN_PROGRESS H) = 0 ->
  sgx_lru H p (k w) = l ->
  let r := sgx_isolate_epc_pages H l 1 [] w in
  let w2 := snd (reclaim_skip H E p (snd r)) in
  fst r = (0, [p]) /\
  desc (pages (k (snd r)) p) =
  Z.lor (desc (pages (k w) p)) (SGX_EPC_PAGE_RECLAIM_IN_PROGRESS H) /\
  refcount (encls (k (snd r)) (encl_of (k w) p)) =
  S (refcount (encls (k w) (encl_of (k w) p))) /\
  reclaimable (lru_of l (k w2)) = rest ++ [p] /\
  unreclaimable (lru_of l (k w2)) = unreclaimable (lru_of l (k w)) /\
  desc (pages (k w2) p) = desc (pages (k w) p) /\
  (forall e, refcount (encls (k w2) e) = refcount (encls (k w) e)) /\
  trace w2 = trace w.
Proof.
  intros Hhead Hflag Hlive Hrip Hlru r w2. subst w2 r.
  rewrite (sgx_isolate_epc_pages_one H l p rest w Hhead Hflag Hlive).
  cbn [fst snd k].
  destruct (iso_take_frame H l p (k w))
    as (T1 & T2 & T3 & T4 & T5 & T6 & T7 & T8 & T9).
  set (s1 := iso_take H l p (k w)) in *.
  assert (He1 : encl_of s1 p = encl_of (k w) p).
  { unfold encl_of. rewrite T5, T6. reflexivity. }
  assert (Hrc1 : refcount (encls s1 (encl_of (k w) p)) =
                 S (refcount (encls (k w) (encl_of (k w) p)))).
  { rewrite T9, Nat.eqb_refl. reflexivity. }
  assert (Hcg1 : epc_cg (pages s1 p) = epc_cg (pages (k w) p)).
  { subst s1. unfold iso_take, lru_pop_reclaimable.
    destruct l; cbn; unfold upd; rewrite Nat.eqb_refl; reflexivity. }
  assert (Hlru1 : sgx_lru H p s1 = l).
  { unfold sgx_lru in *. rewrite Hcg1. exact Hlru. }
  split; [ reflexivity | ].
  split; [ exact T7 | ].
  split; [ exact Hrc1 | ].
  rewrite reclaim_skip_eq. cbn [snd k trace]. rewrite He1.
  destruct (reclaim_skip_relinked_frame H p s1) as (R1 & R2 & R3 & R4 & R5).
  rewrite Hlru1 in R1.
  set (s2 := reclaim_skip_relinked H p s1) in *.
  assert (Hlive' : refcount (encls (k w) (encl_of (k w) p)) <> O).
  { unfold encl_live in Hlive. intros Hz. rewrite Hz in Hlive.
    discriminate. }
  assert (Hnl : refcount (encls s2 (encl_of (k w) p)) <> 1%nat).
  { rewrite R4, Hrc1. lia. }
  destruct (kref_put_k_not_last E (encl_of (k w) p) s2 Hnl)
    as (K1 & K2 & K3 & K4).
  assert (Hu2 : unreclaimable (lru_of l s2) = unreclaimable (lru_of l s1)).
  { subst s2. unfold reclaim_skip_relinked. rewrite Hlru1.
    unfold lru_add_tail_reclaimable. rewrite lru_of_set_lru.
    cbn [unreclaimable]. rewrite lru_of_set_desc. reflexivity. }
  assert (Hd2 : desc (pages s2 p) =
                clear_bits (desc (pages s1 p))
                           (SGX_EPC_PAGE_RECLAIM_IN_PROGRESS H)).
  { subst s2. unfold reclaim_skip_relinked.
    destruct (pages_add_tail (sgx_lru H p s1) p
                (set_desc p (clear_bits (desc (pages s1 p))
                               (SGX_EPC_PAGE_RECLAIM_IN_PROGRESS H)) s1))
      as (A & _).
    rewrite A. cbn. unfold upd. rewrite Nat.eqb_refl. reflexivity. }
  split; [ rewrite K1, R1, T1, Hhead; reflexivity | ].
  split; [ rewrite K1, Hu2, T2; reflexivity | ].
  split.
  { rewrite K2, Hd2, T7. apply clear_bits_lor_same. exact Hrip. }
  split.
  { intros e. destruct (Nat.eq_dec e (encl_of (k w) p)) as [-> | Hne].
    - rewrite K4, R4, Hrc1. reflexivity.
    - unfold kref_put_k.
      assert (Hne1 : Nat.eqb (refcount (encls s2 (encl_of (k w) p))) 1 =
                     false) by (apply Nat.eqb_neq; exact Hnl).
      rewrite Hne1. cbn. unfold upd.
      apply Nat.eqb_neq in Hne. rewrite Hne. rewrite R4, T9.
      rewrite Hne. reflexivity. }
  unfold kref_put_events.
  assert (Hne1 : Nat.eqb (refcount (encls s2 (encl_of (k w) p))) 1 = false)
    by (apply Nat.eqb_neq; exact Hnl).
  rewrite Hne1. apply app_nil_r.
Qed.

(** The theorem on the only reclaimable page of an enclave that holds one
    reference. *)
Lemma sgx_isolate_then_skip_rotates_witness :
  let r := sgx_isolate_epc_pages (hdr false) O 1 [] w_last_child in
  let w2 := snd (reclaim_skip (hdr false) (ext (env_const 0)) 1 (snd r)) in
  fst r = (0, [1%nat]) /\
  desc (pages (k (snd r)) 1) =
  Z.lor (desc (pages (k w_last_child) 1))
        (SGX_EPC_PAGE_RECLAIM_IN_PROGRESS (hdr false)) /\
  refcount (encls (k (snd r)) (encl_of (k w_last_child) 1)) =
  S (refcount (encls (k w_last_child) (encl_of (k w_last_child) 1))) /\
  reclaimable (lru_of O (k w2)) = [] ++ [1%nat] /\
  unreclaimable (lru_of O (k w2)) = unreclaimable (lru_of O (k w_last_child)) /\
  desc (pages (k w2) 1) = desc (pages (k w_last_child) 1) /\
  (forall e, refcount (encls (k w2) e) = refcount (encls (k w_last_child) e)) /\
  trace w2 = trace w_last_child.
Proof.
  apply (sgx_isolate_then_skip_rotates (hdr false) (ext (env_const 0)) O 1 []
                                       w_last_child).
  - reflexivity.
  - unfold flag_set. vm_compute. discriminate.
  - reflexivity.
  - reflexivity.
  - reflexivity.
Defined.

(** ** Ageing and blocking *)

Section Age.

Variable H : headers.
Variable E : externals.

Lemma reclaimer_age_walk_cons (e page mm : nat) (rest : list nat) (r : bool)
      (w : world) :
  reclaimer_age_walk H E e page (mm :: rest) r w =
  let g := env E (trace w) (mmget_not_zero mm) in
  let t1 := trace w ++ [(mmget_not_zero mm, g)] in
  if truthy g then
    let y := env E t1 (sgx_encl_test_and_clear_young mm page) in
    let t2 := t1 ++ [(sgx_encl_test_and_clear_young mm page, y)] in
    if truthy y ||
       truthy (Z.land (flags (encls (k w) e)) (SGX_ENCL_DEAD_OR_OOM H))
    then (negb (truthy y), mk_world (k w) t2)
    else reclaimer_age_walk H E e page rest (negb (truthy y))
                            (mk_world (k w) t2)
  else reclaimer_age_walk H E e page rest r (mk_world (k w) t1).
Proof.
  cbn [reclaimer_age_walk]. unfold bind, ask, get, ret. cbn [k trace].
  cbv zeta.
  destruct (truthy (env E (trace w) (mmget_not_zero mm))); [ | reflexivity ].
  cbn [k trace].
  destruct (truthy (env E _ (sgx_encl_test_and_clear_young mm page)) ||
            truthy (Z.land (flags (encls (k w) e))
                           (SGX_ENCL_DEAD_OR_OOM H))); reflexivity.
Qed.

Lemma is_age_query_weaken (mm : nat) (mms : list nat) (page : nat)
      (ev : event) :
  is_age_query mms page ev -> is_age_query (mm :: mms) page ev.
Proof.
  intros (m & Hin & Hev). exists m. split; [ right; exact Hin | exact Hev ].
Qed.

Lemma reclaimer_age_walk_spec (e page : nat) (mms : list nat) :
  forall (r : bool) (w : world),
    let res := reclaimer_age_walk H E e page mms r w in
    k (snd res) = k w /\
    exists evs,
      trace (snd res) = trace w ++ evs /\
      (forall ev, In ev evs -> is_age_query mms page ev) /\
      (fst res = false ->
       r = false \/
       exists mm y, In mm mms /\ y <> 0 /\
                    In (sgx_encl_test_and_clear_young mm page, y) evs).
Proof.
  induction mms as [| mm rest IH]; intros r w res; subst res.
  - cbn [reclaimer_age_walk ret fst snd]. split; [ reflexivity | ].
    exists []. rewrite app_nil_r. split; [ reflexivity | ].
    split; [ intros ev [] | ]. intros Hr. left. exact Hr.
  - rewrite reclaimer_age_walk_cons. cbv zeta.
    set (g := env E (trace w) (mmget_not_zero mm)).
    set (t1 := trace w ++ [(mmget_not_zero mm, g)]).
    assert (Hqg : is_age_query (mm :: rest) page (mmget_not_zero mm, g)).
    { exists mm. split; [ left; reflexivity | left; exists g; reflexivity ]. }
    destruct (truthy g).
    + set (y := env E t1 (sgx_encl_test_and_clear_young mm page)).
      assert (Hqy : is_age_query (mm :: rest) page
                      (sgx_encl_test_and_clear_young mm page, y)).
      { exists mm. split; [ left; reflexivity
                         | right; exists y; reflexivity ]. }
      destruct (truthy y ||
                truthy (Z.land (flags (encls (k w) e))
                               (SGX_ENCL_DEAD_OR_OOM H))).
      * cbn [fst snd k trace]. split; [ reflexivity | ].
        exists [(mmget_not_zero mm, g);
                (sgx_encl_test_and_clear_young mm page, y)].
        split; [ subst t1; rewrite <- app_assoc; reflexivity | ].
        split.
        { intros ev [<- | [<- | []]]; assumption. }
        intros Hr. right. exists mm, y.
        split; [ left; reflexivity | ].
        split; [ | right; left; reflexivity ].
        apply truthy_true. destruct (truthy y); [ reflexivity | discriminate ].
      * destruct (IH (negb (truthy y))
                     (mk_world (k w)
                        (t1 ++ [(sgx_encl_test_and_clear_young mm page, y)])))
          as (Ik & evs & It & Iq & If).
        split; [ exact Ik | ].
        exists ((mmget_not_zero mm, g) ::
                (sgx_encl_test_and_clear_young mm page, y) :: evs).
        split.
        { rewrite It. cbn [trace]. subst t1. rewrite <- !app_assoc.
          reflexivity. }
        split.
        { intros ev [<- | [<- | Hin]]; try assumption.
          apply is_age_query_weaken. apply Iq. exact Hin. }
        intros Hr. right. destruct (If Hr) as [Hy | (m & y' & Hm & Hy' & Hin)].
        -- exists mm, y. split; [ left; reflexivity | ].
           split; [ | right; left; reflexivity ].
           apply truthy_true. destruct (truthy y); [ reflexivity
                                                   | discriminate ].
        -- exists m, y'. split; [ right; exact Hm | ].
           split; [ exact Hy' | right; right; exact Hin ].
    + destruct (IH r (mk_world (k w) t1)) as (Ik & evs & It & Iq & If).
      split; [ exact Ik | ].
      exists ((mmget_not_zero mm, g) :: evs).
      split.
      { rewrite It. cbn [trace]. subst t1. rewrite <- app_assoc.
        reflexivity. }
      split.
      { intros ev [<- | Hin]; [ assumption | ].
        apply is_age_query_weaken. apply Iq. exact Hin. }
      intros Hr. destruct (If Hr) as [Hy | (m & y' & Hm & Hy' & Hin)].
      * left. exact Hy.
      * right. exists m, y'. split; [ right; exact Hm | ].
        split; [ exact Hy' | right; exact Hin ].
Qed.

Lemma sgx_reclaimer_age_eq (p : nat) (w : world) :
  sgx_reclaimer_age H E p w =
  let page := owner (pages (k w) p) in
  let e := encl (encl_pages (k w) page) in
  let res := reclaimer_age_walk H E e page (mm_list (encls (k w) e)) true w in
  (if negb (fst res) &&
      negb (truthy (Z.land (flags (encls (k (snd res)) e))
                           (SGX_ENCL_DEAD_OR_OOM H)))
   then false else true, snd res).
Proof.
  unfold sgx_reclaimer_age. unfold bind at 1. unfold get at 1. cbv zeta.
  rewrite bind_eq. unfold bind, get, ret.
  destruct (negb _ && negb _); reflexivity.
Qed.

End Age.

(** X21.  [sgx_reclaimer_age] changes no kernel data and asks only the mms
    of the enclave for a reference and for the age of the page.  It lets a
    page be reclaimed ([true]) when the enclave is dead or out of memory
    and when the enclave has no mm; it answers [false] only if some mm of
    the enclave reported the page as young. *)
Theorem sgx_reclaimer_age_young_only
        (H : headers) (E : externals) (p : nat) (w : world) :
  let page := owner (pages (k w) p) in
  let e := encl (encl_pages (k w) page) in
  let res := sgx_reclaimer_age H E p w in
  k (snd res) = k w /\
  (exists evs,
     trace (snd res) = trace w ++ evs /\
     (forall ev, In ev evs -> is_age_query (mm_list (encls (k w) e)) page ev) /\
     (fst res = false ->
      exists mm y, In mm (mm_list (encls (k w) e)) /\ y <> 0 /\
                   In (sgx_encl_test_and_clear_young mm page, y) evs)) /\
  (flag_set (flags (encls (k w) e)) (SGX_ENCL_DEAD_OR_OOM H) ->
   fst res = true) /\
  (mm_list (encls (k w) e) = [] -> res = (true, w)).
Proof.
  cbv zeta. rewrite sgx_reclaimer_age_eq. cbv zeta.
  set (page := owner (pages (k w) p)).
  set (e := encl (encl_pages (k w) page)).
  destruct (reclaimer_age_walk_spec H E e page (mm_list (encls (k w) e))
                                    true w) as (Wk & evs & Wt & Wq & Wf).
  set (res := reclaimer_age_walk H E e page (mm_list (encls (k w) e)) true w)
    in *.
  cbn [fst snd].
  split; [ exact Wk | ].
  split.
  { exists evs. split; [ exact Wt | ]. split; [ exact Wq | ].
    intros Hr. destruct (fst res) eqn:Hres.
    - cbn [negb andb] in Hr. discriminate.
    - destruct (Wf eq_refl) as [Hx | Hy]; [ discriminate | exact Hy ]. }
  split.
  { intros Hdoo. rewrite Wk. apply truthy_true in Hdoo. rewrite Hdoo.
    cbn [negb]. rewrite andb_false_r. reflexivity. }
  intros Hmm. subst res. rewrite Hmm. cbn [reclaimer_age_walk ret fst snd].
  cbn [negb andb]. reflexivity.
Qed.

Section Block.

Variable E : externals.

Lemma reclaimer_block_walk_cons (e : nat) (addr : Z) (mm : nat)
      (rest : list nat) (w : world) :
  reclaimer_block_walk E e addr (mm :: rest) w =
  let g := env E (trace w) (mmget_not_zero mm) in
  let t1 := trace w ++ [(mmget_not_zero mm, g)] in
  if truthy g then
    let r := env E t1 (sgx_encl_find mm addr) in
    let t2 := t1 ++ [(sgx_encl_find mm addr, r)] in
    if truthy r then reclaimer_block_walk E e addr rest (mk_world (k w) t2)
    else
      let v := env E t2 (vm_private_data mm addr) in
      let t3 := t2 ++ [(vm_private_data mm addr, v)] in
      if v =? Z.of_nat e
      then reclaimer_block_walk E e addr rest
             (mk_world (k w) (t3 ++ [(zap_vma_ptes mm addr, 0)]))
      else reclaimer_block_walk E e addr rest (mk_world (k w) t3)
  else reclaimer_block_walk E e addr rest (mk_world (k w) t1).
Proof.
  cbn [reclaimer_block_walk]. unfold bind, ask, tell, when, ret.
  cbn [k trace]. cbv zeta.
  destruct (truthy (env E (trace w) (mmget_not_zero mm))); [ | reflexivity ].
  cbn [k trace].
  destruct (truthy (env E _ (sgx_encl_find mm addr))); [ reflexivity | ].
  cbn [k trace].
  destruct (env E _ (vm_private_data mm addr) =? Z.of_nat e); reflexivity.
Qed.

Lemma reclaimer_block_walk_spec (e : nat) (addr : Z) (mms : list nat) :
  forall (w : world),
  exists evs,
    reclaimer_block_walk E e addr mms w =
    (tt, mk_world (k w) (trace w ++ evs)) /\
    (forall ev, In ev evs -> is_eblock ev = false) /\
    (forall mm a r, In (zap_vma_ptes mm a, r) evs ->
       a = addr /\ In mm mms /\
       (exists g, g <> 0 /\ In (mmget_not_zero mm, g) evs) /\
       In (sgx_encl_find mm addr, 0) evs /\
       In (vm_private_data mm addr, Z.of_nat e) evs).
Proof.
  induction mms as [| mm rest IH]; intros w.
  - exists []. cbn [reclaimer_block_walk ret]. rewrite app_nil_r.
    split; [ destruct w; reflexivity | ].
    split; [ intros ev [] | intros mm a r [] ].
  - rewrite reclaimer_block_walk_cons. cbv zeta.
    set (g := env E (trace w) (mmget_not_zero mm)).
    set (t1 := trace w ++ [(mmget_not_zero mm, g)]).
    destruct (truthy g) eqn:Hg.
    + set (r := env E t1 (sgx_encl_find mm addr)).
      set (t2 := t1 ++ [(sgx_encl_find mm addr, r)]).
      destruct (truthy r) eqn:Hr.
      * destruct (IH (mk_world (k w) t2)) as (evs & Ie & Ib & Iz).
        exists ((mmget_not_zero mm, g) :: (sgx_encl_find mm addr, r) :: evs).
        split.
        { rewrite Ie. cbn [k trace]. subst t2 t1. rewrite <- !app_assoc.
          reflexivity. }
        split.
        { intros ev [<- | [<- | Hin]]; try reflexivity. apply Ib. exact Hin. }
        intros m a r0 [Hx | [Hx | Hin]]; try discriminate.
        destruct (Iz m a r0 Hin) as (Z1 & Z2 & (g0 & Z3 & Z3') & Z4 & Z5).
        split; [ exact Z1 | ]. split; [ right; exact Z2 | ].
        split; [ exists g0; split; [ exact Z3 | right; right; exact Z3' ] | ].
        split; right; right; assumption.
      * set (v := env E t2 (vm_private_data mm addr)).
        set (t3 := t2 ++ [(vm_private_data mm addr, v)]).
        apply truthy_false in Hr. apply truthy_true in Hg.
        destruct (v =? Z.of_nat e) eqn:Hv.
        -- apply Z.eqb_eq in Hv.
           destruct (IH (mk_world (k w) (t3 ++ [(zap_vma_ptes mm addr, 0)])))
             as (evs & Ie & Ib & Iz).
           exists ((mmget_not_zero mm, g) :: (sgx_encl_find mm addr, r) ::
                   (vm_private_data mm addr, v) ::
                   (zap_vma_ptes mm addr, 0) :: evs).
           split.
           { rewrite Ie. cbn [k trace]. subst t3 t2 t1.
             rewrite <- !app_assoc. reflexivity. }
           split.
           { intros ev [<- | [<- | [<- | [<- | Hin]]]]; try reflexivity.
             apply Ib. exact Hin. }
           intros m a r0 [Hx | [Hx | [Hx | [Hx | Hin]]]]; try discriminate.
           ++ inversion Hx; subst m a r0.
              split; [ reflexivity | ]. split; [ left; reflexivity | ].
              split; [ exists g; split; [ exact Hg | left; reflexivity ] | ].
              split; [ right; left; rewrite <- Hr; reflexivity | ].
              right; right; left. rewrite <- Hv. reflexivity.
           ++ destruct (Iz m a r0 Hin)
                as (Z1 & Z2 & (g0 & Z3 & Z3') & Z4 & Z5).
              split; [ exact Z1 | ]. split; [ right; exact Z2 | ].
              split; [ exists g0; split;
                       [ exact Z3 | do 4 right; exact Z3' ] | ].
              split; do 4 right; assumption.
        -- destruct (IH (mk_world (k w) t3)) as (evs & Ie & Ib & Iz).
           exists ((mmget_not_zero mm, g) :: (sgx_encl_find mm addr, r) ::
                   (vm_private_data mm addr, v) :: evs).
           split.
           { rewrite Ie. cbn [k trace]. subst t3 t2 t1.
             rewrite <- !app_assoc. reflexivity. }
           split.
           { intros ev [<- | [<- | [<- | Hin]]]; try reflexivity.
             apply Ib. exact Hin. }
           intros m a r0 [Hx | [Hx | [Hx | Hin]]]; try discriminate.
           destruct (Iz m a r0 Hin) as (Z1 & Z2 & (g0 & Z3 & Z3') & Z4 & Z5).
           split; [ exact Z1 | ]. split; [ right; exact Z2 | ].
           split; [ exists g0; split; [ exact Z3 | do 3 right; exact Z3' ] | ].
           split; do 3 right; assumption.
    + destruct (IH (mk_world (k w) t1)) as (evs & Ie & Ib & Iz).
      exists ((mmget_not_zero mm, g) :: evs).
      split.
      { rewrite Ie. cbn [k trace]. subst t1. rewrite <- app_assoc.
        reflexivity. }
      split.
      { intros ev [<- | Hin]; [ reflexivity | ]. apply Ib. exact Hin. }
      intros m a r0 [Hx | Hin]; [ discriminate | ].
      destruct (Iz m a r0 Hin) as (Z1 & Z2 & (g0 & Z3 & Z3') & Z4 & Z5).
      split; [ exact Z1 | ]. split; [ right; exact Z2 | ].
      split; [ exists g0; split; [ exact Z3 | right; exact Z3' ] | ].
      split; right; assumption.
Qed.

End Block.

(** X22.  [sgx_reclaimer_block] changes no kernel data.  It zaps the page
    table entries of the page only in an mm of the enclave that gave a
    reference, where [sgx_encl_find] found a VMA at the address of the page
    and that VMA belongs to the enclave.  After the walk it issues
    [EBLOCK] on the page once, as its last call, unless the enclave is
    dead, in which case it issues none. *)
Theorem sgx_reclaimer_block_eblock_unless_dead
        (H : headers) (E : externals) (p : nat) (w : world) :
  let page := owner (pages (k w) p) in
  let addr := SGX_ENCL_PAGE_ADDR H (ep_desc (encl_pages (k w) page)) in
  let e := encl (encl_pages (k w) page) in
  let w' := snd (sgx_reclaimer_block H E p w) in
  k w' = k w /\
  exists evs,
    trace w' =
    trace w ++ evs ++
    (if truthy (Z.land (flags (encls (k w) e)) (SGX_ENCL_DEAD H)) then []
     else [(eblock p, env E (trace w ++ evs) (eblock p))]) /\
    (forall ev, In ev evs -> is_eblock ev = false) /\
    (forall mm a r, In (zap_vma_ptes mm a, r) evs ->
       a = addr /\ In mm (mm_list (encls (k w) e)) /\
       (exists g, g <> 0 /\ In (mmget_not_zero mm, g) evs) /\
       In (sgx_encl_find mm addr, 0) evs /\
       In (vm_private_data mm addr, Z.of_nat e) evs).
Proof.
  cbv zeta.
  set (page := owner (pages (k w) p)).
  set (addr := SGX_ENCL_PAGE_ADDR H (ep_desc (encl_pages (k w) page))).
  set (e := encl (encl_pages (k w) page)).
  destruct (reclaimer_block_walk_spec E e addr (mm_list (encls (k w) e)) w)
    as (evs & We & Wb & Wz).
  assert (Heq : sgx_reclaimer_block H E p w =
                (tt,
                 mk_world (k w)
                   (trace w ++ evs ++
                    (if truthy (Z.land (flags (encls (k w) e))
                                       (SGX_ENCL_DEAD H))
                     then []
                     else [(eblock p, env E (trace w ++ evs) (eblock p))])))).
  { unfold sgx_reclaimer_block. unfold bind at 1. unfold get at 1.
    fold page. fold e. fold addr. rewrite bind_eq, We. cbn [fst snd].
    unfold bind, get, ask, ret. cbn [k trace].
    destruct (truthy (Z.land (flags (encls (k w) e)) (SGX_ENCL_DEAD H))).
    - cbn [k trace]. rewrite app_nil_r. reflexivity.
    - cbv zeta. cbn [k trace]. rewrite <- app_assoc. reflexivity. }
  rewrite Heq. cbn [snd k trace].
  split; [ reflexivity | ].
  exists evs. split; [ reflexivity | ]. split; [ exact Wb | exact Wz ].
Qed.

(** ** Writing back a page of a dead enclave *)

Section WriteDead.

Variable H : headers.
Variable E : externals.

Lemma sgx_drop_epc_page_frame (p : nat) (w : world) :
  let w' := snd (sgx_drop_epc_page H p w) in
  trace w' = trace w /\ encl_pages (k w') = encl_pages (k w) /\
  encls (k w') = encls (k w).
Proof.
  unfold sgx_drop_epc_page, bind, get, modify, ret. cbn [k trace].
  destruct (truthy _ && truthy _); cbn [snd k trace];
    split; try reflexivity; split; reflexivity.
Qed.

Lemma __sgx_free_epc_page_frame (p : nat) (w : world) :
  let w' := snd (__sgx_free_epc_page H p w) in
  encl_pages (k w') = encl_pages (k w) /\
  encls (k w') = encls (k w) /\
  exists evs, trace w' = trace w ++ evs /\
              (forall ev, In ev evs -> is_ewb ev = false).
Proof.
  unfold __sgx_free_epc_page.
  unfold bind, get, modify, tell, when, ret. cbn [k trace].
  destruct (CONFIG_CGROUP_SGX_EPC H &&
            negb (Nat.eqb (epc_cg (pages (k w) p)) 0));
    cbn [snd k trace].
  - split; [ reflexivity | ]. split; [ reflexivity | ].
    exists [(sgx_epc_cgroup_uncharge (epc_cg (pages (k w) p)) false, 0)].
    split; [ reflexivity | ].
    intros ev [<- | []]; reflexivity.
  - split; [ reflexivity | ]. split; [ reflexivity | ].
    exists []. split; [ rewrite app_nil_r; reflexivity | ]. intros ev [].
Qed.

Lemma sgx_free_epc_page_frame (p : nat) (w : world) :
  let w' := snd (sgx_free_epc_page H E p w) in
  encl_pages (k w') = encl_pages (k w) /\
  encls (k w') = encls (k w) /\
  exists evs, trace w' = trace w ++ evs /\
              (forall ev, In ev evs -> is_ewb ev = false).
Proof.
  unfold sgx_free_epc_page. rewrite !bind_eq. unfold ask.
  cbv zeta. cbn [fst snd].
  set (w1 := mk_world (k w) (trace w ++ [(eremove p, env E (trace w) (eremove p))])).
  destruct (truthy (env E (trace w) (eremove p))).
  - cbn [ret snd k trace]. split; [ reflexivity | ]. split; [ reflexivity | ].
    exists [(eremove p, env E (trace w) (eremove p))].
    split; [ reflexivity | ]. intros ev [<- | []]. reflexivity.
  - destruct (__sgx_free_epc_page_frame p w1) as (F1 & F2 & evs & F3 & F4).
    split; [ exact F1 | ]. split; [ exact F2 | ].
    exists ((eremove p, env E (trace w) (eremove p)) :: evs).
    split; [ rewrite F3; subst w1; cbn [trace]; rewrite <- app_assoc;
             reflexivity | ].
    intros ev [<- | Hin]; [ reflexivity | apply F4; exact Hin ].
Qed.

Lemma __sgx_free_epc_page_eq (p : nat) (w : world) :
  __sgx_free_epc_page H p w =
  let charged := CONFIG_CGROUP_SGX_EPC H &&
                 negb (Nat.eqb (epc_cg (pages (k w) p)) 0) in
  (tt,
   mk_world (section_free_add_tail (sgx_get_epc_section H p (k w)) p
               (if charged then set_epc_cg p 0 (k w) else k w))
            (trace w ++
             if charged
             then [(sgx_epc_cgroup_uncharge (epc_cg (pages (k w) p)) false,
                    0)]
             else [])).
Proof.
  unfold __sgx_free_epc_page, bind, get, modify, tell, when, ret.
  cbv zeta. cbn [k trace].
  destruct (CONFIG_CGROUP_SGX_EPC H &&
            negb (Nat.eqb (epc_cg (pages (k w) p)) 0)); cbn [k trace].
  - reflexivity.
  - rewrite app_nil_r. reflexivity.
Qed.

(** The free path with [EREMOVE] succeeding: the page goes to the tail of
    the free list of its section, and no LRU list and no descriptor
    changes. *)
Lemma sgx_free_epc_page_freed (p : nat) (w : world) :
  env E (trace w) (eremove p) = 0 ->
  let w' := snd (sgx_free_epc_page H E p w) in
  sgx_epc_sections (k w') =
  sgx_epc_sections (section_free_add_tail (sgx_get_epc_section H p (k w)) p
                                          (k w)) /\
  (forall l, lru_of l (k w') = lru_of l (k w)) /\
  (forall q, desc (pages (k w') q) = desc (pages (k w) q)).
Proof.
  intros Hrm. cbv zeta.
  assert (Heq : sgx_free_epc_page H E p w =
                __sgx_free_epc_page H p
                  (mk_world (k w) (trace w ++ [(eremove p, 0)]))).
  { unfold sgx_free_epc_page. unfold bind at 1. unfold ask at 1. cbv zeta.
    rewrite Hrm. reflexivity. }
  rewrite Heq, __sgx_free_epc_page_eq. cbv zeta. cbn [snd k trace].
  destruct (CONFIG_CGROUP_SGX_EPC H &&
            negb (Nat.eqb (epc_cg (pages (k w) p)) 0)).
  - split; [ reflexivity | ].
    split; [ intros l; destruct l; reflexivity | ].
    intros q. cbn. unfold upd. destruct (Nat.eqb q p) eqn:Hq;
      [ apply Nat.eqb_eq in Hq; subst q | ]; reflexivity.
  - split; [ reflexivity | ].
    split; [ intros l; destruct l; reflexivity | ].
    intros q. reflexivity.
Qed.

(** The free path with [EREMOVE] failing: nothing but the call. *)
Lemma sgx_free_epc_page_refused (p : nat) (w : world) :
  env E (trace w) (eremove p) <> 0 ->
  sgx_free_epc_page H E p w =
  (tt, mk_world (k w) (trace w ++ [(eremove p, env E (trace w) (eremove p))])).
Proof.
  intros Hrm. unfold sgx_free_epc_page. unfold bind at 1. unfold ask at 1.
  cbv zeta. apply truthy_true in Hrm. rewrite Hrm. reflexivity.
Qed.

Lemma free_secs_page_eq (e : nat) (w : world) :
  free_secs_page H E e w =
  let wd := snd (sgx_drop_epc_page H
                   (epc_page (encl_pages (k w) (secs (encls (k w) e)))) w) in
  let wf := snd (sgx_free_epc_page H E
                   (epc_page (encl_pages (k wd) (secs (encls (k wd) e))))
                   wd) in
  (tt, mk_world (set_epc_page (secs (encls (k wf) e)) 0 (k wf)) (trace wf)).
Proof.
  unfold free_secs_page. unfold bind at 1. unfold get at 1.
  unfold bind at 1.
  destruct (sgx_drop_epc_page H _ w) as [r wd]. cbn [snd].
  unfold bind at 1. unfold get at 1. unfold bind at 1.
  destruct (sgx_free_epc_page H E _ wd) as [u wf]. cbn [snd].
  reflexivity.
Qed.

Lemma free_secs_page_spec (e : nat) (w : world) :
  let w' := snd (free_secs_page H E e w) in
  encls (k w') = encls (k w) /\
  (forall x, x <> secs (encls (k w) e) ->
             encl_pages (k w') x = encl_pages (k w) x) /\
  epc_page (encl_pages (k w') (secs (encls (k w) e))) = O /\
  exists evs, trace w' = trace w ++ evs /\
              (forall ev, In ev evs -> is_ewb ev = false).
Proof.
  rewrite free_secs_page_eq. cbv zeta.
  destruct (sgx_drop_epc_page_frame
              (epc_page (encl_pages (k w) (secs (encls (k w) e)))) w)
    as (D1 & D2 & D3).
  set (wd := snd (sgx_drop_epc_page H _ w)) in *.
  destruct (sgx_free_epc_page_frame
              (epc_page (encl_pages (k wd) (secs (encls (k wd) e)))) wd)
    as (F1 & F2 & evs & F3 & F4).
  set (wf := snd (sgx_free_epc_page H E _ wd)) in *.
  cbn [snd k trace].
  assert (Hsecs : secs (encls (k wf) e) = secs (encls (k w) e)).
  { rewrite F2, D3. reflexivity. }
  rewrite Hsecs.
  split; [ cbn; rewrite F2, D3; reflexivity | ].
  split.
  { intros x Hx. cbn. unfold upd. apply Nat.eqb_neq in Hx. rewrite Hx.
    rewrite F1, D2. reflexivity. }
  split.
  { cbn. unfold upd. rewrite Nat.eqb_refl. reflexivity. }
  exists evs. split; [ rewrite F3, D1; reflexivity | exact F4 ].
Qed.

End WriteDead.

(** X23.  For a page of a dead enclave [sgx_reclaimer_write] writes nothing
    back: its first call is [EREMOVE] on the page and it never calls [EWB].
    The enclave page loses its EPC page and the child count of the enclave
    drops by one.  When the count has not reached zero, nothing else is
    called or changed.  When it has, [sgx_drop_epc_page] and then
    [sgx_free_epc_page] run on the SECS page and [encl->secs.epc_page]
    becomes [NULL]: unless the SECS page is in the hands of the reclaimer,
    it is then on no LRU list and its reclaim flags are clear; it is at the
    tail of the free list of its section, with the free counter one up,
    when [EREMOVE] succeeds on it, and on no free list it was not on
    before, with every free counter as it was, when [EREMOVE] fails. *)
Theorem sgx_reclaimer_write_dead
        (H : headers) (E : externals) (p : nat) (b : sgx_backing) (w : world) :
  let q := owner (pages (k w) p) in
  let e := encl (encl_pages (k w) q) in
  flag_set (flags (encls (k w) e)) (SGX_ENCL_DEAD H) ->
  let w' := snd (sgx_reclaimer_write H E p b w) in
  let cnt' := wrap32 (secs_child_cnt (encls (k w) e) - 1) in
  (exists evs,
     trace w' =
     trace w ++ (eremove p, env E (trace w) (eremove p)) :: evs /\
     (forall ev, In ev evs -> is_ewb ev = false) /\
     (cnt' <> 0 -> evs = [])) /\
  epc_page (encl_pages (k w') q) = O /\
  secs_child_cnt (encls (k w') e) = cnt' /\
  (cnt' <> 0 -> k w' = dec_secs_child_cnt e (set_epc_page q 0 (k w))) /\
  (cnt' = 0 -> epc_page (encl_pages (k w') (secs (encls (k w) e))) = O) /\
  (cnt' = 0 ->
   let sq := secs (encls (k w) e) in
   let w1 := mk_world (dec_secs_child_cnt e (set_epc_page q 0 (k w)))
                      (trace w ++ [(eremove p, env E (trace w) (eremove p))]) in
   let sp := epc_page (encl_pages (k w1) sq) in
   let wd := snd (sgx_drop_epc_page H sp w1) in
   let wf := snd (sgx_free_epc_page H E sp wd) in
   w' = mk_world (set_epc_page sq 0 (k wf)) (trace wf) /\
   (Z.land (desc (pages (k w) sp)) (SGX_EPC_PAGE_RECLAIM_IN_PROGRESS H) = 0 ->
    (forall l, ~ In sp (reclaimable (lru_of l (k w'))) /\
               ~ In sp (unreclaimable (lru_of l (k w')))) /\
    Z.land (desc (pages (k w') sp)) (SGX_EPC_PAGE_RECLAIM_FLAGS H) = 0 /\
    (env E (trace w1) (eremove sp) = 0 ->
     let i := sgx_get_epc_section H sp (k wd) in
     page_list (sgx_epc_sections (k w') i) =
     list_del sp (page_list (sgx_epc_sections (k w) i)) ++ [sp] /\
     free_cnt (sgx_epc_sections (k w') i) =
     wrap64 (free_cnt (sgx_epc_sections (k w) i) + 1)) /\
    (env E (trace w1) (eremove sp) <> 0 ->
     (forall j, page_list (sgx_epc_sections (k w') j) =
                list_del sp (page_list (sgx_epc_sections (k w) j)) /\
                free_cnt (sgx_epc_sections (k w') j) =
                free_cnt (sgx_epc_sections (k w) j)) /\
     trace w' =
     trace w1 ++ [(eremove sp, env E (trace w1) (eremove sp))]))).
Proof.
  intros q e Hdead w' cnt'. subst w' cnt'.
  apply truthy_true in Hdead.
  set (s1 := dec_secs_child_cnt e (set_epc_page q 0 (k w))).
  set (w1 := mk_world s1 (trace w ++ [(eremove p, env E (trace w) (eremove p))])).
  assert (He1 : encls s1 e =
                mk_encl (refcount (encls (k w) e)) (flags (encls (k w) e))
                        (wrap32 (secs_child_cnt (encls (k w) e) - 1))
                        (secs (encls (k w) e)) (base (encls (k w) e))
                        (size (encls (k w) e)) (mm_list (encls (k w) e))
                        (va_pages (encls (k w) e))
                        (cpumask (encls (k w) e))).
  { subst s1. cbn. unfold upd. rewrite Nat.eqb_refl. reflexivity. }
  assert (Hq1 : epc_page (encl_pages s1 q) = O).
  { subst s1. cbn. unfold upd. rewrite Nat.eqb_refl. reflexivity. }
  assert (Heq : sgx_reclaimer_write H E p b w =
                if secs_child_cnt (encls s1 e) =? 0
                then free_secs_page H E e w1 else (tt, w1)).
  { unfold sgx_reclaimer_write. unfold bind at 1. unfold get at 1.
    fold q. fold e. rewrite Hdead.
    unfold bind at 1. unfold bind at 1. unfold ask at 1. unfold ret at 1.
    cbv zeta. unfold bind at 1. unfold modify at 1. cbn [k trace].
    unfold bind at 1. unfold modify at 1. cbn [k trace].
    unfold bind at 1. unfold get at 1. cbn [k trace].
    change (dec_secs_child_cnt e (set_epc_page q 0 (k w))) with s1.
    change (mk_world s1 (trace w ++
                         [(eremove p, env E (trace w) (eremove p))]))
      with w1.
    rewrite He1. cbn [flags secs_child_cnt]. rewrite Hdead.
    destruct (wrap32 (secs_child_cnt (encls (k w) e) - 1) =? 0);
      reflexivity. }
  rewrite Heq, He1. cbn [secs_child_cnt].
  destruct (wrap32 (secs_child_cnt (encls (k w) e) - 1) =? 0) eqn:Hz.
  - apply Z.eqb_eq in Hz.
    destruct (free_secs_page_spec H E e w1) as (S1 & S2 & S3 & evs & S4 & S5).
    assert (Hsecs : secs (encls (k w1) e) = secs (encls (k w) e)).
    { subst w1. cbn [k]. rewrite He1. reflexivity. }
    rewrite Hsecs in S2, S3.
    split.
    { exists evs. split; [ rewrite S4; subst w1; cbn [trace];
                           rewrite <- app_assoc; reflexivity | ].
      split; [ exact S5 | ]. intros Hne. contradiction. }
    split.
    { destruct (Nat.eq_dec q (secs (encls (k w) e))) as [Hqs | Hqs].
      - rewrite Hqs. exact S3.
      - rewrite S2 by exact Hqs. exact Hq1. }
    split.
    { rewrite S1. subst w1. cbn [k]. rewrite He1. reflexivity. }
    split; [ intros Hne; contradiction | ].
    split; [ intros _; exact S3 | ].
    intros _. cbv zeta.
    set (sq := secs (encls (k w) e)).
    set (sp := epc_page (encl_pages (k w1) sq)).
    destruct (sgx_drop_epc_page_frame H sp w1) as (D1 & D2 & D3).
    set (wd := snd (sgx_drop_epc_page H sp w1)) in *.
    destruct (sgx_free_epc_page_frame H E sp wd) as (F1 & F2 & _).
    set (wf := snd (sgx_free_epc_page H E sp wd)) in *.
    assert (Hfs : free_secs_page H E e w1 =
                  (tt, mk_world (set_epc_page sq 0 (k wf)) (trace wf))).
    { rewrite free_secs_page_eq. cbv zeta. rewrite Hsecs. fold sq. fold sp.
      fold wd. rewrite D3, D2. rewrite Hsecs. fold sq. fold sp. fold wf.
      rewrite F2, D3, Hsecs. reflexivity. }
    rewrite Hfs. cbn [snd k trace].
    split; [ reflexivity | ].
    intros Hrip.
    assert (Hp1 : pages (k w1) = pages (k w)) by reflexivity.
    assert (Hwd : sgx_drop_epc_page H sp w1 =
                  (0, mk_world (set_desc sp
                                  (clear_bits (desc (pages (k w1) sp))
                                              (SGX_EPC_PAGE_RECLAIM_FLAGS H))
                                  (list_del_page sp (k w1)))
                               (trace w1))).
    { apply sgx_drop_epc_page_idle. rewrite Hp1. exact Hrip. }
    assert (Hkd : k wd = set_desc sp
                           (clear_bits (desc (pages (k w1) sp))
                                       (SGX_EPC_PAGE_RECLAIM_FLAGS H))
                           (list_del_page sp (k w1))).
    { subst wd. rewrite Hwd. reflexivity. }
    assert (Hpd : desc (pages (k wd) sp) =
                  clear_bits (desc (pages (k w1) sp))
                             (SGX_EPC_PAGE_RECLAIM_FLAGS H)).
    { rewrite Hkd. cbn. unfold upd. rewrite Nat.eqb_refl. reflexivity. }
    assert (Hld : forall l, lru_of l (k wd) = lru_del sp (lru_of l (k w))).
    { intros l. rewrite Hkd, lru_of_set_desc, lru_of_list_del_page.
      subst w1 s1. destruct l; reflexivity. }
    assert (Hsd : forall j, sgx_epc_sections (k wd) j =
                            section_del sp (sgx_epc_sections (k w) j)).
    { intros j. rewrite Hkd. reflexivity. }
    assert (Hcase :
      (env E (trace w1) (eremove sp) = 0 ->
       sgx_epc_sections (k wf) =
       sgx_epc_sections
         (section_free_add_tail (sgx_get_epc_section H sp (k wd)) sp (k wd)) /\
       (forall l, lru_of l (k wf) = lru_of l (k wd)) /\
       (forall x, desc (pages (k wf) x) = desc (pages (k wd) x))) /\
      (env E (trace w1) (eremove sp) <> 0 ->
       wf = mk_world (k wd)
                     (trace w1 ++
                      [(eremove sp, env E (trace w1) (eremove sp))]))).
    { split.
      - intros Hrm. apply sgx_free_epc_page_freed. rewrite D1. exact Hrm.
      - intros Hrm. subst wf. rewrite sgx_free_epc_page_refused.
        + rewrite D1. reflexivity.
        + rewrite D1. exact Hrm. }
    destruct Hcase as [Hok Hbad].
    assert (Hlf : forall l, lru_of l (k wf) = lru_of l (k wd)).
    { intros l. destruct (Z.eq_dec (env E (trace w1) (eremove sp)) 0)
        as [Hrm | Hrm].
      - apply (proj1 (proj2 (Hok Hrm))).
      - rewrite (Hbad Hrm). reflexivity. }
    assert (Hdf : desc (pages (k wf) sp) = desc (pages (k wd) sp)).
    { destruct (Z.eq_dec (env E (trace w1) (eremove sp)) 0) as [Hrm | Hrm].
      - apply (proj2 (proj2 (Hok Hrm))).
      - rewrite (Hbad Hrm). reflexivity. }
    assert (Hlw : forall l, lru_of l (set_epc_page sq 0 (k wf)) =
                            lru_of l (k wf)).
    { intros l. destruct l; reflexivity. }
    split.
    { intros l. rewrite Hlw, Hlf, Hld. cbn [lru_del reclaimable unreclaimable].
      split; apply list_del_not_in. }
    split.
    { change (pages (set_epc_page sq 0 (k wf))) with (pages (k wf)).
      rewrite Hdf, Hpd. apply clear_bits_land_same. }
    change (sgx_epc_sections (set_epc_page sq 0 (k wf)))
      with (sgx_epc_sections (k wf)).
    split.
    + intros Hrm. destruct (Hok Hrm) as (Hs & _ & _). rewrite Hs.
      unfold section_free_add_tail. rewrite sections_set_section_same.
      cbn [page_list free_cnt]. rewrite Hsd. split; reflexivity.
    + intros Hrm. rewrite (Hbad Hrm). cbn [k trace].
      split; [ | reflexivity ].
      intros j. rewrite Hsd. split; reflexivity.
  - apply Z.eqb_neq in Hz. subst w1. cbn [snd k trace].
    split.
    { exists []. split; [ reflexivity | ].
      split; [ intros ev [] | reflexivity ]. }
    split; [ exact Hq1 | ].
    split; [ rewrite He1; reflexivity | ].
    split; [ reflexivity | ].
    split; intros Hx; contradiction.
Qed.

(** The theorem on the last child page of a dead enclave: the page and then
    the SECS page are removed, and the SECS page leaves the unreclaimable
    list for the tail of the free list of section 0. *)
Lemma sgx_reclaimer_write_dead_witness :
  let w' := snd (sgx_reclaimer_write (hdr false) (ext (env_const 0)) 1
                                     (mk_backing 1 1) w_dead) in
  flag_set (flags (encls (k w_dead) 1)) (SGX_ENCL_DEAD (hdr false)) /\
  secs_child_cnt (encls (k w') 1) = 0 /\
  epc_page (encl_pages (k w') 9) = O /\
  unreclaimable (lru_of O (k w')) = [] /\
  page_list (sgx_epc_sections (k w') O) = [2%nat] /\
  free_cnt (sgx_epc_sections (k w') O) = 1 /\
  trace w' = [(eremove 1, 0); (eremove 2, 0)].
Proof.
  assert (Hd : flag_set (flags (encls (k w_dead)
                                  (encl (encl_pages (k w_dead)
                                           (owner (pages (k w_dead) 1))))))
                        (SGX_ENCL_DEAD (hdr false)))
    by (unfold flag_set; vm_compute; discriminate).
  pose proof (sgx_reclaimer_write_dead (hdr false) (ext (env_const 0)) 1
                (mk_backing 1 1) w_dead Hd) as T.
  cbv zeta in T. destruct T as (_ & _ & T3 & _ & T5 & T6).
  cbv zeta. split; [ exact Hd | ].
  split; [ exact T3 | ].
  split; [ exact (T5 eq_refl) | ].
  destruct (T6 eq_refl) as (_ & T7).
  destruct (T7 eq_refl) as (_ & _ & T8 & _).
  destruct (T8 eq_refl) as (T9 & T10).
  split; [ reflexivity | ].
  split; [ exact T9 | ]. split; [ exact T10 | reflexivity ].
Defined.

(** ** The swap thread above the watermark *)

Lemma ksgxswapd_wait_condition_eq (H : headers) (E : externals) (w : world) :
  ksgxswapd_wait_condition H E w =
  let stop := env E (trace w) kthread_should_stop in
  (truthy stop || sgx_should_reclaim H E (SGX_NR_HIGH_PAGES H) (k w),
   mk_world (k w) (trace w ++ [(kthread_should_stop, stop)])).
Proof.
  unfold ksgxswapd_wait_condition, bind, ask, get, ret. cbv zeta.
  destruct (truthy (env E (trace w) kthread_should_stop)); reflexivity.
Qed.

Lemma ksgxswapd_wait_eq (H : headers) (E : externals) (fuel : nat)
      (w : world) :
  ksgxswapd_wait H E fuel w =
  let c := ksgxswapd_wait_condition H E w in
  if fst c then (true, snd c)
  else match fuel with
       | O => (false, snd c)
       | S fuel' =>
           ksgxswapd_wait H E fuel'
             (mk_world (k (snd c))
                       (trace (snd c) ++ [(wait_event_freezable, 0)]))
       end.
Proof.
  destruct fuel as [| fuel]; cbn [ksgxswapd_wait]; unfold bind; cbv zeta;
    destruct (ksgxswapd_wait_condition H E w) as [[|] w1]; reflexivity.
Qed.

Lemma ksgxswapd_loop_S (H : headers) (E : externals) (fuel : nat)
      (w : world) :
  ksgxswapd_loop H E (S fuel) w =
  let stop := env E (trace w) kthread_should_stop in
  let t1 := trace w ++ [(kthread_should_stop, stop)] in
  if truthy stop then (Some 0, mk_world (k w) t1)
  else
    let fz := env E t1 try_to_freeze in
    let t2 := t1 ++ [(try_to_freeze, fz)] in
    if truthy fz then ksgxswapd_loop H E fuel (mk_world (k w) t2)
    else
      let wt := ksgxswapd_wait H E fuel (mk_world (k w) t2) in
      if fst wt then
        if sgx_should_reclaim H E (SGX_NR_HIGH_PAGES H) (k (snd wt))
        then ksgxswapd_loop H E fuel
               (snd (sgx_reclaim_epc_pages H E SGX_NR_TO_SCAN false O
                                           (snd wt)))
        else ksgxswapd_loop H E fuel (snd wt)
      else (None, snd wt).
Proof.
  cbn [ksgxswapd_loop]. unfold bind at 1. unfold ask at 1. cbv zeta.
  destruct (truthy (env E (trace w) kthread_should_stop)); [ reflexivity | ].
  unfold bind at 1. unfold ask at 1. cbn [k trace]. cbv zeta.
  destruct (truthy (env E _ try_to_freeze)); [ reflexivity | ].
  unfold bind at 1.
  destruct (ksgxswapd_wait H E fuel _) as [[|] w3]; [ | reflexivity ].
  cbn [fst snd]. unfold bind at 1. unfold get at 1.
  destruct (sgx_should_reclaim H E (SGX_NR_HIGH_PAGES H) (k w3)).
  - unfold bind at 1. unfold bind at 1.
    destruct (sgx_reclaim_epc_pages H E SGX_NR_TO_SCAN false 0 _) as [n w4].
    reflexivity.
  - reflexivity.
Qed.

(** While [sgx_should_reclaim(SGX_NR_HIGH_PAGES)] is false the wait of
    [ksgxswapd] ends only on a non-zero answer of [kthread_should_stop];
    until then it asks and sleeps in turn. *)
Lemma ksgxswapd_wait_idle (H : headers) (E : externals) (fuel : nat) :
  forall w,
    sgx_should_reclaim H E (SGX_NR_HIGH_PAGES H) (k w) = false ->
    let r := ksgxswapd_wait H E fuel w in
    k (snd r) = k w /\
    exists evs,
      trace (snd r) = trace w ++ evs /\
      (forall ev, In ev evs -> is_idle_call ev = true) /\
      (fst r = true ->
       exists pre s, evs = pre ++ [(kthread_should_stop, s)] /\ s <> 0).
Proof.
  induction fuel as [| fuel IH]; intros w Hidle r; subst r;
    rewrite ksgxswapd_wait_eq, ksgxswapd_wait_condition_eq; cbv zeta;
    cbn [fst snd k trace]; rewrite Hidle, orb_false_r;
    set (stop := env E (trace w) kthread_should_stop);
    destruct (truthy stop) eqn:Hstop; cbn [fst snd k trace].
  - split; [ reflexivity | ]. exists [(kthread_should_stop, stop)].
    split; [ reflexivity | ].
    split; [ intros ev [<- | []]; reflexivity | ].
    intros _. exists [], stop. split; [ reflexivity | ].
    apply truthy_true. exact Hstop.
  - split; [ reflexivity | ]. exists [(kthread_should_stop, stop)].
    split; [ reflexivity | ].
    split; [ intros ev [<- | []]; reflexivity | discriminate ].
  - split; [ reflexivity | ]. exists [(kthread_should_stop, stop)].
    split; [ reflexivity | ].
    split; [ intros ev [<- | []]; reflexivity | ].
    intros _. exists [], stop. split; [ reflexivity | ].
    apply truthy_true. exact Hstop.
  - destruct (IH (mk_world (k w)
                    ((trace w ++ [(kthread_should_stop, stop)]) ++
                     [(wait_event_freezable, 0)])) Hidle)
      as (Ik & evs & It & Ii & Ir).
    split; [ exact Ik | ].
    exists ((kthread_should_stop, stop) :: (wait_event_freezable, 0) :: evs).
    split.
    { rewrite It. cbn [trace]. rewrite <- !app_assoc. reflexivity. }
    split.
    { intros ev [<- | [<- | Hin]]; try reflexivity. apply Ii. exact Hin. }
    intros Ht. destruct (Ir Ht) as (pre & s & He & Hne).
    exists ((kthread_should_stop, stop) :: (wait_event_freezable, 0) :: pre),
           s.
    split; [ rewrite He; reflexivity | exact Hne ].
Qed.

(** X24.  While [sgx_should_reclaim(SGX_NR_HIGH_PAGES)] is false, the loop
    of [ksgxswapd] reclaims nothing: it changes no kernel data and only
    asks whether to stop, tries to freeze and waits.  It returns, with
    [0], only after [kthread_should_stop] has answered that it should. *)
Theorem ksgxswapd_loop_idle
        (H : headers) (E : externals) (fuel : nat) (w : world) :
  sgx_should_reclaim H E (SGX_NR_HIGH_PAGES H) (k w) = false ->
  let r := ksgxswapd_loop H E fuel w in
  k (snd r) = k w /\
  exists evs,
    trace (snd r) = trace w ++ evs /\
    (forall ev, In ev evs -> is_idle_call ev = true) /\
    (fst r = None \/
     fst r = Some 0 /\
     exists pre s, evs = pre ++ [(kthread_should_stop, s)] /\ s <> 0).
Proof.
  revert w. induction fuel as [| fuel IH]; intros w Hidle r; subst r.
  - cbn [ksgxswapd_loop ret fst snd]. split; [ reflexivity | ].
    exists []. rewrite app_nil_r. split; [ reflexivity | ].
    split; [ intros ev [] | left; reflexivity ].
  - rewrite ksgxswapd_loop_S. cbv zeta.
    set (stop := env E (trace w) kthread_should_stop).
    set (t1 := trace w ++ [(kthread_should_stop, stop)]).
    destruct (truthy stop) eqn:Hstop.
    + cbn [fst snd k trace]. split; [ reflexivity | ].
      exists [(kthread_should_stop, stop)].
      split; [ reflexivity | ].
      split; [ intros ev [<- | []]; reflexivity | ].
      right. split; [ reflexivity | ].
      exists [], stop. split; [ reflexivity | ].
      apply truthy_true. exact Hstop.
    + set (fz := env E t1 try_to_freeze).
      set (t2 := t1 ++ [(try_to_freeze, fz)]).
      destruct (truthy fz).
      * destruct (IH (mk_world (k w) t2) Hidle) as (Ik & evs & It & Ii & Ir).
        split; [ exact Ik | ].
        exists ((kthread_should_stop, stop) :: (try_to_freeze, fz) :: evs).
        split.
        { rewrite It. cbn [trace]. subst t2 t1. rewrite <- !app_assoc.
          reflexivity. }
        split.
        { intros ev [<- | [<- | Hin]]; try reflexivity. apply Ii. exact Hin. }
        destruct Ir as [Hn | (Hs & pre & s & He & Hne)].
        -- left. exact Hn.
        -- right. split; [ exact Hs | ].
           exists ((kthread_should_stop, stop) :: (try_to_freeze, fz) :: pre),
                  s.
           split; [ rewrite He; reflexivity | exact Hne ].
      * destruct (ksgxswapd_wait_idle H E fuel (mk_world (k w) t2) Hidle)
          as (Wk & wevs & Wt & Wi & _).
        cbn [k trace] in Wk, Wt.
        set (wt := ksgxswapd_wait H E fuel (mk_world (k w) t2)) in *.
        assert (Hpre : forall ev,
                   In ev ((kthread_should_stop, stop) ::
                          (try_to_freeze, fz) :: wevs) ->
                   is_idle_call ev = true).
        { intros ev [<- | [<- | Hin]]; try reflexivity. apply Wi. exact Hin. }
        assert (Htr : trace (snd wt) =
                      trace w ++ (kthread_should_stop, stop) ::
                                 (try_to_freeze, fz) :: wevs).
        { rewrite Wt. subst t2 t1. rewrite <- !app_assoc. reflexivity. }
        destruct (fst wt).
        -- rewrite Wk, Hidle.
           assert (Hidle' : sgx_should_reclaim H E (SGX_NR_HIGH_PAGES H)
                                               (k (snd wt)) = false)
             by (rewrite Wk; exact Hidle).
           destruct (IH (snd wt) Hidle') as (Ik & evs & It & Ii & Ir).
           split; [ rewrite Ik; exact Wk | ].
           exists (((kthread_should_stop, stop) :: (try_to_freeze, fz) ::
                    wevs) ++ evs).
           split.
           { rewrite It, Htr. rewrite <- app_assoc. reflexivity. }
           split.
           { intros ev Hin. apply in_app_or in Hin.
             destruct Hin as [Hin | Hin];
               [ apply Hpre; exact Hin | apply Ii; exact Hin ]. }
           destruct Ir as [Hn | (Hs & pre & s & He & Hne)].
           ++ left. exact Hn.
           ++ right. split; [ exact Hs | ].
              exists (((kthread_should_stop, stop) :: (try_to_freeze, fz) ::
                       wevs) ++ pre), s.
              split; [ rewrite He, <- app_assoc; reflexivity | exact Hne ].
        -- cbn [fst snd]. split; [ exact Wk | ].
           exists ((kthread_should_stop, stop) :: (try_to_freeze, fz) ::
                   wevs).
           split; [ exact Htr | ].
           split; [ exact Hpre | left; reflexivity ].
Qed.

(** The theorem on the swap thread of a machine with nothing to reclaim:
    the thread finds no reason to stop, does not freeze, sleeps twice in
    its wait and leaves it, and the loop, when it is told to stop. *)
Lemma ksgxswapd_loop_idle_witness :
  let r := ksgxswapd_loop (hdr false) (ext env_stop_at_fourth) 3 world0 in
  fst r = Some 0 /\
  trace (snd r) =
  [(kthread_should_stop, 0); (try_to_freeze, 0); (kthread_should_stop, 0);
   (wait_event_freezable, 0); (kthread_should_stop, 0);
   (wait_event_freezable, 0); (kthread_should_stop, 1);
   (kthread_should_stop, 1)] /\
  k (snd r) = k world0 /\
  exists evs,
    trace (snd r) = trace world0 ++ evs /\
    (forall ev, In ev evs -> is_idle_call ev = true) /\
    (fst r = None \/
     fst r = Some 0 /\
     exists pre s, evs = pre ++ [(kthread_should_stop, s)] /\ s <> 0).
Proof.
  split; [ reflexivity | ]. split; [ reflexivity | ].
  apply (ksgxswapd_loop_idle (hdr false) (ext env_stop_at_fourth) 3 world0).
  reflexivity.
Defined.

(** ** Allocation when a page is free *)

Section AllocHit.

Variable H : headers.
Variable E : externals.

Lemma alloc_loop_S_hit (fuel o : nat) (reclaim : bool) (i p : nat)
      (rest : list nat) (w : world) :
  (i < sgx_nr_epc_sections (k w))%nat ->
  (forall j, (j < i)%nat -> page_list (sgx_epc_sections (k w) j) = []) ->
  page_list (sgx_epc_sections (k w) i) = p :: rest ->
  alloc_loop H E (S fuel) o reclaim w =
  (Some (Ptr p),
   mk_world
     (set_owner p o
        (set_section i
           (mk_section (pa (sgx_epc_sections (k w) i))
                       (va (sgx_epc_sections (k w) i)) rest
                       (unsanitized_page_list (sgx_epc_sections (k w) i))
                       (wrap64 (free_cnt (sgx_epc_sections (k w) i) - 1)))
           (k w)))
     (trace w)).
Proof.
  intros Hi Hbefore Hhead. cbn [alloc_loop]. unfold bind at 1.
  rewrite (__sgx_alloc_epc_page_hit i p rest w Hi Hbefore Hhead).
  reflexivity.
Qed.

End AllocHit.

(** ** Allocation after a miss *)

Section AllocRetry.

Variable H : headers.
Variable E : externals.



End AllocRetry.


(** X25.  [sgx_alloc_epc_page] with a free page at hand: once the charge is
    granted (or without charge groups), if the sections below [i] have no
    free page and section [i] has one, the call returns the first free page
    of section [i] without a signal check and without reclaiming.  The page
    has the given owner and, with charge groups, the charged group; the
    only call that may follow is the wake-up of [ksgxswapd]. *)
Theorem sgx_alloc_epc_page_takes_free_page
        (H : headers) (E : externals) (fuel o : nat) (reclaim : bool)
        (i p : nat) (rest : list nat) (w : world) :
  let cw := if CONFIG_CGROUP_SGX_EPC H
            then sgx_epc_cgroup_try_charge E reclaim w else (0, w) in
  0 <= fst cw ->
  (i < sgx_nr_epc_sections (k (snd cw)))%nat ->
  (forall j, (j < i)%nat ->
             page_list (sgx_epc_sections (k (snd cw)) j) = []) ->
  page_list (sgx_epc_sections (k (snd cw)) i) = p :: rest ->
  let x := sgx_epc_sections (k (snd cw)) i in
  let r := sgx_alloc_epc_page H E (S fuel) o reclaim w in
  fst r = Some (Ptr p) /\
  owner (pages (k (snd r)) p) = o /\
  epc_cg (pages (k (snd r)) p) =
  (if CONFIG_CGROUP_SGX_EPC H then Z.to_nat (fst cw)
   else epc_cg (pages (k (snd cw)) p)) /\
  sgx_epc_sections (k (snd r)) i =
  mk_section (pa x) (va x) rest (unsanitized_page_list x)
             (wrap64 (free_cnt x - 1)) /\
  (trace (snd r) = trace (snd cw) \/
   trace (snd r) = trace (snd cw) ++ [(wake_up, 0)]).
Proof.
  intros cw Hcg Hi Hbefore Hhead x r. subst x r.
  assert (Heq : sgx_alloc_epc_page H E (S fuel) o reclaim w =
                alloc_charged H E (S fuel) o reclaim (Z.to_nat (fst cw))
                              (snd cw)).
  { unfold sgx_alloc_epc_page. subst cw.
    destruct (CONFIG_CGROUP_SGX_EPC H).
    - destruct (sgx_epc_cgroup_try_charge E reclaim w) as [cg w1].
      cbn [fst snd] in *.
      assert (Hlt : (cg <? 0) = false) by (apply Z.ltb_ge; exact Hcg).
      rewrite Hlt. reflexivity.
    - reflexivity. }
  rewrite Heq, alloc_charged_eq.
  rewrite (alloc_loop_S_hit H E fuel o reclaim i p rest (snd cw)
                            Hi Hbefore Hhead).
  cbn [fst snd]. unfold alloc_post. cbv zeta.
  set (s1 := set_owner p o _).
  destruct (CONFIG_CGROUP_SGX_EPC H); cbn [k trace].
  - destruct (sgx_should_reclaim H E (SGX_NR_LOW_PAGES H)
                                 (set_epc_cg p (Z.to_nat (fst cw)) s1));
      cbn [k trace].
    + split; [ reflexivity | ].
      split; [ subst s1; cbn; unfold upd; rewrite !Nat.eqb_refl;
               reflexivity | ].
      split; [ cbn; unfold upd; rewrite Nat.eqb_refl; reflexivity | ].
      split; [ subst s1; cbn; unfold upd; rewrite Nat.eqb_refl;
               reflexivity | ].
      right. reflexivity.
    + split; [ reflexivity | ].
      split; [ subst s1; cbn; unfold upd; rewrite !Nat.eqb_refl;
               reflexivity | ].
      split; [ cbn; unfold upd; rewrite Nat.eqb_refl; reflexivity | ].
      split; [ subst s1; cbn; unfold upd; rewrite Nat.eqb_refl;
               reflexivity | ].
      left. reflexivity.
  - destruct (sgx_should_reclaim H E (SGX_NR_LOW_PAGES H) s1);
      cbn [k trace].
    + split; [ reflexivity | ].
      split; [ subst s1; cbn; unfold upd; rewrite !Nat.eqb_refl;
               reflexivity | ].
      split; [ subst s1; cbn; unfold upd; rewrite Nat.eqb_refl;
               reflexivity | ].
      split; [ subst s1; cbn; unfold upd; rewrite Nat.eqb_refl;
               reflexivity | ].
      right. reflexivity.
    + split; [ reflexivity | ].
      split; [ subst s1; cbn; unfold upd; rewrite !Nat.eqb_refl;
               reflexivity | ].
      split; [ subst s1; cbn; unfold upd; rewrite Nat.eqb_refl;
               reflexivity | ].
      split; [ subst s1; cbn; unfold upd; rewrite Nat.eqb_refl;
               reflexivity | ].
      left. reflexivity.
Qed.

(** The theorem with charge groups, on two sections of which the first is
    exhausted. *)
Lemma sgx_alloc_epc_page_takes_free_page_witness :
  let cw := if CONFIG_CGROUP_SGX_EPC (hdr true)
            then sgx_epc_cgroup_try_charge ext_charge true w_second_section
            else (0, w_second_section) in
  let x := sgx_epc_sections (k (snd cw)) 1 in
  let r := sgx_alloc_epc_page (hdr true) ext_charge 1 6 true
                              w_second_section in
  fst r = Some (Ptr 7) /\
  owner (pages (k (snd r)) 7) = 6%nat /\
  epc_cg (pages (k (snd r)) 7) =
  (if CONFIG_CGROUP_SGX_EPC (hdr true) then Z.to_nat (fst cw)
   else epc_cg (pages (k (snd cw)) 7)) /\
  sgx_epc_sections (k (snd r)) 1 =
  mk_section (pa x) (va x) [8%nat] (unsanitized_page_list x)
             (wrap64 (free_cnt x - 1)) /\
  (trace (snd r) = trace (snd cw) \/
   trace (snd r) = trace (snd cw) ++ [(wake_up, 0)]).
Proof.
  apply (sgx_alloc_epc_page_takes_free_page (hdr true) ext_charge O 6 true
                                            1 7 [8%nat] w_second_section).
  - cbn. lia.
  - cbn. lia.
  - intros j Hj. assert (Hz : j = O) by lia. subst j. reflexivity.
  - reflexivity.
Defined.

(** X26.  The charge of an allocation, with charge groups configured.  A
    refused charge is returned as the error, and nothing else happens.  A
    granted charge is never lost: when the call ends with an error the
    group is uncharged, as the last call before the possible wake-up of
    [ksgxswapd], and when it ends with a page the page carries the group
    and the owner. *)
Theorem sgx_alloc_epc_page_settles_charge
        (H : headers) (E : externals) (fuel o : nat) (reclaim : bool)
        (w : world) :
  CONFIG_CGROUP_SGX_EPC H = true ->
  let cw := sgx_epc_cgroup_try_charge E reclaim w in
  let cg := Z.to_nat (fst cw) in
  let r := sgx_alloc_epc_page H E fuel o reclaim w in
  (fst cw < 0 -> r = (Some (Err (fst cw)), snd cw)) /\
  (0 <= fst cw ->
   forall e, fst r = Some (Err e) ->
     exists pre,
       trace (snd r) = pre ++ [(sgx_epc_cgroup_uncharge cg false, 0)] \/
       trace (snd r) =
       pre ++ [(sgx_epc_cgroup_uncharge cg false, 0); (wake_up, 0)]) /\
  (0 <= fst cw ->
   forall p, fst r = Some (Ptr p) ->
     epc_cg (pages (k (snd r)) p) = cg /\ owner (pages (k (snd r)) p) = o).
Proof.
  intros Hcfg cw cg r. subst r cg.
  unfold sgx_alloc_epc_page. rewrite Hcfg. fold cw.
  destruct cw as [c w1] eqn:Hcw. cbn [fst snd].
  split.
  { intros Hneg. assert (Hlt : (c <? 0) = true) by (apply Z.ltb_lt; exact Hneg).
    rewrite Hlt. reflexivity. }
  assert (Hpos : 0 <= c ->
                 (if c <? 0 then (Some (Err c), w1)
                  else alloc_charged H E fuel o reclaim (Z.to_nat c) w1) =
                 alloc_charged H E fuel o reclaim (Z.to_nat c) w1).
  { intros Hc. assert (Hlt : (c <? 0) = false) by (apply Z.ltb_ge; exact Hc).
    rewrite Hlt. reflexivity. }
  split.
  - intros Hc e. rewrite (Hpos Hc), alloc_charged_eq.
    destruct (fst (alloc_loop H E fuel o reclaim w1)) as [entry |] eqn:Hl;
      cbn [fst snd]; [ | intros Hx; discriminate ].
    intros Hx. inversion Hx; subst entry.
    unfold alloc_post. rewrite Hcfg. cbn [k trace].
    exists (trace (snd (alloc_loop H E fuel o reclaim w1))).
    destruct (sgx_should_reclaim H E (SGX_NR_LOW_PAGES H) _); cbn [trace].
    + right. rewrite <- app_assoc. reflexivity.
    + left. reflexivity.
  - intros Hc p. rewrite (Hpos Hc), alloc_charged_eq.
    pose proof (alloc_loop_outcome H E o reclaim fuel w1) as Hout.
    destruct (fst (alloc_loop H E fuel o reclaim w1)) as [entry |] eqn:Hl;
      cbn [fst snd]; [ | intros Hx; discriminate ].
    intros Hx. inversion Hx; subst entry.
    specialize (Hout (Ptr p) eq_refl).
    destruct Hout as [(p' & Hp' & Hown) | [Hx' | [Hx' | Hx']]];
      try discriminate.
    inversion Hp'; subst p'.
    unfold alloc_post. rewrite Hcfg. cbn [k trace].
    destruct (sgx_should_reclaim H E (SGX_NR_LOW_PAGES H) _); cbn [k];
      (split; [ cbn; unfold upd; rewrite Nat.eqb_refl; reflexivity
              | cbn; unfold upd; rewrite Nat.eqb_refl; exact Hown ]).
Qed.

(** The theorem on an allocation that is charged to group 3 and finds
    neither a free page nor a page to reclaim. *)
Lemma sgx_alloc_epc_page_settles_charge_witness :
  let cw := sgx_epc_cgroup_try_charge ext_charge true world0 in
  let cg := Z.to_nat (fst cw) in
  let r := sgx_alloc_epc_page (hdr true) ext_charge 1 6 true world0 in
  (fst cw < 0 -> r = (Some (Err (fst cw)), snd cw)) /\
  (0 <= fst cw ->
   forall e, fst r = Some (Err e) ->
     exists pre,
       trace (snd r) = pre ++ [(sgx_epc_cgroup_uncharge cg false, 0)] \/
       trace (snd r) =
       pre ++ [(sgx_epc_cgroup_uncharge cg false, 0); (wake_up, 0)]) /\
  (0 <= fst cw ->
   forall p, fst r = Some (Ptr p) ->
     epc_cg (pages (k (snd r)) p) = cg /\ owner (pages (k (snd r)) p) = 6%nat).
Proof.
  apply (sgx_alloc_epc_page_settles_charge (hdr true) ext_charge 1 6 true
                                           world0).
  reflexivity.
Defined.

(** On that machine the allocation fails with [-ENOMEM] and the group is
    uncharged. *)
Example run_allocation_uncharged :
  sgx_alloc_epc_page (hdr true) ext_charge 1 6 true world0 =
  (Some (Err (- ENOMEM)),
   mk_world kstate0 [(sgx_epc_cgroup_uncharge 3 false, 0)]).
Proof.
  reflexivity.
Qed.

(** ** The descriptors of the pages of a section *)

Section Descriptors.

Variable E : externals.

Lemma setup_loop_descs (addr index : Z) (section : nat) (todo : nat) :
  forall (i : Z) (w : world),
    let r := setup_loop E todo i addr index section w in
    fst r = true ->
    exists new,
      unsanitized_page_list (sgx_epc_sections (k (snd r)) section) =
      unsanitized_page_list (sgx_epc_sections (k w) section) ++ new /\
      length new = todo /\
      (forall q, ~ In q new -> pages (k (snd r)) q = pages (k w) q) /\
      (NoDup new ->
       forall j, (j < todo)%nat ->
         pages (k (snd r)) (nth j new O) =
         mk_epc_page
           (Z.lor (wrap64 (addr + wrap64 (Z.shiftl (i + Z.of_nat j)
                                                   PAGE_SHIFT)))
                  index) O O).
Proof.
  induction todo as [| todo IH]; intros i w r Hok; subst r.
  - exists []. cbn [setup_loop ret snd]. rewrite app_nil_r.
    split; [ reflexivity | ]. split; [ reflexivity | ].
    split; [ reflexivity | ]. intros _ j Hj. lia.
  - rewrite setup_loop_S in *. cbv zeta in *.
    destruct (env E (trace w) kzalloc =? 0) eqn:Hz.
    { cbn in Hok. discriminate. }
    set (p0 := Z.to_nat (env E (trace w) kzalloc)) in *.
    set (w1 := mk_world _ _) in *.
    destruct (IH (i + 1) w1 Hok) as (new & N1 & N2 & N3 & N4).
    assert (Hu1 : unsanitized_page_list (sgx_epc_sections (k w1) section) =
                  unsanitized_page_list (sgx_epc_sections (k w) section) ++
                  [p0]).
    { subst w1. cbn [k]. unfold section_add_unsanitized.
      rewrite sections_set_section_same. reflexivity. }
    assert (Hp1 : pages (k w1) p0 =
                  mk_epc_page
                    (Z.lor (wrap64 (addr + wrap64 (Z.shiftl i PAGE_SHIFT)))
                           index) O O).
    { subst w1. cbn. unfold upd. rewrite Nat.eqb_refl. reflexivity. }
    assert (Hp1' : forall q, q <> p0 -> pages (k w1) q = pages (k w) q).
    { intros q Hq. subst w1. cbn. unfold upd.
      apply Nat.eqb_neq in Hq. rewrite Hq. reflexivity. }
    exists (p0 :: new).
    split; [ rewrite N1, Hu1, <- app_assoc; reflexivity | ].
    split; [ cbn [length]; rewrite N2; reflexivity | ].
    split.
    { intros q Hq. rewrite N3.
      - apply Hp1'. intros ->. apply Hq. left. reflexivity.
      - intros Hin. apply Hq. right. exact Hin. }
    intros Hnd j Hj. inversion Hnd as [| p0' new' Hni Hnd' ]; subst.
    destruct j as [| j].
    + cbn [nth]. rewrite N3 by exact Hni. rewrite Hp1.
      rewrite Z.add_0_r. reflexivity.
    + cbn [nth]. rewrite (N4 Hnd' j) by lia.
      replace (i + 1 + Z.of_nat j) with (i + Z.of_nat (S j)) by lia.
      reflexivity.
Qed.

End Descriptors.

(** X27.  The descriptors that [sgx_setup_epc_section] writes: when it
    succeeds and [kzalloc] handed out distinct page structures, the page
    at position [j] of the unsanitized list has the descriptor
    [(addr + (j << PAGE_SHIFT)) | index], no owner and no charge group, and
    the pages that are not on the list are as before. *)
Theorem sgx_setup_epc_section_descriptors
        (E : externals) (addr sz index : Z) (section : nat) (w : world) :
  let r := sgx_setup_epc_section E addr sz index section w in
  let l := unsanitized_page_list (sgx_epc_sections (k (snd r)) section) in
  fst r = true ->
  NoDup l ->
  (forall j, (j < length l)%nat ->
     pages (k (snd r)) (nth j l O) =
     mk_epc_page
       (Z.lor (wrap64 (addr + wrap64 (Z.shiftl (Z.of_nat j) PAGE_SHIFT)))
              index) O O) /\
  (forall q, ~ In q l -> pages (k (snd r)) q = pages (k w) q).
Proof.
  cbv zeta. rewrite sgx_setup_epc_section_eq. cbv zeta.
  destruct (env E (trace w) (memremap addr sz) =? 0).
  { cbn [fst]. intros Hx. discriminate. }
  set (w1 := mk_world _ _).
  pose proof (setup_loop_descs E addr index section
                (Z.to_nat (Z.shiftr sz PAGE_SHIFT)) 0 w1) as Hd.
  cbv zeta in Hd.
  destruct (fst (setup_loop E _ 0 addr index section w1)).
  2: { cbn [fst]. intros Hx. discriminate. }
  destruct (Hd eq_refl) as (new & N1 & N2 & N3 & N4).
  assert (Hu1 : unsanitized_page_list (sgx_epc_sections (k w1) section) = []).
  { subst w1. cbn [k]. rewrite sections_set_section_same. reflexivity. }
  rewrite Hu1 in N1. cbn [app] in N1.
  cbn [fst snd k]. rewrite sections_set_section_same.
  cbn [unsanitized_page_list]. rewrite N1.
  intros _ Hnd. split.
  - intros j Hj. rewrite N2 in Hj. apply (N4 Hnd j Hj).
  - intros q Hq. cbn [set_section set_sections pages].
    rewrite N3 by exact Hq. reflexivity.
Qed.

(** The theorem on the section of two pages at [0x100000]. *)
Lemma sgx_setup_epc_section_descriptors_witness :
  let r := sgx_setup_epc_section (ext env_boot) 1048576 8192 0 O world0 in
  let l := unsanitized_page_list (sgx_epc_sections (k (snd r)) O) in
  (forall j, (j < length l)%nat ->
     pages (k (snd r)) (nth j l O) =
     mk_epc_page
       (Z.lor (wrap64 (1048576 + wrap64 (Z.shiftl (Z.of_nat j) PAGE_SHIFT)))
              0) O O) /\
  (forall q, ~ In q l -> pages (k (snd r)) q = pages (k world0) q).
Proof.
  apply (sgx_setup_epc_section_descriptors (ext env_boot) 1048576 8192 0 O
                                           world0).
  - reflexivity.
  - vm_compute. constructor; [ | constructor; [ | constructor ] ].
    + intros [Hx | []]. discriminate.
    + intros [].
Defined.

(** ** Start-up *)

Lemma sgx_page_cache_teardown_lists (w : world) :
  let w' := snd (sgx_page_cache_teardown w) in
  sgx_nr_epc_sections (k w') = sgx_nr_epc_sections (k w) /\
  forall i, (i < sgx_nr_epc_sections (k w))%nat ->
            page_list (sgx_epc_sections (k w') i) = [] /\
            unsanitized_page_list (sgx_epc_sections (k w') i) = [].
Proof.
  cbv zeta. unfold sgx_page_cache_teardown. rewrite bind_eq.
  unfold get at 1 2. cbn [fst snd].
  destruct (free_sections_spec (seq 0 (sgx_nr_epc_sections (k w))) w
                               (seq_NoDup _ _)) as (_ & F2 & _ & F4).
  split; [ exact F4 | ].
  intros i Hi. rewrite F2 by (apply in_seq; lia). split; reflexivity.
Qed.

Section Init.

Variable E : externals.
Variable P : platform.
Variable B : boot_answers.

Lemma sgx_init_eq (w : world) :
  sgx_init E P B w =
  if negb (boot_cpu_has_sgx B) then ([], w)
  else
    let ri := sgx_page_cache_init E P w in
    if negb (fst ri) then ([], snd ri)
    else if kthread_run_is_err B
    then ([kthread_run], snd (sgx_page_cache_teardown (snd ri)))
    else
      let wl := mk_world (set_global_lru (mk_lru [] []) (k (snd ri)))
                         (trace (snd ri)) in
      if truthy (misc_register_ret B)
      then ([kthread_run; misc_register; kthread_stop],
            snd (sgx_page_cache_teardown wl))
      else if truthy (if truthy (sgx_virt_epc_init_ret B)
                      then sgx_drv_init_ret B else 0)
      then ([kthread_run; misc_register; sgx_drv_init; sgx_virt_epc_init;
             misc_deregister; kthread_stop],
            snd (sgx_page_cache_teardown wl))
      else ([kthread_run; misc_register; sgx_drv_init; sgx_virt_epc_init],
            wl).
Proof.
  unfold sgx_init.
  destruct (negb (boot_cpu_has_sgx B)); [ reflexivity | ].
  unfold bind at 1. cbv zeta.
  destruct (sgx_page_cache_init E P w) as [[|] wi]; cbn [fst snd negb];
    [ | reflexivity ].
  unfold sgx_page_reclaimer_init, err_provision, err_kthread, err_page_cache.
  destruct (kthread_run_is_err B).
  - unfold bind, ret. cbn [negb].
    destruct (sgx_page_cache_teardown wi). reflexivity.
  - unfold bind, ret, modify. cbn [negb k trace].
    destruct (truthy (misc_register_ret B)).
    + destruct (sgx_page_cache_teardown _). reflexivity.
    + destruct (truthy (if truthy (sgx_virt_epc_init_ret B)
                        then sgx_drv_init_ret B else 0)).
      * destruct (sgx_page_cache_teardown _). reflexivity.
      * reflexivity.
Qed.

End Init.

(** X28.  [sgx_init] unwinds what it has set up.  Without SGX it does
    nothing.  Once the page cache is built, the subsystem stays up exactly
    when the swap thread starts, the provision device registers, and the
    native or the virtual driver initializes: then the sections are kept
    and the global LRU is empty.  Otherwise the provision device is
    deregistered if it was registered, the thread is stopped if it was
    started, in this order, and every section is left with empty
    lists. *)
Theorem sgx_init_unwinds
        (E : externals) (P : platform) (B : boot_answers) (w : world) :
  let r := sgx_init E P B w in
  let ri := sgx_page_cache_init E P w in
  let up := negb (kthread_run_is_err B) &&
            (misc_register_ret B =? 0) &&
            ((sgx_drv_init_ret B =? 0) || (sgx_virt_epc_init_ret B =? 0)) in
  (boot_cpu_has_sgx B = false -> r = ([], w)) /\
  (boot_cpu_has_sgx B = true -> fst ri = false -> r = ([], snd ri)) /\
  (boot_cpu_has_sgx B = true -> fst ri = true -> up = true ->
   fst r = [kthread_run; misc_register; sgx_drv_init; sgx_virt_epc_init] /\
   sgx_epc_sections (k (snd r)) = sgx_epc_sections (k (snd ri)) /\
   sgx_nr_epc_sections (k (snd r)) = sgx_nr_epc_sections (k (snd ri)) /\
   sgx_global_lru (k (snd r)) = mk_lru [] []) /\
  (boot_cpu_has_sgx B = true -> fst ri = true -> up = false ->
   fst r =
   [kthread_run] ++
   (if kthread_run_is_err B then []
    else [misc_register] ++
         (if misc_register_ret B =? 0
          then [sgx_drv_init; sgx_virt_epc_init; misc_deregister]
          else []) ++
         [kthread_stop]) /\
   forall i, (i < sgx_nr_epc_sections (k (snd r)))%nat ->
             page_list (sgx_epc_sections (k (snd r)) i) = [] /\
             unsanitized_page_list (sgx_epc_sections (k (snd r)) i) = []).
Proof.
  cbv zeta. rewrite sgx_init_eq. cbv zeta.
  split.
  { intros Hb. rewrite Hb. reflexivity. }
  split.
  { intros Hb Hi. rewrite Hb, Hi. reflexivity. }
  split.
  { intros Hb Hi Hup. rewrite Hb, Hi. cbn [negb].
    apply andb_prop in Hup. destruct Hup as [Hup Hdrv].
    apply andb_prop in Hup. destruct Hup as [Hk Hm].
    destruct (kthread_run_is_err B); [ discriminate | ].
    apply Z.eqb_eq in Hm. rewrite Hm. cbn [truthy Z.eqb negb].
    assert (Hr : truthy (if truthy (sgx_virt_epc_init_ret B)
                         then sgx_drv_init_ret B else 0) = false).
    { apply orb_prop in Hdrv. destruct Hdrv as [Hd | Hv].
      - apply Z.eqb_eq in Hd. rewrite Hd.
        destruct (truthy (sgx_virt_epc_init_ret B)); reflexivity.
      - apply Z.eqb_eq in Hv. rewrite Hv. reflexivity. }
    rewrite Hr. cbn [fst snd k].
    split; [ reflexivity | ]. split; [ reflexivity | ].
    split; reflexivity. }
  intros Hb Hi Hup. rewrite Hb, Hi. cbn [negb].
  destruct (kthread_run_is_err B) eqn:Hk.
  - cbn [fst snd app].
    destruct (sgx_page_cache_teardown_lists
                (snd (sgx_page_cache_init E P w))) as (T1 & T2).
    split; [ reflexivity | ].
    intros i Hlt. apply T2. rewrite <- T1. exact Hlt.
  - cbn [negb andb] in Hup.
    set (wl := mk_world _ _).
    destruct (sgx_page_cache_teardown_lists wl) as (T1 & T2).
    destruct (misc_register_ret B =? 0) eqn:Hm.
    + apply Z.eqb_eq in Hm. rewrite Hm in *. cbn [truthy Z.eqb negb andb] in *.
      assert (Hr : truthy (if truthy (sgx_virt_epc_init_ret B)
                           then sgx_drv_init_ret B else 0) = true).
      { apply orb_false_elim in Hup. destruct Hup as [Hd Hv].
        unfold truthy. rewrite Hv. cbn [negb]. rewrite Hd. reflexivity. }
      rewrite Hr. cbn [fst snd app].
      split; [ reflexivity | ].
      intros i Hlt. apply T2. rewrite <- T1. exact Hlt.
    + assert (Ht : truthy (misc_register_ret B) = true)
        by (unfold truthy; rewrite Hm; reflexivity).
      rewrite Ht. cbn [fst snd app].
      split; [ reflexivity | ].
      intros i Hlt. apply T2. rewrite <- T1. exact Hlt.
Qed.

(** ** Counting the free pages *)

Lemma nr_free_pages_fold (s : kstate) (l : list nat) :
  forall acc,
    (forall i, In i l ->
               free_cnt (sgx_epc_sections s i) =
               Z.of_nat (length (page_list (sgx_epc_sections s i)))) ->
    0 <= acc ->
    acc + Z.of_nat (length (flat_map
                              (fun i => page_list (sgx_epc_sections s i)) l))
    < 2 ^ 64 ->
    fold_left (fun cnt i => wrap64 (cnt + free_cnt (sgx_epc_sections s i)))
              l acc =
    acc + Z.of_nat (length (flat_map
                              (fun i => page_list (sgx_epc_sections s i)) l)).
Proof.
  induction l as [| i l IH]; intros acc Hcnt Hacc Hlt.
  - cbn. lia.
  - cbn [fold_left flat_map] in *. rewrite length_app in *.
    rewrite (Hcnt i) by (left; reflexivity).
    rewrite wrap64_small by lia.
    rewrite IH.
    + lia.
    + intros j Hj. apply Hcnt. right. exact Hj.
    + lia.
    + lia.
Qed.

(** X29.  When the free counter of every section is the length of its free
    list and the machine has fewer than [2 ^ 64] free pages,
    [sgx_nr_free_pages] is the number of pages on the free lists of the
    sections below [sgx_nr_epc_sections], and [sgx_should_reclaim] holds
    exactly when that number is below the watermark and something can be
    reclaimed. *)
Theorem sgx_nr_free_pages_counts
        (H : headers) (E : externals) (watermark : Z) (s : kstate) :
  let free := flat_map (fun i => page_list (sgx_epc_sections s i))
                       (seq 0 (sgx_nr_epc_sections s)) in
  (forall i, (i < sgx_nr_epc_sections s)%nat ->
             free_cnt (sgx_epc_sections s i) =
             Z.of_nat (length (page_list (sgx_epc_sections s i)))) ->
  Z.of_nat (length free) < 2 ^ 64 ->
  sgx_nr_free_pages s = Z.of_nat (length free) /\
  sgx_should_reclaim H E watermark s =
  (Z.of_nat (length free) <? watermark) && sgx_can_reclaim H E s.
Proof.
  intros free Hcnt Hlt. subst free.
  assert (Hn : sgx_nr_free_pages s =
               Z.of_nat (length (flat_map
                                   (fun i => page_list (sgx_epc_sections s i))
                                   (seq 0 (sgx_nr_epc_sections s))))).
  { unfold sgx_nr_free_pages. rewrite nr_free_pages_fold.
    - lia.
    - intros i Hi. apply Hcnt. apply in_seq in Hi. lia.
    - lia.
    - lia. }
  split; [ exact Hn | ].
  unfold sgx_should_reclaim. rewrite Hn. reflexivity.
Qed.

(** The theorem on two sections with two free pages. *)
Lemma sgx_nr_free_pages_counts_witness :
  let free := flat_map
                (fun i => page_list (sgx_epc_sections (k w_second_section) i))
                (seq 0 (sgx_nr_epc_sections (k w_second_section))) in
  sgx_nr_free_pages (k w_second_section) = Z.of_nat (length free) /\
  sgx_should_reclaim (hdr false) (ext (env_const 0)) 32 (k w_second_section) =
  (Z.of_nat (length free) <? 32) &&
  sgx_can_reclaim (hdr false) (ext (env_const 0)) (k w_second_section).
Proof.
  apply (sgx_nr_free_pages_counts (hdr false) (ext (env_const 0)) 32
                                  (k w_second_section)).
  - intros i Hi. cbn in Hi.
    destruct i as [| [| i]]; [ reflexivity | reflexivity | lia ].
  - cbn. lia.
Defined.

(** ** Sanitization loses no page *)

Lemma sanitize_loop_conserves (E : externals) (i : nat) (ps : list nat) :
  forall (secs_list : list nat) (w : world),
    unsanitized_page_list (sgx_epc_sections (k w) i) = ps ->
    let r := sanitize_loop E i ps secs_list w in
    let x := sgx_epc_sections (k w) i in
    let x' := sgx_epc_sections (k (snd r)) i in
    (forall q, count_occ Nat.eq_dec
                 (page_list x' ++ unsanitized_page_list x' ++ fst r) q =
               count_occ Nat.eq_dec (page_list x ++ ps ++ secs_list) q) /\
    (exists visited, ps = visited ++ unsanitized_page_list x') /\
    (exists moved, page_list x' = moved ++ page_list x) /\
    (exists parked, fst r = secs_list ++ parked).
Proof.
  induction ps as [| page rest IH]; intros secs_list w Hps r x x';
    subst r x x'.
  - cbn [sanitize_loop ret fst snd]. rewrite Hps.
    split; [ reflexivity | ].
    split; [ exists []; reflexivity | ].
    split; [ exists []; reflexivity | ].
    exists []. rewrite app_nil_r. reflexivity.
  - rewrite sanitize_loop_cons. cbv zeta.
    destruct (truthy (env E (trace w) kthread_should_stop)).
    { cbn [fst snd k]. rewrite Hps.
      split; [ reflexivity | ].
      split; [ exists []; reflexivity | ].
      split; [ exists []; reflexivity | ].
      exists []. rewrite app_nil_r. reflexivity. }
    destruct (truthy (env E _ (eremove page))).
    + set (w1 := mk_world (section_pop_unsanitized i (k w)) _).
      assert (Hx1 : sgx_epc_sections (k w1) i =
                    mk_section (pa (sgx_epc_sections (k w) i))
                               (va (sgx_epc_sections (k w) i))
                               (page_list (sgx_epc_sections (k w) i))
                               rest
                               (free_cnt (sgx_epc_sections (k w) i))).
      { subst w1. cbn [k]. unfold section_pop_unsanitized.
        rewrite sections_set_section_same, Hps. reflexivity. }
      specialize (IH (secs_list ++ [page]) w1). cbv zeta in IH.
      rewrite Hx1 in IH. cbn [unsanitized_page_list page_list] in IH.
      destruct (IH eq_refl) as (I1 & (visited & I2) & I3 & (parked & I4)).
      split.
      { intros q. rewrite I1. rewrite !count_occ_app. cbn [count_occ].
        destruct (Nat.eq_dec page q); lia. }
      split; [ exists (page :: visited); rewrite I2 at 1; reflexivity | ].
      split; [ exact I3 | ].
      exists (page :: parked). rewrite I4, <- app_assoc. reflexivity.
    + set (w1 := mk_world (section_sanitized i page (k w)) _).
      assert (Hx1 : sgx_epc_sections (k w1) i =
                    mk_section (pa (sgx_epc_sections (k w) i))
                               (va (sgx_epc_sections (k w) i))
                               (page :: page_list (sgx_epc_sections (k w) i))
                               rest
                               (free_cnt (sgx_epc_sections (k w) i))).
      { subst w1. cbn [k]. unfold section_sanitized.
        rewrite sections_set_section_same, Hps. reflexivity. }
      specialize (IH secs_list w1). cbv zeta in IH.
      rewrite Hx1 in IH. cbn [unsanitized_page_list page_list] in IH.
      destruct (IH eq_refl) as (I1 & (visited & I2) & (moved & I3) & I4).
      split.
      { intros q. rewrite I1. rewrite !count_occ_app. cbn [count_occ].
        destruct (Nat.eq_dec page q); lia. }
      split; [ exists (page :: visited); rewrite I2 at 1; reflexivity | ].
      split; [ | exact I4 ].
      exists (moved ++ [page]). rewrite I3, <- app_assoc. reflexivity.
Qed.

(** X30.  Whatever [EREMOVE] and [kthread_should_stop] answer,
    [sgx_sanitize_section] loses no page while it runs: each page of the
    free list and of the unsanitized list of the section is afterwards, as
    often as before, on the free list, on the unsanitized list or on the
    local list of pages to retry.  What stays on the unsanitized list is
    the part of the list that was not visited, the free list grows at its
    head, and the free counter does not move. *)
Theorem sgx_sanitize_section_conserves
        (E : externals) (i : nat) (w : world) :
  let r := sgx_sanitize_section E i w in
  let x := sgx_epc_sections (k w) i in
  let x' := sgx_epc_sections (k (snd r)) i in
  (forall q, count_occ Nat.eq_dec
               (page_list x' ++ unsanitized_page_list x' ++ fst r) q =
             count_occ Nat.eq_dec
               (page_list x ++ unsanitized_page_list x) q) /\
  (exists visited,
     unsanitized_page_list x = visited ++ unsanitized_page_list x') /\
  (exists moved, page_list x' = moved ++ page_list x) /\
  free_cnt x' = free_cnt x.
Proof.
  cbv zeta. unfold sgx_sanitize_section, bind, get.
  destruct (sanitize_loop_conserves E i
              (unsanitized_page_list (sgx_epc_sections (k w) i)) [] w
              eq_refl) as (C1 & C2 & C3 & _).
  destruct (sanitize_loop_spec E i
              (unsanitized_page_list (sgx_epc_sections (k w) i)) [] w
              eq_refl) as (S1 & _).
  split.
  { intros q. rewrite C1, app_nil_r. reflexivity. }
  split; [ exact C2 | ]. split; [ exact C3 | exact S1 ].
Qed.

(** * The reclaim pass from its first call to its return *)

Section ReclaimPass.

Variable H : headers.
Variable E : externals.
Hypothesis no_cgroups : CONFIG_CGROUP_SGX_EPC H = false.





























End ReclaimPass.

(** ** The phases of the pass *)




















Lemma enclave_run_incl (H : headers) (s : kstate) (ps : list nat) :
  incl (enclave_run H s ps) ps.
Proof.
  induction ps as [| p ps IH]; cbn [enclave_run]; [ intros x [] | ].
  destruct (truthy _); [ | intros x [] ].
  intros x [<- | Hx]; [ left; reflexivity | right; apply IH; exact Hx ].
Qed.




